(* ===== verification/_CoqProject ===== *)
-Q . S2P
Prelude.v
CLib.v
Doubles.v
Jsmn.v
JsonText.v
JsonTok.v
Sha256.v
Auth.v
JsonEscape.v
JsonBuilder.v
Config.v
Rtl.v
Vita.v
World.v
Session.v
Commands.v
RxCommands.v
Server.v
Quiet.v
Invariants.v
Safety.v
Kept.v
Steady.v
Requests.v
Tuning.v
Opening.v
Streams.v
Delivery.v
Control.v
Settings.v
Versions.v
Totality.v
Traces.v
Gate.v
Answers.v
Limits.v
Reports.v
Inquiry.v
RateLimit.v
Handshake.v
Reader.v
Dns.v
DnsQuery.v
Mdns.v
Main.v
