(* ===== verification/Prelude.v ===== *)
(** * sdr-slc-rtld: a verification development

    The program is a daemon for an RTL-SDR receiver.  Clients connect over TCP,
    exchange length-prefixed JSON messages with it (the control plane), and one
    of them at a time may own the receiver and have its samples streamed to it
    as VITA-49 packets over UDP (the data plane).  The daemon announces itself
    by mDNS.  Optionally a client must first prove knowledge of a shared key.

    ** The parts, and how they interact

    main (main.c) reads the command line, opens the receiver, and starts the
    sender, the server and the publication.  The accept thread (cp_server.c)
    gives each connection a slot of the session table and a thread of its own
    (cp_session.c), which receives a frame into a message buffer, tokenises it
    with jsmn, and dispatches to a handler (cp_commands.c).  A handler writes
    its reply with snprintf templates or with the JSON builder, and calls the
    receiver bridge (rtl_bridge.c) and the sender (vita_tx.c).  The USB thread
    of librtlsdr calls rtl_callback, which measures the level and hands the
    samples to every session that streams.  The responder thread
    (mdns_builtin.c) answers DNS queries; with Avahi built in, libavahi does.

    ** Conventions

    A C function is a Gallina function of the state it reads and writes;
    [option] is the boundary of the C language: [None] is undefined behaviour
    (an access outside an array, an undefined conversion or shift), and the
    errors the code handles are ordinary values.  Machine integers are [Z] with
    the wrap-around written where the source converts; doubles are the correctly
    rounded [spec_float] of the Standard Library; strings are lists of octets.
    What the operating system, librtlsdr and Avahi answer is an argument: a
    field of a record of results ([Env], [Sys], [os_results]) or a class of
    operations ([Platform], with the laws a theorem uses in [PlatformLaws],
    [PlatformTypes] and [TunerLaws]).  The
    fake librtlsdr of src/test/rtlsdr_stub.c is the instance witnesses run on.
    A definition carries the name of the C function it translates.

    ** The files

    Foundations
    - Prelude: record update, the option monad, list and bit lemmas, tactics.
    - CLib: C strings, snprintf, number text, strtol and strtod as used, IPv4
      text, doubles.
    - Doubles: how large sums and products of rounded doubles are.

    Text (src/json)
    - Jsmn: jsmn.h, the tokeniser, with its invariant; memory safety and
      totality (C24).
    - JsonText: the grammar of JSON texts and their reference tokenisation; the
      tokeniser computes it (C23).
    - JsonTok: the inline helpers of json_builder.h; lookup of a member finds the
      member, and reads stale tokens on a malformed message.
    - JsonEscape: what a string literal denotes.
    - JsonBuilder (Module Builder): json_builder.c; it refines an unbounded
      builder (C35), what it builds is tokenised back, its limits.

    Authentication (src/common/auth.c)
    - Sha256: the buffered SHA-256 equals the one-shot one, HMAC is RFC 2104
      (C25).
    - Auth: hex, key ring, key file, nonce, verification, keygen (C26).

    Receiver and sender
    - Config: the constants of config.h and the sampling mode.
    - Rtl: rtl_bridge.c over the class [Platform]; the level measurement (C31).
    - Vita: vita_tx.c; packets decode (C27, C28), time stamps and samples are
      exact (C29), and the stream of a session refines an abstract stream of
      sample pairs with consecutive packet counts (C5).

    Control plane (src/cp)
    - World: the struct Session, the globals of the control plane with those of
      the receiver and the sender, and the monad of handlers.
    - Session: framing (C30), stream identifiers, ownership, events, life cycle.
    - Commands: the handlers of the session, auth and device groups; error
      replies are complete JSON texts, escaping.
    - RxCommands: the handlers of the rx group and the dispatch table.
    - Server: one thread's loop, the accept loop, the USB callback; the step
      relation of the whole server ([step]) and its reachable states.

    Theorems about the server, by rule induction over its steps
    - Quiet: what handlers leave alone (the hint database [quiet]).
    - Invariants, Safety: the invariant of the server; exclusive use of the
      receiver (C1).
    - Kept: the interface ([Kept]) of an invariant that each handler keeps on its
      own; it holds in every reachable state.
    - Gate: a client that has not authenticated is inert (C2) and only a correct
      response to the current nonce unlocks it (C3).
    - Answers: one response to each request (C4).
    - Limits: tuning and rate stay within the published limits (C14).
    - RateLimit: failed authentications are bounded (C17).
    - Traces: executions that break a promise: the message buffer shared by the
      session threads (C38), a second hello (C39), parts of a request taken
      otherwise than written (C40).
    - Reader: rtl_bridge_start and rtl_bridge_stop access by access, with the read
      threads and the loop of the fake librtlsdr: the calls are atomic (C19), at
      most one reader lives, and when a stop returns (C20).

    Requests as clients write them, and what they bring about
    - Steady: an interface ([Steady]) for predicates on the state of the sender,
      which every command but start_rx, stop_rx and close_stream preserves.
    - Requests: [message] says that the message buffer and its tokens hold a JSON
      object; how a handler runs on it, with the equations of its reads, replies and
      events; the way of a request from the buffer to its handler ([served]).
    - Tuning: set_frequency and set_sample_rate, for every object that is sent
      (C9, C10).
    - Control, Settings: set_control and get_control (C11), for every receiver whose
      settings are of the size they report; that is an invariant
      ([reachable_settings]).
    - Reports, Inquiry: the JSON values that get_capabilities, get_status,
      get_clock_status and ping report, their texts, and the requests (C16); the
      invariant under which no text is cut ([reported]).
    - Versions, Handshake: the versions a client offers; hello (C12) and authenticate
      (C13), from the JSON object to the nonce, the unlocking and the end of a session
      that fails ten times.
    - Totality: no request runs into undefined behaviour, unless its params is an
      array (C15); the rules of total correctness ([safely], hint database
      [defined]).
    - Opening: open_stream (C7).
    - Streams: start_rx, stop_rx and close_stream (C8).
    - Delivery: which session has which slot of the sender, as an invariant
      ([seats_ok]); from a start_rx request to the datagrams, whatever else the
      server does meanwhile (C6).

    Publication (src/common/mdns*.c)
    - Dns: the packet builder, and the reading relation of RFC 1035; what is sent
      decodes to the records of the service (C22).
    - DnsQuery: the name reader is total (C33), the responder withstands any
      traffic (C32) and answers a query for its service (C21).
    - Mdns: the life cycle of a publication (C34) and its failures (C37) for the
      built-in responder, the Avahi backend as a trace of requests to the
      library, and the dispatcher between the two.

    The program (src/main.c)
    - Main: log.c, the command line with getopt_long, the instance name, the
      start-up order with every failure, shutdown.  The daemon that comes up is
      an initial state of Server, stays within its invariants, and gives
      everything back at the end (C18); whatever the command line, the
      configuration is typed (C36).

    ** Interleaving

    A message is handled in two steps, receiving it into the static message
    buffer and processing it, because the threads share that buffer.  A handler,
    a callback of the USB thread and a turn of the accept loop are atomic steps:
    in the source they run under the mutexes of the parts they touch, call by
    call, so interleavings inside of a handler are not explored.  In particular a
    handler that asks whether its session may configure the receiver and then does
    (set_frequency and the other settings) does both in one step, although in the
    source another session can claim the receiver in between.  Sequences of steps
    are arbitrary; the theorems hold for every one.

    For the calls that start and stop the read thread, Reader goes below that:
    every access of every thread is a step, and the one-step definitions the
    handlers use are shown to be what those accesses amount to.

    ** Fuel

    Loops that are not structural take fuel, computed from their input: the
    tokeniser one unit per octet of the text ([jsmn_loop_fuel] shows more makes
    no difference); the digits of a number one more than its binary digits; the
    lines of the key file one per octet; the labels of a name one per octet.
    The DNS name reader is bounded by the source itself (its guard of 64, kept as
    it is; C33 shows the reader returns).  No theorem is conditional on the
    fuel having been enough.

    ** Not modelled

    - What the kernel does with a datagram or a segment once a system call has
      taken it; sendto's result is ignored by the source too.
    - The text of log lines and of the usage message; the time stamps of the log.
    - [s_stream_count] is an unbounded integer (the source's int would need 2^31
      second hellos to overflow).
    - The loop of the read thread is rtlsdr_read_async, which is library code: in
      Server its callbacks are steps with arbitrary buffers; Reader has the loop of
      the fake librtlsdr, with pow() as a parameter.  rtl_bridge_force_stop, which
      takes no mutex, has its one-step definition only.
    - Inside libavahi and librtlsdr: third-party.
    - The test programs and the Python client under src/test and elsewhere. *)
From Stdlib Require Import ZArith Lia Ascii String.
From stdpp Require Export base list numbers strings relations.

#[global] Open Scope Z_scope.

(** ** Record update

    [r <| f := v |>] is [r] with the field [f] replaced.  A record type
    declares its eta-expansion once ([Eta]); the setter of a field is obtained
    from it by abstracting over the projection. *)
Class Eta (R : Type) := eta_of : R -> R.

Class Upd {R T : Type} (proj : R -> T) := upd : (T -> T) -> R -> R.

Ltac build_upd proj :=
  lazymatch type of proj with
  | ?R -> ?T =>
      let e := constr:(@eta_of R _) in
      let e := eval hnf in e in
      let p := eval pattern proj in e in
      lazymatch p with
      | ?body _ => exact (fun (f : T -> T) => body (fun r => f (proj r)))
      end
  end.

#[export] Hint Extern 1 (Upd ?proj) => build_upd proj : typeclass_instances.

Notation "r <| f := v |>" := (upd (proj := f) (fun _ => v) r)
  (at level 1, left associativity, format "r  <| f  :=  v |>").

(** ** Text

    C text is a list of octets, each a [Z] in [0..255].  [txt] is a string
    literal; [jq] is a JSON template, in which an apostrophe stands for the
    double quote of the C source. *)
Definition ch (c : ascii) : Z := Z.of_N (N_of_ascii c).

Fixpoint txt (s : string) : list Z :=
  match s with
  | EmptyString => []
  | String c s' => ch c :: txt s'
  end.

Definition jq (s : string) : list Z :=
  (fun c => if c =? 39 then 34 else c) <$> txt s.

Definition is_byte (b : Z) : Prop := 0 <= b < 256.

Definition bytes_ok (l : list Z) : Prop := Forall is_byte l.

(** ** Machine integers *)
Definition u8 (x : Z) : Z := x mod 2 ^ 8.
Definition u16 (x : Z) : Z := x mod 2 ^ 16.
Definition u32 (x : Z) : Z := x mod 2 ^ 32.
Definition u64 (x : Z) : Z := x mod 2 ^ 64.
Definition i16 (x : Z) : Z := (x + 2 ^ 15) mod 2 ^ 16 - 2 ^ 15.
Definition i32 (x : Z) : Z := (x + 2 ^ 31) mod 2 ^ 32 - 2 ^ 31.

(** Network byte order. *)
Definition be16 (x : Z) : list Z := [u8 (Z.shiftr x 8); u8 x].

Definition be32 (x : Z) : list Z :=
  [u8 (Z.shiftr x 24); u8 (Z.shiftr x 16); u8 (Z.shiftr x 8); u8 x].

Definition of_be (l : list Z) : Z := fold_left (fun a b => a * 256 + b) l 0.

(** ** Slices *)
Definition char_at (js : list Z) (i : nat) : Z := default 0 (js !! i).

Definition slice {A : Type} (i j : nat) (l : list A) : list A :=
  take (j - i) (drop i l).

(** ** Automation *)
Create HintDb slc.

Ltac zbool :=
  repeat match goal with
  | H : _ && _ = true |- _ => apply andb_prop in H as [? ?]
  | H : _ || _ = false |- _ => apply orb_false_iff in H as [? ?]
  | H : negb _ = true |- _ => apply negb_true_iff in H
  | H : negb _ = false |- _ => apply negb_false_iff in H
  | H : (_ =? _) = true |- _ => apply Z.eqb_eq in H
  | H : (_ =? _) = false |- _ => apply Z.eqb_neq in H
  | H : (_ <? _) = true |- _ => apply Z.ltb_lt in H
  | H : (_ <? _) = false |- _ => apply Z.ltb_ge in H
  | H : (_ <=? _) = true |- _ => apply Z.leb_le in H
  | H : (_ <=? _) = false |- _ => apply Z.leb_gt in H
  | H : Nat.eqb _ _ = true |- _ => apply Nat.eqb_eq in H
  | H : Nat.eqb _ _ = false |- _ => apply Nat.eqb_neq in H
  | H : Nat.ltb _ _ = true |- _ => apply Nat.ltb_lt in H
  | H : Nat.ltb _ _ = false |- _ => apply Nat.ltb_ge in H
  | H : Nat.leb _ _ = true |- _ => apply Nat.leb_le in H
  | H : Nat.leb _ _ = false |- _ => apply Nat.leb_gt in H
  | H : bool_decide _ = true |- _ => apply bool_decide_eq_true in H
  | H : bool_decide _ = false |- _ => apply bool_decide_eq_false in H
  end.

(** Split the innermost condition or match of the goal. *)
Ltac split_match :=
  match goal with
  | |- context [match ?x with _ => _ end] =>
      lazymatch x with
      | context [match _ with _ => _ end] => fail
      | _ => let E := fresh "E" in destruct x eqn:E
      end
  end.

(** ** Bytes and words *)
Lemma u8_byte (x : Z) : is_byte (u8 x).
Proof. unfold is_byte, u8. pose proof (Z.mod_pos_bound x (2 ^ 8)). lia. Qed.

Lemma u8_small (x : Z) : is_byte x -> u8 x = x.
Proof. intros H. unfold u8. apply Z.mod_small. exact H. Qed.

Lemma u32_range (x : Z) : 0 <= u32 x < 2 ^ 32.
Proof. apply Z.mod_pos_bound. lia. Qed.

Lemma u32_small (x : Z) : 0 <= x < 2 ^ 32 -> u32 x = x.
Proof. apply Z.mod_small. Qed.

Lemma u64_small (x : Z) : 0 <= x < 2 ^ 64 -> u64 x = x.
Proof. apply Z.mod_small. Qed.

Lemma be32_length (x : Z) : length (be32 x) = 4%nat.
Proof. reflexivity. Qed.

Lemma be32_bytes (x : Z) : bytes_ok (be32 x).
Proof. unfold bytes_ok, be32. repeat constructor; apply u8_byte. Qed.

Lemma of_be_be32 (x : Z) : of_be (be32 x) = u32 x.
Proof.
  unfold of_be, be32, u8, u32; cbn [fold_left].
  rewrite !Z.shiftr_div_pow2 by lia.
  change (2 ^ 24) with (2 ^ 8 * 2 ^ 8 * 2 ^ 8).
  change (2 ^ 16) with (2 ^ 8 * 2 ^ 8).
  rewrite <- !Z.div_div by lia.
  change (2 ^ 32) with (256 * 256 * 256 * 256). change (2 ^ 8) with 256.
  Z.to_euclidean_division_equations. lia.
Qed.

Lemma of_be_be16 (x : Z) : of_be (be16 x) = u16 x.
Proof.
  unfold of_be, be16, u8, u16; cbn [fold_left].
  rewrite !Z.shiftr_div_pow2 by lia.
  change (2 ^ 16) with (256 * 256). change (2 ^ 8) with 256.
  Z.to_euclidean_division_equations. lia.
Qed.

Lemma txt_bytes (s : string) : bytes_ok (txt s).
Proof.
  induction s as [|c s IH]; cbn; constructor; [|exact IH].
  unfold is_byte, ch. pose proof (N_ascii_bounded c). lia.
Qed.

#[export] Hint Resolve u8_byte txt_bytes be32_bytes : slc.

(** ** Lists *)
Lemma char_at_app_l (l k : list Z) (i : nat) :
  (i < length l)%nat -> char_at (l ++ k) i = char_at l i.
Proof. intros H. unfold char_at. by rewrite lookup_app_l. Qed.

Lemma char_at_app_r (l k : list Z) (i : nat) :
  char_at (l ++ k) (length l + i) = char_at k i.
Proof. unfold char_at. rewrite lookup_app_r by lia. do 2 f_equal. lia. Qed.

Lemma slice_app {A : Type} (l s k : list A) :
  slice (length l) (length l + length s) (l ++ s ++ k) = s.
Proof.
  unfold slice. rewrite drop_app_length.
  replace (length l + length s - length l)%nat with (length s) by lia.
  by rewrite take_app_length.
Qed.

Lemma list_lookup_alter_Some {A : Type} (f : A -> A) (l : list A) (k i : nat) (y : A) :
  alter f k l !! i = Some y ->
  (i = k /\ exists x, l !! i = Some x /\ y = f x) \/ (i <> k /\ l !! i = Some y).
Proof.
  rewrite list_lookup_alter. case_decide as Hd; [subst|by right].
  destruct (l !! i) as [x|]; cbn; [|done]. intros [= <-]. left. eauto.
Qed.

Lemma list_alter_commute {A : Type} (f g : A -> A) (l : list A) (i j : nat) :
  i <> j -> alter f i (alter g j l) = alter g j (alter f i l).
Proof.
  intros Hne. apply list_eq. intros k. rewrite !list_lookup_alter.
  repeat case_decide; subst; done.
Qed.

(** A decidable property of octets is settled by the 256 cases. *)
Lemma byte_forall (P : Z -> bool) :
  forallb P (Z.of_nat <$> seq 0 256) = true -> forall b, is_byte b -> P b = true.
Proof.
  intros H b Hb. rewrite forallb_forall in H. apply H, list_elem_of_In, list_elem_of_fmap.
  exists (Z.to_nat b). unfold is_byte in Hb. split; [lia|]. apply elem_of_seq. lia.
Qed.

(** ** Bit fields *)
Lemma lor_shiftl_add (a s n : Z) :
  0 <= n -> 0 <= s < 2 ^ n -> Z.lor (Z.shiftl a n) s = a * 2 ^ n + s.
Proof.
  intros Hn Hs. rewrite <- Z.shiftl_mul_pow2 by done.
  assert (Z.land (Z.shiftl a n) s = 0) as Hl.
  { apply Z.bits_inj'. intros k Hk. rewrite Z.land_spec, Z.bits_0.
    destruct (Z.ltb_spec k n).
    - by rewrite Z.shiftl_spec_low.
    - destruct (Z.eq_dec s 0) as [->|]; [by rewrite Z.bits_0, andb_false_r|].
      rewrite (Z.bits_above_log2 s k), andb_false_r; [done|lia|].
      apply Z.log2_lt_pow2; [lia|].
      apply (Z.lt_le_trans _ (2 ^ n)); [lia|]. apply Z.pow_le_mono_r; lia. }
  rewrite <- Z.lxor_lor by done. symmetry. by apply Z.add_nocarry_lxor.
Qed.

Lemma land_15 (x : Z) : Z.land x 15 = x mod 16.
Proof. change 15 with (Z.ones 4). rewrite Z.land_ones by lia. done. Qed.

(** The [k]-th 32-bit word of a packet. *)
Definition word (k : nat) (pkt : list Z) : Z := of_be (take 4 (drop (4 * k) pkt)).
