(* ===== verification/CLib.v ===== *)
(** * The C library the daemon uses

    NUL-terminated strings, the truncating print functions, number formatting
    and scanning, IPv4 text addresses, and IEEE double arithmetic.  A C string
    is the list of its octets before the NUL.  Doubles are the [spec_float] of
    the Standard Library at precision 53, exponent bound 1024, so every
    operation is the correctly rounded one and evaluates. *)
From Stdlib Require Import SpecFloat.
From S2P Require Import Prelude.
#[local] Open Scope Z_scope.

(** ** Strings *)

(** The C string stored in a buffer: up to the first NUL. *)
Fixpoint cstr (l : list Z) : list Z :=
  match l with
  | [] => []
  | c :: l' => if c =? 0 then [] else c :: cstr l'
  end.

(** What [snprintf] into a buffer of [cap] octets leaves there. *)
Definition snprintf (cap : nat) (s : list Z) : list Z := take (cap - 1) s.

(** [strncat(dst, src, cap - strlen(dst) - 1)] on a buffer of [cap] octets. *)
Definition strncat_cap (cap : nat) (dst src : list Z) : list Z :=
  dst ++ take (cap - length dst - 1) src.

Definition streq (a b : list Z) : bool := bool_decide (a = b).

(** [strrchr]: where the last [c] is. *)
Fixpoint strrchr (c : Z) (s : list Z) : option nat :=
  match s with
  | [] => None
  | x :: s' =>
      match strrchr c s' with
      | Some k => Some (S k)
      | None => if x =? c then Some O else None
      end
  end.

Definition isspace (c : Z) : bool := (c =? 32) || ((9 <=? c) && (c <=? 13)).

Definition isdigit (c : Z) : bool := (48 <=? c) && (c <=? 57).

Fixpoint skip_space (l : list Z) : list Z :=
  match l with
  | c :: l' => if isspace c then skip_space l' else l
  | [] => []
  end.

(** ** Integers in decimal *)
Fixpoint digits_rev (fuel : nat) (n : Z) : list Z :=
  match fuel with
  | O => []
  | S f => if n <? 10 then [48 + n] else (48 + n mod 10) :: digits_rev f (n / 10)
  end.

(** [%u], [%llu]: the fuel is one more than the number of binary digits. *)
Definition fmt_u (n : Z) : list Z := rev (digits_rev (S (Z.to_nat (Z.log2 n))) n).

(** [%d], [%lld]. *)
Definition fmt_d (n : Z) : list Z := if n <? 0 then 45 :: fmt_u (- n) else fmt_u n.

(** [%0<w>d] for a non-negative number. *)
Definition fmt_0 (w : nat) (n : Z) : list Z :=
  let s := fmt_u n in replicate (w - length s) 48 ++ s.

(** The digits at the head of [l]: their value and their number. *)
Fixpoint scan_digits (l : list Z) (acc : Z) (k : nat) : Z * nat * list Z :=
  match l with
  | c :: l' => if isdigit c then scan_digits l' (acc * 10 + (c - 48)) (S k) else (acc, k, l)
  | [] => (acc, k, [])
  end.

Definition scan_sign (l : list Z) : bool * list Z :=
  match l with
  | c :: l' => if c =? 45 then (true, l') else if c =? 43 then (false, l') else (false, l)
  | [] => (false, [])
  end.

(** [strtoull(s, NULL, 10)] with the ERANGE flag; a minus sign negates the
    converted value as an unsigned number. *)
Definition strtoull (s : list Z) : Z * bool :=
  let '(neg, l) := scan_sign (skip_space s) in
  let '(v, _, _) := scan_digits l 0 0 in
  if 2 ^ 64 <=? v then (2 ^ 64 - 1, true) else (if neg then u64 (- v) else v, false).

(** [strtoul]: unsigned long has 64 bits here. *)
Definition strtoul (s : list Z) : Z := fst (strtoull s).

(** [strtol(s, NULL, 10)]: saturates at the bounds of a 64-bit long. *)
Definition strtol (s : list Z) : Z :=
  let '(neg, l) := scan_sign (skip_space s) in
  let '(v, _, _) := scan_digits l 0 0 in
  if neg then Z.max (- v) (- 2 ^ 63) else Z.min v (2 ^ 63 - 1).

(** ** IPv4 text addresses; an [in_addr] is its four octets *)
Definition inet_ntop (a : list Z) : list Z :=
  match a with
  | [x; y; z; w] => fmt_u x ++ [46] ++ fmt_u y ++ [46] ++ fmt_u z ++ [46] ++ fmt_u w
  | _ => []
  end.

(** [inet_pton(AF_INET, ...)]: four decimal octets, no leading zero. *)
Fixpoint pton_scan (l : list Z) (done : list Z) (cur : Z) (saw : bool) : option (list Z) :=
  match l with
  | [] => if saw && (length done =? 3)%nat then Some (done ++ [cur]) else None
  | c :: l' =>
      if isdigit c then
        let v := cur * 10 + (c - 48) in
        if (saw && (cur =? 0)) || (255 <? v) then None
        else pton_scan l' done v true
      else if c =? 46 then
        if negb saw || (length done =? 3)%nat then None
        else pton_scan l' (done ++ [cur]) 0 false
      else None
  end.

Definition inet_pton (s : list Z) : option (list Z) := pton_scan s [] 0 false.

(** ** Doubles and floats *)
Abbreviation double := spec_float (only parsing).

Definition d_add : double -> double -> double := SFadd 53 1024.
Definition d_sub : double -> double -> double := SFsub 53 1024.
Definition d_mul : double -> double -> double := SFmul 53 1024.
Definition d_div : double -> double -> double := SFdiv 53 1024.
Definition d_sqrt : double -> double := SFsqrt 53 1024.
Definition d_abs : double -> double := SFabs.
Definition d_lt : double -> double -> bool := SFltb.
Definition d_le : double -> double -> bool := SFleb.
Definition d_eq : double -> double -> bool := SFeqb.
Definition d_of_Z (n : Z) : double := binary_normalize 53 1024 n 0 false.

(** The number [m * 10^e], correctly rounded, as a literal of the source or a
    converted text denotes it. *)
Definition dec_round (prec emax : Z) (m e : Z) : spec_float :=
  match m with
  | Z0 => S754_zero false
  | Zneg p =>
      if 0 <=? e then binary_normalize prec emax (m * 10 ^ e) 0 true
      else SFdiv prec emax (S754_finite true p 0) (S754_finite false (Z.to_pos (10 ^ (- e))) 0)
  | Zpos p =>
      if 0 <=? e then binary_normalize prec emax (m * 10 ^ e) 0 false
      else SFdiv prec emax (S754_finite false p 0) (S754_finite false (Z.to_pos (10 ^ (- e))) 0)
  end.

Definition d_dec (m e : Z) : double := dec_round 53 1024 m e.

(** The integer nearest to [m * 2^e], [m >= 0]: ties to even. *)
Definition nearest_even (m e : Z) : Z :=
  if 0 <=? e then m * 2 ^ e
  else
    let q := m / 2 ^ (- e) in
    let r := 2 * (m mod 2 ^ (- e)) in
    if (r <? 2 ^ (- e)) || ((r =? 2 ^ (- e)) && Z.even q) then q else q + 1.

(** [%.<n>f]. *)
Definition fmt_f (n : nat) (d : double) : list Z :=
  let body s q :=
    let p := 10 ^ Z.of_nat n in
    (if s : bool then [45] else []) ++ fmt_u (q / p) ++
    (if n is O then [] else 46 :: fmt_0 n (q mod p)) in
  match d with
  | S754_zero s => body s 0
  | S754_infinity s => if s then txt "-inf" else txt "inf"
  | S754_nan => txt "nan"
  | S754_finite s m e => body s (nearest_even (Z.pos m * 10 ^ Z.of_nat n) e)
  end.

(** A conversion to an integer type: towards zero.  [None] where the
    conversion is undefined (infinities, NaN). *)
Definition d_trunc (d : spec_float) : option Z :=
  match d with
  | S754_zero _ => Some 0
  | S754_finite s m e =>
      let a := if 0 <=? e then Z.pos m * 2 ^ e else Z.pos m / 2 ^ (- e) in
      Some (if s then - a else a)
  | _ => None
  end.

(** [round()]: to the nearest integer, halves away from zero. *)
Definition d_round (d : double) : option Z :=
  match d with
  | S754_zero _ => Some 0
  | S754_finite s m e =>
      let a := if 0 <=? e then Z.pos m * 2 ^ e
               else (2 * Z.pos m + 2 ^ (- e)) / (2 * 2 ^ (- e)) in
      Some (if s then - a else a)
  | _ => None
  end.

(** [(int)round(x)]: undefined when the result is no int. *)
Definition d_round_int (d : double) : option Z :=
  n ← d_round d; if (- 2 ^ 31 <=? n) && (n <? 2 ^ 31) then Some n else None.

(** *** [strtod] *)
Definition hex_digit (c : Z) : option Z :=
  if isdigit c then Some (c - 48)
  else if (97 <=? c) && (c <=? 102) then Some (c - 87)
  else if (65 <=? c) && (c <=? 70) then Some (c - 55)
  else None.

(** Digits in base [b] with an optional point: value, digits seen, digits
    behind the point, rest. *)
Fixpoint scan_mant (dig : Z -> option Z) (b : Z) (l : list Z) (m : Z) (seen frac : Z)
    (point : bool) : Z * Z * Z * list Z :=
  match l with
  | c :: l' =>
      match dig c with
      | Some v => scan_mant dig b l' (m * b + v) (seen + 1) (if point then frac + 1 else frac) point
      | None =>
          if (c =? 46) && negb point then scan_mant dig b l' m seen frac true
          else (m, seen, frac, l)
      end
  | [] => (m, seen, frac, [])
  end.

Definition dec_digit (c : Z) : option Z := if isdigit c then Some (c - 48) else None.

(** The exponent behind the letter [a] or [b], 0 if there is none. *)
Definition scan_exp (a b : Z) (l : list Z) : Z :=
  match l with
  | c :: l' =>
      if (c =? a) || (c =? b) then
        let '(neg, l1) := scan_sign l' in
        let '(v, _, _) := scan_digits l1 0 0 in
        if neg then - v else v
      else 0
  | [] => 0
  end.

Definition lower (c : Z) : Z := if (65 <=? c) && (c <=? 90) then c + 32 else c.

Definition has_prefix (p l : list Z) : bool := bool_decide (lower <$> take (length p) l = p).

(** [strtod(s, NULL)] in the C locale: 0.0 when nothing converts.  Exponents
    far outside the range of a double are clamped before the power is taken;
    the texts converted here have at most 63 characters. *)
Definition clamp (lo hi x : Z) : Z := Z.max lo (Z.min hi x).

Definition strtod (s : list Z) : double :=
  let '(neg, l) := scan_sign (skip_space s) in
  let sg (m : Z) := if neg then - m else m in
  if has_prefix (txt "inf") l then S754_infinity neg
  else if has_prefix (txt "nan") l then S754_nan
  else
    let hex := if has_prefix (txt "0x") l then
                 let '(m, seen, frac, rest) := scan_mant hex_digit 16 (drop 2 l) 0 0 0 false in
                 if 0 <? seen then Some (m, frac, rest) else None
               else None in
    match hex with
    | Some (m, frac, rest) =>
        if m =? 0 then S754_zero neg
        else binary_normalize 53 1024 (sg m)
               (clamp (-3000) 3000 (scan_exp 112 80 rest) - 4 * frac) neg
    | None =>
        let '(m, seen, frac, rest) := scan_mant dec_digit 10 l 0 0 0 false in
        if seen =? 0 then S754_zero false
        else if m =? 0 then S754_zero neg
        else d_dec (sg m) (clamp (-1000) 1000 (scan_exp 101 69 rest) - frac)
    end.

(** ** What the library functions compute, on the inputs the daemon meets *)
Example strtod_values :
  fmt_f 2 (strtod (txt "127.4")) = txt "127.40" /\
  strtod (txt " -4.5e1x") = d_of_Z (-45) /\ strtod (txt "0x1.8p1") = d_of_Z 3 /\
  strtod (txt "abc") = S754_zero false /\ strtod (txt "1e999") = S754_infinity false /\
  d_dec 1274 (-1) = S754_finite false 0x1FD9999999999A (-46).
Proof. vm_compute. repeat split; reflexivity. Qed.

Example inet_values :
  inet_pton (txt "192.168.0.10") = Some [192; 168; 0; 10] /\
  inet_pton (txt "1.2.3") = None /\ inet_pton (txt "1.2.3.04") = None /\
  inet_pton (txt "1.2.3.256") = None /\ inet_ntop [10; 0; 0; 1] = txt "10.0.0.1".
Proof. vm_compute. repeat split; reflexivity. Qed.

Example strtoull_values :
  strtoull (txt "7100000") = (7100000, false) /\
  strtoull (txt "-1") = (2 ^ 64 - 1, false) /\
  strtoull (txt "18446744073709551616") = (2 ^ 64 - 1, true) /\
  strtol (txt "-12abc") = -12.
Proof. vm_compute. repeat split; reflexivity. Qed.

(** ** Arrays *)

(** A store of octets into an array, undefined outside it. *)
Definition store (i : nat) (s : list Z) (b : list Z) : option (list Z) :=
  if (i + length s <=? length b)%nat then Some (take i b ++ s ++ drop (i + length s) b) else None.

Lemma store_ok (i : nat) (s b : list Z) :
  (i + length s <= length b)%nat ->
  store i s b = Some (take i b ++ s ++ drop (i + length s) b).
Proof. intros H. unfold store. by rewrite (proj2 (Nat.leb_le _ _) H). Qed.

Lemma store_length (i : nat) (s b b' : list Z) : store i s b = Some b' -> length b' = length b.
Proof.
  unfold store. destruct (Nat.leb_spec (i + length s) (length b)); [|done]. intros [= <-].
  rewrite !length_app, length_take, length_drop. lia.
Qed.

(** Text appended to the buffer, and the NUL behind it. *)
Lemma store_terminated (i : nat) (s b : list Z) :
  (i + length s < length b)%nat ->
  exists b1 b2, store i s b = Some b1 /\ store (i + length s) [0] b1 = Some b2 /\
    take (i + length s) b2 = take i b ++ s /\ b2 !! (i + length s)%nat = Some 0 /\
    length b2 = length b.
Proof.
  intros H. set (b1 := take i b ++ s ++ drop (i + length s) b). exists b1.
  rewrite store_ok by lia. fold b1.
  assert (length (take i b ++ s) = (i + length s)%nat) as Hl by (rewrite length_app, length_take; lia).
  assert (length b1 = length b) as Hb1 by (by apply (store_length i s), store_ok; lia).
  assert (take (i + length s) b1 = take i b ++ s) as Ht
    by (unfold b1; by rewrite app_assoc, <- Hl, take_app_length).
  exists (take i b ++ s ++ [0] ++ drop (i + length s + 1) b1).
  split; [done|]. rewrite store_ok by (cbn; lia). rewrite Ht. cbn [length].
  split; [by rewrite <- !app_assoc|]. rewrite app_assoc. split; [by rewrite <- Hl, take_app_length|].
  split; [by rewrite <- Hl, lookup_app_r, Nat.sub_diag by lia|].
  rewrite length_app, Hl. cbn [length app]. rewrite length_drop, Hb1. lia.
Qed.

(** ** Number texts *)
Lemma digits_rev_length (fuel k : nat) (n : Z) :
  0 <= n < 10 ^ Z.of_nat (S k) -> (length (digits_rev fuel n) <= S k)%nat.
Proof.
  revert k n. induction fuel as [|f IH]; intros k n Hn; cbn [digits_rev]; [cbn; lia|].
  destruct (Z.ltb_spec n 10); [cbn; lia|]. cbn [length].
  destruct k as [|k]; [change (10 ^ Z.of_nat 1) with 10 in Hn; lia|].
  apply le_n_S, IH. split; [apply Z.div_pos; lia|]. apply Z.div_lt_upper_bound; [lia|].
  rewrite Nat2Z.inj_succ, Z.pow_succ_r in Hn by lia. lia.
Qed.

Lemma fmt_u_length (k : nat) (n : Z) :
  0 <= n < 10 ^ Z.of_nat (S k) -> (length (fmt_u n) <= S k)%nat.
Proof. unfold fmt_u. rewrite length_rev. apply digits_rev_length. Qed.

Lemma fmt_d_length (k : nat) (n : Z) :
  - 10 ^ Z.of_nat (S k) < n < 10 ^ Z.of_nat (S k) -> (length (fmt_d n) <= S (S k))%nat.
Proof.
  intros H. unfold fmt_d. destruct (Z.ltb_spec n 0); cbn [length];
    [pose proof (fmt_u_length k (- n))|pose proof (fmt_u_length k n)]; lia.
Qed.

(** The characters of a number in decimal. *)
Definition numchar (c : Z) : bool := isdigit c || (c =? 45) || (c =? 46).

Definition numeral (s : list Z) : Prop := forallb numchar s = true /\ s <> [].

Definition is_finite (d : double) : bool :=
  match d with S754_infinity _ | S754_nan => false | _ => true end.

Lemma digits_rev_numeral (fuel : nat) (n : Z) : 0 <= n -> numeral (digits_rev (S fuel) n).
Proof.
  revert n. induction fuel as [|f IH]; intros n Hn; cbn [digits_rev].
  - destruct (Z.ltb_spec n 10); (split; [|done]); cbn [forallb digits_rev]; unfold numchar, isdigit;
      pose proof (Z.mod_pos_bound n 10); lia.
  - destruct (Z.ltb_spec n 10); (split; [|done]); cbn [forallb].
    + unfold numchar, isdigit. lia.
    + apply andb_true_intro. split.
      * unfold numchar, isdigit. pose proof (Z.mod_pos_bound n 10). lia.
      * apply IH. apply Z.div_pos; lia.
Qed.

Lemma fmt_u_numeral (n : Z) : 0 <= n -> numeral (fmt_u n).
Proof.
  intros Hn. destruct (digits_rev_numeral (Z.to_nat (Z.log2 n)) n Hn) as [Hd Hne].
  unfold fmt_u, numeral. split.
  - rewrite forallb_forall in *. intros c Hc. apply Hd. by apply in_rev.
  - intros E. apply (f_equal length) in E. rewrite length_rev in E.
    destruct (digits_rev _ n); [done|cbn in E; lia].
Qed.

Lemma numeral_app (s k : list Z) : numeral s -> forallb numchar k = true -> numeral (s ++ k).
Proof. intros [Hs Hne] Hk. split; [by rewrite forallb_app, Hs|by destruct s]. Qed.

Lemma numeral_cons (c : Z) (s : list Z) : numchar c = true -> numeral s -> numeral (c :: s).
Proof. intros Hc [Hs _]. split; [by cbn; rewrite Hc|done]. Qed.

Lemma fmt_d_numeral (n : Z) : numeral (fmt_d n).
Proof.
  unfold fmt_d. destruct (Z.ltb_spec n 0); [apply numeral_cons; [done|]|]; apply fmt_u_numeral; lia.
Qed.

Lemma nearest_even_pos (m e : Z) : 0 <= m -> 0 <= nearest_even m e.
Proof.
  intros Hm. unfold nearest_even. destruct (0 <=? e); [apply Z.mul_nonneg_nonneg; lia|].
  assert (0 <= m / 2 ^ (- e)); [|destruct (_ || _); lia].
  destruct (Z.le_gt_cases 0 (- e)); [apply Z.div_pos; lia|by rewrite Z.pow_neg_r, Z.div_0_r by lia].
Qed.

Lemma fmt_0_numchars (w : nat) (n : Z) : 0 <= n -> forallb numchar (fmt_0 w n) = true.
Proof.
  intros Hn. unfold fmt_0. rewrite forallb_app, (proj1 (fmt_u_numeral n Hn)), andb_true_r.
  by induction (w - length (fmt_u n))%nat.
Qed.

Lemma fmt_f_numeral (n : nat) (d : double) : is_finite d = true -> numeral (fmt_f n d).
Proof.
  assert (forall (s : bool) q, 0 <= q -> numeral ((if s then [45] else []) ++ fmt_u (q / 10 ^ Z.of_nat n) ++
    (if n is O then [] else 46 :: fmt_0 n (q mod 10 ^ Z.of_nat n)))) as H.
  { intros s q Hq. assert (0 < 10 ^ Z.of_nat n) by (apply Z.pow_pos_nonneg; lia).
    assert (forall k, numeral k -> numeral ((if s then [45] else []) ++ k)) as Hs
      by (intros k Hk; destruct s; [by apply numeral_cons|done]).
    apply Hs, numeral_app; [apply fmt_u_numeral, Z.div_pos; lia|].
    destruct n; [done|]. cbn [forallb]. rewrite fmt_0_numchars; [done|]. apply Z.mod_pos_bound. lia. }
  destruct d; try done; intros _; apply H; [lia|]. apply nearest_even_pos.
  apply Z.mul_nonneg_nonneg; lia.
Qed.

(** ** Reading a number back *)
Definition digit_val (acc c : Z) : Z := acc * 10 + (c - 48).

Lemma scan_digits_app (a b : list Z) (acc : Z) (k : nat) :
  forallb isdigit a = true -> scan_digits (a ++ b) acc k = scan_digits b (fold_left digit_val a acc) (k + length a).
Proof.
  revert acc k. induction a as [|c a IH]; intros acc k H; cbn [app scan_digits fold_left length forallb] in *;
    [by rewrite Nat.add_0_r|]. apply andb_prop in H as [-> H]. rewrite IH by done. f_equal. lia.
Qed.

Lemma isdigit_spec (c : Z) : isdigit c = true <-> 48 <= c <= 57.
Proof. unfold isdigit. lia. Qed.

Lemma digits_rev_digits (fuel : nat) (n : Z) : 0 <= n -> forallb isdigit (digits_rev fuel n) = true.
Proof.
  revert n. induction fuel as [|f IH]; intros n Hn; cbn [digits_rev]; [done|].
  destruct (Z.ltb_spec n 10); cbn [forallb]; rewrite andb_true_iff, isdigit_spec; [split; [lia|done]|].
  pose proof (Z.mod_pos_bound n 10). split; [lia|]. apply IH. apply Z.div_pos; lia.
Qed.

Lemma digits_rev_value (fuel : nat) (n : Z) :
  0 <= n < 10 ^ Z.of_nat fuel -> fold_left digit_val (rev (digits_rev fuel n)) 0 = n.
Proof.
  revert n. induction fuel as [|f IH]; intros n Hn; cbn [digits_rev]; [cbn in *; lia|].
  destruct (Z.ltb_spec n 10); [cbn; unfold digit_val; lia|]. cbn [rev]. rewrite fold_left_app, IH.
  - cbn. unfold digit_val. pose proof (Z.div_mod n 10). lia.
  - split; [apply Z.div_pos; lia|]. apply Z.div_lt_upper_bound; [lia|].
    rewrite Nat2Z.inj_succ, Z.pow_succ_r in Hn by lia. lia.
Qed.

Lemma fmt_u_digits (n : Z) : 0 <= n -> forallb isdigit (fmt_u n) = true.
Proof.
  intros Hn. unfold fmt_u. rewrite forallb_forall. intros c Hc%in_rev. revert c Hc. rewrite <- forallb_forall.
  by apply digits_rev_digits.
Qed.

Lemma fmt_u_value (n : Z) : 0 <= n -> fold_left digit_val (fmt_u n) 0 = n.
Proof.
  intros Hn. apply digits_rev_value. split; [done|].
  destruct (Z.eq_dec n 0) as [->|]; [apply Z.pow_pos_nonneg; lia|].
  rewrite Nat2Z.inj_succ, Z2Nat.id by apply Z.log2_nonneg. pose proof (Z.log2_spec n ltac:(lia)).
  eapply Z.lt_le_trans; [apply H|]. apply Z.pow_le_mono_l. lia.
Qed.

(** The text of a number starts with a digit. *)
Lemma fmt_u_head (n : Z) : 0 <= n -> exists c l, fmt_u n = c :: l /\ isdigit c = true /\ forallb isdigit l = true.
Proof.
  intros Hn. pose proof (fmt_u_digits n Hn) as Hd. destruct (fmt_u_numeral n Hn) as [_ Hne].
  destruct (fmt_u n) as [|c l]; [done|]. cbn in Hd. apply andb_prop in Hd as [? ?]. eauto.
Qed.

Lemma cstr_digits (l : list Z) : forallb isdigit l = true -> cstr l = l.
Proof.
  induction l as [|c l IH]; cbn; [done|]. intros [Hc%isdigit_spec Hl]%andb_prop.
  rewrite IH by done. destruct (Z.eqb_spec c 0); [lia|done].
Qed.

Lemma skip_space_digit (c : Z) (l : list Z) : isdigit c = true -> skip_space (c :: l) = c :: l.
Proof. intros H%isdigit_spec. cbn. unfold isspace. by replace ((c =? 32) || _) with false by lia. Qed.

Lemma strtoull_fmt_u (n : Z) : 0 <= n -> strtoull (fmt_u n) = if 2 ^ 64 <=? n then (2 ^ 64 - 1, true) else (n, false).
Proof.
  intros Hn. destruct (fmt_u_head n Hn) as (c & l & E & Hc & Hl). unfold strtoull. rewrite E, skip_space_digit by done.
  unfold scan_sign. pose proof (proj1 (isdigit_spec c) Hc). destruct (Z.eqb_spec c 45); [lia|].
  destruct (Z.eqb_spec c 43); [lia|]. rewrite <- E, <- (app_nil_r (fmt_u n)), scan_digits_app by by apply fmt_u_digits.
  cbn [scan_digits]. by rewrite fmt_u_value.
Qed.

Lemma strtol_fmt_d (n : Z) : - 2 ^ 63 <= n < 2 ^ 63 -> strtol (fmt_d n) = n.
Proof.
  intros Hn. unfold fmt_d, strtol. destruct (Z.ltb_spec n 0).
  - cbn [skip_space]. change (isspace 45) with false. cbn [scan_sign]. change (45 =? 45) with true. cbv iota beta.
    rewrite <- (app_nil_r (fmt_u _)), scan_digits_app by (apply fmt_u_digits; lia). cbn [scan_digits].
    rewrite fmt_u_value by lia. lia.
  - destruct (fmt_u_head n ltac:(lia)) as (c & l & E & Hc & Hl). rewrite E, skip_space_digit by done.
    unfold scan_sign. pose proof (proj1 (isdigit_spec c) Hc). destruct (Z.eqb_spec c 45); [lia|].
    destruct (Z.eqb_spec c 43); [lia|]. rewrite <- E, <- (app_nil_r (fmt_u n)), scan_digits_app by (apply fmt_u_digits; lia).
    cbn [scan_digits]. rewrite fmt_u_value by lia. lia.
Qed.

Lemma cstr_length (x : list Z) : (length (cstr x) <= length x)%nat.
Proof. induction x as [|c x IH]; cbn; [lia|]. case_match; cbn; lia. Qed.

Lemma scan_digits_nonneg (x : list Z) (acc : Z) (n : nat) : 0 <= acc -> 0 <= (scan_digits x acc n).1.1.
Proof.
  revert acc n. induction x as [|c x IH]; intros acc n Ha; cbn [scan_digits]; [done|].
  destruct (isdigit c) eqn:E; [|done]. apply isdigit_spec in E. apply IH. lia.
Qed.

Lemma strtoul_nonneg (x : list Z) : 0 <= strtoul x.
Proof.
  unfold strtoul, strtoull. destruct (scan_sign _) as [neg y]. pose proof (scan_digits_nonneg y 0 0%nat ltac:(lia)) as H.
  destruct (scan_digits y 0 0) as [[v k] z]. cbn in H. case_match; cbn; [lia|].
  destruct neg; cbn; [apply Z.mod_pos_bound; lia|done].
Qed.
