(* ===== verification/Doubles.v ===== *)
(** * Doubles: how large they are

    The exponent of a double bounds it: [mag] is the number of binary digits of its
    integer part.  Rounding keeps [mag] or raises it by one, so that a product of
    moderate numbers is finite and a difference of a large and a small one is large.
    With it, whatever text a client sends as a gain, the number that passes the
    comparison with the steps of the tuner converts to an integer. *)
From Stdlib Require Import SpecFloat.
From S2P Require Import Prelude CLib.
#[local] Open Scope Z_scope.

(** ** Binary digits *)
Lemma dg_log2 (m : Z) : 0 < m -> Zdigits2 m = Z.log2 m + 1.
Proof.
  destruct m as [|p|p]; try lia. intros _. cbn [Zdigits2].
  induction p as [p IH|p IH|]; cbn [digits2_pos]; [..|done]; rewrite Pos2Z.inj_succ, IH;
    destruct p; cbn; lia.
Qed.

Lemma dg_nonneg (m : Z) : 0 <= Zdigits2 m.
Proof. by destruct m. Qed.

Lemma dg_pos (m : Z) : 0 < m -> 0 < Zdigits2 m.
Proof. by destruct m. Qed.

Lemma dg_bounds (m : Z) : 0 < m -> 2 ^ (Zdigits2 m - 1) <= m < 2 ^ Zdigits2 m.
Proof.
  intros H. rewrite dg_log2 by done. replace (Z.log2 m + 1 - 1) with (Z.log2 m) by lia.
  pose proof (Z.log2_spec m H). lia.
Qed.

Lemma dg_le (m k : Z) : 0 <= m < 2 ^ k -> 0 <= k -> Zdigits2 m <= k.
Proof.
  intros [H0 H] Hk. destruct (decide (m = 0)) as [->|]; [done|]. rewrite dg_log2 by lia.
  apply Z.log2_lt_pow2 in H; lia.
Qed.

Lemma dg_ge (m k : Z) : 2 ^ (k - 1) <= m -> 1 <= k -> k <= Zdigits2 m.
Proof.
  intros H Hk. assert (0 < 2 ^ (k - 1)) by (apply Z.pow_pos_nonneg; lia).
  rewrite dg_log2 by lia. apply Z.log2_le_pow2 in H; lia.
Qed.

Lemma dg_div (m k : Z) : 0 <= m -> 0 <= k -> Zdigits2 (m / 2 ^ k) = Z.max 0 (Zdigits2 m - k).
Proof.
  intros Hm Hk. rewrite <- Z.shiftr_div_pow2 by done.
  destruct (decide (m = 0)) as [->|]; [rewrite Z.shiftr_0_l; cbn; lia|].
  pose proof (Z.log2_shiftr m k ltac:(lia)) as Hl. pose proof (Z.shiftr_nonneg m k) as Hs.
  rewrite (dg_log2 m) by lia. destruct (decide (Z.shiftr m k = 0)) as [E|E].
  - rewrite E. cbn. apply Z.shiftr_eq_0_iff in E. lia.
  - rewrite dg_log2 by lia. rewrite Hl. enough (k <= Z.log2 m) by lia.
    destruct (Z.le_gt_cases k (Z.log2 m)); [done|]. destruct E. apply Z.shiftr_eq_0; lia.
Qed.

Lemma dg_mul_pow2 (m k : Z) : 0 < m -> 0 <= k -> Zdigits2 (m * 2 ^ k) = Zdigits2 m + k.
Proof.
  intros Hm Hk. assert (0 < 2 ^ k) by (apply Z.pow_pos_nonneg; lia).
  rewrite !dg_log2, Z.log2_mul_pow2 by nia. lia.
Qed.

Lemma dg_mul (m n : Z) : 0 < m -> 0 < n -> Zdigits2 (m * n) <= Zdigits2 m + Zdigits2 n.
Proof.
  intros Hm Hn. pose proof (dg_bounds m Hm). pose proof (dg_bounds n Hn). pose proof (dg_nonneg m). pose proof (dg_nonneg n).
  apply dg_le; [|lia]. rewrite Z.pow_add_r by lia. nia.
Qed.

Lemma dg_succ (m : Z) : 0 <= m -> Zdigits2 m <= Zdigits2 (m + 1) <= Zdigits2 m + 1.
Proof.
  intros Hm. destruct (decide (m = 0)) as [->|]; [done|]. rewrite !dg_log2 by lia.
  replace (m + 1) with (Z.succ m) by lia. pose proof (Z.log2_le_mono m (Z.succ m)).
  pose proof (Z.log2_succ_le m). lia.
Qed.

(** ** Rounding *)
Lemma shr_1_half (x : shr_record) : 0 <= shr_m x -> shr_m (shr_1 x) = shr_m x / 2.
Proof.
  destruct x as [[|[p|p|]|p] r s]; cbn; intros H; try done.
  - apply (Z.div_unique _ _ _ 1); lia.
  - apply (Z.div_unique _ _ _ 0); lia.
Qed.

Lemma iter_shr (p : positive) (x : shr_record) :
  0 <= shr_m x -> shr_m (SpecFloat.iter_pos shr_1 p x) = shr_m x / 2 ^ Z.pos p.
Proof.
  assert (forall a p, 0 <= a -> 0 <= a / 2 ^ Z.pos p) as Hp.
  { intros a q Ha. apply Z.div_pos; [done|]. apply Z.pow_pos_nonneg; lia. }
  revert x. induction p as [p IH|p IH|]; intros x Hx; cbn [SpecFloat.iter_pos]; [..|by apply shr_1_half].
  - assert (shr_m (shr_1 x) = shr_m x / 2 ^ 1) as E by (by apply shr_1_half).
    assert (0 <= shr_m (shr_1 x)) as H1 by (rewrite E; by apply Hp).
    rewrite (IH _ ltac:(rewrite (IH _ H1); by apply Hp)), (IH _ H1), E, !Z.div_div, <- !Z.pow_add_r
      by (try apply Z.pow_nonzero; try apply Z.pow_pos_nonneg; lia).
    f_equal. f_equal. lia.
  - rewrite (IH _ ltac:(rewrite (IH _ Hx); by apply Hp)), (IH _ Hx), Z.div_div, <- Z.pow_add_r
      by (try apply Z.pow_nonzero; try apply Z.pow_pos_nonneg; lia).
    f_equal. f_equal. lia.
Qed.

Definition fexp53 (x : Z) : Z := Z.max (x - 53) (-1074).

Lemma shr_fexp_spec (m e : Z) (l : location) :
  0 <= m ->
  let k := Z.max 0 (fexp53 (Zdigits2 m + e) - e) in
  exists x, shr_fexp 53 1024 m e l = (x, e + k) /\ shr_m x = m / 2 ^ k.
Proof.
  intros Hm k. unfold shr_fexp. change (fexp 53 1024 (Zdigits2 m + e)) with (fexp53 (Zdigits2 m + e)).
  assert (shr_m (shr_record_of_loc m l) = m) as El by (by destruct l as [|[]]).
  unfold shr. subst k. destruct (fexp53 (Zdigits2 m + e) - e) as [|p|p]; cbn [Z.max Z.compare].
  - eexists. split; [by rewrite Z.add_0_r|]. rewrite El. cbn. by rewrite Z.div_1_r.
  - eexists. split; [done|]. rewrite iter_shr by (rewrite El; lia). by rewrite El.
  - eexists. split; [by rewrite Z.add_0_r|]. rewrite El. cbn. by rewrite Z.div_1_r.
Qed.

Lemma round_even_step (m : Z) (l : location) : round_nearest_even m l = m \/ round_nearest_even m l = m + 1.
Proof. destruct l as [|[]]; cbn; auto. case_match; auto. Qed.

(** A rounded number: at most 53 digits; of the magnitude of what was rounded, or
    one more; infinite only if that was large, zero only if that was tiny. *)
Definition rounded (m0 e0 : Z) (x : double) : Prop :=
  let b := Zdigits2 (Z.abs m0) + e0 in
  match x with
  | S754_zero _ => m0 = 0 \/ b < -1000
  | S754_infinity _ => 900 < b
  | S754_nan => False
  | S754_finite _ m e =>
      Zdigits2 (Z.pos m) <= 53 /\ Zdigits2 (Z.pos m) + e <= Z.max b (-1000) + 1 /\
      (-1000 <= b -> b <= Zdigits2 (Z.pos m) + e)
  end.

Lemma round_aux_rounded (s : bool) (m e : Z) (l : location) :
  0 <= m -> rounded m e (binary_round_aux 53 1024 s m e l).
Proof.
  intros Hm. unfold binary_round_aux. pose proof (dg_nonneg m) as Hd.
  destruct (shr_fexp_spec m e l Hm) as (x & -> & Ex). cbv beta iota.
  unfold rounded. rewrite (Z.abs_eq m) by lia. assert (m = 0 \/ 0 < Zdigits2 m) as Hz.
  { destruct (decide (m = 0)); [by left|right]. apply dg_pos. lia. }
  set (k := Z.max 0 (fexp53 (Zdigits2 m + e) - e)) in *.
  assert (0 <= m / 2 ^ k) as Hk by (apply Z.div_pos; [lia|apply Z.pow_pos_nonneg; lia]).
  pose proof (dg_div m k Hm ltac:(lia)) as Hd1. pose proof (dg_succ _ Hk) as Hs.
  destruct (round_even_step (shr_m x) (loc_of_shr_record x)) as [E|E]; rewrite Ex in E; rewrite Ex, E.
  all: match goal with |- context [shr_fexp 53 1024 ?n ?ee ?ll] =>
         let y := fresh "y" in let Ey := fresh "Ey" in let E2 := fresh "E2" in
         destruct (shr_fexp_spec n ee ll ltac:(lia)) as (y & E2 & Ey); rewrite E2;
         set (k2 := Z.max 0 (fexp53 (Zdigits2 n + ee) - ee)) in *;
         pose proof (dg_div n k2 ltac:(lia) ltac:(lia)) as Hd2 end.
  all: cbv beta iota; unfold fexp53 in *; rewrite <- Ey in Hd2.
  all: assert (0 <= shr_m y) by (rewrite Ey; apply Z.div_pos; [lia|apply Z.pow_pos_nonneg; lia]).
  all: destruct (shr_m y) as [|q|q] eqn:Eq; [change (Zdigits2 0) with 0 in Hd2; lia| |lia].
  all: match goal with |- context [if ?b then _ else _] => destruct b eqn:Hle end; zbool.
  all: lia.
Qed.

Lemma shl_align_spec (m : positive) (e e' : Z) :
  shl_align m e e' = if decide (e' < e) then (Z.to_pos (Z.pos m * 2 ^ (e - e')), e') else (m, e).
Proof.
  unfold shl_align. destruct (e' - e) as [|p|p] eqn:E; case_decide; try lia; [done..|].
  f_equal. replace (e - e') with (Z.pos p) by lia. apply Pos2Z.inj.
  rewrite Z2Pos.id by (apply Z.mul_pos_pos; [lia|apply Z.pow_pos_nonneg; lia]).
  pose proof (Zpower.shift_pos_correct p m) as Hs. unfold Zpower.shift_pos in Hs. by rewrite Hs, Z.mul_comm.
Qed.

Lemma normalize_rounded (m e : Z) (s : bool) :
  m <> 0 -> rounded m e (binary_normalize 53 1024 m e s).
Proof.
  assert (forall s p, rounded (Z.pos p) e (binary_round 53 1024 s p e)) as H.
  { intros s' p. unfold binary_round. rewrite shl_align_spec. case_decide as Hd.
    - set (f := fexp 53 1024 (Z.pos (digits2_pos p) + e)) in *.
      assert (0 < Z.pos p * 2 ^ (e - f)) as Hp by (apply Z.mul_pos_pos; [lia|apply Z.pow_pos_nonneg; lia]).
      rewrite Z2Pos.id by done.
      pose proof (round_aux_rounded s' (Z.pos p * 2 ^ (e - f)) f loc_Exact ltac:(lia)) as R.
      unfold rounded in *. rewrite Z.abs_eq, dg_mul_pow2 in R by lia. cbn [Z.abs].
      replace (Zdigits2 (Z.pos p) + (e - f) + f) with (Zdigits2 (Z.pos p) + e) in R by lia.
      case_match; [|done..]. destruct R; [lia|auto].
    - by apply round_aux_rounded. }
  intros Hm. destruct m as [|p|p]; [done|apply H|].
  specialize (H true p). unfold rounded in *. cbn [binary_normalize Z.abs] in *. case_match; [|done..].
  destruct H; [lia|auto].
Qed.

#[local] Arguments Zdigits2 : simpl never.

(** ** Canonical doubles *)
Definition canonical (x : double) : Prop :=
  match x with S754_finite _ m _ => Zdigits2 (Z.pos m) <= 53 | _ => True end.

Lemma rounded_canonical (m e : Z) (x : double) : rounded m e x -> canonical x.
Proof. destruct x; try done. by intros []. Qed.

Lemma div_canonical (s : bool) (m : positive) (e : Z) (s' : bool) (n : positive) (e' : Z) :
  canonical (SFdiv 53 1024 (S754_finite s m e) (S754_finite s' n e')).
Proof.
  cbn [SFdiv]. unfold SFdiv_core_binary.
  set (k := Z.min _ _). set (q := match _ with Z0 => _ | _ => _ end).
  assert (0 <= q) as Hq by (unfold q; case_match; [done|by apply Z.shiftl_nonneg|done]). clearbody q.
  unfold Z.div_eucl at 1. pose proof (Z.div_pos q (Z.pos n) Hq ltac:(lia)) as Hd. unfold Z.div in Hd.
  fold (Z.div_eucl q (Z.pos n)). destruct (Z.div_eucl q (Z.pos n)) as [d r]. eapply rounded_canonical, round_aux_rounded, Hd.
Qed.

Lemma normalize_canonical (m e : Z) (s : bool) : canonical (binary_normalize 53 1024 m e s).
Proof.
  destruct (decide (m = 0)) as [->|Hm]; [done|]. eapply rounded_canonical. by apply normalize_rounded.
Qed.

Lemma dec_canonical (m e : Z) : canonical (d_dec m e).
Proof.
  unfold d_dec, dec_round. destruct m; [done|..]; case_match; apply normalize_canonical || apply div_canonical.
Qed.

Lemma strtod_canonical (x : list Z) : canonical (strtod x).
Proof.
  unfold strtod. repeat case_match; try done; apply normalize_canonical || apply dec_canonical.
Qed.

(** ** Differences and products *)

(** Below [2^k] in absolute value. *)
Definition below (k : Z) (x : double) : Prop :=
  match x with
  | S754_zero _ => True
  | S754_finite _ m e => Zdigits2 (Z.pos m) + e <= k
  | _ => False
  end.

Lemma aligned (m : positive) (e ez : Z) :
  ez <= e -> Z.pos (shl_align m e ez).1 = Z.pos m * 2 ^ (e - ez).
Proof.
  intros H. rewrite shl_align_spec. case_decide; cbn [fst].
  - rewrite Z2Pos.id; [done|]. apply Z.mul_pos_pos; [lia|apply Z.pow_pos_nonneg; lia].
  - replace (e - ez) with 0 by lia. lia.
Qed.

(** A number of [2^7] or more is not within 1/20 of one below [2^6]. *)
Lemma far_apart (x y : double) :
  canonical x -> below 6 y -> d_lt (d_abs (d_sub x y)) (d_dec 5 (-2)) = true -> below 7 x.
Proof.
  set (c := d_dec 5 (-2)). vm_compute in c. intros Hx Hy.
  assert (forall s m e, canonical (S754_finite s m e) -> 7 <= Zdigits2 (Z.pos m) + e ->
            d_lt (d_abs (S754_finite s m e)) c = false) as Hlarge.
  { intros s m e Hc Hm. cbn [canonical] in Hc. unfold d_lt, d_abs, SFltb, c. cbn [SFabs SFcompare].
    rewrite (proj2 (Z.compare_gt_iff e (-57))) by lia. done. }
  destruct x as [| | |s m e]; [done| |done|]; [by destruct y as [|[]| |]; try destruct s|].
  unfold d_sub. cbn [canonical] in Hx. cbn [below]. intros H.
  destruct (Z.le_gt_cases (Zdigits2 (Z.pos m) + e) 7) as [|Hm]; [done|]. exfalso.
  enough (d_lt (d_abs (SFsub 53 1024 (S754_finite s m e) y)) c = false) as E by (by rewrite E in H). clear H.
  destruct y as [sy| | |sy my ey]; [|done|done|]; [apply Hlarge; [exact Hx|lia]|].
  cbn [SFsub below] in *. set (ez := Z.min e ey). rewrite !aligned by lia.
  set (n := cond_Zopp s _ - cond_Zopp sy _).
  assert (8 - ez <= Zdigits2 (Z.abs n) + 1) as Hn.
  { pose proof (dg_bounds (Z.pos m) eq_refl) as B1. pose proof (dg_bounds (Z.pos my) eq_refl) as B2.
    pose proof (dg_pos (Z.pos m) eq_refl) as B0. pose proof (dg_pos (Z.pos my) eq_refl) as B3.
    set (a := Z.pos m * 2 ^ (e - ez)) in *. set (b := Z.pos my * 2 ^ (ey - ez)) in *.
    assert (2 ^ (7 - ez) <= a) as Ha.
    { transitivity (2 ^ (Zdigits2 (Z.pos m) - 1) * 2 ^ (e - ez)).
      - rewrite <- Z.pow_add_r by lia. apply Z.pow_le_mono_r; lia.
      - apply Z.mul_le_mono_nonneg_r; [apply Z.pow_nonneg; lia|lia]. }
    assert (0 < b < 2 ^ (6 - ez)) as Hb.
    { split; [apply Z.mul_pos_pos; [lia|apply Z.pow_pos_nonneg; lia]|].
      apply Z.lt_le_trans with (2 ^ Zdigits2 (Z.pos my) * 2 ^ (ey - ez)).
      - apply Z.mul_lt_mono_pos_r; [apply Z.pow_pos_nonneg; lia|lia].
      - rewrite <- Z.pow_add_r by lia. apply Z.pow_le_mono_r; lia. }
    assert (2 ^ (6 - ez) <= Z.abs n).
    { replace (7 - ez) with (1 + (6 - ez)) in Ha by lia. rewrite Z.pow_add_r in Ha by lia. change (2 ^ 1) with 2 in Ha.
      unfold n. destruct s, sy; cbn [cond_Zopp]; lia. }
    enough (7 - ez <= Zdigits2 (Z.abs n)) by lia. apply dg_ge; [|lia]. by replace (7 - ez - 1) with (6 - ez) by lia. }
  pose proof (dg_pos (Z.pos my) eq_refl) as Hp.
  assert (n <> 0) as Hn0 by (intros E; rewrite E in Hn; change (Zdigits2 (Z.abs 0)) with 0 in Hn; lia).
  pose proof (normalize_rounded n ez false Hn0) as R. destruct (binary_normalize 53 1024 n ez false) as [| | |s' m' e'];
    [unfold rounded in R; lia|by destruct s0|done|].
  - apply Hlarge; [apply R|]. destruct R as (_ & _ & R). lia.
Qed.

(** A product with a number of at most four digits. *)
Lemma mul_below (x : double) (s : bool) (m : positive) (e k : Z) :
  below k x -> Zdigits2 (Z.pos m) + e <= 4 -> -900 <= k <= 800 ->
  below (k + 5) (d_mul x (S754_finite s m e)).
Proof.
  intros Hx Hm Hk. destruct x as [s'|s'| |s' m' e']; [done..|]. cbn [below] in Hx. unfold d_mul. cbn [SFmul].
  pose proof (dg_mul (Z.pos m') (Z.pos m) eq_refl eq_refl) as Hd. rewrite <- Pos2Z.inj_mul in Hd.
  pose proof (round_aux_rounded (xorb s' s) (Z.pos (m' * m)) (e' + e) loc_Exact ltac:(lia)) as R.
  unfold rounded in R. rewrite Z.abs_eq in R by lia. unfold below. case_match; try lia.
Qed.

(** The nearest integer of a bounded number. *)
Lemma round_below (x : double) (k : Z) :
  below k x -> 0 <= k -> exists n, d_round x = Some n /\ - (2 ^ k) <= n <= 2 ^ k.
Proof.
  intros Hx Hk. assert (0 < 2 ^ k) by (apply Z.pow_pos_nonneg; lia).
  destruct x as [s|s| |s m e]; try done; [eexists; split; [reflexivity|lia]|]. cbn [below d_round] in *.
  pose proof (dg_bounds (Z.pos m) eq_refl) as B. pose proof (dg_pos (Z.pos m) eq_refl) as B0.
  eexists. split; [reflexivity|]. set (a := if 0 <=? e then _ else _).
  enough (0 <= a <= 2 ^ k) by (destruct s; lia). unfold a. destruct (Z.leb_spec 0 e).
  - split; [apply Z.mul_nonneg_nonneg; [lia|apply Z.pow_nonneg; lia]|].
    transitivity (2 ^ Zdigits2 (Z.pos m) * 2 ^ e); [apply Z.mul_le_mono_nonneg_r; [apply Z.pow_nonneg; lia|lia]|].
    rewrite <- Z.pow_add_r by lia. apply Z.pow_le_mono_r; lia.
  - assert (0 < 2 ^ (- e)) by (apply Z.pow_pos_nonneg; lia).
    assert (Z.pos m <= 2 ^ k * 2 ^ (- e)).
    { rewrite <- Z.pow_add_r by lia. transitivity (2 ^ Zdigits2 (Z.pos m)); [lia|]. apply Z.pow_le_mono_r; lia. }
    split; [apply Z.div_pos; lia|]. apply Z.lt_succ_r, Z.div_lt_upper_bound; nia.
Qed.
