(* ===== verification/Jsmn.v ===== *)
(** * The JSON tokeniser: json/jsmn.h

    jsmn_parse with the functions it calls, as built by the daemon: JSMN_STRICT
    and JSMN_PARENT_LINKS are not defined, and the token array is never NULL
    (cp_session.c passes a local array), so the counting-only mode is absent.
    Offsets ([pos], [toknext], C unsigned int) are [nat]; [start], [end],
    [size] and [toksuper] (C int, with -1 as the sentinel) are [Z].  The token
    array is a list updated in place: what a previous message left in it is
    still there, as it is in the C array. *)
From S2P Require Import Prelude.
#[local] Open Scope Z_scope.

(** ** Data *)
Inductive jsmntype_t : Set :=
  | JSMN_UNDEFINED
  | JSMN_OBJECT
  | JSMN_ARRAY
  | JSMN_STRING
  | JSMN_PRIMITIVE.

#[export] Instance jsmntype_eq_dec : EqDecision jsmntype_t.
Proof. solve_decision. Defined.

Definition JSMN_ERROR_NOMEM : Z := -1.
Definition JSMN_ERROR_INVAL : Z := -2.
Definition JSMN_ERROR_PART : Z := -3.

Record jsmntok_t := mkTok {
  tk_type : jsmntype_t;
  tk_start : Z;
  tk_end : Z;
  tk_size : Z
}.

#[export] Instance eta_tok : Eta jsmntok_t :=
  fun t => mkTok (tk_type t) (tk_start t) (tk_end t) (tk_size t).

#[export] Instance tok_eq_dec : EqDecision jsmntok_t.
Proof. solve_decision. Defined.

#[export] Instance tok_inhabited : Inhabited jsmntok_t :=
  populate (mkTok JSMN_UNDEFINED 0 0 0).

Record jsmn_parser := mkParser {
  pos : nat;
  toknext : nat;
  toksuper : Z
}.

#[export] Instance eta_parser : Eta jsmn_parser :=
  fun p => mkParser (pos p) (toknext p) (toksuper p).

Definition jsmn_init : jsmn_parser := mkParser 0 0 (-1).

(** ** Token allocation *)
Definition jsmn_alloc_token (p : jsmn_parser) (tokens : list jsmntok_t)
    (num_tokens : nat) : option (nat * jsmn_parser * list jsmntok_t) :=
  if (num_tokens <=? toknext p)%nat then None
  else Some (toknext p,
             p <| toknext := S (toknext p) |>,
             alter (fun t => t <| tk_start := -1 |> <| tk_end := -1 |> <| tk_size := 0 |>)
                   (toknext p) tokens).

Definition jsmn_fill_token (ty : jsmntype_t) (start end_ : Z) (t : jsmntok_t)
    : jsmntok_t :=
  t <| tk_type := ty |> <| tk_start := start |> <| tk_end := end_ |> <| tk_size := 0 |>.

(** ** Primitives *)

(** The characters that end a primitive: [: , ] }] space, tab, CR, LF. *)
Definition prim_delim (c : Z) : bool :=
  (c =? 58) || (c =? 44) || (c =? 93) || (c =? 125) || (c =? 32)
  || (c =? 9) || (c =? 13) || (c =? 10).

(** The scanning loop; [inl] is the error exit, [inr] the label [found]. *)
Fixpoint prim_scan (fuel : nat) (js : list Z) (len p : nat) : nat + nat :=
  match fuel with
  | O => inr p
  | S fuel' =>
      if (p <? len)%nat && negb (char_at js p =? 0) then
        let c := char_at js p in
        if prim_delim c then inr p
        else if (c <? 32) || (127 <=? c) then inl p
        else prim_scan fuel' js len (S p)
      else inr p
  end.

Definition jsmn_parse_primitive (p : jsmn_parser) (js : list Z) (len : nat)
    (tokens : list jsmntok_t) (num_tokens : nat)
    : Z * jsmn_parser * list jsmntok_t :=
  let start := pos p in
  match prim_scan (len - start) js len start with
  | inl q => (JSMN_ERROR_INVAL, p <| pos := q |>, tokens)
  | inr q =>
      match jsmn_alloc_token (p <| pos := q |>) tokens num_tokens with
      | None => (JSMN_ERROR_NOMEM, p <| pos := start |>, tokens)
      | Some (i, p', tokens') =>
          (0, p' <| pos := (q - 1)%nat |>,
           alter (jsmn_fill_token JSMN_PRIMITIVE (Z.of_nat start) (Z.of_nat q)) i tokens')
      end
  end.

(** ** Strings *)
Definition is_hex (h : Z) : bool :=
  ((48 <=? h) && (h <=? 57)) || ((65 <=? h) && (h <=? 70)) || ((97 <=? h) && (h <=? 102)).

(** The escapes of one character: quote, slash, backslash, b, f, r, n, t. *)
Definition simple_escape (c : Z) : bool :=
  (c =? 34) || (c =? 47) || (c =? 92) || (c =? 98) || (c =? 102)
  || (c =? 114) || (c =? 110) || (c =? 116).

Fixpoint hex_scan (n : nat) (js : list Z) (len p : nat) : nat + nat :=
  match n with
  | O => inr p
  | S n' =>
      if (p <? len)%nat then
        if is_hex (char_at js p) then hex_scan n' js len (S p) else inl p
      else inr p
  end.

Inductive str_end : Set := StrClose | StrInval | StrPart.

Fixpoint str_scan (fuel : nat) (js : list Z) (len p : nat) : str_end * nat :=
  match fuel with
  | O => (StrPart, p)
  | S fuel' =>
      if (p <? len)%nat then
        let c := char_at js p in
        if c =? 34 then (StrClose, p)
        else if (c =? 92) && (S p <? len)%nat then
          let e := char_at js (S p) in
          if simple_escape e then str_scan fuel' js len (S (S p))
          else if e =? 117 then
            match hex_scan 4 js len (S (S p)) with
            | inl q => (StrInval, q)
            | inr q => str_scan fuel' js len (S (q - 1))
            end
          else (StrInval, S p)
        else str_scan fuel' js len (S p)
      else (StrPart, p)
  end.

Definition jsmn_parse_string (p : jsmn_parser) (js : list Z) (len : nat)
    (tokens : list jsmntok_t) (num_tokens : nat)
    : Z * jsmn_parser * list jsmntok_t :=
  let start := pos p in
  match str_scan (len - start) js len (S start) with
  | (StrClose, q) =>
      match jsmn_alloc_token (p <| pos := q |>) tokens num_tokens with
      | None => (JSMN_ERROR_NOMEM, p <| pos := start |>, tokens)
      | Some (i, p', tokens') =>
          (0, p', alter (jsmn_fill_token JSMN_STRING (Z.of_nat start + 1) (Z.of_nat q)) i tokens')
      end
  | (StrInval, q) => (JSMN_ERROR_INVAL, p <| pos := q |>, tokens)
  | (StrPart, q) => (JSMN_ERROR_PART, p <| pos := q |>, tokens)
  end.

(** ** The parser *)

(** [token->start != -1 && token->end == -1]. *)
Definition unclosed (t : jsmntok_t) : bool :=
  negb (tk_start t =? -1) && (tk_end t =? -1).

(** The downward search for an unclosed token below index [n]; -1 if none. *)
Fixpoint find_unclosed (tokens : list jsmntok_t) (n : nat) : Z :=
  match n with
  | O => -1
  | S i => if unclosed (tokens !!! i) then Z.of_nat i else find_unclosed tokens i
  end.

Definition is_container (ty : jsmntype_t) : bool :=
  bool_decide (ty = JSMN_ARRAY) || bool_decide (ty = JSMN_OBJECT).

(** The same search restricted to arrays and objects (the ',' case). *)
Fixpoint find_container (tokens : list jsmntok_t) (n : nat) : Z :=
  match n with
  | O => -1
  | S i =>
      if is_container (tk_type (tokens !!! i)) && unclosed (tokens !!! i)
      then Z.of_nat i else find_container tokens i
  end.

(** [tokens[toksuper].size++] unless [toksuper] is -1. *)
Definition bump_super (super : Z) (tokens : list jsmntok_t) : list jsmntok_t :=
  if super =? -1 then tokens
  else alter (fun t => t <| tk_size := tk_size t + 1 |>) (Z.to_nat super) tokens.

Definition jsmn_open (ty : jsmntype_t) (p : jsmn_parser)
    (tokens : list jsmntok_t) (num_tokens : nat)
    : Z + (jsmn_parser * list jsmntok_t) :=
  match jsmn_alloc_token p tokens num_tokens with
  | None => inl JSMN_ERROR_NOMEM
  | Some (i, p', tokens') =>
      let tokens'' := bump_super (toksuper p) tokens' in
      inr (p' <| toksuper := Z.of_nat (toknext p') - 1 |>,
           alter (fun t => t <| tk_type := ty |> <| tk_start := Z.of_nat (pos p) |>)
                 i tokens'')
  end.

Definition jsmn_close (ty : jsmntype_t) (p : jsmn_parser)
    (tokens : list jsmntok_t) : Z + (jsmn_parser * list jsmntok_t) :=
  let i := find_unclosed tokens (toknext p) in
  if i =? -1 then inl JSMN_ERROR_INVAL
  else
    let k := Z.to_nat i in
    if negb (bool_decide (tk_type (tokens !!! k) = ty)) then inl JSMN_ERROR_INVAL
    else
      let tokens' := alter (fun t => t <| tk_end := Z.of_nat (pos p) + 1 |>) k tokens in
      (* the second loop goes on from the same index, now closed *)
      inr (p <| toksuper := find_unclosed tokens' (S k) |>, tokens').

(** One iteration of the loop, before [pos++]; [inl] is a [return]. *)
Definition jsmn_iter (js : list Z) (len : nat) (num_tokens : nat)
    (p : jsmn_parser) (tokens : list jsmntok_t) (count : Z)
    : Z + (jsmn_parser * list jsmntok_t * Z) :=
  let c := char_at js (pos p) in
  if (c =? 123) || (c =? 91) then
    match jsmn_open (if c =? 123 then JSMN_OBJECT else JSMN_ARRAY) p tokens num_tokens with
    | inl r => inl r
    | inr (p', tokens') => inr (p', tokens', count + 1)
    end
  else if (c =? 125) || (c =? 93) then
    match jsmn_close (if c =? 125 then JSMN_OBJECT else JSMN_ARRAY) p tokens with
    | inl r => inl r
    | inr (p', tokens') => inr (p', tokens', count)
    end
  else if c =? 34 then
    match jsmn_parse_string p js len tokens num_tokens with
    | (r, p', tokens') =>
        if r <? 0 then inl r
        else inr (p', bump_super (toksuper p') tokens', count + 1)
    end
  else if (c =? 9) || (c =? 13) || (c =? 10) || (c =? 32) then
    inr (p, tokens, count)
  else if c =? 58 then
    inr (p <| toksuper := Z.of_nat (toknext p) - 1 |>, tokens, count)
  else if c =? 44 then
    if negb (toksuper p =? -1)
       && negb (is_container (tk_type (tokens !!! Z.to_nat (toksuper p)))) then
      let i := find_container tokens (toknext p) in
      inr (if i =? -1 then p else p <| toksuper := i |>, tokens, count)
    else inr (p, tokens, count)
  else
    match jsmn_parse_primitive p js len tokens num_tokens with
    | (r, p', tokens') =>
        if r <? 0 then inl r
        else inr (p', bump_super (toksuper p') tokens', count + 1)
    end.

(** The loop and the final scan for unclosed tokens.  Every iteration moves
    [pos] forward, so [len] iterations are enough ([jsmn_loop_fuel]). *)
Fixpoint jsmn_loop (fuel : nat) (js : list Z) (len : nat) (num_tokens : nat)
    (p : jsmn_parser) (tokens : list jsmntok_t) (count : Z)
    : Z * list jsmntok_t :=
  let done :=
    if find_unclosed tokens (toknext p) =? -1
    then (count, tokens) else (JSMN_ERROR_PART, tokens) in
  match fuel with
  | O => done
  | S fuel' =>
      if (pos p <? len)%nat && negb (char_at js (pos p) =? 0) then
        match jsmn_iter js len num_tokens p tokens count with
        | inl r => (r, tokens)
        | inr (p', tokens', count') =>
            jsmn_loop fuel' js len num_tokens (p' <| pos := S (pos p') |>) tokens' count'
        end
      else done
  end.

Definition jsmn_parse (p : jsmn_parser) (js : list Z) (len : nat)
    (tokens : list jsmntok_t) (num_tokens : nat) : Z * list jsmntok_t :=
  jsmn_loop (len - pos p) js len num_tokens p tokens (Z.of_nat (toknext p)).

(** ** Scanning stays inside the text and moves forward *)
Lemma prim_scan_bounds (fuel : nat) (js : list Z) (len p q : nat) :
  prim_scan fuel js len p = inr q -> (p <= len)%nat -> (p <= q <= len)%nat.
Proof.
  revert p. induction fuel as [|fuel IH]; cbn; intros p.
  - intros [= ->]. lia.
  - repeat case_match; intros Hs Hp; simplify_eq; zbool; try lia.
    apply IH in Hs; lia.
Qed.

(** The first character of a primitive is consumed. *)
Lemma prim_scan_progress (fuel : nat) (js : list Z) (len p q : nat) :
  prim_scan fuel js len p = inr q -> (p < len)%nat -> (0 < fuel)%nat ->
  char_at js p <> 0 -> prim_delim (char_at js p) = false -> (p < q <= len)%nat.
Proof.
  intros H Hp Hf H0 Hd. destruct fuel as [|fuel]; [lia|]. cbn [prim_scan] in H.
  rewrite Hd in H. destruct (Z.eqb_spec (char_at js p) 0); [done|].
  rewrite (proj2 (Nat.ltb_lt p len)) in H by done. cbn [andb negb] in H.
  case_match; [done|]. apply prim_scan_bounds in H; lia.
Qed.

Lemma hex_scan_bounds (n : nat) (js : list Z) (len p q : nat) :
  hex_scan n js len p = inr q -> (p <= q <= Nat.max p len)%nat.
Proof.
  revert p. induction n as [|n IH]; cbn; intros p.
  - intros [= ->]. lia.
  - repeat case_match; intros Hs; simplify_eq; zbool; try lia.
    apply IH in Hs. lia.
Qed.

Lemma str_scan_bounds (fuel : nat) (js : list Z) (len p q : nat) :
  str_scan fuel js len p = (StrClose, q) -> (p <= q < len)%nat.
Proof.
  revert p. induction fuel as [|fuel IH]; cbn [str_scan]; intros p; [done|].
  repeat case_match; intros Hs; simplify_eq; zbool; try lia;
    repeat match goal with H : hex_scan _ _ _ _ = inr _ |- _ => apply hex_scan_bounds in H end;
    apply IH in Hs; lia.
Qed.

Lemma find_unclosed_bounds (toks : list jsmntok_t) (n : nat) :
  -1 <= find_unclosed toks n < Z.of_nat n.
Proof. induction n as [|n IH]; cbn; [lia|]. case_match; lia. Qed.

Lemma find_unclosed_none (toks : list jsmntok_t) (n i : nat) :
  find_unclosed toks n = -1 -> (i < n)%nat -> unclosed (toks !!! i) = false.
Proof.
  induction n as [|n IH]; cbn; [lia|]. case_match; intros Hs Hi; [lia|].
  destruct (decide (i = n)) as [->|]; [done|]. apply IH; [done|lia].
Qed.

Lemma find_container_bounds (toks : list jsmntok_t) (n : nat) :
  -1 <= find_container toks n < Z.of_nat n.
Proof. induction n as [|n IH]; cbn; [lia|]. case_match; lia. Qed.

#[global] Arguments find_unclosed : simpl never.
#[global] Arguments find_container : simpl never.

(** ** The invariant of the parser

    Every allocated token starts at or before the current position, and is
    either closed inside the text or an open container; the super token is
    allocated. *)
Definition tok_wf (len hi : nat) (t : jsmntok_t) : Prop :=
  0 <= tk_start t <= Z.of_nat hi /\ 0 <= tk_size t /\
  (tk_end t = -1 \/ tk_start t <= tk_end t <= Z.of_nat len).

Definition parser_wf (len num : nat) (p : jsmn_parser) (toks : list jsmntok_t) : Prop :=
  (toknext p <= num <= length toks)%nat /\
  -1 <= toksuper p < Z.of_nat (toknext p) /\
  (forall (i : nat) (t : jsmntok_t),
    (i < toknext p)%nat -> toks !! i = Some t -> tok_wf len (pos p) t).

Lemma parser_wf_pos (len num q : nat) (p : jsmn_parser) (toks : list jsmntok_t) :
  parser_wf len num p toks -> (pos p <= q)%nat ->
  parser_wf len num (p <| pos := q |>) toks.
Proof.
  intros (Hn & Hs & Ht) Hq. split; [done|]. split; [done|]. intros i t Hi Hl.
  destruct (Ht i t Hi Hl) as (? & ? & ?). split; [cbn; lia|done].
Qed.

(** Changing one allocated token into a well-formed one keeps the invariant. *)
Lemma parser_wf_alter (len num : nat) (p : jsmn_parser) (toks : list jsmntok_t)
    (f : jsmntok_t -> jsmntok_t) (k : nat) :
  parser_wf len num p toks ->
  (forall t, tok_wf len (pos p) t -> tok_wf len (pos p) (f t)) ->
  parser_wf len num p (alter f k toks).
Proof.
  intros (Hn & Hs & Ht) Hf. split; [by rewrite length_alter|]. split; [done|].
  intros i t Hi Hl. apply list_lookup_alter_Some in Hl as [(-> & t0 & H0 & ->)|(_ & Hl)];
    eauto.
Qed.

Lemma tok_wf_bump (len hi : nat) (t : jsmntok_t) :
  tok_wf len hi t -> tok_wf len hi (t <| tk_size := tk_size t + 1 |>).
Proof. intros (? & ? & ?). split_and!; cbn; try done; lia. Qed.

Lemma parser_wf_bump (len num : nat) (p : jsmn_parser) (toks : list jsmntok_t) (s : Z) :
  parser_wf len num p toks -> parser_wf len num p (bump_super s toks).
Proof.
  intros H. unfold bump_super. case_match; [done|].
  apply parser_wf_alter; [done|]. apply tok_wf_bump.
Qed.

Lemma bump_super_length (s : Z) (toks : list jsmntok_t) :
  length (bump_super s toks) = length toks.
Proof. unfold bump_super. case_match; [done|]. apply length_alter. Qed.

(** A new token that the caller fills in with [f]. *)
Lemma parser_wf_alloc (len num : nat) (p p' : jsmn_parser) (toks toks' : list jsmntok_t)
    (f : jsmntok_t -> jsmntok_t) (i : nat) :
  parser_wf len num p toks ->
  jsmn_alloc_token p toks num = Some (i, p', toks') ->
  (forall t, tk_size t = 0 -> tk_end t = -1 -> tok_wf len (pos p) (f t)) ->
  parser_wf len num p' (alter f i toks') /\
  length toks' = length toks /\ toknext p' = S (toknext p) /\ i = toknext p /\
  pos p' = pos p /\ toksuper p' = toksuper p.
Proof.
  intros (Hn & Hs & Ht). unfold jsmn_alloc_token. case_match; [done|]. zbool.
  intros [= <- <- <-] Hf. rewrite length_alter. split_and!; try done.
  unfold parser_wf. rewrite !length_alter. cbn. split_and!; [lia..|].
  intros k t Hk Hl.
  destruct (decide (k = toknext p)) as [->|Hne].
  - rewrite list_lookup_alter_eq, list_lookup_alter_eq in Hl.
    destruct (toks !! toknext p); cbn in Hl; simplify_eq. by apply Hf.
  - rewrite !list_lookup_alter_ne in Hl by done. apply (Ht k); [lia|done].
Qed.

(** ** One iteration keeps the invariant and moves forward *)

(** What every branch of the loop body guarantees. *)
Definition advances (len num : nat) (p p' : jsmn_parser)
    (toks toks' : list jsmntok_t) : Prop :=
  parser_wf len num p' toks' /\ length toks' = length toks /\
  (toknext p <= toknext p')%nat /\ (pos p <= pos p' < len)%nat.

Lemma jsmn_string_wf (js : list Z) (len num : nat) (p p' : jsmn_parser)
    (toks toks' : list jsmntok_t) (r : Z) :
  parser_wf len num p toks -> (pos p < len)%nat -> 0 <= r ->
  jsmn_parse_string p js len toks num = (r, p', toks') ->
  advances len num p p' toks toks' /\ toknext p' = S (toknext p).
Proof.
  intros Hwf Hp Hr. unfold jsmn_parse_string.
  destruct (str_scan _ _ _ _) as [[] q] eqn:Es; [|intros [= <- _ _]; by destruct (Hr eq_refl)..].
  apply str_scan_bounds in Es.
  destruct (jsmn_alloc_token _ _ _) as [[[i p1] toks1]|] eqn:Ea;
    [|intros [= <- _ _]; by destruct (Hr eq_refl)].
  intros [= <- <- <-].
  eapply (parser_wf_alloc len) with
    (f := jsmn_fill_token JSMN_STRING (Z.of_nat (pos p) + 1) (Z.of_nat q)) in Ea;
    [|apply parser_wf_pos; [exact Hwf|lia]|].
  2:{ intros t _ _. unfold tok_wf, jsmn_fill_token. cbn. lia. }
  destruct Ea as (Hw & Hl & Hn & -> & Hpos & _). unfold advances. rewrite length_alter.
  cbn in *. split_and!; try done; lia.
Qed.

Lemma jsmn_primitive_wf (js : list Z) (len num : nat) (p p' : jsmn_parser)
    (toks toks' : list jsmntok_t) (r : Z) :
  parser_wf len num p toks -> (pos p < len)%nat -> 0 <= r ->
  char_at js (pos p) <> 0 -> prim_delim (char_at js (pos p)) = false ->
  jsmn_parse_primitive p js len toks num = (r, p', toks') ->
  advances len num p p' toks toks' /\ toknext p' = S (toknext p).
Proof.
  intros Hwf Hp Hr H0 Hd. unfold jsmn_parse_primitive.
  destruct (prim_scan _ _ _ _) as [q|q] eqn:Es; [intros [= <- _ _]; by destruct (Hr eq_refl)|].
  apply prim_scan_progress in Es; [|lia..|done|done].
  destruct (jsmn_alloc_token _ _ _) as [[[i p1] toks1]|] eqn:Ea;
    [|intros [= <- _ _]; by destruct (Hr eq_refl)].
  intros [= <- <- <-].
  assert (jsmn_alloc_token (p <| pos := (q - 1)%nat |>) toks num
          = Some (i, p1 <| pos := (q - 1)%nat |>, toks1)) as Ea'.
  { revert Ea. unfold jsmn_alloc_token. cbn. case_match; [done|]. by intros [= <- <- <-]. }
  eapply (parser_wf_alloc len) with
    (f := jsmn_fill_token JSMN_PRIMITIVE (Z.of_nat (pos p)) (Z.of_nat q)) in Ea';
    [|apply parser_wf_pos; [exact Hwf|lia]|].
  2:{ intros t _ _. unfold tok_wf, jsmn_fill_token. cbn. lia. }
  destruct Ea' as (Hw & Hl & Hn & -> & Hpos & _). unfold advances. rewrite length_alter.
  cbn in *. split_and!; try done; lia.
Qed.

Lemma jsmn_open_wf (len num : nat) (p p' : jsmn_parser)
    (toks toks' : list jsmntok_t) (ty : jsmntype_t) :
  parser_wf len num p toks -> (pos p < len)%nat ->
  jsmn_open ty p toks num = inr (p', toks') ->
  advances len num p p' toks toks' /\ toknext p' = S (toknext p).
Proof.
  intros Hwf Hp. unfold jsmn_open.
  destruct (jsmn_alloc_token _ _ _) as [[[i p1] toks1]|] eqn:Ea; [|done].
  intros [= <- <-].
  pose (f := fun t : jsmntok_t => t <| tk_type := ty |> <| tk_start := Z.of_nat (pos p) |>).
  destruct (parser_wf_alloc len num p p1 toks toks1 f i Hwf Ea)
    as ((Hn & Hs & Ht) & Hl & Hn1 & -> & Hpos & Hsu).
  { intros t Hz He. unfold tok_wf, f. cbn. rewrite Hz, He. lia. }
  assert (parser_wf len num (p1 <| toksuper := Z.of_nat (toknext p1) - 1 |>)
            (alter f (toknext p) toks1)) as Hw.
  { split; [done|]. split; [cbn; lia|]. exact Ht. }
  destruct Hwf as (_ & Hs0 & _). unfold advances, bump_super.
  case_match; zbool; rewrite ?length_alter; cbn in *.
  - split_and!; try done; lia.
  - rewrite list_alter_commute by lia. split_and!; try done; try lia.
    apply parser_wf_alter; [done|]. apply tok_wf_bump.
Qed.

Lemma jsmn_close_wf (len num : nat) (p p' : jsmn_parser)
    (toks toks' : list jsmntok_t) (ty : jsmntype_t) :
  parser_wf len num p toks -> (pos p < len)%nat ->
  jsmn_close ty p toks = inr (p', toks') ->
  advances len num p p' toks toks' /\ toknext p' = toknext p.
Proof.
  intros Hwf Hp. unfold jsmn_close. case_match; [done|]. case_match; [done|].
  intros [= <- <-]. zbool.
  set (k := Z.to_nat (find_unclosed toks (toknext p))).
  set (toks2 := alter _ k toks).
  pose proof (find_unclosed_bounds toks (toknext p)) as Hb.
  pose proof (find_unclosed_bounds toks2 (S k)) as Hb2.
  assert (Z.of_nat k = find_unclosed toks (toknext p)) as Hk by (subst k; lia).
  assert (parser_wf len num p toks2) as (Hn & Hs & Ht).
  { apply parser_wf_alter; [done|]. intros t (? & ? & ?). split_and!; cbn; try done; lia. }
  generalize dependent (find_unclosed toks2 (S k)). intros s2 Hb2.
  unfold advances, parser_wf. subst toks2. rewrite length_alter in *. cbn.
  split_and!; try done; lia.
Qed.

Lemma advances_bump (len num : nat) (p p' : jsmn_parser) (toks toks' : list jsmntok_t) (z : Z) :
  advances len num p p' toks toks' -> advances len num p p' toks (bump_super z toks').
Proof.
  intros (Hw & Hl & Hr). split; [by apply parser_wf_bump|]. by rewrite bump_super_length.
Qed.

(** Branches that only move the super token. *)
Lemma advances_super (len num : nat) (p p' : jsmn_parser) (toks : list jsmntok_t) :
  parser_wf len num p toks -> (pos p < len)%nat ->
  toknext p' = toknext p -> pos p' = pos p ->
  -1 <= toksuper p' < Z.of_nat (toknext p) ->
  advances len num p p' toks toks.
Proof.
  intros (Hn & Hs & Ht) Hp E1 E2 H1. unfold advances, parser_wf. rewrite E1, E2.
  split_and!; try done; lia.
Qed.

Lemma jsmn_iter_wf (js : list Z) (len num : nat) (p p' : jsmn_parser)
    (toks toks' : list jsmntok_t) (n n' : Z) :
  parser_wf len num p toks -> (pos p < len)%nat -> char_at js (pos p) <> 0 ->
  jsmn_iter js len num p toks n = inr (p', toks', n') ->
  advances len num p p' toks toks' /\
  n' - n = Z.of_nat (toknext p') - Z.of_nat (toknext p).
Proof.
  intros Hwf Hp H0. pose proof Hwf as (_ & Hs & _). unfold jsmn_iter.
  destruct (_ || (char_at js (pos p) =? 91)) eqn:E1.
  { destruct (jsmn_open _ _ _ _) as [r|[p1 t1]] eqn:Eo; [done|]. intros [= <- <- <-].
    apply (jsmn_open_wf len) in Eo as [? Hn]; auto. split; [done|lia]. }
  destruct (_ || (char_at js (pos p) =? 93)) eqn:E2.
  { destruct (jsmn_close _ _ _) as [r|[p1 t1]] eqn:Eo; [done|]. intros [= <- <- <-].
    apply (jsmn_close_wf len num) in Eo as [? Hn]; auto. split; [done|lia]. }
  destruct (char_at js (pos p) =? 34) eqn:E3.
  { destruct (jsmn_parse_string _ _ _ _ _) as [[r p1] t1] eqn:Eo.
    case_match; [done|]. intros [= <- <- <-]. zbool.
    apply jsmn_string_wf in Eo as [Ha Hn]; auto. split; [|lia]. by apply advances_bump. }
  destruct (_ || (char_at js (pos p) =? 32)) eqn:E4.
  { intros [= <- <- <-]. split; [|lia]. apply advances_super; auto. }
  destruct (char_at js (pos p) =? 58) eqn:E5.
  { intros [= <- <- <-]. split; [|cbn; lia]. apply advances_super; auto. cbn. lia. }
  destruct (char_at js (pos p) =? 44) eqn:E6.
  { pose proof (find_container_bounds toks (toknext p)).
    case_match; intros [= <- <- <-]; [|split; [apply advances_super; auto|lia]].
    case_match; (split; [|cbn; lia]); zbool; apply advances_super; cbn; auto; lia. }
  destruct (jsmn_parse_primitive _ _ _ _ _) as [[r p1] t1] eqn:Eo.
  case_match; [done|]. intros [= <- <- <-]. zbool.
  apply jsmn_primitive_wf in Eo as [Ha Hn]; auto; [split; [|lia]; by apply advances_bump|].
  unfold prim_delim. repeat (apply orb_false_iff; split); by apply Z.eqb_neq.
Qed.

Lemma jsmn_iter_err (js : list Z) (len num : nat) (p : jsmn_parser)
    (toks : list jsmntok_t) (n r : Z) :
  jsmn_iter js len num p toks n = inl r -> -3 <= r < 0.
Proof.
  unfold jsmn_iter, jsmn_open, jsmn_close, jsmn_parse_string, jsmn_parse_primitive,
    JSMN_ERROR_INVAL, JSMN_ERROR_NOMEM, JSMN_ERROR_PART.
  repeat (case_match; simplify_eq/=; try done); intros [= <-]; lia.
Qed.

(** Any two amounts of fuel that cover the positions left agree. *)
Lemma jsmn_loop_fuel (js : list Z) (len num f1 f2 : nat) (p : jsmn_parser)
    (toks : list jsmntok_t) (n : Z) :
  parser_wf len num p toks -> (len - pos p <= f1)%nat -> (len - pos p <= f2)%nat ->
  jsmn_loop f1 js len num p toks n = jsmn_loop f2 js len num p toks n.
Proof.
  revert f2 p toks n. induction f1 as [|f1 IH]; intros f2 p toks n Hwf H1 H2.
  - destruct f2; [done|]. cbn [jsmn_loop].
    by rewrite (proj2 (Nat.ltb_ge (pos p) len)) by lia.
  - destruct f2 as [|f2]; cbn [jsmn_loop].
    { by rewrite (proj2 (Nat.ltb_ge (pos p) len)) by lia. }
    destruct (_ && _) eqn:Ec; [|done]. zbool.
    destruct (jsmn_iter _ _ _ _ _ _) as [r|[[p' toks'] n']] eqn:Ei; [done|].
    apply jsmn_iter_wf in Ei as [(Hw & _ & _ & Hp) _]; auto.
    apply IH; [apply parser_wf_pos; [done|lia]|cbn; lia..].
Qed.

(** A token that is closed and lies inside the text. *)
Definition tok_inside (len : nat) (t : jsmntok_t) : Prop :=
  0 <= tk_start t <= tk_end t /\ tk_end t <= Z.of_nat len /\ 0 <= tk_size t.

Lemma parser_wf_closed (len num : nat) (p : jsmn_parser) (toks : list jsmntok_t) :
  parser_wf len num p toks -> find_unclosed toks (toknext p) = -1 ->
  Forall (tok_inside len) (take (toknext p) toks).
Proof.
  intros (Hn & Hs & Ht) Hu. apply Forall_lookup_2. intros i t Hi.
  apply lookup_take_Some in Hi as [Hi Hlt].
  destruct (Ht i t Hlt Hi) as (H1 & H2 & H3).
  pose proof (find_unclosed_none _ _ i Hu Hlt) as Hc.
  rewrite (list_lookup_total_correct _ _ _ Hi) in Hc. unfold unclosed in Hc.
  unfold tok_inside. destruct (Z.eqb_spec (tk_start t) (-1)); [lia|].
  destruct (Z.eqb_spec (tk_end t) (-1)); [done|]. lia.
Qed.

Lemma jsmn_loop_safe (js : list Z) (len num fuel : nat) (p : jsmn_parser)
    (toks toks' : list jsmntok_t) (r : Z) :
  parser_wf len num p toks -> (len - pos p <= fuel)%nat ->
  jsmn_loop fuel js len num p toks (Z.of_nat (toknext p)) = (r, toks') ->
  length toks' = length toks /\
  (-3 <= r < 0 \/
   (0 <= r <= Z.of_nat num /\ Forall (tok_inside len) (take (Z.to_nat r) toks'))).
Proof.
  revert p toks. induction fuel as [|fuel IH]; intros p toks Hwf Hf.
  all: assert (forall r toks', (if find_unclosed toks (toknext p) =? -1
      then (Z.of_nat (toknext p), toks) else (JSMN_ERROR_PART, toks)) = (r, toks') ->
      length toks' = length toks /\ (-3 <= r < 0 \/
      (0 <= r <= Z.of_nat num /\ Forall (tok_inside len) (take (Z.to_nat r) toks')))) as Hdone
    by (intros r0 t0; case_match; zbool; intros [= <- <-]; (split; [done|]);
        [right; destruct Hwf as ((?&?)&?); split; [lia|]; rewrite Nat2Z.id; by eapply parser_wf_closed
        |left; unfold JSMN_ERROR_PART; lia]).
  - cbn [jsmn_loop]. apply Hdone.
  - cbn [jsmn_loop]. destruct (_ && _) eqn:Ec; [|apply Hdone]. zbool.
    destruct (jsmn_iter _ _ _ _ _ _) as [r0|[[p' t0] n']] eqn:Ei.
    { intros [= <- <-]. split; [done|]. left. by eapply jsmn_iter_err. }
    apply jsmn_iter_wf in Ei as [(Hw & Hl & _ & Hp) Hn]; auto.
    replace n' with (Z.of_nat (toknext (p' <| pos := S (pos p') |>))) by (cbn; lia).
    intros Hloop. apply IH in Hloop; [by rewrite <- Hl|apply parser_wf_pos; [done|lia]|cbn; lia].
Qed.

Lemma parser_wf_init (len num : nat) (toks : list jsmntok_t) :
  (num <= length toks)%nat -> parser_wf len num jsmn_init toks.
Proof. intros H. unfold parser_wf. cbn. split_and!; lia. Qed.

(** C24: the tokeniser is memory safe and total.  On any text of [len] octets
    and any token array of at least [num] entries, jsmn_parse never changes the
    array's length, returns either one of the three error codes or a count
    between 0 and [num], and in the latter case every token it counted is
    closed, lies inside the text ([0 <= start <= end <= len]) and has a
    non-negative size. *)
Theorem jsmn_parse_safe (js : list Z) (len num : nat) (toks toks' : list jsmntok_t) (r : Z) :
  (num <= length toks)%nat ->
  jsmn_parse jsmn_init js len toks num = (r, toks') ->
  length toks' = length toks /\
  (-3 <= r < 0 \/
   (0 <= r <= Z.of_nat num /\ Forall (tok_inside len) (take (Z.to_nat r) toks'))).
Proof.
  intros Hn Hp. apply (jsmn_loop_safe js len num (len - 0) jsmn_init);
    [by apply parser_wf_init|cbn; lia|exact Hp].
Qed.

Lemma jsmn_parse_safe_witness :
  let res := jsmn_parse jsmn_init (jq "{'a':[1,'b']}") 13 (replicate 8 inhabitant) 8 in
  res.1 = 5 /\ Forall (tok_inside 13) (take 5 res.2).
Proof.
  cbv zeta.
  assert (jsmn_parse jsmn_init (jq "{'a':[1,'b']}") 13 (replicate 8 inhabitant) 8
          = (5, (jsmn_parse jsmn_init (jq "{'a':[1,'b']}") 13 (replicate 8 inhabitant) 8).2))
    as E by (vm_compute; reflexivity).
  split; [by rewrite E|].
  destruct (jsmn_parse_safe _ _ 8 (replicate 8 inhabitant) _ _ ltac:(cbn; lia) E) as [_ [H|[_ H]]];
    [lia|exact H].
Defined.
