(* ===== verification/JsonText.v ===== *)
(** * JSON texts and what the tokeniser makes of them

    The grammar of the JSON texts a client sends, with white space anywhere it
    may stand, and the reference tokenisation of each text; jsmn_parse computes
    exactly that tokenisation ([jsmn_parse_text]).  The theorems about the
    command handlers go through this correspondence instead of through the
    tokeniser's loop. *)
From S2P Require Import Prelude Jsmn.
#[local] Open Scope Z_scope.

(** ** Values *)
Inductive json : Type :=
  | JPrim (s : list Z)                       (* number, true, false, null *)
  | JStr (raw : list Z)                      (* between the quotes, escapes as written *)
  | JArr (l : list json)
  | JObj (l : list (list Z * json)).

(** ** Lexical classes *)
Definition is_ws (c : Z) : Prop := c = 9 \/ c = 13 \/ c = 10 \/ c = 32.

Definition all_ws (w : list Z) : Prop := Forall is_ws w.

Definition prim_char (c : Z) : Prop := 32 < c < 127 /\ prim_delim c = false.

Definition prim_ok (s : list Z) : Prop :=
  Forall prim_char s /\
  exists c s', s = c :: s' /\ c <> 123 /\ c <> 91 /\ c <> 34.

Inductive str_body : list Z -> Prop :=
  | sb_nil : str_body []
  | sb_char c s : c <> 34 -> c <> 92 -> str_body s -> str_body (c :: s)
  | sb_esc e s : simple_escape e = true -> str_body s -> str_body (92 :: e :: s)
  | sb_hex h1 h2 h3 h4 s :
      is_hex h1 = true -> is_hex h2 = true -> is_hex h3 = true -> is_hex h4 = true ->
      str_body s -> str_body (92 :: 117 :: h1 :: h2 :: h3 :: h4 :: s).

(** ** Texts with their reference tokens

    [value_at o v s ts]: the text [s], standing at offset [o], writes the value
    [v], and [ts] are its tokens: one per scalar, a container before its
    contents with the number of its elements (or members) as size, a key before
    its value with size 1. *)
Definition str_tok (o : nat) (s : list Z) (size : Z) : jsmntok_t :=
  mkTok JSMN_STRING (Z.of_nat o + 1) (Z.of_nat o + 1 + Z.of_nat (length s)) size.

Definition quoted (s : list Z) : list Z := 34 :: s ++ [34].

Inductive value_at : nat -> json -> list Z -> list jsmntok_t -> Prop :=
  | va_prim o s :
      prim_ok s ->
      value_at o (JPrim s) s
        [mkTok JSMN_PRIMITIVE (Z.of_nat o) (Z.of_nat o + Z.of_nat (length s)) 0]
  | va_str o s :
      str_body s -> value_at o (JStr s) (quoted s) [str_tok o s 0]
  | va_arr o l s ts :
      elems_at (S o) l s ts ->
      value_at o (JArr l) (91 :: s ++ [93])
        (mkTok JSMN_ARRAY (Z.of_nat o) (Z.of_nat o + Z.of_nat (length s) + 2)
           (Z.of_nat (length l)) :: ts)
  | va_obj o l s ts :
      members_at (S o) l s ts ->
      value_at o (JObj l) (123 :: s ++ [125])
        (mkTok JSMN_OBJECT (Z.of_nat o) (Z.of_nat o + Z.of_nat (length s) + 2)
           (Z.of_nat (length l)) :: ts)
with elems_at : nat -> list json -> list Z -> list jsmntok_t -> Prop :=
  | ea_nil o w : all_ws w -> elems_at o [] w []
  | ea_cons o v l w1 s w2 rest ts1 ts2 :
      all_ws w1 -> all_ws w2 ->
      value_at (o + length w1) v s ts1 ->
      elems_tail (o + length w1 + length s + length w2) l rest ts2 ->
      elems_at o (v :: l) (w1 ++ s ++ w2 ++ rest) (ts1 ++ ts2)
with elems_tail : nat -> list json -> list Z -> list jsmntok_t -> Prop :=
  | et_nil o : elems_tail o [] [] []
  | et_cons o v l w1 s w2 rest ts1 ts2 :
      all_ws w1 -> all_ws w2 ->
      value_at (S o + length w1) v s ts1 ->
      elems_tail (S o + length w1 + length s + length w2) l rest ts2 ->
      elems_tail o (v :: l) (44 :: w1 ++ s ++ w2 ++ rest) (ts1 ++ ts2)
with members_at : nat -> list (list Z * json) -> list Z -> list jsmntok_t -> Prop :=
  | ma_nil o w : all_ws w -> members_at o [] w []
  | ma_cons o k v l s rest ts1 ts2 :
      member_at o k v s ts1 ->
      members_tail (o + length s) l rest ts2 ->
      members_at o ((k, v) :: l) (s ++ rest) (ts1 ++ ts2)
with members_tail : nat -> list (list Z * json) -> list Z -> list jsmntok_t -> Prop :=
  | mt_nil o : members_tail o [] [] []
  | mt_cons o k v l s rest ts1 ts2 :
      member_at (S o) k v s ts1 ->
      members_tail (S o + length s) l rest ts2 ->
      members_tail o ((k, v) :: l) (44 :: s ++ rest) (ts1 ++ ts2)
with member_at : nat -> list Z -> json -> list Z -> list jsmntok_t -> Prop :=
  | mb_intro o k v w1 w2 w3 s w4 ts :
      all_ws w1 -> all_ws w2 -> all_ws w3 -> all_ws w4 -> str_body k ->
      value_at (o + length w1 + length (quoted k) + length w2 + 1 + length w3) v s ts ->
      member_at o k v
        (w1 ++ quoted k ++ w2 ++ [58] ++ w3 ++ s ++ w4)
        (str_tok (o + length w1) k 1 :: ts).

Scheme value_at_mut := Induction for value_at Sort Prop
  with elems_at_mut := Induction for elems_at Sort Prop
  with elems_tail_mut := Induction for elems_tail Sort Prop
  with members_at_mut := Induction for members_at Sort Prop
  with members_tail_mut := Induction for members_tail Sort Prop
  with member_at_mut := Induction for member_at Sort Prop.
Combined Scheme json_text_mut from value_at_mut, elems_at_mut, elems_tail_mut,
  members_at_mut, members_tail_mut, member_at_mut.

(** A whole message: one value with white space around it. *)
Inductive text_of (v : json) : list Z -> list jsmntok_t -> Prop :=
  | text_intro w1 s w2 ts :
      all_ws w1 -> all_ws w2 -> value_at (length w1) v s ts ->
      text_of v (w1 ++ s ++ w2) ts.

(** ** An executable writer

    [print] writes a value without white space and [tokens] gives the
    reference tokens of that text; [json_ok] decides that the value can be
    written. *)
Fixpoint print (v : json) : list Z :=
  match v with
  | JPrim s => s
  | JStr s => quoted s
  | JArr l =>
      91 :: match l with
            | [] => []
            | v1 :: l1 =>
                print v1 ++ (fix tail (l : list json) : list Z :=
                  match l with
                  | [] => []
                  | v2 :: l2 => 44 :: print v2 ++ tail l2
                  end) l1
            end ++ [93]
  | JObj l =>
      123 :: match l with
             | [] => []
             | (k1, v1) :: l1 =>
                 (quoted k1 ++ 58 :: print v1) ++
                 (fix tail (l : list (list Z * json)) : list Z :=
                   match l with
                   | [] => []
                   | (k2, v2) :: l2 => 44 :: (quoted k2 ++ 58 :: print v2) ++ tail l2
                   end) l1
             end ++ [125]
  end.

Fixpoint tokens (o : nat) (v : json) : list jsmntok_t :=
  match v with
  | JPrim s => [mkTok JSMN_PRIMITIVE (Z.of_nat o) (Z.of_nat o + Z.of_nat (length s)) 0]
  | JStr s => [str_tok o s 0]
  | JArr l =>
      mkTok JSMN_ARRAY (Z.of_nat o) (Z.of_nat o + Z.of_nat (length (print v))) (Z.of_nat (length l))
      :: match l with
         | [] => []
         | v1 :: l1 =>
             tokens (S o) v1 ++ (fix tail (o : nat) (l : list json) : list jsmntok_t :=
               match l with
               | [] => []
               | v2 :: l2 => tokens (S o) v2 ++ tail (S o + length (print v2))%nat l2
               end) (S o + length (print v1))%nat l1
         end
  | JObj l =>
      mkTok JSMN_OBJECT (Z.of_nat o) (Z.of_nat o + Z.of_nat (length (print v))) (Z.of_nat (length l))
      :: match l with
         | [] => []
         | (k1, v1) :: l1 =>
             (str_tok (S o) k1 1 :: tokens (S o + length (quoted k1) + 1)%nat v1) ++
             (fix tail (o : nat) (l : list (list Z * json)) : list jsmntok_t :=
               match l with
               | [] => []
               | (k2, v2) :: l2 =>
                   (str_tok (S o) k2 1 :: tokens (S o + length (quoted k2) + 1)%nat v2) ++
                   tail (S o + length (quoted k2) + S (length (print v2)))%nat l2
               end) (S o + length (quoted k1) + S (length (print v1)))%nat l1
         end
  end.

Fixpoint str_okb (s : list Z) : bool :=
  match s with
  | [] => true
  | c :: s1 =>
      if c =? 34 then false
      else if c =? 92 then
        match s1 with
        | e :: s2 =>
            if simple_escape e then str_okb s2
            else if e =? 117 then
              match s2 with
              | h1 :: h2 :: h3 :: h4 :: s3 =>
                  is_hex h1 && is_hex h2 && is_hex h3 && is_hex h4 && str_okb s3
              | _ => false
              end
            else false
        | [] => false
        end
      else str_okb s1
  end.

Definition prim_okb (s : list Z) : bool :=
  forallb (fun c => (32 <? c) && (c <? 127) && negb (prim_delim c)) s &&
  match s with
  | [] => false
  | c :: _ => negb (c =? 123) && negb (c =? 91) && negb (c =? 34)
  end.

Fixpoint json_ok (v : json) : bool :=
  match v with
  | JPrim s => prim_okb s
  | JStr s => str_okb s
  | JArr l => forallb json_ok l
  | JObj l => forallb (fun kv => str_okb kv.1 && json_ok kv.2) l
  end.

(** ** Texts inside a buffer *)
Definition text_at (js : list Z) (o : nat) (s : list Z) : Prop :=
  forall i c, s !! i = Some c -> js !! (o + i)%nat = Some c.

Lemma text_at_app (js : list Z) (o : nat) (s k : list Z) :
  text_at js o (s ++ k) <-> text_at js o s /\ text_at js (o + length s) k.
Proof.
  unfold text_at. split.
  - intros H. split; intros i c Hi.
    + apply H. by apply lookup_app_l_Some.
    + rewrite <- Nat.add_assoc. apply H. rewrite lookup_app_r by lia.
      by replace (length s + i - length s)%nat with i by lia.
  - intros [H1 H2] i c [Hi|[Hl Hi]]%lookup_app_Some; [by apply H1|].
    apply H2 in Hi. by replace (o + length s + (i - length s))%nat with (o + i)%nat in Hi by lia.
Qed.

Lemma text_at_cons (js : list Z) (o : nat) (c : Z) (s : list Z) :
  text_at js o (c :: s) <-> js !! o = Some c /\ text_at js (S o) s.
Proof.
  change (c :: s) with ([c] ++ s). rewrite text_at_app. cbn. rewrite Nat.add_1_r.
  split; intros [H1 H2]; (split; [|done]).
  - rewrite <- (Nat.add_0_r o). by apply H1.
  - intros [|i] d; cbn; [intros [= <-]; by rewrite Nat.add_0_r|done].
Qed.

Lemma text_at_char (js : list Z) (o : nat) (c : Z) :
  js !! o = Some c -> char_at js o = c.
Proof. unfold char_at. by intros ->. Qed.

Lemma text_at_prefix (s k : list Z) : text_at (s ++ k) 0 s.
Proof. intros i c Hi. by apply lookup_app_l_Some. Qed.

(** ** Scanning a text *)
Lemma prim_scan_text (js s : list Z) (len o fuel : nat) :
  Forall prim_char s -> text_at js o s -> (o + length s <= len)%nat ->
  (len - o <= fuel)%nat ->
  (o + length s = len)%nat \/ prim_delim (char_at js (o + length s)) = true ->
  prim_scan fuel js len o = inr (o + length s)%nat.
Proof.
  intros Hs. revert o fuel. induction Hs as [|c s Hc Hs IH]; intros o fuel Ht Hl Hf He.
  - rewrite Nat.add_0_r in *. destruct fuel as [|fuel]; [done|]. cbn [prim_scan].
    destruct He as [->|He]; [by rewrite Nat.ltb_irrefl|]. rewrite He. by case_match.
  - apply text_at_cons in Ht as [Hc0 Ht]. cbn [length] in *.
    destruct fuel as [|fuel]; [lia|]. cbn [prim_scan].
    rewrite (text_at_char _ _ _ Hc0), (proj2 (Nat.ltb_lt o len)) by lia.
    destruct Hc as [Hr Hd]. rewrite Hd.
    destruct (Z.eqb_spec c 0); [lia|]. destruct (Z.ltb_spec c 32); [lia|].
    destruct (Z.leb_spec 127 c); [lia|]. cbn.
    replace (o + S (length s))%nat with (S o + length s)%nat in * by lia.
    apply IH; [done|lia..|done].
Qed.

Lemma str_scan_text (js s : list Z) (len o fuel : nat) :
  str_body s -> text_at js o (s ++ [34]) -> (o + length s < len)%nat ->
  (len - o <= fuel)%nat ->
  str_scan fuel js len o = (StrClose, o + length s)%nat.
Proof.
  intros Hs. revert o fuel.
  induction Hs as [|c s Hc1 Hc2 Hs IH|e s He Hs IH|h1 h2 h3 h4 s E1 E2 E3 E4 Hs IH];
    intros o fuel Ht Hl Hf; (destruct fuel as [|fuel]; [lia|]);
    cbn [app length] in *; repeat (apply text_at_cons in Ht as [?Hc Ht]);
    cbn [str_scan]; rewrite (text_at_char _ _ _ Hc).
  - by rewrite (proj2 (Nat.ltb_lt o len)), Nat.add_0_r by lia.
  - rewrite (proj2 (Nat.ltb_lt o len)) by lia.
    destruct (Z.eqb_spec c 34); [done|]. destruct (Z.eqb_spec c 92); [done|]. cbn [andb].
    rewrite (IH (S o)); [f_equal; lia|done|lia..].
  - rewrite (proj2 (Nat.ltb_lt o len)), (proj2 (Nat.ltb_lt (S o) len)) by lia.
    rewrite (text_at_char _ _ _ Hc0), He. cbn [andb Z.eqb Pos.eqb].
    rewrite (IH (S (S o))); [f_equal; lia|done|lia..].
  - rewrite (proj2 (Nat.ltb_lt o len)), (proj2 (Nat.ltb_lt (S o) len)) by lia.
    rewrite (text_at_char _ _ _ Hc0). cbn [Z.eqb Pos.eqb andb simple_escape orb].
    cbn [hex_scan].
    rewrite (text_at_char _ _ _ Hc1), (text_at_char _ _ _ Hc2),
      (text_at_char _ _ _ Hc3), (text_at_char _ _ _ Hc4), E1, E2, E3, E4.
    rewrite !(proj2 (Nat.ltb_lt _ len)) by lia.
    rewrite Nat.sub_succ, Nat.sub_0_r.
    rewrite (IH (S (S (S (S (S (S o))))))); [f_equal; lia|done|lia..].
Qed.

(** ** Steps of the parser on a text *)
Definition pstate : Type := jsmn_parser * list jsmntok_t * Z.

(** One turn of the loop of jsmn_parse. *)
Definition iter1 (js : list Z) (len num : nat) (a b : pstate) : Prop :=
  let '(p, t, n) := a in
  (pos p < len)%nat /\ char_at js (pos p) <> 0 /\
  exists p' t' n', jsmn_iter js len num p t n = inr (p', t', n') /\
                   b = (p' <| pos := S (pos p') |>, t', n').

Lemma iters_loop (js : list Z) (len num : nat) (a b : pstate) :
  rtc (iter1 js len num) a b -> parser_wf len num a.1.1 a.1.2 ->
  jsmn_loop (len - pos a.1.1) js len num a.1.1 a.1.2 a.2 =
  jsmn_loop (len - pos b.1.1) js len num b.1.1 b.1.2 b.2.
Proof.
  induction 1 as [|[[p t] n] b c Hs _ IH]; [done|]. intros Hwf. cbn [fst snd] in *.
  destruct Hs as (Hp & H0 & p' & t' & n' & Hi & ->). cbn [fst snd] in *.
  destruct (len - pos p)%nat as [|k] eqn:Ek; [lia|]. cbn [jsmn_loop].
  rewrite (proj2 (Nat.ltb_lt (pos p) len)) by done.
  destruct (Z.eqb_spec (char_at js (pos p)) 0); [done|]. cbn [andb negb]. rewrite Hi.
  apply jsmn_iter_wf in Hi as [(Hw & _ & _ & Hb) _]; auto.
  assert (parser_wf len num (p' <| pos := S (pos p') |>) t') as Hw'
    by (apply parser_wf_pos; [done|lia]).
  rewrite <- IH by done. apply (jsmn_loop_fuel _ _ num); [done|cbn; lia..].
Qed.

(** The state with [pre] allocated and [stale] behind it. *)
Definition St (o : nat) (pre stale : list jsmntok_t) (sup n : Z) : pstate :=
  (mkParser o (length pre) sup, pre ++ stale, n).

Definition super_in (sup : Z) (pre : list jsmntok_t) : Prop :=
  sup = -1 \/ 0 <= sup < Z.of_nat (length pre).

Lemma alter_middle {A : Type} (f : A -> A) (l k : list A) (x : A) :
  alter f (length l) (l ++ x :: k) = l ++ f x :: k.
Proof. rewrite alter_app_r_alt by lia. by rewrite Nat.sub_diag. Qed.

Lemma bump_super_app (sup : Z) (pre k : list jsmntok_t) :
  super_in sup pre -> bump_super sup (pre ++ k) = bump_super sup pre ++ k.
Proof.
  intros Hs. unfold bump_super. case_match; [done|]. zbool.
  apply alter_app_l. destruct Hs; lia.
Qed.

Lemma find_unclosed_app_l (l k : list jsmntok_t) (n : nat) :
  (n <= length l)%nat -> find_unclosed (l ++ k) n = find_unclosed l n.
Proof.
  induction n as [|n IH]; intros Hn; [done|]. unfold find_unclosed; fold find_unclosed.
  rewrite lookup_total_app_l by lia. by rewrite IH by lia.
Qed.

Definition closed (t : jsmntok_t) : Prop := unclosed t = false.

Lemma find_unclosed_closed (l k : list jsmntok_t) (n : nat) :
  Forall closed k -> (length l <= n <= length l + length k)%nat ->
  find_unclosed (l ++ k) n = find_unclosed l (length l).
Proof.
  intros Hk. induction n as [|n IH]; intros Hn.
  - assert (length l = 0%nat) as -> by lia. done.
  - destruct (decide (S n = length l)) as [He|].
    { rewrite He. by apply find_unclosed_app_l. }
    unfold find_unclosed at 1; fold find_unclosed.
    rewrite lookup_total_app_r by lia.
    destruct (lookup_lt_is_Some_2 k (n - length l)) as [t Ht]; [lia|].
    rewrite (list_lookup_total_correct _ _ _ Ht).
    rewrite Forall_lookup in Hk. rewrite (Hk _ _ Ht). apply IH. lia.
Qed.

Lemma unclosed_bump (sup : Z) (l : list jsmntok_t) (i : nat) :
  unclosed (bump_super sup l !!! i) = unclosed (l !!! i).
Proof.
  unfold bump_super. case_match; [done|].
  rewrite list_lookup_total_alter. by case_decide as Hd; [destruct Hd as [<- _]|].
Qed.

Lemma find_unclosed_bump (sup : Z) (l : list jsmntok_t) (n : nat) :
  find_unclosed (bump_super sup l) n = find_unclosed l n.
Proof.
  induction n as [|n IH]; [done|]. unfold find_unclosed; fold find_unclosed.
  by rewrite unclosed_bump, IH.
Qed.

Section Steps.
Context (js : list Z) (len num : nat).

Lemma step_intro (o k o' k' : nat) (s s' n n' : Z) (t t' : list jsmntok_t) (c : Z) :
  js !! o = Some c -> (o < len)%nat -> c <> 0 ->
  jsmn_iter js len num (mkParser o k s) t n = inr (mkParser o' k' s', t', n') ->
  iter1 js len num (mkParser o k s, t, n) (mkParser (S o') k' s', t', n').
Proof.
  intros Hc Ho H0 Hi. split; [done|]. split; [cbn [pos]; by rewrite (text_at_char _ _ _ Hc)|].
  eexists _, _, _. split; [exact Hi|done].
Qed.

Lemma ws_steps (o k : nat) (s n : Z) (w : list Z) (t : list jsmntok_t) :
  all_ws w -> text_at js o w -> (o + length w <= len)%nat ->
  rtc (iter1 js len num) (mkParser o k s, t, n) (mkParser (o + length w) k s, t, n).
Proof.
  intros Hw. revert o. induction Hw as [|c w Hc Hw IH]; intros o Ht Hl.
  - rewrite Nat.add_0_r. apply rtc_refl.
  - apply text_at_cons in Ht as [Hc0 Ht]. cbn [length] in *.
    replace (o + S (length w))%nat with (S o + length w)%nat by lia.
    eapply rtc_l; [|apply IH; [done|lia]].
    eapply step_intro; [done|lia|destruct Hc; lia|].
    unfold jsmn_iter. cbn [pos]. rewrite (text_at_char _ _ _ Hc0).
    destruct Hc as [->|[->|[->| ->]]]; done.
Qed.

Lemma alloc_step (o : nat) (pre stale : list jsmntok_t) (x : jsmntok_t) (sup : Z) :
  (length pre < num)%nat ->
  jsmn_alloc_token (mkParser o (length pre) sup) (pre ++ x :: stale) num =
  Some (length pre, mkParser o (S (length pre)) sup,
        pre ++ mkTok (tk_type x) (-1) (-1) 0 :: stale).
Proof.
  intros Hn. unfold jsmn_alloc_token. cbn [toknext].
  rewrite (proj2 (Nat.leb_gt _ _)) by lia. cbn. by rewrite alter_middle.
Qed.

Lemma St_snoc (o o' : nat) (pre stale : list jsmntok_t) (t : jsmntok_t) (sup sup' n : Z) :
  super_in sup pre ->
  (mkParser o' (S (length pre)) sup', bump_super sup (pre ++ t :: stale), n) =
  St o' (bump_super sup pre ++ [t]) stale sup' n.
Proof.
  intros Hs. unfold St. rewrite length_app, bump_super_length, bump_super_app, <- app_assoc by done.
  cbn. by rewrite Nat.add_1_r.
Qed.

Lemma str_step (o : nat) (pre stale : list jsmntok_t) (x : jsmntok_t) (sup n : Z) (s : list Z) :
  str_body s -> text_at js o (quoted s) -> (o + length (quoted s) <= len)%nat ->
  (length pre < num)%nat -> super_in sup pre ->
  iter1 js len num (St o pre (x :: stale) sup n)
    (St (o + length (quoted s)) (bump_super sup pre ++ [str_tok o s 0]) stale sup (n + 1)).
Proof.
  intros Hs Ht Hl Hn Hsup. unfold quoted in *. apply text_at_cons in Ht as [Hc Ht].
  cbn [length] in *. rewrite length_app in *. cbn [length] in *.
  rewrite <- (St_snoc o) by done.
  replace (o + S (length s + 1))%nat with (S (S o + length s)) by lia.
  eapply step_intro; [done|lia|done|].
  unfold jsmn_iter. cbn [pos]. rewrite (text_at_char _ _ _ Hc).
  cbn [Z.eqb Pos.eqb orb]. unfold jsmn_parse_string. cbn [pos].
  rewrite (str_scan_text js s) by (done || lia). cbn [upd].
  change (mkParser o (length pre) sup) <| pos := (S o + length s)%nat |>
    with (mkParser (S o + length s) (length pre) sup).
  rewrite alloc_step by done. cbn [Z.ltb Z.compare toksuper].
  rewrite alter_middle.
  assert (forall y, jsmn_fill_token JSMN_STRING (Z.of_nat o + 1) (Z.of_nat (S o + length s)) y
                    = str_tok o s 0) as ->; [|done].
  intros y. unfold str_tok.
  by replace (Z.of_nat o + 1 + Z.of_nat (length s)) with (Z.of_nat (S o + length s)) by lia.
Qed.

Lemma prim_step (o : nat) (pre stale : list jsmntok_t) (x : jsmntok_t) (sup n : Z) (s : list Z) :
  prim_ok s -> text_at js o s -> (o + length s <= len)%nat ->
  (o + length s = len)%nat \/ prim_delim (char_at js (o + length s)) = true ->
  (length pre < num)%nat -> super_in sup pre ->
  iter1 js len num (St o pre (x :: stale) sup n)
    (St (o + length s)
       (bump_super sup pre ++
        [mkTok JSMN_PRIMITIVE (Z.of_nat o) (Z.of_nat o + Z.of_nat (length s)) 0])
       stale sup (n + 1)).
Proof.
  intros [Hs (c & s' & -> & N1 & N2 & N3)] Ht Hl He Hn Hsup.
  pose proof Ht as Ht0. apply text_at_cons in Ht0 as [Hc _]. cbn [length] in *.
  rewrite <- (St_snoc o) by done.
  pose proof Hs as Hs0. apply Forall_cons in Hs0 as [[Hr Hd] _].
  replace (o + S (length s'))%nat with (S (o + length s')) by lia.
  eapply step_intro; [done|lia|lia|].
  unfold jsmn_iter. cbn [pos]. rewrite (text_at_char _ _ _ Hc).
  unfold prim_delim in Hd. zbool.
  repeat match goal with H : _ <> _ |- _ => rewrite (proj2 (Z.eqb_neq _ _) H); clear H end.
  cbn [orb]. unfold jsmn_parse_primitive. cbn [pos].
  rewrite (prim_scan_text js (c :: s')) by (done || cbn [length]; lia || done).
  cbn [length].
  change (mkParser o (length pre) sup) <| pos := (o + S (length s'))%nat |>
    with (mkParser (o + S (length s')) (length pre) sup).
  rewrite alloc_step by done. cbn [Z.ltb Z.compare toksuper]. rewrite alter_middle.
  assert (forall y, jsmn_fill_token JSMN_PRIMITIVE (Z.of_nat o) (Z.of_nat (o + S (length s'))) y
     = mkTok JSMN_PRIMITIVE (Z.of_nat o) (Z.of_nat o + Z.of_nat (S (length s'))) 0) as ->.
  { intros y. by rewrite <- Nat2Z.inj_add. }
  replace (o + S (length s') - 1)%nat with (o + length s')%nat by lia. done.
Qed.

Lemma open_step (o : nat) (pre stale : list jsmntok_t) (x : jsmntok_t) (sup n c : Z) :
  c = 123 \/ c = 91 -> js !! o = Some c -> (o < len)%nat ->
  (length pre < num)%nat -> super_in sup pre ->
  iter1 js len num (St o pre (x :: stale) sup n)
    (St (S o)
       (bump_super sup pre ++
        [mkTok (if c =? 123 then JSMN_OBJECT else JSMN_ARRAY) (Z.of_nat o) (-1) 0])
       stale (Z.of_nat (length pre)) (n + 1)).
Proof.
  intros Hc0 Hc Hl Hn Hsup. rewrite <- (St_snoc o) by done.
  eapply step_intro; [done|lia|lia|].
  unfold jsmn_iter. cbn [pos]. rewrite (text_at_char _ _ _ Hc).
  assert ((c =? 123) || (c =? 91) = true) as -> by (destruct Hc0 as [-> | ->]; done).
  unfold jsmn_open. rewrite alloc_step by done. cbn [toknext toksuper pos].
  rewrite !bump_super_app by done.
  rewrite <- (bump_super_length sup pre) at 2. rewrite alter_middle.
  cbn -[Z.of_nat Z.sub Z.add].
  by replace (Z.of_nat (S (length pre)) - 1) with (Z.of_nat (length pre)) by lia.
Qed.

Lemma close_step (o : nat) (pre ts stale : list jsmntok_t) (t : jsmntok_t) (sup n c : Z) :
  c = 125 \/ c = 93 -> js !! o = Some c -> (o < len)%nat ->
  unclosed t = true -> tk_type t = (if c =? 125 then JSMN_OBJECT else JSMN_ARRAY) ->
  Forall closed ts ->
  iter1 js len num (St o (pre ++ t :: ts) stale sup n)
    (St (S o) (pre ++ t <| tk_end := Z.of_nat o + 1 |> :: ts) stale
       (find_unclosed pre (length pre)) n).
Proof.
  intros Hc0 Hc Hl Hu Hty Hts. unfold St.
  rewrite !length_app. cbn [length].
  eapply step_intro; [done|lia|lia|].
  unfold jsmn_iter. cbn [pos]. rewrite (text_at_char _ _ _ Hc).
  assert ((c =? 123) || (c =? 91) = false) as -> by (destruct Hc0 as [-> | ->]; done).
  assert ((c =? 125) || (c =? 93) = true) as -> by (destruct Hc0 as [-> | ->]; done).
  unfold jsmn_close. cbn [toknext pos].
  assert (find_unclosed ((pre ++ t :: ts) ++ stale) (length pre + S (length ts))
          = Z.of_nat (length pre)) as Hf.
  { rewrite find_unclosed_app_l by (rewrite length_app; cbn; lia).
    change (t :: ts) with ([t] ++ ts). rewrite app_assoc.
    rewrite find_unclosed_closed; [|done|rewrite length_app; cbn; lia].
    rewrite length_app. cbn [length]. rewrite Nat.add_1_r.
    unfold find_unclosed; fold find_unclosed.
    by rewrite list_lookup_total_middle, Hu by done. }
  rewrite Hf, Nat2Z.id. destruct (Z.eqb_spec (Z.of_nat (length pre)) (-1)); [lia|].
  rewrite <- app_assoc. cbn [app].
  rewrite list_lookup_total_middle by done.
  rewrite (bool_decide_eq_true_2 _ Hty). cbn [negb]. rewrite alter_middle.
  rewrite <- app_assoc. cbn [app]. do 2 f_equal. f_equal. cbn [upd].
  change (mkParser o (length pre + S (length ts)) sup) <| toksuper :=
    find_unclosed (pre ++ t <| tk_end := Z.of_nat o + 1 |> :: ts ++ stale) (S (length pre)) |>
    with (mkParser o (length pre + S (length ts))
      (find_unclosed (pre ++ t <| tk_end := Z.of_nat o + 1 |> :: ts ++ stale) (S (length pre)))).
  f_equal.
  change (t <| tk_end := Z.of_nat o + 1 |> :: ts ++ stale)
    with ([t <| tk_end := Z.of_nat o + 1 |>] ++ ts ++ stale).
  rewrite app_assoc, find_unclosed_app_l by (rewrite length_app; cbn; lia).
  apply find_unclosed_closed; [|cbn; lia]. repeat constructor. unfold closed, unclosed. cbn.
  destruct (Z.eqb_spec (Z.of_nat o + 1) (-1)); [lia|]. by rewrite andb_false_r.
Qed.

Lemma colon_step (o : nat) (pre stale : list jsmntok_t) (sup n : Z) :
  js !! o = Some 58 -> (o < len)%nat ->
  iter1 js len num (St o pre stale sup n)
    (St (S o) pre stale (Z.of_nat (length pre) - 1) n).
Proof.
  intros Hc Hl. eapply step_intro; [done|lia|done|].
  unfold jsmn_iter. cbn [pos]. by rewrite (text_at_char _ _ _ Hc).
Qed.

(** The super token while the members of a container are read: the container
    at index [i], or a key. *)
Definition super_ok (i : nat) (pre : list jsmntok_t) (sup : Z) : Prop :=
  sup = Z.of_nat i \/
  (0 <= sup < Z.of_nat (length pre) /\
   is_container (tk_type (pre !!! Z.to_nat sup)) = false).

Lemma find_container_closed (pre ts stale : list jsmntok_t) (t : jsmntok_t) (n : nat) :
  is_container (tk_type t) = true -> unclosed t = true -> Forall closed ts ->
  (length pre < n <= length pre + 1 + length ts)%nat ->
  find_container ((pre ++ t :: ts) ++ stale) n = Z.of_nat (length pre).
Proof.
  intros Hc Hu Hts. induction n as [|n IH]; [lia|]. intros Hn.
  unfold find_container; fold find_container.
  rewrite lookup_total_app_l by (rewrite length_app; cbn; lia).
  destruct (decide (n = length pre)) as [->|].
  - by rewrite list_lookup_total_middle, Hc, Hu by done.
  - rewrite lookup_total_app_r by lia.
    destruct (n - length pre)%nat as [|k] eqn:Ek; [lia|].
    change ((t :: ts) !!! S k) with (ts !!! k).
    destruct (lookup_lt_is_Some_2 ts k) as [t' Ht']; [lia|].
    rewrite (list_lookup_total_correct _ _ _ Ht').
    rewrite Forall_lookup in Hts. rewrite (Hts _ _ Ht'), andb_false_r. apply IH. lia.
Qed.

Lemma comma_step (o : nat) (pre ts stale : list jsmntok_t) (t : jsmntok_t) (sup n : Z) :
  js !! o = Some 44 -> (o < len)%nat ->
  is_container (tk_type t) = true -> unclosed t = true -> Forall closed ts ->
  super_ok (length pre) (pre ++ t :: ts) sup ->
  iter1 js len num (St o (pre ++ t :: ts) stale sup n)
    (St (S o) (pre ++ t :: ts) stale (Z.of_nat (length pre)) n).
Proof.
  intros Hc Hl Ht Hu Hts Hs. eapply step_intro; [done|lia|done|].
  unfold jsmn_iter. cbn [pos toksuper toknext]. rewrite (text_at_char _ _ _ Hc).
  cbn [Z.eqb Pos.eqb orb]. destruct Hs as [->|[Hs Hn]].
  - rewrite Nat2Z.id, <- app_assoc. cbn [app]. rewrite list_lookup_total_middle by done.
    by rewrite Ht, andb_false_r.
  - rewrite lookup_total_app_l by lia. rewrite Hn.
    destruct (Z.eqb_spec sup (-1)); [lia|]. cbn [negb andb].
    rewrite find_container_closed by (done || rewrite length_app; cbn; lia).
    by destruct (Z.eqb_spec (Z.of_nat (length pre)) (-1)); [lia|].
Qed.

(** ** Reading a text is a run of the parser *)
Definition ends (o : nat) : Prop := (o = len)%nat \/ prim_delim (char_at js o) = true.

Definition run_value (o : nat) (s : list Z) (ts : list jsmntok_t) : Prop :=
  forall pre stale sup n,
  text_at js o s -> (o + length s <= len)%nat -> ends (o + length s) ->
  (length pre + length ts <= num)%nat -> (length ts <= length stale)%nat ->
  super_in sup pre ->
  exists sup',
    rtc (iter1 js len num) (St o pre stale sup n)
      (St (o + length s) (bump_super sup pre ++ ts) (drop (length ts) stale) sup'
         (n + Z.of_nat (length ts))) /\
    (sup' = sup \/ sup' = find_unclosed pre (length pre)).

(** Reading [cnt] elements or members of the open container [t]; [P] is what is
    known of the super token at the start. *)
Definition run_inside (P : nat -> list jsmntok_t -> Z -> Prop) (cnt : nat) (o : nat)
    (s : list Z) (ts : list jsmntok_t) : Prop :=
  forall pre t ts0 stale sup n,
  text_at js o s -> (o + length s <= len)%nat -> ends (o + length s) ->
  (length pre + 1 + length ts0 + length ts <= num)%nat -> (length ts <= length stale)%nat ->
  is_container (tk_type t) = true -> unclosed t = true -> Forall closed ts0 ->
  P (length pre) (pre ++ t :: ts0) sup ->
  exists sup',
    rtc (iter1 js len num) (St o (pre ++ t :: ts0) stale sup n)
      (St (o + length s) (pre ++ t <| tk_size := tk_size t + Z.of_nat cnt |> :: ts0 ++ ts)
         (drop (length ts) stale) sup' (n + Z.of_nat (length ts))) /\
    super_ok (length pre) (pre ++ t <| tk_size := tk_size t + Z.of_nat cnt |> :: ts0 ++ ts) sup'.

Definition at_container (i : nat) (_ : list jsmntok_t) (sup : Z) : Prop := sup = Z.of_nat i.

Lemma ends_ws (o : nat) (w : list Z) :
  all_ws w -> text_at js o w -> ends (o + length w) -> ends o.
Proof.
  intros Hw Ht He. destruct Hw as [|c w Hc Hw]; [by rewrite Nat.add_0_r in He|].
  apply text_at_cons in Ht as [Hc0 _]. right. rewrite (text_at_char _ _ _ Hc0).
  by destruct Hc as [->|[->|[->| ->]]].
Qed.

Lemma ends_comma (o : nat) (s : list Z) : text_at js o (44 :: s) -> ends o.
Proof. intros [Hc _]%text_at_cons. right. by rewrite (text_at_char _ _ _ Hc). Qed.

Lemma bump_middle (pre ts : list jsmntok_t) (t : jsmntok_t) :
  bump_super (Z.of_nat (length pre)) (pre ++ t :: ts) =
  pre ++ t <| tk_size := tk_size t + 1 |> :: ts.
Proof.
  unfold bump_super. destruct (Z.eqb_spec (Z.of_nat (length pre)) (-1)); [lia|].
  by rewrite Nat2Z.id, alter_middle.
Qed.

Lemma find_unclosed_inside (pre ts : list jsmntok_t) (t : jsmntok_t) :
  unclosed t = true -> Forall closed ts ->
  find_unclosed (pre ++ t :: ts) (length (pre ++ t :: ts)) = Z.of_nat (length pre).
Proof.
  intros Hu Hts. change (t :: ts) with ([t] ++ ts). rewrite app_assoc.
  rewrite find_unclosed_closed; [|done|rewrite !length_app; cbn; lia].
  rewrite length_app. cbn [length]. rewrite Nat.add_1_r.
  unfold find_unclosed; fold find_unclosed. by rewrite list_lookup_total_middle, Hu by done.
Qed.

Lemma tok_size_0 (t : jsmntok_t) : t <| tk_size := tk_size t + Z.of_nat 0 |> = t.
Proof. destruct t. cbn. by rewrite Z.add_0_r. Qed.

Lemma tok_size_add (t : jsmntok_t) (a b : Z) :
  (t <| tk_size := tk_size t + a |>) <| tk_size :=
     tk_size (t <| tk_size := tk_size t + a |>) + b |> =
  t <| tk_size := tk_size t + (a + b) |>.
Proof. cbn. by rewrite Z.add_assoc. Qed.

Lemma inside_ws (o : nat) (w : list Z) :
  all_ws w -> run_inside at_container 0 o w [].
Proof.
  intros Hw pre t ts0 stale sup n Ht Hl _ _ _ _ _ _ Hs. exists sup.
  rewrite tok_size_0, app_nil_r, drop_0, Z.add_0_r. split; [|by left].
  by apply ws_steps.
Qed.

Lemma inside_nil (o : nat) : run_inside super_ok 0 o [] [].
Proof.
  intros pre t ts0 stale sup n _ _ _ _ _ _ _ _ Hs. exists sup.
  rewrite tok_size_0, app_nil_r, drop_0, Z.add_0_r, Nat.add_0_r. split; [|done].
  apply rtc_refl.
Qed.

Lemma inside_comma (cnt o : nat) (s : list Z) (ts : list jsmntok_t) :
  run_inside at_container cnt (S o) s ts -> run_inside super_ok cnt o (44 :: s) ts.
Proof.
  intros Hr pre t ts0 stale sup n Ht Hl He Hn Hst Hc Hu Hts Hs.
  apply text_at_cons in Ht as [Hc0 Ht]. cbn [length] in *.
  replace (o + S (length s))%nat with (S o + length s)%nat in * by lia.
  destruct (Hr pre t ts0 stale (Z.of_nat (length pre)) n) as (sup' & Hrun & Hok); try done.
  exists sup'. split; [|done]. eapply rtc_l; [|exact Hrun].
  apply comma_step; try done. lia.
Qed.

Lemma inside_seq (cnt o : nat) (s rest : list Z) (ts1 ts2 : list jsmntok_t) :
  run_inside at_container 1 o s ts1 -> run_inside super_ok cnt (o + length s) rest ts2 ->
  Forall closed ts1 -> rest = [] \/ (exists r, rest = 44 :: r) ->
  run_inside at_container (S cnt) o (s ++ rest) (ts1 ++ ts2).
Proof.
  intros H1 H2 Hts1 Hrest pre t ts0 stale sup n Ht Hl He Hn Hst Hc Hu Hts Hs.
  rewrite !length_app in *. apply text_at_app in Ht as [Ht1 Ht2].
  rewrite Nat.add_assoc in *.
  assert (ends (o + length s)) as He1.
  { destruct Hrest as [->|[r ->]]; [by rewrite Nat.add_0_r in He|by eapply ends_comma]. }
  destruct (H1 pre t ts0 stale sup n) as (s1 & R1 & O1); try done; [lia..|].
  destruct (H2 pre (t <| tk_size := tk_size t + Z.of_nat 1 |>) (ts0 ++ ts1)
    (drop (length ts1) stale) s1 (n + Z.of_nat (length ts1))) as (s2 & R2 & O2);
    try done; [rewrite length_app; lia|rewrite length_drop; lia|by apply Forall_app|].
  exists s2.
  replace (t <| tk_size := tk_size t + Z.of_nat (S cnt) |>) with
    ((t <| tk_size := tk_size t + Z.of_nat 1 |>) <| tk_size :=
      tk_size (t <| tk_size := tk_size t + Z.of_nat 1 |>) + Z.of_nat cnt |>).
  2:{ rewrite tok_size_add. by replace (Z.of_nat 1 + Z.of_nat cnt) with (Z.of_nat (S cnt)) by lia. }
  rewrite app_assoc. split; [|done]. etrans; [exact R1|].
  rewrite drop_drop in R2. by replace (n + Z.of_nat (length ts1 + length ts2))
    with (n + Z.of_nat (length ts1) + Z.of_nat (length ts2)) by lia.
Qed.

Lemma inside_elem (o : nat) (w1 s w2 : list Z) (ts : list jsmntok_t) :
  all_ws w1 -> all_ws w2 -> run_value (o + length w1) s ts ->
  run_inside at_container 1 o (w1 ++ s ++ w2) ts.
Proof.
  intros Hw1 Hw2 Hv pre t ts0 stale sup n Ht Hl He Hn Hst Hc Hu Hts ->.
  rewrite !length_app in *. apply text_at_app in Ht as [Ht1 [Ht2 Ht3]%text_at_app].
  rewrite !Nat.add_assoc in *.
  destruct (Hv (pre ++ t :: ts0) stale (Z.of_nat (length pre)) n) as (s1 & R1 & O1); try done.
  { lia. }
  { by eapply ends_ws. }
  { rewrite length_app. cbn. lia. }
  { right. rewrite length_app. cbn. lia. }
  assert (s1 = Z.of_nat (length pre)) as ->
    by (destruct O1 as [->| ->]; [done|by apply find_unclosed_inside]).
  exists (Z.of_nat (length pre)). split; [|by left].
  rewrite bump_middle in R1. rewrite <- app_assoc in R1. cbn [app] in R1.
  etrans; [apply ws_steps; [exact Hw1|done|lia]|].
  etrans; [exact R1|]. apply ws_steps; [done..|lia].
Qed.

Lemma value_container (c1 c2 : Z) (cnt o : nat) (s : list Z) (ts : list jsmntok_t) :
  (c1 = 123 /\ c2 = 125) \/ (c1 = 91 /\ c2 = 93) -> Forall closed ts ->
  run_inside at_container cnt (S o) s ts ->
  run_value o (c1 :: s ++ [c2])
    (mkTok (if c1 =? 123 then JSMN_OBJECT else JSMN_ARRAY) (Z.of_nat o)
       (Z.of_nat o + Z.of_nat (length s) + 2) (Z.of_nat cnt) :: ts).
Proof.
  intros Hc Hts Hr pre stale sup n Ht Hl _ Hn Hst Hsup.
  apply text_at_cons in Ht as [Hc1 [Ht Hc2]%text_at_app].
  apply text_at_cons in Hc2 as [Hc2 _].
  cbn [length] in *. rewrite length_app in *. cbn [length] in *.
  destruct stale as [|x stale]; [cbn in Hst; lia|]. cbn [length drop] in *.
  set (ty := if c1 =? 123 then JSMN_OBJECT else JSMN_ARRAY) in *.
  destruct (Hr (bump_super sup pre) (mkTok ty (Z.of_nat o) (-1) 0) [] stale
    (Z.of_nat (length pre)) (n + 1)) as (s1 & R1 & _); rewrite ?bump_super_length; try done;
    cbn [length app]; try lia.
  { right. rewrite (text_at_char _ _ _ Hc2). by destruct Hc as [[_ ->]|[_ ->]]. }
  { subst ty. by destruct Hc as [[-> _]|[-> _]]. }
  { unfold unclosed. cbn. by destruct (Z.eqb_spec (Z.of_nat o) (-1)); [lia|]. }
  exists (find_unclosed pre (length pre)). split; [|by right].
  eapply rtc_l; [apply (open_step o pre stale x sup n c1); [tauto|done|lia..|done]|].
  fold ty. etrans; [exact R1|]. cbn [app]. apply rtc_once.
  replace (o + S (length s + 1))%nat with (S (S o + length s)) by lia.
  replace (n + Z.of_nat (S (length ts))) with (n + 1 + Z.of_nat (length ts)) by lia.
  replace (find_unclosed pre (length pre)) with
    (find_unclosed (bump_super sup pre) (length (bump_super sup pre)))
    by (by rewrite bump_super_length, find_unclosed_bump).
  replace (Z.of_nat o + Z.of_nat (length s) + 2) with (Z.of_nat (S o + length s) + 1) by lia.
  apply (close_step _ _ _ _ (mkTok ty (Z.of_nat o) (-1) (Z.of_nat cnt)) _ _ c2);
    try done; [tauto|lia|..].
  { unfold unclosed. cbn. by destruct (Z.eqb_spec (Z.of_nat o) (-1)); [lia|]. }
  subst ty. by destruct Hc as [[-> ->]|[-> ->]].
Qed.

Lemma inside_member (o : nat) (k : list Z) (w1 w2 w3 s w4 : list Z)
    (ts : list jsmntok_t) :
  all_ws w1 -> all_ws w2 -> all_ws w3 -> all_ws w4 -> str_body k ->
  run_value (o + length w1 + length (quoted k) + length w2 + 1 + length w3) s ts ->
  run_inside at_container 1 o (w1 ++ quoted k ++ w2 ++ [58] ++ w3 ++ s ++ w4)
    (str_tok (o + length w1) k 1 :: ts).
Proof.
  intros Hw1 Hw2 Hw3 Hw4 Hk Hv pre t ts0 stale sup n Ht Hl He Hn Hst Hc Hu Hts ->.
  rewrite !text_at_app, !length_app in *. cbn [length] in *. rewrite !Nat.add_assoc in *.
  destruct Ht as (Ht1 & Ht2 & Ht3 & Ht4 & Ht5 & Ht6 & Ht7).
  apply text_at_cons in Ht4 as [Ht4 _].
  destruct stale as [|x stale]; [cbn in Hst; lia|]. cbn [length drop] in *.
  set (t1 := t <| tk_size := tk_size t + Z.of_nat 1 |>).
  set (o1 := (o + length w1)%nat) in *.
  set (pre1 := pre ++ t1 :: ts0).
  set (key := str_tok o1 k 0).
  assert (length (pre ++ t :: ts0) = length pre1) as Hlen by (subst pre1; by rewrite !length_app).
  assert (length pre1 = (length pre + 1 + length ts0)%nat) as Hlen'
    by (subst pre1; rewrite length_app; cbn; lia).
  destruct (Hv (pre1 ++ [key]) stale (Z.of_nat (length pre1)) (n + 1)) as (s1 & R1 & O1);
    try done; [lia|by eapply ends_ws|rewrite length_app; cbn; lia|lia
      |right; rewrite length_app; cbn; lia|].
  assert (bump_super (Z.of_nat (length pre1)) (pre1 ++ [key]) =
          pre1 ++ [str_tok o1 k 1]) as Hb by (rewrite bump_middle; done).
  rewrite Hb in R1. clear Hb.
  assert (find_unclosed (pre1 ++ [key]) (length (pre1 ++ [key])) = Z.of_nat (length pre)) as Hf.
  { subst pre1. rewrite <- app_assoc. cbn [app]. apply find_unclosed_inside; [done|].
    apply Forall_app. split; [done|]. repeat constructor. unfold closed, unclosed, key, str_tok.
    cbn. destruct (Z.eqb_spec (Z.of_nat o1 + 1 + Z.of_nat (length k)) (-1)); [lia|].
    by rewrite andb_false_r. }
  rewrite Hf in O1. exists s1. split.
  - etrans; [apply ws_steps; [exact Hw1|done|lia]|].
    eapply rtc_l; [apply (str_step o1 (pre ++ t :: ts0) stale x _ n k); try done; try lia;
                   right; lia|].
    rewrite bump_middle.
    change (pre ++ t <| tk_size := tk_size t + 1 |> :: ts0) with pre1. fold key.
    etrans; [apply ws_steps; [exact Hw2|done|lia]|].
    eapply rtc_l; [apply colon_step; [exact Ht4|lia]|].
    replace (Z.of_nat (length (pre1 ++ [key])) - 1) with (Z.of_nat (length pre1))
      by (rewrite length_app; cbn; lia).
    etrans; [apply ws_steps; [exact Hw3| |lia]|].
    { by replace (S (o1 + length (quoted k) + length w2)) with
        (o1 + length (quoted k) + length w2 + 1)%nat by lia. }
    replace (S (o1 + length (quoted k) + length w2) + length w3)%nat with
        (o1 + length (quoted k) + length w2 + 1 + length w3)%nat by lia.
    etrans; [exact R1|].
    replace (n + Z.of_nat (S (length ts))) with (n + 1 + Z.of_nat (length ts)) by lia.
    subst pre1. rewrite <- !app_assoc. cbn [app].
    apply ws_steps; [done..|lia].
  - destruct O1 as [->| ->]; [|by left]. right.
    rewrite Hlen', length_app. cbn [length]. rewrite length_app. cbn [length].
    split; [lia|]. rewrite Nat2Z.id.
    replace (pre ++ t1 :: ts0 ++ str_tok o1 k 1 :: ts) with (pre1 ++ str_tok o1 k 1 :: ts)
      by (subst pre1; by rewrite <- app_assoc).
    rewrite list_lookup_total_middle by (subst pre1; rewrite length_app; cbn; lia). done.
Qed.
End Steps.

(** ** Reference tokens are closed *)
Lemma closed_tok (ty : jsmntype_t) (a b n : Z) : 0 <= b -> closed (mkTok ty a b n).
Proof.
  intros H. unfold closed, unclosed. cbn. destruct (Z.eqb_spec b (-1)); [lia|].
  by rewrite andb_false_r.
Qed.

Lemma texts_closed :
  (forall o v s ts, value_at o v s ts -> Forall closed ts) /\
  (forall o l s ts, elems_at o l s ts -> Forall closed ts) /\
  (forall o l s ts, elems_tail o l s ts -> Forall closed ts) /\
  (forall o l s ts, members_at o l s ts -> Forall closed ts) /\
  (forall o l s ts, members_tail o l s ts -> Forall closed ts) /\
  (forall o k v s ts, member_at o k v s ts -> Forall closed ts).
Proof.
  apply (json_text_mut
    (fun o v s ts _ => Forall closed ts) (fun o l s ts _ => Forall closed ts)
    (fun o l s ts _ => Forall closed ts) (fun o l s ts _ => Forall closed ts)
    (fun o l s ts _ => Forall closed ts) (fun o k v s ts _ => Forall closed ts));
    intros; rewrite ?Forall_cons, ?Forall_app, ?Forall_nil; unfold str_tok;
    auto using closed_tok with lia.
  all: repeat split; try done; apply closed_tok; lia.
Qed.

Lemma elems_tail_head (o : nat) (l : list json) (s : list Z) (ts : list jsmntok_t) :
  elems_tail o l s ts -> s = [] \/ exists r, s = 44 :: r.
Proof. destruct 1; eauto. Qed.

Lemma members_tail_head (o : nat) (l : list (list Z * json)) (s : list Z) (ts : list jsmntok_t) :
  members_tail o l s ts -> s = [] \/ exists r, s = 44 :: r.
Proof. destruct 1; eauto. Qed.

(** ** Every text is read as its reference tokens *)
Lemma texts_run (js : list Z) (len num : nat) :
  (forall o v s ts, value_at o v s ts -> run_value js len num o s ts) /\
  (forall o l s ts, elems_at o l s ts ->
     run_inside js len num at_container (length l) o s ts) /\
  (forall o l s ts, elems_tail o l s ts ->
     run_inside js len num super_ok (length l) o s ts) /\
  (forall o l s ts, members_at o l s ts ->
     run_inside js len num at_container (length l) o s ts) /\
  (forall o l s ts, members_tail o l s ts ->
     run_inside js len num super_ok (length l) o s ts) /\
  (forall o k v s ts, member_at o k v s ts ->
     run_inside js len num at_container 1 o s ts).
Proof.
  destruct texts_closed as (Cv & Ce & Cet & Cm & Cmt & Cmb).
  apply (json_text_mut
    (fun o v s ts _ => run_value js len num o s ts)
    (fun o l s ts _ => run_inside js len num at_container (length l) o s ts)
    (fun o l s ts _ => run_inside js len num super_ok (length l) o s ts)
    (fun o l s ts _ => run_inside js len num at_container (length l) o s ts)
    (fun o l s ts _ => run_inside js len num super_ok (length l) o s ts)
    (fun o k v s ts _ => run_inside js len num at_container 1 o s ts)).
  - intros o s Hp pre stale sup n Ht Hl He Hn Hst Hs.
    destruct stale as [|x stale]; [cbn in Hst; lia|]. exists sup. split; [|by left].
    cbn in Hn. apply rtc_once, prim_step; try done. lia.
  - intros o s Hp pre stale sup n Ht Hl He Hn Hst Hs.
    destruct stale as [|x stale]; [cbn in Hst; lia|]. exists sup. split; [|by left].
    cbn in Hn. apply rtc_once, str_step; try done. lia.
  - intros o l s ts H IH. apply (value_container _ _ _ 91 93); eauto.
  - intros o l s ts H IH. apply (value_container _ _ _ 123 125); eauto.
  - intros o w Hw. by apply inside_ws.
  - intros o v l w1 s w2 rest ts1 ts2 H1 H2 Hv IHv Ht IHt.
    rewrite (app_assoc s), app_assoc.
    apply inside_seq; eauto using inside_elem, elems_tail_head.
    rewrite !length_app. by replace (o + (length w1 + (length s + length w2)))%nat
      with (o + length w1 + length s + length w2)%nat by lia.
  - intros o. apply inside_nil.
  - intros o v l w1 s w2 rest ts1 ts2 H1 H2 Hv IHv Ht IHt.
    apply inside_comma. rewrite (app_assoc s), app_assoc.
    apply inside_seq; eauto using inside_elem, elems_tail_head.
    rewrite !length_app. by replace (S o + (length w1 + (length s + length w2)))%nat
      with (S o + length w1 + length s + length w2)%nat by lia.
  - intros o w Hw. by apply inside_ws.
  - intros o k v l s rest ts1 ts2 Hm IHm Ht IHt.
    apply inside_seq; eauto using members_tail_head.
  - intros o. apply inside_nil.
  - intros o k v l s rest ts1 ts2 Hm IHm Ht IHt.
    apply inside_comma, inside_seq; eauto using members_tail_head.
  - intros o k v w1 w2 w3 s w4 ts H1 H2 H3 H4 Hk Hv IHv. by apply inside_member.
Qed.

Lemma jsmn_parse_text_core (v : json) (s : list Z) (ts : list jsmntok_t) (junk : list Z)
    (toks : list jsmntok_t) (num : nat) :
  text_of v s ts -> (length ts <= num <= length toks)%nat ->
  jsmn_parse jsmn_init (s ++ junk) (length s) toks num =
  (Z.of_nat (length ts), ts ++ drop (length ts) toks).
Proof.
  intros Hs Hn. pose proof (text_at_prefix s junk) as Ht.
  destruct Hs as [w1 s w2 ts Hw1 Hw2 Hv].
  apply text_at_app in Ht as [Ht1 [Ht2 Ht3]%text_at_app].
  remember ((w1 ++ s ++ w2) ++ junk) as js eqn:Ejs. clear Ejs.
  remember (length (w1 ++ s ++ w2)) as len eqn:Elen. rewrite !length_app in Elen.
  destruct (texts_run js len num) as [Hrun _].
  destruct (Hrun _ _ _ _ Hv [] toks (-1) 0) as (sup & R & _);
    [done|lia| |cbn; lia|lia|by left|].
  { eapply ends_ws; [exact Hw2|done|]. left. lia. }
  assert (rtc (iter1 js len num) (jsmn_init, toks, 0)
    (mkParser (0 + length w1 + length s + length w2) (length ts) sup,
     ts ++ drop (length ts) toks, 0 + Z.of_nat (length ts))) as Rall.
  { etrans; [apply (ws_steps js len num 0 0 (-1) 0 w1); [done..|lia]|].
    etrans; [exact R|]. cbn [app length]. apply ws_steps; [done..|lia]. }
  unfold jsmn_parse. apply iters_loop in Rall; [|apply parser_wf_init; cbn; lia].
  cbn [fst snd] in Rall. change (Z.of_nat (toknext jsmn_init)) with 0. rewrite Rall.
  cbn [pos].
  replace (len - (0 + length w1 + length s + length w2))%nat with 0%nat by lia.
  cbn [jsmn_loop toknext].
  rewrite find_unclosed_app_l by done.
  pose proof (find_unclosed_closed [] ts (length ts)) as Hf. cbn [app length] in Hf.
  rewrite Hf; [done| |lia]. by apply (proj1 texts_closed) in Hv.
Qed.

(** C23: tokenisation round trip.  When the buffer starts with the text of a
    JSON value (with white space anywhere it may stand, any contents behind the
    text, and any stale tokens in the array), jsmn_parse returns the number of
    the value's tokens and leaves exactly the reference tokens in the array,
    followed by what was there before. *)
Theorem jsmn_parse_text (v : json) (s : list Z) (ts : list jsmntok_t) (junk : list Z)
    (toks : list jsmntok_t) (num : nat) :
  text_of v s ts -> (length ts <= num <= length toks)%nat ->
  jsmn_parse jsmn_init (s ++ junk) (length s) toks num =
  (Z.of_nat (length ts), ts ++ drop (length ts) toks).
Proof. apply jsmn_parse_text_core. Qed.

(** ** The writer produces texts of the grammar *)
Section JsonInd.
Context (P : json -> Prop)
  (Hprim : forall s, P (JPrim s)) (Hstr : forall s, P (JStr s))
  (Harr : forall l, Forall P l -> P (JArr l))
  (Hobj : forall l, Forall (fun kv => P kv.2) l -> P (JObj l)).

Fixpoint json_nested_ind (v : json) : P v :=
  match v with
  | JPrim s => Hprim s
  | JStr s => Hstr s
  | JArr l =>
      Harr l ((fix go (l : list json) : Forall P l :=
        match l with
        | [] => Forall_nil_2 P
        | v1 :: l1 => Forall_cons_2 P v1 l1 (json_nested_ind v1) (go l1)
        end) l)
  | JObj l =>
      Hobj l ((fix go (l : list (list Z * json)) : Forall (fun kv => P kv.2) l :=
        match l with
        | [] => Forall_nil_2 _
        | kv :: l1 => Forall_cons_2 _ kv l1 (json_nested_ind kv.2) (go l1)
        end) l)
  end.
End JsonInd.

Lemma str_okb_body (s : list Z) : str_okb s = true -> str_body s.
Proof.
  remember (length s) as n eqn:En. revert s En.
  induction n as [n IH] using lt_wf_ind. intros [|c s1] En; [constructor|].
  cbn [str_okb length] in *. destruct (Z.eqb_spec c 34); [done|].
  destruct (Z.eqb_spec c 92) as [->|].
  - destruct s1 as [|e s2]; [done|]. cbn [length] in *.
    destruct (simple_escape e) eqn:Ee.
    { intros H. apply sb_esc; [done|]. by eapply IH; [|reflexivity|]; [lia|]. }
    destruct (Z.eqb_spec e 117) as [->|]; [|done].
    destruct s2 as [|h1 [|h2 [|h3 [|h4 s3]]]]; try done. cbn [length] in *.
    intros H. zbool. apply sb_hex; try done. by eapply IH; [|reflexivity|]; [lia|].
  - intros H. apply sb_char; [done..|]. by eapply IH; [|reflexivity|]; [lia|].
Qed.

Lemma prim_okb_ok (s : list Z) : prim_okb s = true -> prim_ok s.
Proof.
  unfold prim_okb, prim_ok. intros H. zbool. destruct s as [|c s]; [done|]. zbool. split.
  - apply Forall_forall. intros x Hx.
    rewrite forallb_forall in *. unfold prim_char.
    match goal with H : forall x, _ |- _ => specialize (H x) end.
    rewrite <- list_elem_of_In in *. match goal with H : _ -> _ = true |- _ => specialize (H Hx) end.
    zbool. done.
  - eauto 10.
Qed.

(** The inner loops of [print] and [tokens] by name. *)
Fixpoint elems_text (l : list json) : list Z :=
  match l with
  | [] => []
  | v :: l' => 44 :: print v ++ elems_text l'
  end.

Fixpoint elems_tokens (o : nat) (l : list json) : list jsmntok_t :=
  match l with
  | [] => []
  | v :: l' => tokens (S o) v ++ elems_tokens (S o + length (print v))%nat l'
  end.

Fixpoint members_text (l : list (list Z * json)) : list Z :=
  match l with
  | [] => []
  | (k, v) :: l' => 44 :: (quoted k ++ 58 :: print v) ++ members_text l'
  end.

Fixpoint members_tokens (o : nat) (l : list (list Z * json)) : list jsmntok_t :=
  match l with
  | [] => []
  | (k, v) :: l' =>
      (str_tok (S o) k 1 :: tokens (S o + length (quoted k) + 1)%nat v) ++
      members_tokens (S o + length (quoted k) + S (length (print v)))%nat l'
  end.

Definition prints (v : json) : Prop :=
  forall o, json_ok v = true -> value_at o v (print v) (tokens o v).

Lemma elems_text_tail (l : list json) (o : nat) :
  Forall prints l -> forallb json_ok l = true ->
  elems_tail o l (elems_text l) (elems_tokens o l).
Proof.
  intros Hl. revert o. induction Hl as [|v l Hv Hl IH]; intros o Hok; [constructor|].
  cbn [forallb] in Hok. zbool. cbn [elems_text elems_tokens].
  apply (et_cons o v l [] (print v) [] (elems_text l)); [constructor..| |];
    cbn [length]; rewrite ?Nat.add_0_r; [by apply Hv|by apply IH].
Qed.

Lemma print_member (k : list Z) (v : json) (o : nat) :
  prints v -> str_okb k && json_ok v = true ->
  member_at o k v (quoted k ++ 58 :: print v)
    (str_tok o k 1 :: tokens (o + length (quoted k) + 1)%nat v).
Proof.
  intros Hv Hok. zbool.
  pose proof (mb_intro o k v [] [] [] (print v) []
    (tokens (o + length (quoted k) + 1)%nat v)) as Hm.
  cbn [app length] in Hm. rewrite !app_nil_r, !Nat.add_0_r in Hm.
  apply Hm; try constructor; [by apply str_okb_body|by apply Hv].
Qed.

Lemma members_text_tail (l : list (list Z * json)) (o : nat) :
  Forall (fun kv => prints kv.2) l ->
  forallb (fun kv => str_okb kv.1 && json_ok kv.2) l = true ->
  members_tail o l (members_text l) (members_tokens o l).
Proof.
  intros Hl. revert o. induction Hl as [|[k v] l Hv Hl IH]; intros o Hok; [constructor|].
  cbn [forallb] in Hok. apply andb_prop in Hok as [Hkv Hok].
  cbn [members_text members_tokens]. apply mt_cons; [by apply print_member|].
  rewrite length_app. cbn [length]. rewrite Nat.add_assoc. by apply IH.
Qed.

Lemma print_value_at (v : json) : prints v.
Proof.
  induction v as [s|s|l IH|l IH] using json_nested_ind; intros o Hok.
  - apply va_prim. by apply prim_okb_ok.
  - apply va_str. by apply str_okb_body.
  - destruct l as [|v l].
    + pose proof (va_arr o [] [] []) as H. cbn [length] in H.
      change (Z.of_nat 0) with 0 in H. rewrite Z.add_0_r in H.
      apply H, ea_nil. constructor.
    + apply Forall_cons in IH as [Hv Hl]. cbn [json_ok forallb] in Hok. zbool.
      change (print (JArr (v :: l))) with (91 :: (print v ++ elems_text l) ++ [93]).
      change (tokens o (JArr (v :: l))) with
        (mkTok JSMN_ARRAY (Z.of_nat o)
           (Z.of_nat o + Z.of_nat (length (91 :: (print v ++ elems_text l) ++ [93])))
           (Z.of_nat (length (v :: l))) ::
         tokens (S o) v ++ elems_tokens (S o + length (print v))%nat l).
      cbn [length]. rewrite (length_app _ [93]). cbn [length].
      replace (Z.of_nat o + Z.of_nat (S (length (print v ++ elems_text l) + 1))) with
        (Z.of_nat o + Z.of_nat (length (print v ++ elems_text l)) + 2) by lia.
      apply va_arr. apply (ea_cons (S o) v l [] (print v) [] (elems_text l)); [constructor..| |];
        cbn [length]; rewrite ?Nat.add_0_r; [by apply Hv|by apply elems_text_tail].
  - destruct l as [|[k v] l].
    + pose proof (va_obj o [] [] []) as H. cbn [length] in H.
      change (Z.of_nat 0) with 0 in H. rewrite Z.add_0_r in H.
      apply H, ma_nil. constructor.
    + apply Forall_cons in IH as [Hv Hl]. cbn [json_ok forallb] in Hok.
      apply andb_prop in Hok as [Hkv Hok].
      change (print (JObj ((k, v) :: l))) with
        (123 :: ((quoted k ++ 58 :: print v) ++ members_text l) ++ [125]).
      change (tokens o (JObj ((k, v) :: l))) with
        (mkTok JSMN_OBJECT (Z.of_nat o)
           (Z.of_nat o + Z.of_nat (length (123 :: ((quoted k ++ 58 :: print v) ++ members_text l) ++ [125])))
           (Z.of_nat (length ((k, v) :: l))) ::
         (str_tok (S o) k 1 :: tokens (S o + length (quoted k) + 1)%nat v) ++
         members_tokens (S o + length (quoted k) + S (length (print v)))%nat l).
      cbn [length]. rewrite (length_app _ [125]). cbn [length].
      set (body := (quoted k ++ 58 :: print v) ++ members_text l).
      replace (Z.of_nat o + Z.of_nat (S (length body + 1))) with
        (Z.of_nat o + Z.of_nat (length body) + 2) by lia.
      apply va_obj, ma_cons; [by apply print_member|].
      rewrite length_app. cbn [length]. rewrite Nat.add_assoc. by apply members_text_tail.
Qed.

Lemma print_text (v : json) : json_ok v = true -> text_of v (print v) (tokens 0 v).
Proof.
  intros Hok. pose proof (text_intro v [] (print v) [] (tokens 0 v)) as H.
  cbn [app] in H. rewrite app_nil_r in H. apply H; [constructor..|].
  by apply print_value_at.
Qed.

Definition sample_value : json :=
  JObj [(txt "type", JStr (txt "request")); (txt "id", JStr (txt "a1"));
        (txt "params", JObj [(txt "n", JArr [JPrim (txt "1"); JPrim (txt "true")])])].

Lemma jsmn_parse_text_witness :
  json_ok sample_value = true /\
  jsmn_parse jsmn_init (print sample_value ++ replicate 300 7)
    (length (print sample_value)) (replicate 256 inhabitant) 256 =
  (11, tokens 0 sample_value ++ replicate 245 inhabitant).
Proof.
  split; [vm_compute; reflexivity|].
  rewrite (jsmn_parse_text sample_value (print sample_value) (tokens 0 sample_value));
    [vm_compute; reflexivity|apply print_text; vm_compute; reflexivity|].
  split; vm_compute; lia.
Defined.
