(* ===== verification/JsonTok.v ===== *)
(** * Token helpers: the inline functions of json/json_builder.h

    The token array is a list of a fixed length (MAX_JSON_TOKENS entries, stale
    ones included).  An index outside of it is undefined behaviour in C and
    [None] here; entries behind the tokens of the current message are read as
    whatever they hold.  [located] ties a token index to the JSON value that
    stands there; the command handlers are specified through it. *)
From S2P Require Import Prelude CLib Jsmn JsonText.
#[local] Open Scope Z_scope.

(** ** The helpers *)
Definition tlen (t : jsmntok_t) : Z := tk_end t - tk_start t.

Definition tok_bytes (js : list Z) (t : jsmntok_t) (n : nat) : list Z :=
  take n (drop (Z.to_nat (tk_start t)) js).

Definition tok_eq (js : list Z) (t : jsmntok_t) (s : list Z) : bool :=
  (tlen t =? Z.of_nat (length s)) && bool_decide (tok_bytes js t (length s) = s).

(** The C string tok_str leaves in a buffer of [cap] octets; a negative
    length is a huge [size_t]. *)
Definition tok_str (js : list Z) (t : jsmntok_t) (cap : nat) : list Z :=
  let n := u64 (tlen t) in
  cstr (tok_bytes js t (if Z.of_nat cap <=? n then cap - 1 else Z.to_nat n)).

(** The loop that steps over a value: [skip] subtrees are still to come. *)
Fixpoint skip_loop (fuel : nat) (t : list jsmntok_t) (skip : Z) (i : nat) : option nat :=
  if 0 <? skip then
    match fuel with
    | O => None
    | S f =>
        match t !! i with
        | None => None
        | Some tk => skip_loop f t (skip + tk_size tk - 1) (S i)
        end
    end
  else Some i.

(** An index grows with every turn, so the length of the array is enough. *)
Definition skip_value (t : list jsmntok_t) (i : nat) : option nat :=
  skip_loop (length t) t 1 i.

(** The loop over the members, with [n] of them left. *)
Fixpoint find_loop (n : nat) (js : list Z) (t : list jsmntok_t) (key : list Z) (i : nat)
    : option Z :=
  match n with
  | O => Some (-1)
  | S n' =>
      match t !! i with
      | None => None
      | Some tk =>
          if tok_eq js tk key then Some (Z.of_nat i + 1)
          else
            match skip_value t (S i) with
            | None => None
            | Some i' => find_loop n' js t key i'
            end
      end
  end.

Definition tok_find_key (js : list Z) (t : list jsmntok_t) (obj : nat) (key : list Z)
    : option Z :=
  match t !! obj with
  | None => None
  | Some o => find_loop (Z.to_nat (tk_size o)) js t key (S obj)
  end.

Definition tok_is_true (js : list Z) (t : jsmntok_t) : bool :=
  bool_decide (tk_type t = JSMN_PRIMITIVE) && tok_eq js t (txt "true").

Definition tok_is_false (js : list Z) (t : jsmntok_t) : bool :=
  bool_decide (tk_type t = JSMN_PRIMITIVE) && tok_eq js t (txt "false").

Definition tok_is_bool (js : list Z) (t : jsmntok_t) : bool :=
  tok_is_true js t || tok_is_false js t.

(** ** Specification *)

(** The first member with the given key. *)
Fixpoint jfind (key : list Z) (l : list (list Z * json)) : option json :=
  match l with
  | [] => None
  | (k, v) :: l' => if bool_decide (k = key) then Some v else jfind key l'
  end.

(** The value [v] stands at token [i] of the array. *)
Definition located (js : list Z) (t : list jsmntok_t) (i : nat) (v : json) : Prop :=
  exists o s ts pre post,
    value_at o v s ts /\ text_at js o s /\ t = pre ++ ts ++ post /\ length pre = i.

(** ** Skipping a value *)
Lemma skip_loop_step (fuel : nat) (pre post : list jsmntok_t) (tk : jsmntok_t) (skip : Z) :
  0 < skip ->
  skip_loop (S fuel) (pre ++ tk :: post) skip (length pre) =
  skip_loop fuel (pre ++ tk :: post) (skip + tk_size tk - 1) (S (length pre)).
Proof.
  intros H. cbn [skip_loop]. rewrite (proj2 (Z.ltb_lt 0 skip)) by done.
  by rewrite list_lookup_middle.
Qed.

(** [n] subtrees with the tokens [ts] are consumed together. *)
Definition skips (n : nat) (ts : list jsmntok_t) : Prop :=
  forall pre post k fuel, 0 <= k ->
    skip_loop (length ts + fuel) (pre ++ ts ++ post) (k + Z.of_nat n) (length pre) =
    skip_loop fuel (pre ++ ts ++ post) k (length pre + length ts)%nat.

Lemma skips_nil : skips 0 [].
Proof. intros pre post k fuel Hk. cbn. by rewrite Nat.add_0_r, Z.add_0_r. Qed.

Lemma skips_app (n m : nat) (ts1 ts2 : list jsmntok_t) :
  skips n ts1 -> skips m ts2 -> skips (n + m) (ts1 ++ ts2).
Proof.
  intros H1 H2 pre post k fuel Hk. rewrite length_app, <- Nat.add_assoc, <- app_assoc.
  rewrite Nat2Z.inj_add, (Z.add_comm (Z.of_nat n)), Z.add_assoc.
  rewrite H1 by lia. rewrite <- length_app, app_assoc.
  rewrite (H2 (pre ++ ts1)) by lia. f_equal. rewrite !length_app. lia.
Qed.

Lemma skips_cons (n : nat) (tk : jsmntok_t) (ts : list jsmntok_t) :
  tk_size tk = Z.of_nat n -> skips n ts -> skips 1 (tk :: ts).
Proof.
  intros Hs H pre post k fuel Hk. cbn [length app Nat.add].
  rewrite skip_loop_step by lia.
  replace (k + Z.of_nat 1 + tk_size tk - 1) with (k + Z.of_nat n) by lia.
  change (pre ++ tk :: ts ++ post) with (pre ++ [tk] ++ ts ++ post).
  rewrite (app_assoc pre). rewrite <- (Nat.add_1_r (length pre)).
  change 1%nat with (length [tk]) at 1. rewrite <- length_app.
  rewrite H by lia. f_equal. rewrite length_app. cbn. lia.
Qed.

Lemma skips_text :
  (forall o v s ts, value_at o v s ts -> skips 1 ts) /\
  (forall o l s ts, elems_at o l s ts -> skips (length l) ts) /\
  (forall o l s ts, elems_tail o l s ts -> skips (length l) ts) /\
  (forall o l s ts, members_at o l s ts -> skips (length l) ts) /\
  (forall o l s ts, members_tail o l s ts -> skips (length l) ts) /\
  (forall o k v s ts, member_at o k v s ts -> skips 1 ts).
Proof.
  apply json_text_mut; intros; try (by apply skips_nil);
    try (by apply (skips_app 1));
    eapply skips_cons; try (by apply skips_nil); try done; by cbn.
Qed.

Lemma skip_loop_0 (fuel : nat) (t : list jsmntok_t) (i : nat) :
  skip_loop fuel t 0 i = Some i.
Proof. by destruct fuel. Qed.

Lemma skip_value_text (ts pre post : list jsmntok_t) :
  skips 1 ts ->
  skip_value (pre ++ ts ++ post) (length pre) = Some (length pre + length ts)%nat.
Proof.
  intros H. unfold skip_value.
  replace (length (pre ++ ts ++ post)) with (length ts + (length pre + length post))%nat
    by (rewrite !length_app; lia).
  change 1 with (0 + Z.of_nat 1). rewrite H by lia. apply skip_loop_0.
Qed.

(** ** Comparing a token *)
Lemma text_at_take (js s : list Z) (o : nat) :
  text_at js o s -> take (length s) (drop o js) = s.
Proof.
  intros H. apply list_eq. intros i. destruct (decide (i < length s)%nat) as [Hi|Hi].
  - rewrite lookup_take_lt, lookup_drop by done.
    destruct (lookup_lt_is_Some_2 s i Hi) as [c Hc]. rewrite Hc. by apply H.
  - rewrite lookup_take_ge by lia. symmetry. apply lookup_ge_None. lia.
Qed.

(** A token that spans the text [s]. *)
Definition spans (js : list Z) (tk : jsmntok_t) (s : list Z) : Prop :=
  tlen tk = Z.of_nat (length s) /\ text_at js (Z.to_nat (tk_start tk)) s.

Lemma tok_eq_spans (js : list Z) (tk : jsmntok_t) (s key : list Z) :
  spans js tk s -> tok_eq js tk key = bool_decide (s = key).
Proof.
  intros [Hl Ht]. unfold tok_eq, tok_bytes. rewrite Hl.
  destruct (decide (length s = length key)) as [E|E].
  - rewrite <- E, Z.eqb_refl. cbn [andb]. by rewrite (text_at_take _ _ _ Ht).
  - rewrite (proj2 (Z.eqb_neq _ _)) by lia. cbn. symmetry.
    apply bool_decide_eq_false. by intros ->.
Qed.

Lemma tok_str_spans (js : list Z) (tk : jsmntok_t) (s : list Z) (cap : nat) :
  spans js tk s -> (0 < cap)%nat -> Z.of_nat (length s) < 2 ^ 64 ->
  tok_str js tk cap = cstr (take (cap - 1) s).
Proof.
  intros [Hl Ht] Hc Hn. unfold tok_str. rewrite Hl, u64_small by lia.
  destruct (Z.leb_spec (Z.of_nat cap) (Z.of_nat (length s))).
  - unfold tok_bytes. f_equal.
    transitivity (take (cap - 1) (take (length s) (drop (Z.to_nat (tk_start tk)) js))).
    + by rewrite take_take, Nat.min_l by lia.
    + by rewrite (text_at_take _ _ _ Ht).
  - rewrite Nat2Z.id, (take_ge s) by lia. f_equal. unfold tok_bytes. by apply text_at_take.
Qed.

(** The text a token of a value spans: the raw contents of a string, the
    whole text of anything else. *)
Definition tok_text (v : json) (s : list Z) : list Z :=
  match v with JStr r => r | _ => s end.

Definition tok_type (v : json) : jsmntype_t :=
  match v with
  | JPrim _ => JSMN_PRIMITIVE | JStr _ => JSMN_STRING
  | JArr _ => JSMN_ARRAY | JObj _ => JSMN_OBJECT
  end.

Definition tok_size_of (v : json) : nat :=
  match v with JPrim _ | JStr _ => 0 | JArr l => length l | JObj l => length l end.

Lemma value_head (js : list Z) (o : nat) (v : json) (s : list Z) (ts : list jsmntok_t) :
  value_at o v s ts -> text_at js o s ->
  exists tk ts', ts = tk :: ts' /\ tk_type tk = tok_type v /\
    tk_size tk = Z.of_nat (tok_size_of v) /\ spans js tk (tok_text v s).
Proof.
  intros Hv Ht. unfold spans, tlen.
  destruct Hv as [o s Hp|o s Hs|o l s ts Hl|o l s ts Hl]; do 2 eexists;
    (split; [reflexivity|]); cbn -[Z.of_nat]; (split; [done|]); (split; [done|]).
  - rewrite Nat2Z.id. split; [lia|done].
  - unfold quoted in Ht. apply text_at_cons in Ht as [_ [Ht _]%text_at_app].
    split; [lia|]. by replace (Z.to_nat (Z.of_nat o + 1)) with (S o) by lia.
  - rewrite Nat2Z.id. split; [|done]. rewrite length_app. cbn. lia.
  - rewrite Nat2Z.id. split; [|done]. rewrite length_app. cbn. lia.
Qed.

Lemma located_head (js : list Z) (t : list jsmntok_t) (i : nat) (v : json) :
  located js t i v ->
  exists tk s, t !! i = Some tk /\ tk_type tk = tok_type v /\
    tk_size tk = Z.of_nat (tok_size_of v) /\ spans js tk (tok_text v s) /\
    (forall r, v = JPrim r -> s = r).
Proof.
  intros (o & s & ts & pre & post & Hv & Ht & -> & <-).
  destruct (value_head js o v s ts Hv Ht) as (tk & ts' & -> & Hty & Hsz & Hsp).
  exists tk, s. cbn [app]. rewrite list_lookup_middle by done. repeat (split; [done|]).
  intros r ->. by inversion Hv.
Qed.

(** ** Finding a key *)

(** From a member list standing at the tokens [i]: the search finds the first
    member with the key. *)
Definition finds (js : list Z) (t : list jsmntok_t) (key : list Z)
    (l : list (list Z * json)) (i : nat) : Prop :=
  match jfind key l with
  | Some v => exists j, find_loop (length l) js t key i = Some (Z.of_nat j) /\ located js t j v
  | None => find_loop (length l) js t key i = Some (-1)
  end.

Lemma finds_member (js : list Z) (t pre post : list jsmntok_t) (key k s : list Z) (v : json)
    (l : list (list Z * json)) (o : nat) (ts : list jsmntok_t) :
  member_at o k v s ts -> text_at js o s -> t = pre ++ ts ++ post ->
  finds js t key l (length pre + length ts)%nat ->
  finds js t key ((k, v) :: l) (length pre).
Proof.
  intros Hm Ht -> Hl. pose proof Hm as Hsk.
  destruct Hm as [o k v w1 w2 w3 s w4 ts H1 H2 H3 H4 Hk Hv].
  apply text_at_app in Ht as [_ [Hq [_ [_ [_ [Hs _]%text_at_app]%text_at_app]%text_at_app]%text_at_app]%text_at_app].
  unfold finds. cbn [jfind length find_loop app].
  rewrite list_lookup_middle by done.
  rewrite (tok_eq_spans js _ k).
  2: { unfold spans, tlen, str_tok. cbn [tk_end tk_start]. split; [lia|].
       unfold quoted in Hq. apply text_at_cons in Hq as [_ [Hq _]%text_at_app].
       by replace (Z.to_nat (Z.of_nat (o + length w1) + 1)) with (S (o + length w1)) by lia. }
  case_bool_decide as Ek.
  - exists (S (length pre)). split; [f_equal; lia|].
    eexists _, s, ts, (pre ++ [_]), post. repeat split; [exact Hv| |by rewrite <- app_assoc|].
    + exact Hs.
    + rewrite length_app. cbn. lia.
  - cbn [app] in Hl.
    change (pre ++ str_tok (o + length w1) k 1 :: ts ++ post)
      with (pre ++ [str_tok (o + length w1) k 1] ++ ts ++ post).
    change (pre ++ str_tok (o + length w1) k 1 :: ts ++ post)
      with (pre ++ [str_tok (o + length w1) k 1] ++ ts ++ post) in Hl.
    rewrite (app_assoc pre) in *.
    replace (S (length pre)) with (length (pre ++ [str_tok (o + length w1) k 1]))
      by (rewrite length_app; cbn; lia).
    rewrite skip_value_text by (eapply (proj1 skips_text); exact Hv).
    unfold finds in Hl. cbn [length] in Hl.
    replace (length (pre ++ [str_tok (o + length w1) k 1]) + length ts)%nat
      with (length pre + S (length ts))%nat by (rewrite length_app; cbn; lia).
    done.
Qed.

Lemma finds_nil (js : list Z) (t : list jsmntok_t) (key : list Z) (i : nat) :
  finds js t key [] i.
Proof. done. Qed.

Lemma finds_tail (js : list Z) (key : list Z) (l : list (list Z * json)) (o : nat) (s : list Z)
    (ts : list jsmntok_t) (t pre post : list jsmntok_t) :
  members_tail o l s ts -> text_at js o s -> t = pre ++ ts ++ post ->
  finds js t key l (length pre).
Proof.
  intros Hm. revert pre. induction Hm as [o|o k v l s rest ts1 ts2 Hk Hm IH];
    intros pre Ht ->; [apply finds_nil|].
  apply text_at_cons in Ht as [_ [Ht1 Ht2]%text_at_app].
  eapply finds_member; [exact Hk|done|by rewrite <- app_assoc|].
  rewrite <- length_app. apply IH; [by cbn|by rewrite <- !app_assoc].
Qed.

Lemma located_find (js : list Z) (t : list jsmntok_t) (i : nat) (l : list (list Z * json))
    (key : list Z) :
  located js t i (JObj l) ->
  match jfind key l with
  | Some v => exists j, tok_find_key js t i key = Some (Z.of_nat j) /\ located js t j v
  | None => tok_find_key js t i key = Some (-1)
  end.
Proof.
  intros (o & s & ts & pre & post & Hv & Ht & -> & <-).
  inversion Hv as [| | |? ? s' ts' Hm]; subst.
  unfold tok_find_key. cbn [app]. rewrite list_lookup_middle by done. cbn [tk_size].
  rewrite Nat2Z.id.
  apply text_at_cons in Ht as [_ [Ht _]%text_at_app].
  change (finds js (pre ++ mkTok JSMN_OBJECT (Z.of_nat o) (Z.of_nat o + Z.of_nat (length s') + 2)
    (Z.of_nat (length l)) :: ts' ++ post) key l (S (length pre))).
  destruct Hm as [o' w Hw|o' k v l s1 rest ts1 ts2 Hk Hm]; [apply finds_nil|].
  apply text_at_app in Ht as [Ht1 Ht2].
  match goal with |- finds _ (pre ++ ?x :: _) _ _ _ =>
    replace (S (length pre)) with (length (pre ++ [x])) by (rewrite length_app; cbn; lia) end.
  eapply finds_member; [exact Hk|done|by rewrite <- !app_assoc|].
  rewrite <- length_app. eapply finds_tail; [exact Hm|done|by rewrite <- !app_assoc].
Qed.

Lemma located_find_scalar (js : list Z) (t : list jsmntok_t) (i : nat) (v : json) (key : list Z) :
  located js t i v -> tok_size_of v = 0%nat -> tok_find_key js t i key = Some (-1).
Proof.
  intros Hl Hv. destruct (located_head _ _ _ _ Hl) as (tk & s & Htk & _ & Hsz & _).
  unfold tok_find_key. by rewrite Htk, Hsz, Hv.
Qed.

(** The tokens of a message whose text is that of [v]. *)
Lemma located_text (v : json) (s junk : list Z) (ts stale : list jsmntok_t) :
  text_of v s ts -> located (s ++ junk) (ts ++ stale) 0 v.
Proof.
  intros Hs. pose proof (text_at_prefix s junk) as Ht.
  destruct Hs as [w1 s w2 ts Hw1 Hw2 Hv].
  apply text_at_app in Ht as [_ [Ht _]%text_at_app].
  exists (length w1), s, ts, [], stale. done.
Qed.

(** Member lookup.  For a message that is the text of a JSON object (with
    any white space, any octets behind it and any stale tokens in the array),
    tok_find_key on the parsed tokens stays inside the array and returns the
    token index at which the value of the first member with that key stands,
    or -1 when no member has the key. *)
Theorem tok_find_key_message (l : list (list Z * json)) (s junk key : list Z)
    (ts toks : list jsmntok_t) (num : nat) :
  text_of (JObj l) s ts -> (length ts <= num <= length toks)%nat ->
  let '(n, t) := jsmn_parse jsmn_init (s ++ junk) (length s) toks num in
  n = Z.of_nat (length ts) /\
  match jfind key l with
  | Some v => exists j, tok_find_key (s ++ junk) t 0 key = Some (Z.of_nat j) /\
                        located (s ++ junk) t j v
  | None => tok_find_key (s ++ junk) t 0 key = Some (-1)
  end.
Proof.
  intros Hs Hn. rewrite (jsmn_parse_text_core _ _ _ _ _ _ Hs Hn). split; [done|].
  by apply located_find, located_text.
Qed.

Definition sample_members : list (list Z * json) :=
  [(txt "type", JStr (txt "request")); (txt "params", JObj [(txt "id", JPrim (txt "7"))]);
   (txt "id", JStr (txt "a1")); (txt "id", JStr (txt "a2"))].

Lemma tok_find_key_message_witness :
  let js := print (JObj sample_members) in
  let '(n, t) := jsmn_parse jsmn_init (js ++ [0]) (length js) (replicate 256 inhabitant) 256 in
  n = 11 /\ exists j, tok_find_key (js ++ [0]) t 0 (txt "id") = Some (Z.of_nat j) /\
    located (js ++ [0]) t j (JStr (txt "a1")).
Proof.
  pose proof (tok_find_key_message sample_members (print (JObj sample_members)) [0] (txt "id")
    (tokens 0 (JObj sample_members)) (replicate 256 inhabitant) 256) as H.
  apply H; [apply print_text; vm_compute; reflexivity|split; vm_compute; lia].
Defined.

(** The lookup reads past the tokens of the message when a key has no
    value: jsmn_parse accepts the message "{'a'}" with two tokens, and the
    tokens left over from an earlier message then decide whether tok_find_key
    reports the key "id" as absent or walks out of the token array. *)
Theorem tok_find_key_reads_stale :
  let js := jq "{'a'}" in
  exists t1 t2 : list jsmntok_t,
    length t1 = 256%nat /\ length t2 = 256%nat /\
    (jsmn_parse jsmn_init js 5 t1 256).1 = 2 /\ (jsmn_parse jsmn_init js 5 t2 256).1 = 2 /\
    tok_find_key js (jsmn_parse jsmn_init js 5 t1 256).2 0 (txt "id") = Some (-1) /\
    tok_find_key js (jsmn_parse jsmn_init js 5 t2 256).2 0 (txt "id") = None.
Proof.
  exists (replicate 256 (mkTok JSMN_PRIMITIVE 0 1 0)), (replicate 256 (mkTok JSMN_OBJECT 0 1 1)).
  vm_compute. repeat split; reflexivity.
Qed.
