(* ===== verification/Sha256.v ===== *)
(** * SHA-256 and HMAC: common/auth.c, first half

    The buffered implementation of the daemon, and the one-shot definition of
    FIPS 180-4 (pad the message, fold the compression function over its blocks)
    it refines.  Words are 32-bit [Z], octets [Z] in 0..255. *)
From S2P Require Import Prelude CLib.
#[local] Open Scope Z_scope.

(** ** Constants *)

(** Words written in hexadecimal, eight digits each, separated by a space. *)
Fixpoint hexwords_go (l : list Z) (acc : Z) (k : nat) : list Z :=
  match l with
  | [] => if (k =? 0)%nat then [] else [acc]
  | c :: l' =>
      match hex_digit c with
      | Some v => hexwords_go l' (acc * 16 + v) (S k)
      | None => if (k =? 0)%nat then hexwords_go l' 0 0 else acc :: hexwords_go l' 0 0
      end
  end.

Definition hexwords (s : string) : list Z := hexwords_go (txt s) 0 0.

Definition K : list Z := Eval vm_compute in
  hexwords "428a2f98 71374491 b5c0fbcf e9b5dba5 3956c25b 59f111f1 923f82a4 ab1c5ed5"
  ++ hexwords "d807aa98 12835b01 243185be 550c7dc3 72be5d74 80deb1fe 9bdc06a7 c19bf174"
  ++ hexwords "e49b69c1 efbe4786 0fc19dc6 240ca1cc 2de92c6f 4a7484aa 5cb0a9dc 76f988da"
  ++ hexwords "983e5152 a831c66d b00327c8 bf597fc7 c6e00bf3 d5a79147 06ca6351 14292967"
  ++ hexwords "27b70a85 2e1b2138 4d2c6dfc 53380d13 650a7354 766a0abb 81c2c92e 92722c85"
  ++ hexwords "a2bfe8a1 a81a664b c24b8b70 c76c51a3 d192e819 d6990624 f40e3585 106aa070"
  ++ hexwords "19a4c116 1e376c08 2748774c 34b0bcb5 391c0cb3 4ed8aa4a 5b9cca4f 682e6ff3"
  ++ hexwords "748f82ee 78a5636f 84c87814 8cc70208 90befffa a4506ceb bef9a3f7 c67178f2".

Definition iv : list Z := Eval vm_compute in
  hexwords "6a09e667 bb67ae85 3c6ef372 a54ff53a 510e527f 9b05688c 1f83d9ab 5be0cd19".

(** ** The compression function *)
Definition ROTR (x n : Z) : Z := Z.lor (Z.shiftr x n) (u32 (Z.shiftl x (32 - n))).

Definition lnot32 (x : Z) : Z := 2 ^ 32 - 1 - x.

Definition word_at (p : list Z) (i : nat) : Z := of_be (take 4 (drop (4 * i) p)).

(** [w[i]] for the next [i]: the array so far is [w]. *)
Definition next_w (w : list Z) : Z :=
  let i := length w in
  let a := w !!! (i - 15)%nat in
  let b := w !!! (i - 2)%nat in
  let s0 := Z.lxor (Z.lxor (ROTR a 7) (ROTR a 18)) (Z.shiftr a 3) in
  let s1 := Z.lxor (Z.lxor (ROTR b 17) (ROTR b 19)) (Z.shiftr b 10) in
  u32 (w !!! (i - 16)%nat + s0 + w !!! (i - 7)%nat + s1).

Fixpoint extend_w (n : nat) (w : list Z) : list Z :=
  match n with O => w | S n' => extend_w n' (w ++ [next_w w]) end.

Definition schedule (p : list Z) : list Z := extend_w 48 (word_at p <$> seq 0 16).

Record vars := mkVars { va : Z; vb : Z; vc : Z; vd : Z; ve : Z; vf : Z; vg : Z; vh : Z }.

Definition round (v : vars) (kw : Z * Z) : vars :=
  let S1 := Z.lxor (Z.lxor (ROTR (ve v) 6) (ROTR (ve v) 11)) (ROTR (ve v) 25) in
  let chv := Z.lxor (Z.land (ve v) (vf v)) (Z.land (lnot32 (ve v)) (vg v)) in
  let t1 := u32 (vh v + S1 + chv + kw.1 + kw.2) in
  let S0 := Z.lxor (Z.lxor (ROTR (va v) 2) (ROTR (va v) 13)) (ROTR (va v) 22) in
  let mj := Z.lxor (Z.lxor (Z.land (va v) (vb v)) (Z.land (va v) (vc v)))
                   (Z.land (vb v) (vc v)) in
  let t2 := u32 (S0 + mj) in
  mkVars (u32 (t1 + t2)) (va v) (vb v) (vc v) (u32 (vd v + t1)) (ve v) (vf v) (vg v).

Definition vars_of (h : list Z) : vars :=
  mkVars (h !!! 0%nat) (h !!! 1%nat) (h !!! 2%nat) (h !!! 3%nat)
         (h !!! 4%nat) (h !!! 5%nat) (h !!! 6%nat) (h !!! 7%nat).

Definition vars_list (v : vars) : list Z :=
  [va v; vb v; vc v; vd v; ve v; vf v; vg v; vh v].

(** sha256_block on the chaining value [h] and the 64 octets [p]. *)
Definition sha256_block (h p : list Z) : list Z :=
  let v := fold_left round (zip K (schedule p)) (vars_of h) in
  zip_with (fun x y => u32 (x + y)) h (vars_list v).

(** ** The buffered implementation *)
Record sha256_t := mkSha {
  sh_h : list Z;
  sh_len : Z;
  sh_buf : list Z;
  sh_buflen : nat
}.

#[export] Instance eta_sha : Eta sha256_t :=
  fun s => mkSha (sh_h s) (sh_len s) (sh_buf s) (sh_buflen s).

(** sha256_init leaves the octets of the buffer as they are. *)
Definition sha256_init (s : sha256_t) : sha256_t :=
  s <| sh_h := iv |> <| sh_len := 0 |> <| sh_buflen := 0%nat |>.

(** [memcpy(buf + off, c, |c|)]. *)
Definition write_at (off : nat) (c buf : list Z) : list Z :=
  take off buf ++ c ++ drop (off + length c) buf.

(** One turn of the loop of sha256_update, with the octets [c] it takes. *)
Definition sha256_chunk (s : sha256_t) (c : list Z) : sha256_t :=
  let s1 := s <| sh_buf := write_at (sh_buflen s) c (sh_buf s) |>
              <| sh_buflen := (sh_buflen s + length c)%nat |> in
  if (sh_buflen s1 =? 64)%nat
  then s1 <| sh_h := sha256_block (sh_h s1) (sh_buf s1) |> <| sh_buflen := 0%nat |>
  else s1.

Fixpoint update_loop (fuel : nat) (s : sha256_t) (p : list Z) : sha256_t :=
  match fuel, p with
  | S f, _ :: _ =>
      let n := Nat.min (64 - sh_buflen s) (length p) in
      update_loop f (sha256_chunk s (take n p)) (drop n p)
  | _, _ => s
  end.

(** Every turn takes at least one octet. *)
Definition sha256_update (s : sha256_t) (p : list Z) : sha256_t :=
  update_loop (length p) (s <| sh_len := u64 (sh_len s + Z.of_nat (length p)) |>) p.

(** [while (buflen != 56) sha256_update(s, &z, 1)]: at most 63 turns. *)
Fixpoint pad_loop (fuel : nat) (s : sha256_t) : sha256_t :=
  match fuel with
  | O => s
  | S f => if (sh_buflen s =? 56)%nat then s else pad_loop f (sha256_update s [0])
  end.

Definition be64 (x : Z) : list Z := be32 (Z.shiftr x 32) ++ be32 x.

Definition sha256_final (s : sha256_t) : list Z :=
  let bits := u64 (sh_len s * 8) in
  let s1 := pad_loop 64 (sha256_update s [128]) in
  let s2 := sha256_update s1 (be64 bits) in
  mjoin (be32 <$> sh_h s2).

(** The local [sha256_t] of each function starts with arbitrary contents. *)
Definition sha256 (s : sha256_t) (p : list Z) : list Z :=
  sha256_final (sha256_update (sha256_init s) p).

(** ** HMAC *)
Definition zero_pad (n : nat) (k : list Z) : list Z := k ++ replicate (n - length k) 0.

Definition auth_hmac_sha256 (s : sha256_t) (key msg : list Z) : list Z :=
  let k := zero_pad 64 (if (64 <? length key)%nat then sha256 s key else key) in
  let ipad := (fun b => Z.lxor b 0x36) <$> k in
  let opad := (fun b => Z.lxor b 0x5c) <$> k in
  let inner := sha256_final (sha256_update (sha256_update (sha256_init s) ipad) msg) in
  sha256_final (sha256_update (sha256_update (sha256_init s) opad) inner).

(** ** Specification: FIPS 180-4 and RFC 2104 *)
Definition pad_zeros (n : nat) : nat := (119 - n mod 64) mod 64.

Definition sha_pad (m : list Z) : list Z :=
  m ++ [128] ++ replicate (pad_zeros (length m)) 0 ++ be64 (8 * Z.of_nat (length m)).

Fixpoint compress (k : nat) (h l : list Z) : list Z :=
  match k with
  | O => h
  | S k' => compress k' (sha256_block h (take 64 l)) (drop 64 l)
  end.

Definition SHA256 (m : list Z) : list Z :=
  let p := sha_pad m in mjoin (be32 <$> compress (length p / 64) iv p).

Definition block_key (key : list Z) : list Z :=
  zero_pad 64 (if (64 <? length key)%nat then SHA256 key else key).

Definition HMAC (key msg : list Z) : list Z :=
  SHA256 (((fun b => Z.lxor b 0x5c) <$> block_key key) ++
          SHA256 (((fun b => Z.lxor b 0x36) <$> block_key key) ++ msg)).

(** ** The buffered implementation computes the specification *)
Lemma compress_app (k : nat) (h l c : list Z) :
  (64 * k <= length l)%nat -> compress k h (l ++ c) = compress k h l.
Proof.
  revert h l. induction k as [|k IH]; intros h l Hl; cbn [compress]; [done|].
  rewrite take_app_le, drop_app_le by lia. apply IH. rewrite length_drop. lia.
Qed.

Lemma compress_snoc (k : nat) (h l : list Z) :
  compress (S k) h l = sha256_block (compress k h l) (take 64 (drop (64 * k) l)).
Proof.
  revert h l. induction k as [|k IH]; intros h l; [done|].
  change (compress (S (S k)) h l) with (compress (S k) (sha256_block h (take 64 l)) (drop 64 l)).
  rewrite IH, drop_drop. cbn [compress]. do 3 f_equal. lia.
Qed.

(** The state holds the message [m]: its whole blocks are in the chaining
    value, the rest is at the head of the buffer. *)
Definition absorbed (m : list Z) (s : sha256_t) : Prop :=
  length (sh_buf s) = 64%nat /\ sh_buflen s = (length m mod 64)%nat /\
  take (sh_buflen s) (sh_buf s) = drop (64 * (length m / 64)) m /\
  sh_h s = compress (length m / 64) iv m.

Lemma absorbed_init (s : sha256_t) :
  length (sh_buf s) = 64%nat -> absorbed [] (sha256_init s).
Proof. done. Qed.

Lemma write_at_length (off : nat) (c buf : list Z) :
  (off + length c <= length buf)%nat -> length (write_at off c buf) = length buf.
Proof. intros H. unfold write_at. rewrite !length_app, length_take, length_drop. lia. Qed.

Lemma write_at_take (off : nat) (c buf : list Z) :
  (off + length c <= length buf)%nat ->
  take (off + length c) (write_at off c buf) = take off buf ++ c.
Proof.
  intros H. unfold write_at. rewrite app_assoc. apply take_app_length'.
  rewrite length_app, length_take. lia.
Qed.

Lemma absorbed_chunk (m c : list Z) (s : sha256_t) :
  absorbed m s -> (length c <= 64 - sh_buflen s)%nat -> absorbed (m ++ c) (sha256_chunk s c).
Proof.
  intros (Hb & Hl & Ht & Hh) Hc.
  pose proof (Nat.div_mod_eq (length m) 64) as Hd.
  pose proof (Nat.mod_upper_bound (length m) 64 ltac:(lia)) as Hm.
  assert (sh_buflen s + length c <= length (sh_buf s))%nat as Hin by lia.
  pose proof (write_at_length _ _ _ Hin) as Hwl. pose proof (write_at_take _ _ _ Hin) as Hwt.
  rewrite Ht in Hwt. unfold sha256_chunk. cbn [sh_buflen sh_buf sh_h upd].
  assert (drop (64 * (length m / 64)) m ++ c = drop (64 * (length m / 64)) (m ++ c)) as Hdrop
    by (rewrite drop_app_le by lia; done).
  destruct (Nat.eqb_spec (sh_buflen s + length c) 64) as [E|E]; unfold absorbed;
    cbn [sh_buflen sh_buf sh_h upd]; rewrite length_app.
  - assert ((length m + length c) / 64 = S (length m / 64))%nat as Hq
      by (symmetry; apply (Nat.div_unique _ _ _ 0); lia).
    assert ((length m + length c) mod 64 = 0)%nat as Hr
      by (symmetry; apply (Nat.mod_unique _ _ (S (length m / 64))); lia).
    rewrite Hq, Hr. split; [lia|]. split; [done|]. split.
    + cbn [take]. symmetry. apply drop_ge. rewrite length_app. lia.
    + rewrite compress_snoc, compress_app, <- Hh by lia. f_equal.
      rewrite <- Hdrop, take_ge by (rewrite length_app, length_drop; lia).
      rewrite <- Hwt, E. symmetry. apply take_ge. lia.
  - assert ((length m + length c) / 64 = length m / 64)%nat as Hq
      by (symmetry; apply (Nat.div_unique _ _ _ (sh_buflen s + length c)); lia).
    assert ((length m + length c) mod 64 = sh_buflen s + length c)%nat as Hr
      by (symmetry; apply (Nat.mod_unique _ _ (length m / 64)); lia).
    rewrite Hq, Hr. split; [lia|]. split; [done|]. split; [by rewrite Hwt, Hdrop|].
    by rewrite compress_app by lia.
Qed.

Lemma absorbed_len (m : list Z) (s : sha256_t) (n : Z) :
  absorbed m s -> absorbed m (s <| sh_len := n |>).
Proof. done. Qed.

Lemma absorbed_loop (fuel : nat) (p m : list Z) (s : sha256_t) :
  absorbed m s -> (length p <= fuel)%nat -> absorbed (m ++ p) (update_loop fuel s p).
Proof.
  revert p m s. induction fuel as [|f IH]; intros p m s Hs Hf.
  { destruct p; [by rewrite app_nil_r|cbn in Hf; lia]. }
  destruct p as [|x p]; [by rewrite app_nil_r|].
  cbn [update_loop]. set (n := Nat.min _ _).
  assert (sh_buflen s < 64)%nat as Hb.
  { destruct Hs as (_ & -> & _). apply Nat.mod_upper_bound. lia. }
  assert (1 <= n <= 64 - sh_buflen s)%nat as Hn by (subst n; cbn [length]; lia).
  rewrite <- (take_drop n (x :: p)) at 1. rewrite app_assoc.
  apply IH; [|rewrite length_drop; lia].
  apply absorbed_chunk; [done|]. rewrite length_take. lia.
Qed.

Lemma update_loop_len (fuel : nat) (p : list Z) (s : sha256_t) :
  sh_len (update_loop fuel s p) = sh_len s.
Proof.
  revert p s. induction fuel as [|f IH]; intros [|x p] s; try done.
  cbn [update_loop]. rewrite IH. unfold sha256_chunk. by case_match.
Qed.

(** The counter holds the length of the message modulo 2^64. *)
Definition holds (m : list Z) (s : sha256_t) : Prop :=
  absorbed m s /\ sh_len s = u64 (Z.of_nat (length m)).

Lemma holds_update (m p : list Z) (s : sha256_t) :
  holds m s -> holds (m ++ p) (sha256_update s p).
Proof.
  intros [Ha Hl]. split; [by apply absorbed_loop, le_n|].
  unfold sha256_update. rewrite update_loop_len. cbn [sh_len upd]. rewrite Hl, length_app.
  unfold u64. rewrite Nat2Z.inj_add, Z.add_mod_idemp_l by lia. done.
Qed.

Lemma holds_init (s : sha256_t) : length (sh_buf s) = 64%nat -> holds [] (sha256_init s).
Proof. split; [by apply absorbed_init|done]. Qed.

Lemma holds_buf (m : list Z) (s : sha256_t) : holds m s -> length (sh_buf s) = 64%nat.
Proof. by intros [[? _] _]. Qed.

Lemma mod64_succ (n : nat) :
  (n mod 64 <> 63)%nat -> ((n + 1) mod 64 = n mod 64 + 1)%nat.
Proof.
  intros H. pose proof (Nat.mod_upper_bound n 64 ltac:(lia)).
  pose proof (Nat.div_mod_eq n 64). symmetry.
  apply (Nat.mod_unique _ _ (n / 64)); lia.
Qed.

Lemma pad_loop_holds (fuel : nat) (m : list Z) (s : sha256_t) :
  holds m s -> ((56 + 64 - length m mod 64) mod 64 < fuel)%nat ->
  holds (m ++ replicate ((56 + 64 - length m mod 64) mod 64) 0) (pad_loop fuel s).
Proof.
  revert m s. induction fuel as [|f IH]; intros m s Hs Hf; [lia|].
  cbn [pad_loop]. destruct Hs as [Ha Hl]. pose proof Ha as (_ & Hb & _). rewrite Hb.
  pose proof (Nat.mod_upper_bound (length m) 64 ltac:(lia)) as Hm.
  destruct (Nat.eqb_spec (length m mod 64) 56) as [E|E].
  - rewrite E. cbn. by rewrite app_nil_r.
  - assert (((56 + 64 - length m mod 64) mod 64)%nat =
            S ((56 + 64 - length (m ++ [0]) mod 64) mod 64)) as Hz.
    { rewrite length_app. cbn [length].
      destruct (decide (length m mod 64 = 63)%nat) as [E1|E1].
      - by rewrite (Nat.Div0.add_mod _ 1), E1.
      - rewrite (mod64_succ _ E1). clear - Hm E E1.
        revert Hm E E1. generalize (length m mod 64)%nat. intros r Hm E E1.
        destruct (decide (r < 56)%nat).
        + replace (56 + 64 - r)%nat with (56 - r + 1 * 64)%nat by lia.
          replace (56 + 64 - (r + 1))%nat with (55 - r + 1 * 64)%nat by lia.
          rewrite !Nat.Div0.mod_add, !Nat.mod_small by lia. lia.
        + rewrite !Nat.mod_small by lia. lia. }
    rewrite Hz in *. rewrite replicate_S.
    change (m ++ 0 :: ?l) with (m ++ [0] ++ l). rewrite app_assoc.
    apply IH; [by apply holds_update|lia].
Qed.

Lemma pad_zeros_eq (n : nat) : ((56 + 64 - (n + 1) mod 64) mod 64)%nat = pad_zeros n.
Proof.
  unfold pad_zeros. pose proof (Nat.mod_upper_bound n 64 ltac:(lia)) as Hm.
  destruct (decide (n mod 64 = 63)%nat) as [E|E].
  - assert ((n + 1) mod 64 = 0)%nat as -> by (rewrite Nat.Div0.add_mod, E by lia; done).
    by rewrite E.
  - rewrite (mod64_succ _ E). f_equal. lia.
Qed.

Lemma sha256_final_holds (m : list Z) (s : sha256_t) :
  holds m s -> Z.of_nat (length m) < 2 ^ 61 -> sha256_final s = SHA256 m.
Proof.
  intros Hs Hlen. unfold sha256_final, SHA256.
  destruct Hs as [Ha Hl]. rewrite Hl.
  rewrite (u64_small (Z.of_nat (length m))), u64_small by lia.
  assert (holds (m ++ [128]) (sha256_update s [128])) as H1 by (by apply holds_update).
  apply (pad_loop_holds 64) in H1; [|pose proof (Nat.mod_upper_bound
    (56 + 64 - length (m ++ [128]) mod 64) 64 ltac:(lia)); lia].
  rewrite length_app in H1. cbn [length] in H1. rewrite pad_zeros_eq in H1.
  apply (holds_update _ (be64 (Z.of_nat (length m) * 8))) in H1 as [(_ & _ & _ & ->) _].
  rewrite <- !app_assoc, (Z.mul_comm _ 8). done.
Qed.

Lemma sha256_ref (s : sha256_t) (m : list Z) :
  length (sh_buf s) = 64%nat -> Z.of_nat (length m) < 2 ^ 61 -> sha256 s m = SHA256 m.
Proof.
  intros Hb Hm. apply sha256_final_holds; [|done].
  change m with ([] ++ m) at 1. by apply holds_update, holds_init.
Qed.

Lemma compress_length (k : nat) (h l : list Z) :
  length h = 8%nat -> length (compress k h l) = 8%nat.
Proof.
  revert h l. induction k as [|k IH]; intros h l Hh; cbn [compress]; [done|].
  apply IH. unfold sha256_block. rewrite length_zip_with. cbn [vars_list length]. lia.
Qed.

Lemma words_length (l : list Z) : length (mjoin (be32 <$> l)) = (4 * length l)%nat.
Proof.
  induction l as [|x l IH]; [done|].
  change (mjoin (be32 <$> x :: l)) with (be32 x ++ mjoin (be32 <$> l)).
  rewrite length_app, IH, be32_length. cbn [length]. lia.
Qed.

Lemma words_bytes (l : list Z) : bytes_ok (mjoin (be32 <$> l)).
Proof.
  induction l as [|x l IH]; [by constructor|].
  change (mjoin (be32 <$> x :: l)) with (be32 x ++ mjoin (be32 <$> l)).
  apply Forall_app. split; [apply be32_bytes|done].
Qed.

Lemma SHA256_length (m : list Z) : length (SHA256 m) = 32%nat.
Proof. unfold SHA256. by rewrite words_length, compress_length. Qed.

Lemma SHA256_bytes (m : list Z) : bytes_ok (SHA256 m).
Proof. apply words_bytes. Qed.

Lemma zero_pad_length (n : nat) (k : list Z) :
  (length k <= n)%nat -> length (zero_pad n k) = n.
Proof. intros H. unfold zero_pad. rewrite length_app, length_replicate. lia. Qed.

Lemma block_key_length (key : list Z) : length (block_key key) = 64%nat.
Proof.
  unfold block_key. apply zero_pad_length.
  destruct (Nat.ltb_spec 64 (length key)); [rewrite SHA256_length|]; lia.
Qed.

Lemma hmac_ref (s : sha256_t) (key msg : list Z) :
  length (sh_buf s) = 64%nat -> Z.of_nat (length key) < 2 ^ 61 ->
  Z.of_nat (length msg) < 2 ^ 60 ->
  auth_hmac_sha256 s key msg = HMAC key msg.
Proof.
  intros Hb Hk Hm. unfold auth_hmac_sha256, HMAC. rewrite sha256_ref by done.
  fold (block_key key). set (ip := (fun b => Z.lxor b 0x36) <$> block_key key).
  set (op := (fun b => Z.lxor b 0x5c) <$> block_key key).
  assert (length ip = 64%nat) as Hip by (unfold ip; by rewrite length_fmap, block_key_length).
  assert (length op = 64%nat) as Hop by (unfold op; by rewrite length_fmap, block_key_length).
  assert (forall a b, holds (a ++ b) (sha256_update (sha256_update (sha256_init s) a) b)) as Hh.
  { intros a b. apply holds_update. change a with ([] ++ a) at 1. by apply holds_update, holds_init. }
  rewrite (sha256_final_holds _ _ (Hh ip msg)) by (rewrite length_app; lia).
  rewrite (sha256_final_holds _ _ (Hh op _)); [done|].
  rewrite length_app, SHA256_length. lia.
Qed.

Lemma HMAC_length (key msg : list Z) : length (HMAC key msg) = 32%nat.
Proof. apply SHA256_length. Qed.

Lemma HMAC_bytes (key msg : list Z) : bytes_ok (HMAC key msg).
Proof. apply SHA256_bytes. Qed.

(** The buffered SHA-256 is SHA-256.  However the message is cut into
    sha256_update calls, the digest is that of FIPS 180-4 applied to the whole
    message (below the 2^61 octets the length counter covers). *)
Theorem sha256_streaming (s : sha256_t) (parts : list (list Z)) :
  length (sh_buf s) = 64%nat -> Z.of_nat (length (mjoin parts)) < 2 ^ 61 ->
  sha256_final (fold_left sha256_update parts (sha256_init s)) = SHA256 (mjoin parts).
Proof.
  intros Hb Hl. apply sha256_final_holds; [|done].
  enough (forall m t, holds m t -> holds (m ++ mjoin parts) (fold_left sha256_update parts t)) as H
    by (apply (H []); by apply holds_init).
  clear Hl. induction parts as [|p ps IH]; intros m t Ht; cbn [fold_left].
  - by rewrite app_nil_r.
  - change (mjoin (p :: ps)) with (p ++ mjoin ps). rewrite app_assoc. by apply IH, holds_update.
Qed.

Lemma sha256_streaming_witness :
  sha256_final (fold_left sha256_update [txt "a"; []; txt "bc"]
    (sha256_init (mkSha [] 0 (replicate 64 7) 5))) =
  mjoin (be32 <$> hexwords "ba7816bf 8f01cfea 414140de 5dae2223 b00361a3 96177a9c b410ff61 f20015ad").
Proof.
  rewrite (sha256_streaming (mkSha [] 0 (replicate 64 7) 5) [txt "a"; []; txt "bc"]);
    [vm_compute; reflexivity|reflexivity|vm_compute; reflexivity].
Defined.

(** C25: auth_hmac_sha256 is the HMAC of RFC 2104 over SHA-256, for keys of any
    length (a key longer than a block is hashed first). *)
Theorem auth_hmac_sha256_rfc2104 (s : sha256_t) (key msg : list Z) :
  length (sh_buf s) = 64%nat -> Z.of_nat (length key) < 2 ^ 61 ->
  Z.of_nat (length msg) < 2 ^ 60 ->
  auth_hmac_sha256 s key msg = HMAC key msg.
Proof. apply hmac_ref. Qed.

(** RFC 4231, test case 2. *)
Lemma auth_hmac_sha256_rfc2104_witness :
  auth_hmac_sha256 (mkSha [] 0 (replicate 64 0) 0) (txt "Jefe")
    (txt "what do ya want for nothing?") =
  mjoin (be32 <$> hexwords "5bdcc146 bf60754e 6a042426 089575c7 5a003f08 9d273983 9dec58b9 64ec3843").
Proof.
  rewrite (auth_hmac_sha256_rfc2104 (mkSha [] 0 (replicate 64 0) 0) (txt "Jefe")
    (txt "what do ya want for nothing?"));
    [vm_compute; reflexivity|reflexivity|vm_compute; reflexivity..].
Defined.
