(* ===== verification/Auth.v ===== *)
(** * Keys, nonces and MAC verification: common/auth.c, second half

    The key file is modelled by its octets and read the way fgets reads it;
    getrandom by the list of results its calls return. *)
From S2P Require Import Prelude CLib Sha256.
#[local] Open Scope Z_scope.

Definition AUTH_NONCE_BYTES : nat := 16.
Definition AUTH_MAX_KEYS : nat := 32.
Definition AUTH_KEY_ID_MAX : nat := 64.
Definition AUTH_PSK_MAX : nat := 256.
Definition AUTH_METHOD_PSK : list Z := txt "psk-hmac-sha256".

Record auth_key_t := mkKey { key_id : list Z; psk : list Z }.

#[export] Instance auth_key_eq_dec : EqDecision auth_key_t.
Proof. solve_decision. Defined.

(** The first [n] entries of the C array are the list [keys]. *)
Record auth_keyring_t := mkRing {
  keys : list auth_key_t;
  kr_path : list Z;
  loaded : bool
}.

#[export] Instance eta_ring : Eta auth_keyring_t :=
  fun k => mkRing (keys k) (kr_path k) (loaded k).

(** ** Hexadecimal *)
Definition hx (v : Z) : Z := if v <? 10 then 48 + v else 87 + v.

Definition auth_hex (l : list Z) : list Z :=
  mjoin ((fun b => [hx (Z.shiftr b 4); hx (Z.land b 15)]) <$> l).

Definition hexval (c : Z) : Z :=
  if (48 <=? c) && (c <=? 57) then c - 48
  else if (97 <=? c) && (c <=? 102) then c - 97 + 10
  else if (65 <=? c) && (c <=? 70) then c - 65 + 10
  else -1.

(** The decoding loop of auth_verify. *)
Fixpoint hex_decode (l : list Z) : option (list Z) :=
  match l with
  | a :: b :: l' =>
      if (hexval a <? 0) || (hexval b <? 0) then None
      else option_map (cons (u8 (Z.lor (Z.shiftl (hexval a) 4) (hexval b)))) (hex_decode l')
  | _ => Some []
  end.

(** ** The key file *)
Inductive fopen_t : Type :=
  | FNoEnt                       (* errno == ENOENT *)
  | FErr                         (* any other error *)
  | FOpen (contents : list Z).

(** [fgets(line, cap, f)]: at most [cap - 1] octets, through the newline. *)
Fixpoint fgets (n : nat) (l : list Z) : list Z * list Z :=
  match n, l with
  | S n', c :: l' =>
      if c =? 10 then ([c], l')
      else let '(a, b) := fgets n' l' in (c :: a, b)
  | _, _ => ([], l)
  end.

Fixpoint split_word (l : list Z) : list Z * list Z :=
  match l with
  | c :: l' => if isspace c then ([], l) else let '(a, b) := split_word l' in (c :: a, b)
  | [] => ([], [])
  end.

Definition trim_end (l : list Z) : list Z := rev (skip_space (rev l)).

Inductive line_t : Type :=
  | LSkip                                  (* blank or comment *)
  | LBad                                   (* no secret *)
  | LKey (id secret : list Z).

Definition parse_line (line : list Z) : line_t :=
  let p := skip_space (cstr line) in
  match p with
  | [] => LSkip
  | c :: _ =>
      if c =? 35 then LSkip
      else
        let '(id, rest) := split_word (trim_end p) in
        match rest with
        | [] => LBad
        | _ =>
            match skip_space rest with
            | [] => LBad
            | sp => LKey id sp
            end
        end
  end.

Definition line_cap : nat := (AUTH_KEY_ID_MAX + AUTH_PSK_MAX + 16 - 1)%nat.

(** The loop over the lines; the fuel is the number of octets left, of which
    every turn takes one at least. *)
Fixpoint load_lines (fuel : nat) (l : list Z) (ks : list auth_key_t) : Z * list auth_key_t :=
  match fuel, l with
  | S f, _ :: _ =>
      let '(line, rest) := fgets line_cap l in
      match parse_line line with
      | LSkip => load_lines f rest ks
      | LBad => (-1, ks)
      | LKey id sp =>
          if (AUTH_MAX_KEYS <=? length ks)%nat then (Z.of_nat (length ks), ks)
          else if (AUTH_KEY_ID_MAX <=? length id)%nat || (AUTH_PSK_MAX <=? length sp)%nat
          then (-1, ks)
          else load_lines f rest (ks ++ [mkKey id sp])
      end
  | _, _ => (Z.of_nat (length ks), ks)
  end.

Definition auth_keyring_load (path : list Z) (f : fopen_t) : Z * auth_keyring_t :=
  let kr := mkRing [] (snprintf 512 path) false in
  match f with
  | FNoEnt => (0, kr)
  | FErr => (-1, kr)
  | FOpen c =>
      let '(r, ks) := load_lines (length c) c [] in
      (r, kr <| loaded := true |> <| keys := ks |>)
  end.

(** ** Nonces *)
Inductive rnd : Type := REintr | RErr | RGot (l : list Z).

(** The loop that fills [n] octets from getrandom, starting at [got]; it
    stops at the first error.  A call returns at most what it was asked for. *)
Fixpoint fill_random (calls : list rnd) (n : nat) (got : nat) (raw : list Z) : bool * list Z :=
  if (n <=? got)%nat then (true, raw)
  else
    match calls with
    | [] => (false, raw)
    | REintr :: cs => fill_random cs n got raw
    | RErr :: _ => (false, raw)
    | RGot l :: cs =>
        let l' := take (n - got) l in
        fill_random cs n (got + length l') (write_at got l' raw)
    end.

(** The nonce and its text after the call; the text only moves on success. *)
Definition auth_make_nonce (calls : list rnd) (raw hex : list Z) : bool * list Z * list Z :=
  let '(ok, raw') := fill_random calls AUTH_NONCE_BYTES 0 raw in
  (ok, raw', if ok then auth_hex raw' else hex).

(** ** Verification *)
Definition ct_equal (a b : list Z) : bool :=
  fold_left (fun acc xy => Z.lor acc (u8 (Z.lxor xy.1 xy.2))) (zip a b) 0 =? 0.

(** The loop over the keys; [h] is the uninitialised hash state. *)
Fixpoint verify_keys (h : sha256_t) (ks : list auth_key_t) (id nonce given : list Z) (ok : bool)
    : bool :=
  match ks with
  | [] => ok
  | k :: ks' =>
      if streq (key_id k) id
      then verify_keys h ks' id nonce given
             (ok || ct_equal (auth_hmac_sha256 h (psk k) nonce) given)
      else verify_keys h ks' id nonce given ok
  end.

Definition auth_verify (h : sha256_t) (kr : auth_keyring_t) (id nonce resp : list Z) : bool :=
  if (length (keys kr) =? 0)%nat then false
  else if negb (length resp =? 64)%nat then false
  else
    match hex_decode resp with
    | None => false
    | Some given => verify_keys h (keys kr) id nonce given false
    end.

(** ** keygen *)
Record keygen_opts := mkOpts { o_path : list Z; o_id : list Z; o_quiet : bool }.

(** The option loop: [inl] is an exit code (0 after --help, 2 otherwise). *)
Fixpoint keygen_args (argv : list (list Z)) (o : keygen_opts) : Z + keygen_opts :=
  match argv with
  | [] => inr o
  | a :: rest =>
      if streq a (txt "--keys-file") && (0 <? length rest)%nat then
        match rest with
        | v :: rest' => keygen_args rest' (mkOpts v (o_id o) (o_quiet o))
        | [] => inl 2
        end
      else if streq a (txt "--key-id") && (0 <? length rest)%nat then
        match rest with
        | v :: rest' => keygen_args rest' (mkOpts (o_path o) v (o_quiet o))
        | [] => inl 2
        end
      else if streq a (txt "--quiet") then keygen_args rest (mkOpts (o_path o) (o_id o) true)
      else if streq a (txt "-h") || streq a (txt "--help") then inl 0
      else inl 2
  end.

(** What the file system and the random source answer. *)
Record keygen_env := mkKeygenEnv {
  kg_file : list Z -> fopen_t;
  kg_random : list rnd;
  kg_mkdir : list Z -> bool;       (* mkdir(dir) succeeds, or dir exists *)
  kg_open_ok : bool;               (* open(path, O_APPEND|O_CREAT) *)
  kg_write : nat                   (* octets write() takes *)
}.

Definition key_line (id secret : list Z) : list Z := id ++ [32] ++ secret ++ [10].

(** Exit code, and the octets appended to a file if any were. *)
(** The directory of the file is made; the path is cut to 511 octets. *)
Definition mkdir_parent (mkdir : list Z -> bool) (path : list Z) : bool :=
  let dir := snprintf 512 path in
  match strrchr 47 dir with
  | None | Some O => true
  | Some slash => mkdir (take slash dir)
  end.

Definition auth_keygen_main (argv : list (list Z)) (default_path : list Z) (e : keygen_env)
    : Z * option (list Z * list Z) :=
  match keygen_args argv (mkOpts default_path (txt "default") false) with
  | inl r => (r, None)
  | inr o =>
      if existsb (fun c => isspace c || (c =? 35)) (o_id o) then (2, None)
      else if (AUTH_KEY_ID_MAX <=? length (o_id o))%nat then (2, None)
      else
        let '(n, kr) := auth_keyring_load (o_path o) (kg_file e (o_path o)) in
        if n <? 0 then (1, None)
        else if existsb (fun k => streq (key_id k) (o_id o)) (keys kr) then (1, None)
        else
          let '(ok, raw) := fill_random (kg_random e) 32 0 (replicate 32 0) in
          if negb ok then (1, None)
          else if negb (mkdir_parent (kg_mkdir e) (o_path o)) then (1, None)
          else if negb (kg_open_ok e) then (1, None)
          else
            let line := snprintf (AUTH_KEY_ID_MAX + 80) (key_line (o_id o) (auth_hex raw)) in
            if negb (Nat.min (kg_write e) (length line) =? length line)%nat
            then (1, Some (o_path o, take (kg_write e) line))
            else (0, Some (o_path o, line))
  end.

(** ** Hexadecimal round trip *)
Lemma hex_decode_pair (b : Z) :
  is_byte b ->
  negb (hexval (hx (Z.shiftr b 4)) <? 0) && negb (hexval (hx (Z.land b 15)) <? 0) &&
  (u8 (Z.lor (Z.shiftl (hexval (hx (Z.shiftr b 4))) 4) (hexval (hx (Z.land b 15)))) =? b) = true.
Proof. revert b. apply (byte_forall (fun b => _)). vm_compute. reflexivity. Qed.

Lemma auth_hex_cons (b : Z) (l : list Z) :
  auth_hex (b :: l) = hx (Z.shiftr b 4) :: hx (Z.land b 15) :: auth_hex l.
Proof. reflexivity. Qed.

Lemma hex_decode_hex (l : list Z) : bytes_ok l -> hex_decode (auth_hex l) = Some l.
Proof.
  induction 1 as [|b l Hb _ IH]; [done|]. rewrite auth_hex_cons. cbn [hex_decode].
  pose proof (hex_decode_pair b Hb) as H. zbool.
  rewrite (proj2 (Z.ltb_ge _ 0)), (proj2 (Z.ltb_ge _ 0)) by done. cbn [orb].
  by rewrite IH, H0.
Qed.

Lemma auth_hex_length (l : list Z) : length (auth_hex l) = (2 * length l)%nat.
Proof.
  induction l as [|b l IH]; [done|]. rewrite auth_hex_cons. cbn [length]. lia.
Qed.

Lemma hex_char (b : Z) :
  is_byte b ->
  (fun c => negb (isspace c) && negb (c =? 0) && negb (c =? 35) && (c <? 127) && (32 <? c) &&
            negb (c =? 34) && negb (c =? 92)) (hx (Z.shiftr b 4)) &&
  (fun c => negb (isspace c) && negb (c =? 0) && negb (c =? 35) && (c <? 127) && (32 <? c) &&
            negb (c =? 34) && negb (c =? 92)) (hx (Z.land b 15)) = true.
Proof. revert b. apply (byte_forall (fun b => _)). vm_compute. reflexivity. Qed.

(** A character that may stand in a key line or a JSON string as it is. *)
Definition plain (c : Z) : Prop :=
  isspace c = false /\ c <> 0 /\ c <> 35 /\ 32 < c < 127 /\ c <> 34 /\ c <> 92.

Lemma auth_hex_plain (l : list Z) : bytes_ok l -> Forall plain (auth_hex l).
Proof.
  induction 1 as [|b l Hb _ IH]; [constructor|]. rewrite auth_hex_cons.
  pose proof (hex_char b Hb) as H. zbool. constructor; [|constructor]; [..|done];
    unfold plain; auto 10.
Qed.

(** ** Constant-time comparison *)
Lemma fold_lor_zero (l : list (Z * Z)) (acc : Z) :
  fold_left (fun acc xy => Z.lor acc (u8 (Z.lxor xy.1 xy.2))) l acc = 0 <->
  acc = 0 /\ Forall (fun xy => u8 (Z.lxor xy.1 xy.2) = 0) l.
Proof.
  revert acc. induction l as [|[x y] l IH]; intros acc; cbn [fold_left].
  - split; [by intros ->|by intros [-> _]].
  - rewrite IH, Z.lor_eq_0_iff, Forall_cons. cbn [fst snd]. tauto.
Qed.

Lemma lxor_byte (x y : Z) : is_byte x -> is_byte y -> is_byte (Z.lxor x y).
Proof.
  intros Hx Hy. unfold is_byte in *.
  assert (0 <= Z.lxor x y) as H0 by (rewrite Z.lxor_nonneg; lia).
  split; [done|]. destruct (Z.eq_dec (Z.lxor x y) 0) as [->|Hn]; [lia|].
  apply Z.log2_lt_cancel. change (Z.log2 256) with 8.
  pose proof (Z.log2_lxor x y ltac:(lia) ltac:(lia)) as Hl.
  assert (forall a, 0 <= a < 256 -> Z.log2 a < 8) as Ha.
  { intros a Ha. destruct (Z.eq_dec a 0) as [->|]; [done|]. apply Z.log2_lt_pow2; lia. }
  pose proof (Ha x Hx). pose proof (Ha y Hy). lia.
Qed.

Lemma ct_equal_spec (a b : list Z) :
  bytes_ok a -> bytes_ok b -> length a = length b -> ct_equal a b = bool_decide (a = b).
Proof.
  intros Ha Hb Hl. unfold ct_equal. apply eq_bool_prop_intro.
  rewrite bool_decide_spec, Is_true_true, Z.eqb_eq, fold_lor_zero.
  revert b Hb Hl. induction Ha as [|x a Hx Ha IH]; intros [|y b] Hb Hl; try done.
  inversion Hb as [|? ? Hy Hb']; subst. cbn [zip zip_with]. rewrite Forall_cons. cbn [fst snd].
  rewrite u8_small by (by apply lxor_byte).
  rewrite Z.lxor_eq_0_iff. injection Hl as Hl. specialize (IH b Hb' Hl).
  split.
  - intros (_ & -> & Hf). f_equal. by apply IH.
  - intros [= -> Hab]. apply IH in Hab as [_ Hf]. done.
Qed.

(** ** Verification *)
Definition valid_response (kr : auth_keyring_t) (id nonce resp : list Z) : Prop :=
  length resp = 64%nat /\
  exists k, k ∈ keys kr /\ key_id k = id /\ hex_decode resp = Some (HMAC (psk k) nonce).

(** Every key fits the buffers of the key ring. *)
Definition ring_ok (kr : auth_keyring_t) : Prop :=
  (length (keys kr) <= AUTH_MAX_KEYS)%nat /\
  Forall (fun k => (length (key_id k) < AUTH_KEY_ID_MAX)%nat /\
                   (0 < length (psk k) < AUTH_PSK_MAX)%nat) (keys kr).

Lemma hex_decode_length (l given : list Z) :
  hex_decode l = Some given -> length given = (length l / 2)%nat.
Proof.
  revert l given. fix IH 1. intros [|a [|b l]] given; cbn [hex_decode]; try by intros [= <-].
  case_match; [done|]. destruct (hex_decode l) as [g|] eqn:E; [|done]. intros [= <-].
  apply IH in E. cbn [length]. rewrite E.
  replace (S (S (length l))) with (1 * 2 + length l)%nat by lia.
  by rewrite Nat.div_add_l by lia.
Qed.

Lemma hex_decode_bytes (l given : list Z) : hex_decode l = Some given -> bytes_ok given.
Proof.
  revert l given. fix IH 1. intros [|a [|b l]] given; cbn [hex_decode];
    try (intros [= <-]; constructor).
  case_match; [done|]. destruct (hex_decode l) as [g|] eqn:E; [|done]. intros [= <-].
  constructor; [apply u8_byte|by apply (IH l)].
Qed.

Section Verify.
Context (h : sha256_t) (Hh : length (sh_buf h) = 64%nat).

Lemma verify_keys_true (ks : list auth_key_t) (id nonce given : list Z) (ok : bool) :
  Forall (fun k => (length (psk k) < AUTH_PSK_MAX)%nat) ks -> (length nonce <= 64)%nat ->
  bytes_ok given -> length given = 32%nat ->
  verify_keys h ks id nonce given ok = true <->
  ok = true \/ exists k, k ∈ ks /\ key_id k = id /\ HMAC (psk k) nonce = given.
Proof.
  intros Hks Hn Hb Hl. revert ok. induction Hks as [|k ks Hk _ IH]; intros ok; cbn [verify_keys].
  - split; [by left|]. intros [->|(k & Hk & _)]; [done|]. by apply not_elem_of_nil in Hk.
  - assert (auth_hmac_sha256 h (psk k) nonce = HMAC (psk k) nonce) as Hm
      by (unfold AUTH_PSK_MAX in Hk; apply hmac_ref; [done|lia..]).
    unfold streq. case_bool_decide as Ei; rewrite IH.
    + rewrite orb_true_iff, Hm, ct_equal_spec, bool_decide_eq_true
        by first [apply HMAC_bytes|done|by rewrite HMAC_length].
      setoid_rewrite elem_of_cons. split.
      * intros [[->|Heq]|(k' & ? & ? & ?)]; eauto 10.
      * intros [->|(k' & [->|Hin] & Hid & Hmac)]; eauto 10.
    + setoid_rewrite elem_of_cons. split.
      * intros [->|(k' & ? & ? & ?)]; eauto 10.
      * intros [->|(k' & [->|Hin] & Hid & Hmac)]; eauto 10.
Qed.

Lemma auth_verify_iff (kr : auth_keyring_t) (id nonce resp : list Z) :
  ring_ok kr -> length nonce = AUTH_NONCE_BYTES ->
  auth_verify h kr id nonce resp = true <-> valid_response kr id nonce resp.
Proof.
  intros [_ Hr] Hn. unfold auth_verify, valid_response.
  assert (Forall (fun k => (length (psk k) < AUTH_PSK_MAX)%nat) (keys kr)) as Hk
    by (eapply Forall_impl; [exact Hr|]; cbn; tauto).
  destruct (Nat.eqb_spec (length (keys kr)) 0) as [E0|E0].
  { split; [done|]. intros (_ & k & Hin & _). destruct (keys kr); [by apply not_elem_of_nil in Hin|done]. }
  destruct (Nat.eqb_spec (length resp) 64) as [El|El]; cbn [negb]; [|split; [done|tauto]].
  destruct (hex_decode resp) as [given|] eqn:Ed.
  - pose proof (hex_decode_length _ _ Ed) as Hl. rewrite El in Hl. change (64 / 2)%nat with 32%nat in Hl.
    rewrite verify_keys_true; [|done|unfold AUTH_NONCE_BYTES in Hn; lia|by eapply hex_decode_bytes|done].
    split.
    + intros [[=]|(k & ? & ? & <-)]. eauto 10.
    + intros (_ & k & ? & ? & [= ->]). eauto 10.
  - split; [done|]. by intros (_ & k & _ & _ & ?).
Qed.
End Verify.

(** MAC verification.  auth_verify accepts a response exactly when it is 64
    hexadecimal digits that decode to the HMAC-SHA256 of the nonce under the
    secret of some key with the given identifier, whatever the hash state was
    before; the constant-time comparison and the accumulation over the keys
    change nothing. *)
Theorem auth_verify_correct (h : sha256_t) (kr : auth_keyring_t) (id nonce resp : list Z) :
  length (sh_buf h) = 64%nat -> ring_ok kr -> length nonce = AUTH_NONCE_BYTES ->
  auth_verify h kr id nonce resp = true <-> valid_response kr id nonce resp.
Proof. intros. by apply auth_verify_iff. Qed.

Definition sample_ring : auth_keyring_t :=
  mkRing [mkKey (txt "default") (txt "secret"); mkKey (txt "k2") (txt "other")] (txt "/k") true.

Definition sample_nonce : list Z := Z.of_nat <$> seq 0 16.

Definition sha_junk : sha256_t := mkSha [] 0 (replicate 64 0) 0.

Lemma auth_verify_correct_witness :
  auth_verify sha_junk sample_ring (txt "k2") sample_nonce
    (auth_hex (HMAC (txt "other") sample_nonce)) = true /\
  valid_response sample_ring (txt "k2") sample_nonce
    (auth_hex (HMAC (txt "other") sample_nonce)).
Proof.
  assert (auth_verify sha_junk sample_ring (txt "k2") sample_nonce
    (auth_hex (HMAC (txt "other") sample_nonce)) = true) as H by (vm_compute; reflexivity).
  split; [exact H|].
  apply (auth_verify_correct sha_junk sample_ring (txt "k2") sample_nonce
    (auth_hex (HMAC (txt "other") sample_nonce))); [reflexivity| |reflexivity|exact H].
  split; [vm_compute; lia|]. repeat constructor; vm_compute; lia.
Defined.

(** ** What keygen appends is what the daemon loads *)

(** A file that is empty or whose last octet is a newline. *)
Definition ends_line (c : list Z) : Prop := c = [] \/ exists c', c = c' ++ [10].

Lemma ends_line_cons (x : Z) (c : list Z) :
  ends_line (x :: c) -> (c = [] /\ x = 10) \/ (c <> [] /\ ends_line c).
Proof.
  intros [|[c' E]]; [done|]. destruct c' as [|y c']; cbn in E; injection E as -> E.
  - by left.
  - right. subst c. split; [by destruct c'|]. right. by exists c'.
Qed.

Lemma fgets_app (n : nat) (c x : list Z) :
  (0 < n)%nat -> ends_line c -> c <> [] ->
  exists line rest, fgets n c = (line, rest) /\ fgets n (c ++ x) = (line, rest ++ x) /\
    ends_line rest /\ (length rest < length c)%nat.
Proof.
  revert n. induction c as [|a c IH]; intros n Hn He Hne; [done|].
  destruct n as [|n]; [lia|]. cbn [fgets app length].
  destruct (Z.eqb_spec a 10) as [->|Ha].
  - exists [10], c. repeat split; [|lia]. apply ends_line_cons in He as [[-> _]|[_ He]]; [by left|done].
  - apply ends_line_cons in He as [[-> ->]|[Hc He]]; [done|].
    destruct n as [|n].
    + exists [a], c. cbn [fgets]. destruct c; [done|]. repeat split; [done|lia].
    + destruct (IH (S n) ltac:(lia) He Hc) as (line & rest & H1 & H2 & Hr & Hlt).
      exists (a :: line), rest. rewrite H1, H2. repeat split; [done|lia].
Qed.

Lemma load_lines_app (fuel k : nat) (c x : list Z) (ks : list auth_key_t) (n : Z)
    (ks' : list auth_key_t) :
  ends_line c -> (length c <= fuel)%nat ->
  load_lines fuel c ks = (n, ks') -> 0 <= n -> (length ks' < AUTH_MAX_KEYS)%nat ->
  exists fuel', (k <= fuel')%nat /\
    load_lines (fuel + k) (c ++ x) ks = load_lines fuel' x ks'.
Proof.
  revert c ks. induction fuel as [|f IH]; intros c ks He Hf Hl Hn Hk.
  { destruct c; [|cbn in Hf; lia]. cbn in Hl. injection Hl as <- <-. by exists k. }
  destruct c as [|a c].
  { cbn in Hl. injection Hl as <- <-. exists (S f + k)%nat. split; [lia|done]. }
  assert (0 < line_cap)%nat as Hcap by (vm_compute; lia).
  destruct (fgets_app line_cap (a :: c) x Hcap He) as (line & rest & H1 & H2 & Hr & Hlt); [done|].
  cbn [load_lines Nat.add app] in *. cbn [app] in H2. rewrite H1 in Hl. rewrite H2.
  cbn [length] in Hlt, Hf.
  destruct (parse_line line) as [| |id sp]; [|by injection Hl as <- <-|].
  - eapply IH; eauto. lia.
  - destruct (Nat.leb_spec AUTH_MAX_KEYS (length ks)); [injection Hl as <- <-; lia|].
    destruct (_ || _); [by injection Hl as <- <-|]. eapply IH; eauto. lia.
Qed.

Lemma cstr_id (l : list Z) : Forall (fun c => c <> 0) l -> cstr l = l.
Proof.
  induction 1 as [|c l Hc _ IH]; [done|]. cbn [cstr].
  destruct (Z.eqb_spec c 0); [done|]. by rewrite IH.
Qed.

Lemma fgets_line (n : nat) (l : list Z) :
  (length l < n)%nat -> Forall (fun c => c <> 10) l -> fgets n (l ++ [10]) = (l ++ [10], []).
Proof.
  intros Hn Hl. revert n Hn. induction Hl as [|c l Hc _ IH]; intros n Hn;
    (destruct n as [|n]; [cbn in Hn; lia|]); cbn [fgets app length] in *; [done|].
  destruct (Z.eqb_spec c 10); [done|]. rewrite IH by lia. done.
Qed.

Lemma split_word_plain (l rest : list Z) :
  Forall (fun c => isspace c = false) l ->
  match rest with [] => True | c :: _ => isspace c = true end ->
  split_word (l ++ rest) = (l, rest).
Proof.
  intros Hl Hr. induction Hl as [|c l Hc _ IH]; cbn [split_word app].
  - destruct rest as [|c r]; [done|]. cbn. by rewrite Hr.
  - by rewrite Hc, IH.
Qed.

Lemma trim_end_line (l : list Z) (c : Z) :
  isspace c = false -> trim_end (l ++ [c; 10]) = l ++ [c].
Proof.
  intros Hc. unfold trim_end. rewrite rev_app_distr. cbn [rev app skip_space].
  change (isspace 10) with true. cbn. rewrite Hc. cbn [rev]. by rewrite rev_involutive.
Qed.

(** The identifiers keygen accepts. *)
Definition id_ok (id : list Z) : Prop :=
  id <> [] /\ Forall (fun c => isspace c = false /\ c <> 35 /\ c <> 0) id.

Lemma parse_key_line (id secret : list Z) :
  id_ok id -> secret <> [] -> Forall plain secret -> parse_line (key_line id secret) = LKey id secret.
Proof.
  intros [Hne Hid] Hsne Hs. unfold parse_line, key_line.
  assert (Forall (fun c => isspace c = false) secret) as Hsp
    by (eapply Forall_impl; [exact Hs|]; by intros c (? & _)).
  rewrite cstr_id.
  2: { apply Forall_app. split; [eapply Forall_impl; [exact Hid|]; cbn; tauto|].
       apply Forall_app. split; [by repeat constructor|].
       apply Forall_app. split; [|by repeat constructor].
       eapply Forall_impl; [exact Hs|]. by intros c (_ & ? & _). }
  destruct id as [|c id]; [done|]. inversion Hid as [|? ? (Hc1 & Hc2 & _) Hid']; subst.
  cbn [app skip_space]. rewrite Hc1. destruct (Z.eqb_spec c 35); [done|].
  destruct (exists_last Hsne) as (s1 & x & ->).
  apply Forall_app in Hsp as Hsp'. destruct Hsp' as [_ Hx]. inversion Hx as [|? ? Hx1 _]; subst.
  assert (trim_end (c :: id ++ 32 :: (s1 ++ [x]) ++ [10]) = (c :: id) ++ 32 :: s1 ++ [x]) as ->.
  { rewrite <- (app_assoc s1). change ([x] ++ [10]) with [x; 10].
    replace (c :: id ++ 32 :: s1 ++ [x; 10]) with ((c :: id ++ [32] ++ s1) ++ [x; 10])
      by (cbn; by rewrite <- !app_assoc). rewrite trim_end_line by done.
    cbn. by rewrite <- !app_assoc. }
  rewrite split_word_plain; [|eapply Forall_impl; [exact Hid|]; cbn; tauto|done].
  cbn [skip_space]. change (isspace 32) with true. cbn iota.
  destruct s1 as [|y s1]; cbn [app skip_space]; [by rewrite Hx1|].
  inversion Hsp as [|? ? Hy _]; subst. by rewrite Hy.
Qed.

Lemma load_key_line (fuel : nat) (id secret : list Z) (ks : list auth_key_t) :
  id_ok id -> (length id < AUTH_KEY_ID_MAX)%nat -> secret <> [] -> Forall plain secret ->
  (length secret < AUTH_PSK_MAX)%nat -> (length ks < AUTH_MAX_KEYS)%nat -> (0 < fuel)%nat ->
  load_lines fuel (key_line id secret) ks =
  (Z.of_nat (S (length ks)), ks ++ [mkKey id secret]).
Proof.
  intros Hid Hil Hne Hs Hsl Hk Hf. pose proof (parse_key_line id secret Hid Hne Hs) as Hp.
  assert (fgets line_cap (key_line id secret) = (key_line id secret, [])) as Hg.
  { unfold key_line. replace (id ++ [32] ++ secret ++ [10]) with ((id ++ 32 :: secret) ++ [10])
      by (by rewrite <- app_assoc). apply fgets_line.
    - rewrite length_app. cbn [length]. unfold line_cap, AUTH_KEY_ID_MAX, AUTH_PSK_MAX in *. lia.
    - apply Forall_app. destruct Hid as [_ Hid]. split; [|constructor; [done|]].
      + eapply Forall_impl; [exact Hid|]. by intros c [? _] ->.
      + eapply Forall_impl; [exact Hs|]. by intros c (? & _) ->. }
  destruct fuel as [|f]; [lia|].
  assert (exists c l, key_line id secret = c :: l) as (c & l & E)
    by (destruct Hid as [Hid _]; destruct id; [done|]; by repeat eexists).
  rewrite E in *. cbn [load_lines]. rewrite Hg, Hp.
  destruct (Nat.leb_spec AUTH_MAX_KEYS (length ks)); [lia|].
  destruct (Nat.leb_spec AUTH_KEY_ID_MAX (length id)); [lia|].
  destruct (Nat.leb_spec AUTH_PSK_MAX (length secret)); [lia|]. cbn [orb].
  destruct f; cbn [load_lines]; rewrite length_app; do 2 f_equal; cbn; lia.
Qed.

Definition rnd_ok (r : rnd) : Prop := match r with RGot l => bytes_ok l | _ => True end.

Lemma write_at_bytes (off : nat) (c buf : list Z) :
  bytes_ok c -> bytes_ok buf -> bytes_ok (write_at off c buf).
Proof.
  intros Hc Hb. unfold write_at. apply Forall_app. split; [by apply Forall_take|].
  apply Forall_app. split; [done|by apply Forall_drop].
Qed.

Lemma fill_random_ok (calls : list rnd) (n got : nat) (raw : list Z) (ok : bool) (raw' : list Z) :
  Forall rnd_ok calls -> bytes_ok raw -> (n <= length raw)%nat ->
  fill_random calls n got raw = (ok, raw') -> bytes_ok raw' /\ length raw' = length raw.
Proof.
  intros Hc. revert got raw. induction Hc as [|r calls Hr _ IH]; intros got raw Hb Hl; cbn [fill_random];
    (destruct (Nat.leb_spec n got); [by intros [= <- <-]|]); [by intros [= <- <-]|].
  destruct r as [| |l]; [by apply IH|by intros [= <- <-]|].
  intros Hf. assert (got + length (take (n - got) l) <= length raw)%nat
    by (rewrite length_take; lia).
  apply IH in Hf as [Hb' Hl']; rewrite ?write_at_length in * by done; [done| |done].
  apply write_at_bytes; [by apply Forall_take|done].
Qed.

Lemma keygen_args_ok (P : list Z -> Prop) (argv : list (list Z)) (o o' : keygen_opts) :
  Forall P argv -> P (o_id o) -> keygen_args argv o = inr o' -> P (o_id o').
Proof.
  enough (forall n argv o, (length argv <= n)%nat -> Forall P argv -> P (o_id o) ->
    keygen_args argv o = inr o' -> P (o_id o')) as H by eauto.
  clear argv o. induction n as [|n IH]; intros [|a argv] o Hn Ha Ho;
    cbn [keygen_args length] in *; try lia; try (by intros [= <-]).
  inversion Ha as [|? ? Ha1 Ha2]; subst.
  destruct (_ && _); [|destruct (_ && _); [|destruct (streq _ _); [|by case_match]]].
  - destruct argv as [|v argv]; [done|]. inversion Ha2; subst. cbn in Hn. apply IH; [lia|done..].
  - destruct argv as [|v argv]; [done|]. inversion Ha2; subst. cbn in Hn. apply IH; [lia|done..].
  - apply IH; [lia|done..].
Qed.

(** The octets in a file that can be absent. *)
Definition contents (f : fopen_t) : list Z := match f with FOpen c => c | _ => [] end.

Lemma load_lines_count (fuel : nat) (l : list Z) (ks ks' : list auth_key_t) (n : Z) :
  load_lines fuel l ks = (n, ks') -> 0 <= n -> n = Z.of_nat (length ks').
Proof.
  revert l ks. induction fuel as [|f IH]; intros l ks; cbn [load_lines]; [by intros [= <- <-]|].
  destruct l; [by intros [= <- <-]|]. destruct (fgets _ _) as [line rest].
  destruct (parse_line line); [apply IH|by intros [= <- <-]|].
  case_match; [by intros [= <- <-]|]. case_match; [by intros [= <- <-]|apply IH].
Qed.

Lemma keyring_load_append (path : list Z) (f : fopen_t) (n : Z) (kr : auth_keyring_t)
    (id secret : list Z) :
  auth_keyring_load path f = (n, kr) -> 0 <= n < Z.of_nat AUTH_MAX_KEYS ->
  ends_line (contents f) -> f <> FErr ->
  id_ok id -> (length id < AUTH_KEY_ID_MAX)%nat -> secret <> [] -> Forall plain secret ->
  (length secret < AUTH_PSK_MAX)%nat ->
  auth_keyring_load path (FOpen (contents f ++ key_line id secret)) =
  (n + 1, kr <| loaded := true |> <| keys := keys kr ++ [mkKey id secret] |>).
Proof.
  intros Hload Hn He Hf Hid Hil Hne Hs Hsl. unfold auth_keyring_load in *. rewrite length_app.
  destruct f as [| |c0]; [|done|]; cbn [contents app length Nat.add] in *.
  - injection Hload as <- <-. rewrite load_key_line; try done; try (cbn; lia).
    unfold key_line. rewrite length_app. cbn. lia.
  - destruct (load_lines (length c0) c0 []) as [r ks] eqn:El. injection Hload as <- <-.
    apply load_lines_count in El as Hr; [|lia]. subst r.
    destruct (load_lines_app (length c0) (length (key_line id secret)) c0 (key_line id secret)
      [] _ _ He (le_n _) El) as (fu & Hfu & ->); [lia|lia|].
    rewrite load_key_line; try done; [|lia|].
    + f_equal. lia.
    + unfold key_line in Hfu. rewrite length_app in Hfu. cbn in Hfu. lia.
Qed.

(** C26: keygen round trip.  When keygen succeeds on an absent key file, or on
    one that ends with a newline and holds fewer than 32 keys, with a non-empty
    key identifier, then loading the file it leaves gives the keys that were
    there, in order, followed by exactly one new key with the requested
    identifier, which was not taken before, and a secret of 64 characters. *)
Theorem keygen_roundtrip (argv : list (list Z)) (default_path path line : list Z)
    (e : keygen_env) (n : Z) (kr : auth_keyring_t) :
  auth_keygen_main argv default_path e = (0, Some (path, line)) ->
  Forall rnd_ok (kg_random e) ->
  Forall (fun a => a <> [] /\ Forall (fun c => c <> 0) a) argv ->
  ends_line (contents (kg_file e path)) ->
  auth_keyring_load path (kg_file e path) = (n, kr) -> n < Z.of_nat AUTH_MAX_KEYS ->
  exists id secret,
    length secret = 64%nat /\ ~ (exists k, k ∈ keys kr /\ key_id k = id) /\
    auth_keyring_load path (FOpen (contents (kg_file e path) ++ line)) =
    (n + 1, kr <| loaded := true |> <| keys := keys kr ++ [mkKey id secret] |>).
Proof.
  intros Hk Hr Ha He Hload Hn. unfold auth_keygen_main in Hk.
  destruct (keygen_args argv _) as [r|o] eqn:Eo; [done|].
  apply (keygen_args_ok (fun a => a <> [] /\ Forall (fun c => c <> 0) a)) in Eo as [Hne Hnul];
    [|done|by vm_compute; split; [|repeat constructor]].
  destruct (existsb _ (o_id o)) eqn:Ex; [done|].
  destruct (Nat.leb_spec AUTH_KEY_ID_MAX (length (o_id o))); [done|].
  destruct (auth_keyring_load (o_path o) _) as [n' kr'] eqn:El.
  destruct (Z.ltb_spec n' 0); [done|]. destruct (existsb _ (keys kr')) eqn:Ek; [done|].
  destruct (fill_random _ _ _ _) as [ok raw] eqn:Ef.
  apply fill_random_ok in Ef as [Hb Hl]; [|done|by repeat constructor|done].
  destruct ok; [|done]. destruct (mkdir_parent (kg_mkdir e) (o_path o)); [|done]. destruct (kg_open_ok e); [|done].
  cbn [negb] in Hk. case_match; [done|]. injection Hk as Hp <-. rewrite Hp in El.
  rewrite El in Hload. injection Hload as -> ->.
  assert (length (auth_hex raw) = 64%nat) as H64 by (by rewrite auth_hex_length, Hl).
  exists (o_id o), (auth_hex raw). split; [done|]. split.
  { intros (k & Hin & Hid). apply not_true_iff_false in Ek. apply Ek.
    apply existsb_exists. exists k. split; [by apply list_elem_of_In|].
    unfold streq. by apply bool_decide_eq_true. }
  unfold snprintf. rewrite take_ge.
  2: { unfold key_line. rewrite !length_app, H64. unfold AUTH_KEY_ID_MAX in *. cbn. lia. }
  apply keyring_load_append; try done.
  - intros E. by rewrite E in El; injection El as <- <-.
  - split; [done|]. apply Forall_forall. intros c Hc.
    assert (isspace c || (c =? 35) = false) as Hsp.
    { apply not_true_iff_false. intros Ht. apply not_true_iff_false in Ex. apply Ex.
      apply existsb_exists. exists c. by split; [apply list_elem_of_In|]. }
    zbool. rewrite Forall_forall in Hnul. auto.
  - intros E0. by rewrite E0 in H64.
  - by apply auth_hex_plain.
  - unfold AUTH_PSK_MAX. lia.
Qed.

Definition keygen_sample (file : fopen_t) : keygen_env :=
  mkKeygenEnv (fun _ => file) [REintr; RGot (replicate 20 171); RGot (replicate 20 5)]
    (fun _ => true) true 4096.

Lemma keygen_roundtrip_witness :
  exists id secret,
    length secret = 64%nat /\ ~ (exists k, k ∈ [mkKey (txt "a") (txt "s1")] /\ key_id k = id) /\
    auth_keyring_load (txt "/k") (FOpen (contents (FOpen (txt "a s1" ++ [10])) ++
      key_line (txt "b") (auth_hex (replicate 20 171 ++ replicate 12 5)))) =
    (2, mkRing [mkKey (txt "a") (txt "s1"); mkKey id secret] (txt "/k") true).
Proof.
  apply (keygen_roundtrip [txt "--key-id"; txt "b"; txt "--quiet"] (txt "/k") (txt "/k")
    (key_line (txt "b") (auth_hex (replicate 20 171 ++ replicate 12 5)))
    (keygen_sample (FOpen (txt "a s1" ++ [10]))) 1
    (mkRing [mkKey (txt "a") (txt "s1")] (txt "/k") true)).
  - vm_compute. reflexivity.
  - repeat constructor; vm_compute; done.
  - repeat constructor; done.
  - right. exists (txt "a s1"). reflexivity.
  - vm_compute. reflexivity.
  - vm_compute. reflexivity.
Defined.

(** Two inputs keygen accepts and the key file does not survive.  A key
    appended to a file without a final newline is glued to the last line, so
    that the last key changes its secret and the new key does not exist; and
    with an empty --key-id the file that keygen leaves no longer loads. *)
Theorem keygen_corrupts_key_file :
  let f := FOpen (txt "a s1") in
  let hex := auth_hex (replicate 20 171 ++ replicate 12 5) in
  auth_keyring_load (txt "/k") f = (1, mkRing [mkKey (txt "a") (txt "s1")] (txt "/k") true) /\
  auth_keygen_main [] (txt "/k") (keygen_sample f) =
    (0, Some (txt "/k", key_line (txt "default") hex)) /\
  auth_keyring_load (txt "/k") (FOpen (contents f ++ key_line (txt "default") hex)) =
    (1, mkRing [mkKey (txt "a") (txt "s1default " ++ hex)] (txt "/k") true) /\
  auth_keygen_main [txt "--key-id"; []] (txt "/k") (keygen_sample FNoEnt) =
    (0, Some (txt "/k", key_line [] hex)) /\
  (auth_keyring_load (txt "/k") (FOpen (key_line [] hex))).1 = -1.
Proof. vm_compute. repeat split; reflexivity. Qed.
