(* ===== verification/JsonEscape.v ===== *)
(** * What a JSON string literal denotes

    The reference reading of a string body, against which the two escaping
    routines of the daemon (json_escape of cp_commands.c and jb_str of
    json_builder.c) are verified. *)
From S2P Require Import Prelude Jsmn JsonText Auth.
#[local] Open Scope Z_scope.

(** The octets a JSON string literal denotes (escapes of Latin-1 only). *)
Fixpoint unescape (s : list Z) : option (list Z) :=
  match s with
  | [] => Some []
  | c :: s1 =>
      if c =? 92 then
        match s1 with
        | x :: s2 =>
            if (x =? 34) || (x =? 92) || (x =? 47) then cons x <$> unescape s2
            else if x =? 110 then cons 10 <$> unescape s2
            else if x =? 114 then cons 13 <$> unescape s2
            else if x =? 116 then cons 9 <$> unescape s2
            else if x =? 98 then cons 8 <$> unescape s2
            else if x =? 102 then cons 12 <$> unescape s2
            else if x =? 117 then
              match s2 with
              | h1 :: h2 :: h3 :: h4 :: s3 =>
                  if (h1 =? 48) && (h2 =? 48)
                  then cons (hexval h3 * 16 + hexval h4) <$> unescape s3 else None
              | _ => None
              end
            else None
        | [] => None
        end
      else if c =? 34 then None
      else cons c <$> unescape s1
  end.

(** A character of a C string. *)
Definition cchar (c : Z) : Prop := 0 < c < 256.

Lemma esc_low (c : Z) :
  is_byte c ->
  if c <? 32 then
    ((hexval (hx (c / 16)) * 16 + hexval (hx (c mod 16)) =? c)
     && is_hex (hx (c / 16)) && is_hex (hx (c mod 16)))%Z = true
  else True.
Proof.
  intros Hc. destruct (c <? 32) eqn:E; [|done].
  pose proof (byte_forall (fun c => implb (c <? 32)
    ((hexval (hx (c / 16)) * 16 + hexval (hx (c mod 16)) =? c)
     && is_hex (hx (c / 16)) && is_hex (hx (c mod 16))))%Z) as H.
  specialize (H ltac:(vm_compute; reflexivity) c Hc). cbn beta in H. by rewrite E in H.
Qed.
