(* ===== verification/JsonBuilder.v ===== *)
(** * The JSON builder: json/json_builder.c

    The builder writes JSON text into a caller's buffer, call by call.  A
    builder is the record [JB] of the source, with the buffer as the list of
    its octets; a call returns [None] where the C code has no defined meaning
    (a store outside the buffer, a read past the end of a source array, a
    shift by the width of the type or more).

    The specification is an unbounded builder [sink] that only appends text:
    every call, on every buffer, refines it ([jb_refines]); and a value built
    by the calls a client makes for it comes out as the printed form of that
    value, which jsmn reads back ([jb_value_roundtrip]). *)
From Stdlib Require Import SpecFloat.
From S2P Require Import Prelude CLib Jsmn JsonText Auth JsonEscape.
#[local] Open Scope Z_scope.

Module Builder.

(** ** State *)
Record JB := mkJB {
  jb_buf : list Z;
  jb_cap : nat;
  jb_pos : nat;
  jb_overflow : bool;
  jb_need_comma : Z;      (* uint16_t *)
  jb_depth : Z
}.

#[export] Instance eta_JB : Eta JB := fun r =>
  mkJB (jb_buf r) (jb_cap r) (jb_pos r) (jb_overflow r) (jb_need_comma r) (jb_depth r).

Abbreviation call := (JB -> option JB).

(** One call after the other. *)
Definition andthen (f g : call) : call := fun jb => jb ← f jb; g jb.

#[local] Infix ">>>" := andthen (at level 61, left associativity).

(** ** Internal helpers *)

Definition jb_putc (c : Z) : call := fun jb =>
  if jb_overflow jb then Some jb
  else if (jb_cap jb <=? jb_pos jb + 1)%nat then Some (jb <| jb_overflow := true |>)
  else
    b ← store (jb_pos jb) [c] (jb_buf jb);
    b' ← store (jb_pos jb + 1) [0] b;
    Some (jb <| jb_buf := b' |> <| jb_pos := (jb_pos jb + 1)%nat |>).

(** [s] is the source array, [len] the number of octets copied from it. *)
Definition jb_puts (s : list Z) (len : nat) : call := fun jb =>
  if jb_overflow jb then Some jb
  else if (jb_cap jb <=? jb_pos jb + len)%nat then Some (jb <| jb_overflow := true |>)
  else if (length s <? len)%nat then None
  else
    b ← store (jb_pos jb) (take len s) (jb_buf jb);
    b' ← store (jb_pos jb + len) [0] b;
    Some (jb <| jb_buf := b' |> <| jb_pos := (jb_pos jb + len)%nat |>).

(** [1u << depth]. *)
Definition level_bit (d : Z) : option Z :=
  if (0 <=? d) && (d <? 32) then Some (Z.shiftl 1 d) else None.

(** [need_comma |= bit] and [need_comma &= ~bit], kept in 16 bits. *)
Definition mark_level : call := fun jb =>
  b ← level_bit (jb_depth jb);
  Some (jb <| jb_need_comma := u16 (Z.lor (jb_need_comma jb) b) |>).

Definition clear_level : call := fun jb =>
  b ← level_bit (jb_depth jb);
  Some (jb <| jb_need_comma := u16 (Z.land (jb_need_comma jb) (2 ^ 32 - 1 - b)) |>).

Definition jb_sep : call :=
  (fun jb =>
     if 0 <? jb_depth jb then
       b ← level_bit (jb_depth jb);
       if Z.land (jb_need_comma jb) b =? 0 then Some jb else jb_putc 44 jb
     else Some jb)
  >>> (fun jb => if 0 <=? jb_depth jb then mark_level jb else Some jb).

(** ** Public calls *)
Definition jb_init (buf : list Z) (cap : nat) : option JB :=
  b ← (if (0 <? cap)%nat then store 0 [0] buf else Some buf);
  Some (mkJB b cap 0 false 0 0).

Definition deeper (k : Z) : call := fun jb => Some (jb <| jb_depth := jb_depth jb + k |>).

Definition jb_obj_begin : call := jb_sep >>> jb_putc 123 >>> deeper 1 >>> clear_level.
Definition jb_obj_end : call := clear_level >>> deeper (-1) >>> jb_putc 125.
Definition jb_arr_begin : call := jb_sep >>> jb_putc 91 >>> deeper 1 >>> clear_level.
Definition jb_arr_end : call := clear_level >>> deeper (-1) >>> jb_putc 93.

(** One character of a string, escaped where JSON asks for it. *)
Definition jb_char (c : Z) : call :=
  if c =? 34 then jb_puts [92; 34] 2
  else if c =? 92 then jb_puts [92; 92] 2
  else if c =? 10 then jb_puts [92; 110] 2
  else if c =? 13 then jb_puts [92; 114] 2
  else if c =? 9 then jb_puts [92; 116] 2
  else if c <? 32 then
    jb_puts (snprintf 7 (txt "\u00" ++ [hx (c / 16); hx (c mod 16)]) ++ [0]) 6
  else jb_putc c.

Fixpoint jb_chars (s : list Z) : call :=
  match s with
  | [] => Some
  | c :: s' => jb_char c >>> jb_chars s'
  end.

(** [None] is the null pointer. *)
Definition jb_str (s : option (list Z)) : call :=
  jb_sep >>> jb_putc 34 >>>
  match s with
  | None => jb_puts [34] 1
  | Some s => jb_chars s >>> jb_putc 34
  end.

(** [s] is the memory at the pointer. *)
Definition jb_strn (s : list Z) (len : nat) : call :=
  let len := if (256 <=? len)%nat then 255%nat else len in
  if (length s <? len)%nat then fun _ => None
  else jb_str (Some (cstr (take len s))).

(** [n = snprintf(tmp, cap, ...)] followed by [jb_puts(jb, tmp, n)]: the
    array holds what fits, the length is that of the full text. *)
Definition jb_formatted (cap : nat) (full : list Z) : call :=
  let kept := snprintf cap full in
  jb_puts (kept ++ replicate (cap - length kept) 0) (length full).

Definition jb_u32 (v : Z) : call := jb_sep >>> jb_formatted 16 (fmt_u v).
Definition jb_u64 (v : Z) : call := jb_sep >>> jb_formatted 24 (fmt_u v).
Definition jb_i32 (v : Z) : call := jb_sep >>> jb_formatted 16 (fmt_d v).
Definition jb_f32 (v : double) (decimals : nat) : call :=
  jb_sep >>> jb_formatted 32 (fmt_f decimals v).

Definition jb_bool (v : bool) : call :=
  jb_sep >>> (if v then jb_puts (txt "true") 4 else jb_puts (txt "false") 5).

Definition jb_null : call := jb_sep >>> jb_puts (txt "null") 4.

Definition jb_raw (raw : list Z) : call := jb_sep >>> jb_puts raw (length raw).

Definition jb_key (k : list Z) : call := jb_str (Some k) >>> jb_putc 58 >>> clear_level.

Definition jb_kstr (k : list Z) (v : option (list Z)) : call := jb_key k >>> jb_str v.
Definition jb_ku64 (k : list Z) (v : Z) : call := jb_key k >>> jb_u64 v.
Definition jb_ki32 (k : list Z) (v : Z) : call := jb_key k >>> jb_i32 v.
Definition jb_kf32 (k : list Z) (v : double) (decimals : nat) : call :=
  jb_key k >>> jb_f32 v decimals.
Definition jb_kbool (k : list Z) (v : bool) : call := jb_key k >>> jb_bool v.
Definition jb_knull (k : list Z) : call := jb_key k >>> jb_null.

(** ** Calls as data

    A script of calls, so that theorems range over every client. *)
Inductive bracket := Obj | Arr.

Inductive scalar :=
  | SStr (s : option (list Z))
  | SStrn (s : list Z) (len : nat)
  | SU32 (v : Z)
  | SU64 (v : Z)
  | SI32 (v : Z)
  | SF32 (v : double) (decimals : nat)
  | SBool (v : bool)
  | SNull
  | SRaw (v : json).           (* a fragment serialised beforehand *)

Inductive api :=
  | Begin (b : bracket)
  | End (b : bracket)
  | Scalar (s : scalar)
  | Key (k : list Z)
  | Pair (k : list Z) (s : scalar).

Definition put_scalar (s : scalar) : call :=
  match s with
  | SStr s => jb_str s
  | SStrn s len => jb_strn s len
  | SU32 v => jb_u32 v
  | SU64 v => jb_u64 v
  | SI32 v => jb_i32 v
  | SF32 v d => jb_f32 v d
  | SBool v => jb_bool v
  | SNull => jb_null
  | SRaw v => jb_raw (print v)
  end.

Definition perform (a : api) : call :=
  match a with
  | Begin Obj => jb_obj_begin
  | Begin Arr => jb_arr_begin
  | End Obj => jb_obj_end
  | End Arr => jb_arr_end
  | Scalar s => put_scalar s
  | Key k => jb_key k
  | Pair k (SStr v) => jb_kstr k v
  | Pair k (SU64 v) => jb_ku64 k v
  | Pair k (SI32 v) => jb_ki32 k v
  | Pair k (SF32 v d) => jb_kf32 k v d
  | Pair k (SBool v) => jb_kbool k v
  | Pair k SNull => jb_knull k
  | Pair k s => jb_key k >>> put_scalar s
  end.

Fixpoint script (l : list api) : call :=
  match l with
  | [] => Some
  | a :: l' => perform a >>> script l'
  end.

(** ** Specification: an unbounded builder

    The text so far and, per open level, whether it already has an element. *)
Record sink := mkSink { out : list Z; levels : list bool }.

#[export] Instance eta_sink : Eta sink := fun r => mkSink (out r) (levels r).

Definition emit (s : list Z) (a : sink) : sink := a <| out := out a ++ s |>.

Definition set_level (b : bool) (a : sink) : sink := a <| levels := b :: tail (levels a) |>.

Definition comma (a : sink) : list Z :=
  match levels a with
  | true :: _ :: _ => [44]
  | _ => []
  end.

Definition put_text (s : list Z) (a : sink) : sink := set_level true (emit (comma a ++ s) a).

Definition jb_esc (c : Z) : list Z :=
  if c =? 34 then [92; 34]
  else if c =? 92 then [92; 92]
  else if c =? 10 then [92; 110]
  else if c =? 13 then [92; 114]
  else if c =? 9 then [92; 116]
  else if c <? 32 then [92; 117; 48; 48; hx (c / 16); hx (c mod 16)]
  else [c].

Definition jb_escaped (s : list Z) : list Z := mjoin (jb_esc <$> s).

(** The value a scalar call writes. *)
Definition scalar_json (s : scalar) : json :=
  match s with
  | SStr None => JStr []
  | SStr (Some s) => JStr (jb_escaped s)
  | SStrn s len => JStr (jb_escaped (cstr (take (Nat.min len 255) s)))
  | SU32 v | SU64 v => JPrim (fmt_u v)
  | SI32 v => JPrim (fmt_d v)
  | SF32 v d => JPrim (fmt_f d v)
  | SBool v => JPrim (if v then txt "true" else txt "false")
  | SNull => JPrim (txt "null")
  | SRaw v => v
  end.

(** What a caller must respect: C strings, values of the parameter's type, and
    a number text that fits the 32 octets jb_f32 has for it. *)
Definition scalar_ok (s : scalar) : Prop :=
  match s with
  | SStr None | SBool _ | SNull => True
  | SStr (Some s) => Forall cchar s
  | SStrn s len => Forall is_byte s /\ (Nat.min len 255 <= length s)%nat
  | SU32 v => 0 <= v < 2 ^ 32
  | SU64 v => 0 <= v < 2 ^ 64
  | SI32 v => - 2 ^ 31 <= v < 2 ^ 31
  | SF32 v d => is_finite v = true /\ (length (fmt_f d v) < 32)%nat
  | SRaw v => json_ok v = true
  end.

Definition api_ok (a : api) : Prop :=
  match a with
  | Begin _ | End _ => True
  | Scalar s => scalar_ok s
  | Key k => Forall cchar k
  | Pair k s => Forall cchar k /\ scalar_ok s
  end.

Definition put_key (k : list Z) (a : sink) : sink :=
  set_level false (emit [58] (put_text (quoted (jb_escaped k)) a)).

Definition opening (b : bracket) : Z := match b with Obj => 123 | Arr => 91 end.
Definition closing (b : bracket) : Z := match b with Obj => 125 | Arr => 93 end.

(** The levels of the comma state: 0 (outside every bracket) to 15. *)
Definition max_levels : nat := 16.

Definition meaning (c : api) (a : sink) : option sink :=
  match c with
  | Begin b =>
      if (length (levels a) <? max_levels)%nat then
        let a' := put_text [opening b] a in Some (a' <| levels := false :: levels a' |>)
      else None
  | End b =>
      match levels a with
      | _ :: (_ :: _) as up => Some (emit [closing b] (a <| levels := up |>))
      | _ => None
      end
  | Scalar s => Some (put_text (print (scalar_json s)) a)
  | Key k => Some (put_key k a)
  | Pair k s => Some (put_text (print (scalar_json s)) (put_key k a))
  end.

Fixpoint meanings (l : list api) (a : sink) : option sink :=
  match l with
  | [] => Some a
  | c :: l' => a' ← meaning c a; meanings l' a'
  end.

Definition empty_sink : sink := mkSink [] [false].

(** ** The relation between a builder and its specification *)
Section Refinement.
Context (size : nat).        (* the capacity of the buffer *)

(**     [holds jb t]: the buffer of [jb] shows the text [t] as far as it fits.  It
    is NUL-terminated inside its capacity, it shows a prefix of [t], and the
    overflow flag says exactly whether [t] and its NUL exceed the capacity. *)
Definition holds (jb : JB) (t : list Z) : Prop :=
  jb_cap jb = size /\ length (jb_buf jb) = size /\ (jb_pos jb < size)%nat /\
  jb_buf jb !! jb_pos jb = Some 0 /\
  take (jb_pos jb) (jb_buf jb) `prefix_of` t /\
  jb_overflow jb = (size <=? length t)%nat /\
  (jb_overflow jb = false -> take (jb_pos jb) (jb_buf jb) = t).

(** The 16-bit mask stands for the stack of levels. *)
Definition matches (m : Z) (ls : list bool) : Prop :=
  forall i b, reverse ls !! i = Some b -> Z.testbit m (Z.of_nat i) = b.

Definition refines (jb : JB) (a : sink) : Prop :=
  holds jb (out a) /\ matches (jb_need_comma jb) (levels a) /\
  jb_depth jb = Z.of_nat (length (levels a)) - 1 /\
  (1 <= length (levels a) <= max_levels)%nat.

(** ** Emitting text *)
Definition emits (f : call) (s : list Z) : Prop :=
  forall jb t, holds jb t ->
  exists jb', f jb = Some jb' /\ holds jb' (t ++ s) /\
    jb_need_comma jb' = jb_need_comma jb /\ jb_depth jb' = jb_depth jb.

Lemma putc_puts (c : Z) (jb : JB) : jb_putc c jb = jb_puts [c] 1 jb.
Proof. reflexivity. Qed.

Lemma emits_puts (s : list Z) (len : nat) :
  (len <= length s)%nat -> emits (jb_puts s len) (take len s).
Proof.
  intros Hlen jb t (Hcap & Hb & Hp & Hz & Hpre & Hov & Ht). unfold jb_puts.
  destruct (jb_overflow jb) eqn:Eo.
  { exists jb. split; [done|]. split; [|done]. unfold holds. rewrite Eo.
    symmetry in Hov. apply Nat.leb_le in Hov. repeat split; try done.
    - by apply prefix_app_r.
    - symmetry. apply Nat.leb_le. rewrite length_app. lia. }
  specialize (Ht eq_refl).
  assert (length t = jb_pos jb) as Hlt by (rewrite <- Ht, length_take; lia).
  assert (length (take len s) = len) as Hts by (rewrite length_take; lia).
  rewrite Hcap. destruct (Nat.leb_spec size (jb_pos jb + len)).
  { eexists. split; [done|]. split; [|done]. unfold holds. cbn.
    repeat split; try done; [by rewrite Ht; apply prefix_app_r|].
    symmetry. apply Nat.leb_le. rewrite length_app. lia. }
  rewrite (proj2 (Nat.ltb_ge _ _)) by done.
  destruct (store_terminated (jb_pos jb) (take len s) (jb_buf jb)) as
    (b1 & b2 & E1 & E2 & Htk & Hz2 & Hl2); [lia|].
  rewrite Hts in *. rewrite E1. cbn. rewrite E2. cbn. eexists. split; [done|]. split; [|done].
  unfold holds. cbn. rewrite Eo, Htk, Ht. repeat split; try done; [congruence|].
  symmetry. apply Nat.leb_gt. rewrite length_app. lia.
Qed.

Lemma emits_putc (c : Z) : emits (jb_putc c) [c].
Proof. intros jb t H. rewrite putc_puts. by apply (emits_puts [c] 1 ltac:(cbn; lia)). Qed.

Lemma emits_puts_all (s : list Z) (len : nat) : len = length s -> emits (jb_puts s len) s.
Proof.
  intros ->. pose proof (emits_puts s (length s) ltac:(lia)) as H. by rewrite take_ge in H by lia.
Qed.

Lemma emits_then (f g : call) (s1 s2 : list Z) :
  emits f s1 -> emits g s2 -> emits (f >>> g) (s1 ++ s2).
Proof.
  intros Hf Hg jb t H. destruct (Hf jb t H) as (j1 & E1 & H1 & Hm1 & Hd1).
  destruct (Hg j1 (t ++ s1) H1) as (j2 & E2 & H2 & Hm2 & Hd2).
  exists j2. unfold andthen. rewrite E1. cbn. rewrite <- app_assoc in H2.
  split; [done|]. split; [done|]. split; congruence.
Qed.

Lemma emits_char (c : Z) : cchar c -> emits (jb_char c) (jb_esc c).
Proof.
  intros Hc. unfold jb_char, jb_esc.
  repeat match goal with |- context [if ?x then _ else _] =>
    destruct x; [by apply (emits_puts_all _ 2)|] end.
  destruct (c <? 32); [|apply emits_putc].
  apply (emits_puts (snprintf 7 (txt "\u00" ++ [hx (c / 16); hx (c mod 16)]) ++ [0]) 6).
  cbn. lia.
Qed.

Lemma emits_chars (s : list Z) : Forall cchar s -> emits (jb_chars s) (jb_escaped s).
Proof.
  induction 1 as [|c s Hc _ IH]; cbn [jb_chars].
  - intros jb t H. exists jb. unfold jb_escaped. cbn. by rewrite app_nil_r.
  - change (jb_escaped (c :: s)) with (jb_esc c ++ jb_escaped s).
    apply emits_then; [by apply emits_char|done].
Qed.

Lemma emits_formatted (cap : nat) (s : list Z) :
  (length s < cap)%nat -> emits (jb_formatted cap s) s.
Proof.
  intros H. unfold jb_formatted, snprintf. rewrite (take_ge s) by lia.
  set (z := replicate _ _). pose proof (emits_puts (s ++ z) (length s)) as Hp.
  rewrite take_app_length in Hp. apply Hp. rewrite length_app. lia.
Qed.

(** ** The comma mask *)
Lemma level_bit_ok (d : Z) : 0 <= d < 32 -> level_bit d = Some (Z.shiftl 1 d).
Proof.
  intros H. unfold level_bit. by rewrite (proj2 (Z.leb_le _ _)), (proj2 (Z.ltb_lt _ _)) by lia.
Qed.

Lemma bit_spec (d i : Z) : 0 <= d -> 0 <= i -> Z.testbit (Z.shiftl 1 d) i = (i =? d).
Proof.
  intros Hd Hi. rewrite Z.shiftl_1_l. destruct (Z.eqb_spec i d) as [->|].
  - by rewrite Z.pow2_bits_true.
  - apply Z.pow2_bits_false. lia.
Qed.

Lemma bit_complement (d i : Z) :
  0 <= d < 32 -> 0 <= i < 32 -> Z.testbit (2 ^ 32 - 1 - Z.shiftl 1 d) i = negb (i =? d).
Proof.
  intros Hd Hi.
  assert (2 ^ 32 - 1 - Z.shiftl 1 d = Z.ldiff (Z.ones 32) (Z.shiftl 1 d)) as ->.
  { rewrite <- Z.sub_nocarry_ldiff; [done|]. apply Z.bits_inj'. intros k Hk.
    rewrite Z.ldiff_spec, bit_spec, Z.bits_0 by lia. destruct (Z.eqb_spec k d); [|done].
    subst. by rewrite Z.ones_spec_low by lia. }
  rewrite Z.ldiff_spec, bit_spec, Z.ones_spec_low by lia. done.
Qed.

Lemma u16_bit (x i : Z) : 0 <= i < 16 -> Z.testbit (u16 x) i = Z.testbit x i.
Proof. intros H. unfold u16. by rewrite Z.mod_pow2_bits_low by lia. Qed.

Lemma mask_test (m d : Z) : 0 <= d -> (Z.land m (Z.shiftl 1 d) =? 0) = negb (Z.testbit m d).
Proof.
  intros Hd. destruct (Z.testbit m d) eqn:E; cbn.
  - apply Z.eqb_neq. intros H. assert (Z.testbit (Z.land m (Z.shiftl 1 d)) d = true) as H'
      by (rewrite Z.land_spec, E, bit_spec, Z.eqb_refl by lia; done).
    by rewrite H, Z.bits_0 in H'.
  - apply Z.eqb_eq, Z.bits_inj'. intros k Hk. rewrite Z.land_spec, bit_spec, Z.bits_0 by lia.
    destruct (Z.eqb_spec k d); [subst; by rewrite E|by rewrite andb_false_r].
Qed.

(** A mask that differs from a matching one at the current level only. *)
Lemma matches_head (m m' : Z) (b b' : bool) (ls : list bool) :
  matches m (b :: ls) ->
  (forall i, 0 <= i < Z.of_nat (S (length ls)) ->
     Z.testbit m' i = if i =? Z.of_nat (length ls) then b' else Z.testbit m i) ->
  matches m' (b' :: ls).
Proof.
  intros Hm Hb i x Hi. rewrite reverse_cons in Hi.
  assert (i < S (length ls))%nat as Hlt
    by (apply lookup_lt_Some in Hi; rewrite length_app, length_reverse in Hi; cbn in Hi; lia).
  rewrite Hb by lia. destruct (Z.eqb_spec (Z.of_nat i) (Z.of_nat (length ls))) as [E|E].
  - rewrite lookup_app_r in Hi by (rewrite length_reverse; lia). rewrite length_reverse in Hi.
    replace (i - length ls)%nat with 0%nat in Hi by lia. by injection Hi.
  - apply Hm. rewrite reverse_cons. rewrite lookup_app_l in * by (rewrite length_reverse; lia). done.
Qed.

Lemma matches_tail (m : Z) (b : bool) (ls : list bool) : matches m (b :: ls) -> matches m ls.
Proof.
  intros Hm i x Hi. apply Hm. rewrite reverse_cons. by apply lookup_app_l_Some.
Qed.

Lemma matches_here (m : Z) (b : bool) (ls : list bool) :
  matches m (b :: ls) -> Z.testbit m (Z.of_nat (length ls)) = b.
Proof.
  intros Hm. apply Hm. rewrite reverse_cons, lookup_app_r by (rewrite length_reverse; lia).
  by rewrite length_reverse, Nat.sub_diag.
Qed.

(** ** Calls refine their meaning *)
Definition implements (f : call) (g : sink -> sink) : Prop :=
  forall jb a, refines jb a -> exists jb', f jb = Some jb' /\ refines jb' (g a).

Lemma impl_then (f f' : call) (g g' : sink -> sink) :
  implements f g -> implements f' g' -> implements (f >>> f') (fun a => g' (g a)).
Proof.
  intros Hf Hf' jb a H. destruct (Hf jb a H) as (j1 & E1 & H1).
  destruct (Hf' j1 _ H1) as (j2 & E2 & H2). exists j2. unfold andthen. by rewrite E1.
Qed.

Lemma impl_emit (f : call) (s : list Z) : emits f s -> implements f (emit s).
Proof.
  intros Hf jb a (Hh & Hm & Hd & Hl). destruct (Hf jb (out a) Hh) as (j1 & E1 & H1 & Hm1 & Hd1).
  exists j1. split; [done|]. unfold refines. cbn. by rewrite Hm1, Hd1.
Qed.

Lemma impl_level (f : call) (b : bool) :
  (forall jb, 0 <= jb_depth jb < 16 -> exists m, f jb = Some (jb <| jb_need_comma := m |>) /\
     forall i, 0 <= i < 16 ->
       Z.testbit m i = if i =? jb_depth jb then b else Z.testbit (jb_need_comma jb) i) ->
  implements f (set_level b).
Proof.
  intros Hf jb [o [|x ls]] (Hh & Hm & Hd & Hl); cbn in *; unfold max_levels in *; [lia|].
  destruct (Hf jb) as (m & E & Hb); [lia|].
  eexists. split; [exact E|]. split; [exact Hh|]. cbn. split; [|done].
  eapply matches_head; [exact Hm|]. intros i Hi. rewrite Hb by lia.
  by replace (jb_depth jb) with (Z.of_nat (length ls)) by lia.
Qed.

Lemma impl_mark : implements mark_level (set_level true).
Proof.
  apply impl_level. intros jb Hd. unfold mark_level. rewrite level_bit_ok by lia.
  eexists. split; [done|]. intros i Hi. rewrite u16_bit, Z.lor_spec, bit_spec by lia.
  destruct (i =? jb_depth jb); [apply orb_true_r|apply orb_false_r].
Qed.

Lemma impl_clear : implements clear_level (set_level false).
Proof.
  apply impl_level. intros jb Hd. unfold clear_level. rewrite level_bit_ok by lia.
  eexists. split; [done|]. intros i Hi. rewrite u16_bit, Z.land_spec, bit_complement by lia.
  destruct (i =? jb_depth jb); [apply andb_false_r|apply andb_true_r].
Qed.

Lemma impl_sep : implements jb_sep (fun a => set_level true (emit (comma a) a)).
Proof.
  apply (impl_then _ _ (fun a => emit (comma a) a)).
  - intros jb [o [|x ls]] H; [destruct H as (_ & _ & _ & H); cbn in H; lia|].
    destruct (H) as (_ & Hm & Hd & Hl). unfold max_levels in Hl. cbn in Hd, Hl.
    assert (forall j, refines j (mkSink o (x :: ls)) -> refines j (emit [] (mkSink o (x :: ls)))) as Hnil
      by (unfold emit; cbn; by rewrite app_nil_r).
    unfold comma. cbn [levels]. destruct (Z.ltb_spec 0 (jb_depth jb)).
    + rewrite level_bit_ok by lia. cbn [mbind option_bind]. rewrite mask_test by lia.
      replace (jb_depth jb) with (Z.of_nat (length ls)) by lia.
      rewrite (matches_here _ _ _ Hm). destruct ls as [|y ls]; [cbn in *; lia|].
      destruct x; [by apply (impl_emit _ _ (emits_putc 44))|eauto].
    + destruct ls as [|y ls]; [|cbn in *; lia]. exists jb. destruct x; auto.
  - intros jb a H. destruct (H) as (_ & _ & Hd & Hl).
    rewrite (proj2 (Z.leb_le _ _)) by lia. by apply impl_mark.
Qed.

Lemma impl_value (f : call) (s : list Z) : emits f s -> implements (jb_sep >>> f) (put_text s).
Proof.
  intros Hf jb a H. destruct (impl_then _ _ _ _ impl_sep (impl_emit f s Hf) jb a H) as (j & E & Hj).
  exists j. split; [done|]. unfold put_text, set_level, emit in *. cbn in *. by rewrite app_assoc.
Qed.

Lemma andthen_assoc (f g h : call) (jb : JB) : (f >>> g >>> h) jb = (f >>> (g >>> h)) jb.
Proof. unfold andthen. by destruct (f jb). Qed.

Lemma impl_ext (f f' : call) (g : sink -> sink) :
  (forall jb, f jb = f' jb) -> implements f g -> implements f' g.
Proof. intros E H jb a Hr. rewrite <- E. by apply H. Qed.

Lemma impl_str (s : option (list Z)) :
  match s with Some s => Forall cchar s | None => True end ->
  implements (jb_str s) (put_text (quoted (jb_escaped (default [] s)))).
Proof.
  intros Hs. unfold jb_str. eapply impl_ext; [intros; symmetry; apply andthen_assoc|].
  apply impl_value, (emits_then _ _ [34]); [apply emits_putc|].
  destruct s as [s|]; [|by apply (emits_puts_all [34] 1)].
  apply emits_then; [by apply emits_chars|apply emits_putc].
Qed.

Lemma impl_key (k : list Z) : Forall cchar k -> implements (jb_key k) (put_key k).
Proof.
  intros Hk. set (q := put_text (quoted (jb_escaped k))).
  apply (impl_then _ _ (fun a => emit [58] (q a)) (set_level false)); [|apply impl_clear].
  apply (impl_then _ _ q (emit [58])); [by apply (impl_str (Some k))|apply impl_emit, emits_putc].
Qed.

(** ** Scalars *)
Lemma cstr_cchars (l : list Z) : Forall is_byte l -> Forall cchar (cstr l).
Proof.
  induction 1 as [|c l Hc _ IH]; cbn [cstr]; [done|].
  destruct (Z.eqb_spec c 0); [done|]. constructor; [|done]. unfold cchar, is_byte in *. lia.
Qed.

Lemma impl_scalar (s : scalar) :
  scalar_ok s -> implements (put_scalar s) (put_text (print (scalar_json s))).
Proof.
  destruct s as [[s|]|s len|v|v|v|v d|v| |v]; cbn [scalar_ok put_scalar]; intros Hs.
  - by apply (impl_str (Some s)).
  - by apply (impl_str None).
  - destruct Hs as [Hb Hl]. unfold jb_strn, scalar_json.
    replace (if (256 <=? len)%nat then 255%nat else len) with (Nat.min len 255)
      by (destruct (Nat.leb_spec 256 len); lia).
    rewrite (proj2 (Nat.ltb_ge _ _)) by done.
    by apply (impl_str (Some _)), cstr_cchars, Forall_take.
  - apply impl_value, emits_formatted. pose proof (fmt_u_length 9 v) as Hn.
    change (10 ^ Z.of_nat 10) with 10000000000 in Hn. cbn [scalar_json print]. lia.
  - apply impl_value, emits_formatted. pose proof (fmt_u_length 19 v) as Hn.
    change (10 ^ Z.of_nat 20) with 100000000000000000000 in Hn. cbn [scalar_json print]. lia.
  - apply impl_value, emits_formatted. pose proof (fmt_d_length 9 v) as Hn.
    change (10 ^ Z.of_nat 10) with 10000000000 in Hn. cbn [scalar_json print]. lia.
  - apply impl_value, emits_formatted. cbn [scalar_json print]. lia.
  - apply impl_value. destruct v; by apply emits_puts_all.
  - apply impl_value. by apply emits_puts_all.
  - apply impl_value. by apply emits_puts_all.
Qed.

Lemma impl_pair (k : list Z) (s : scalar) :
  Forall cchar k -> scalar_ok s ->
  implements (jb_key k >>> put_scalar s) (fun a => put_text (print (scalar_json s)) (put_key k a)).
Proof. intros Hk Hs. apply impl_then; [by apply impl_key|by apply impl_scalar]. Qed.

Lemma refines_begin (b : bracket) (jb : JB) (a : sink) :
  refines jb a -> (length (levels a) < max_levels)%nat ->
  exists jb', (jb_sep >>> jb_putc (opening b) >>> deeper 1 >>> clear_level) jb = Some jb' /\
    refines jb' ((put_text [opening b] a) <| levels := false :: levels (put_text [opening b] a) |>).
Proof.
  intros H Hl. unfold max_levels in Hl.
  destruct (impl_value _ _ (emits_putc (opening b)) jb a H) as (j1 & E1 & H1).
  unfold andthen at 1 2. rewrite E1. cbn [mbind option_bind deeper].
  destruct H1 as (Hh & Hm & Hd & Hl1).
  destruct a as [o [|x ls]]; [destruct H as (_ & _ & _ & H); cbn in H; lia|]. cbn in Hd, Hm, Hh, Hl, Hl1.
  unfold clear_level. cbn [jb_depth]. cbn. rewrite level_bit_ok by lia. cbn.
  eexists. split; [done|]. unfold refines. cbn. split; [exact Hh|].
  split; [|unfold max_levels; lia].
  intros i y Hi. assert (i < S (S (length ls)))%nat as Hlt
    by (apply lookup_lt_Some in Hi; rewrite length_reverse in Hi; cbn in Hi; lia).
  rewrite u16_bit, Z.land_spec, bit_complement by lia.
  destruct (Z.eqb_spec (Z.of_nat i) (jb_depth j1 + 1)) as [E|E]; cbn [negb].
  - rewrite reverse_cons, lookup_app_r in Hi by (rewrite length_reverse; cbn; lia).
    rewrite length_reverse in Hi. cbn [length] in Hi.
    replace (i - S (length ls))%nat with 0%nat in Hi by lia. injection Hi as <-. apply andb_false_r.
  - rewrite andb_true_r. apply Hm. rewrite reverse_cons in Hi.
    by rewrite lookup_app_l in Hi by (rewrite length_reverse; cbn; lia).
Qed.

Lemma refines_end (b : bracket) (jb : JB) (o : list Z) (x : bool) (up : list bool) :
  refines jb (mkSink o (x :: up)) -> up <> [] ->
  exists jb', (clear_level >>> deeper (-1) >>> jb_putc (closing b)) jb = Some jb' /\
    refines jb' (emit [closing b] (mkSink o up)).
Proof.
  intros H Hup. destruct (impl_clear jb _ H) as (j1 & E1 & Hh & Hm & Hd & Hl).
  cbn in Hh, Hm, Hd, Hl. unfold andthen at 1 2. rewrite E1. cbn [mbind option_bind deeper].
  apply (impl_emit _ _ (emits_putc (closing b))).
  split; [exact Hh|]. cbn. split; [by eapply matches_tail|]. unfold max_levels in *.
  destruct up; [done|]. cbn [length] in *. lia.
Qed.

Lemma perform_refines (c : api) (jb : JB) (a a' : sink) :
  refines jb a -> api_ok c -> meaning c a = Some a' ->
  exists jb', perform c jb = Some jb' /\ refines jb' a'.
Proof.
  intros H Hok Hm. destruct c as [b|b|s|k|k s]; cbn [meaning api_ok] in *.
  - destruct (Nat.ltb_spec (length (levels a)) max_levels); [|done]. injection Hm as <-.
    by destruct b; [apply (refines_begin Obj)|apply (refines_begin Arr)].
  - destruct a as [o [|x [|y up]]]; try done. injection Hm as <-.
    by destruct b; [eapply (refines_end Obj)|eapply (refines_end Arr)].
  - injection Hm as <-. by apply impl_scalar.
  - injection Hm as <-. by apply impl_key.
  - injection Hm as <-. destruct Hok as [Hk Hs].
    destruct (impl_pair k s Hk Hs jb a H) as (j & E & Hj). exists j. split; [|done].
    rewrite <- E. by destruct s.
Qed.

Lemma script_refines (l : list api) (jb : JB) (a a' : sink) :
  refines jb a -> Forall api_ok l -> meanings l a = Some a' ->
  exists jb', script l jb = Some jb' /\ refines jb' a'.
Proof.
  intros H Hok. revert jb a H. induction Hok as [|c l Hc _ IH]; intros jb a H Hm; cbn in Hm.
  { injection Hm as <-. by exists jb. }
  destruct (meaning c a) as [a1|] eqn:E; [|done]. cbn in Hm.
  destruct (perform_refines c jb a a1 H Hc E) as (j1 & E1 & H1).
  destruct (IH j1 a1 H1 Hm) as (j2 & E2 & H2). exists j2. cbn. unfold andthen. by rewrite E1.
Qed.

Lemma init_refines (buf : list Z) :
  length buf = size -> (0 < size)%nat ->
  exists jb, jb_init buf size = Some jb /\ refines jb empty_sink.
Proof.
  intros Hb Hc. destruct buf as [|x buf]; [cbn in Hb; lia|].
  unfold jb_init. rewrite (proj2 (Nat.ltb_lt _ _)) by done. cbn [length] in Hb.
  rewrite store_ok by (cbn; lia). cbn. eexists. split; [done|].
  unfold refines, holds, max_levels. cbn. repeat split; try lia.
  - rewrite drop_0. lia.
  - by apply prefix_nil.
  - symmetry. apply Nat.leb_gt. lia.
  - intros i b Hi. destruct i as [|i]; [by injection Hi|done].
Qed.

End Refinement.

(** ** Values and the calls a client makes for them *)
Inductive value :=
  | VScalar (s : scalar)
  | VArr (l : list value)
  | VObj (l : list (list Z * value)).

Fixpoint calls (v : value) : list api :=
  match v with
  | VScalar s => [Scalar s]
  | VArr l => Begin Arr :: flat_map calls l ++ [End Arr]
  | VObj l => Begin Obj :: flat_map (fun kv => Key kv.1 :: calls kv.2) l ++ [End Obj]
  end.

Fixpoint json_of (v : value) : json :=
  match v with
  | VScalar s => scalar_json s
  | VArr l => JArr (map json_of l)
  | VObj l => JObj (map (fun kv => (jb_escaped kv.1, json_of kv.2)) l)
  end.

(** Brackets nested in each other. *)
Fixpoint nesting (v : value) : nat :=
  match v with
  | VScalar _ => 0
  | VArr l => S (list_max (map nesting l))
  | VObj l => S (list_max (map (fun kv => nesting kv.2) l))
  end.

Fixpoint value_ok (v : value) : Prop :=
  match v with
  | VScalar s => scalar_ok s
  | VArr l => fold_right (fun v P => value_ok v /\ P) True l
  | VObj l => fold_right (fun kv P => (Forall cchar kv.1 /\ value_ok kv.2) /\ P) True l
  end.

Section ValueInd.
Context (P : value -> Prop) (Hs : forall s, P (VScalar s))
  (Ha : forall l, Forall P l -> P (VArr l)) (Ho : forall l, Forall (fun kv => P kv.2) l -> P (VObj l)).

Fixpoint value_nested_ind (v : value) : P v :=
  match v with
  | VScalar s => Hs s
  | VArr l => Ha l ((fix go l : Forall P l :=
      match l with
      | [] => Forall_nil_2 P
      | v :: l' => Forall_cons_2 P v l' (value_nested_ind v) (go l')
      end) l)
  | VObj l => Ho l ((fix go l : Forall (fun kv => P kv.2) l :=
      match l with
      | [] => Forall_nil_2 _
      | kv :: l' => Forall_cons_2 _ kv l' (value_nested_ind kv.2) (go l')
      end) l)
  end.
End ValueInd.

Lemma meanings_app (l k : list api) (a : sink) :
  meanings (l ++ k) a = (a' ← meanings l a; meanings k a').
Proof. revert a. induction l as [|c l IH]; intros a; [done|]. cbn. destruct (meaning c a); cbn; auto. Qed.

Definition written (v : value) : Prop :=
  forall a, levels a <> [] -> (nesting v + length (levels a) <= max_levels)%nat ->
  meanings (calls v) a = Some (put_text (print (json_of v)) a).

Lemma meaning_begin (b : bracket) (o : list Z) (x : bool) (ls : list bool) :
  (S (length ls) < max_levels)%nat ->
  meaning (Begin b) (mkSink o (x :: ls)) =
  Some (mkSink (out (put_text [opening b] (mkSink o (x :: ls)))) (false :: true :: ls)).
Proof. intros H. cbn [meaning levels length]. by rewrite (proj2 (Nat.ltb_lt _ _) H). Qed.

Lemma put_text_next (s o : list Z) (y : bool) (ls : list bool) :
  put_text s (mkSink o (true :: y :: ls)) = mkSink (o ++ 44 :: s) (true :: y :: ls).
Proof. reflexivity. Qed.

Lemma put_text_first (s o : list Z) (ls : list bool) :
  put_text s (mkSink o (false :: ls)) = mkSink (o ++ s) (true :: ls).
Proof. reflexivity. Qed.

Lemma put_key_next (k o : list Z) (y : bool) (ls : list bool) :
  put_key k (mkSink o (true :: y :: ls)) =
  mkSink (o ++ 44 :: quoted (jb_escaped k) ++ [58]) (false :: y :: ls).
Proof. unfold put_key. rewrite put_text_next. unfold set_level, emit. cbn. by rewrite <- (app_assoc o). Qed.

Lemma put_key_first (k o : list Z) (ls : list bool) :
  put_key k (mkSink o (false :: ls)) = mkSink (o ++ quoted (jb_escaped k) ++ [58]) (false :: ls).
Proof. unfold put_key. rewrite put_text_first. unfold set_level, emit. cbn. by rewrite <- (app_assoc o). Qed.

(** What stands in a bracket after its first element. *)
Lemma elems_written (l : list value) (o : list Z) (y : bool) (ls : list bool) :
  Forall written l -> (list_max (map nesting l) + S (S (length ls)) <= max_levels)%nat ->
  meanings (flat_map calls l) (mkSink o (true :: y :: ls)) =
  Some (mkSink (o ++ elems_text (map json_of l)) (true :: y :: ls)).
Proof.
  intros Hl. revert o. induction Hl as [|v l Hv _ IH]; intros o Hn; cbn [flat_map meanings map elems_text].
  { by rewrite app_nil_r. }
  cbn [map list_max fold_right] in Hn. fold (list_max (map nesting l)) in Hn.
  rewrite meanings_app, Hv by (cbn; (done || lia)). cbn [mbind option_bind].
  rewrite put_text_next, IH by lia. by rewrite <- !app_assoc.
Qed.

Lemma members_written (l : list (list Z * value)) (o : list Z) (y : bool) (ls : list bool) :
  Forall (fun kv => written kv.2) l ->
  (list_max (map (fun kv => nesting kv.2) l) + S (S (length ls)) <= max_levels)%nat ->
  meanings (flat_map (fun kv => Key kv.1 :: calls kv.2) l) (mkSink o (true :: y :: ls)) =
  Some (mkSink (o ++ members_text (map (fun kv => (jb_escaped kv.1, json_of kv.2)) l)) (true :: y :: ls)).
Proof.
  intros Hl. revert o. induction Hl as [|[k v] l Hv _ IH]; intros o Hn; cbn [flat_map meanings map members_text].
  { by rewrite app_nil_r. }
  cbn [map list_max fold_right snd] in Hn. fold (list_max (map (fun kv => nesting kv.2) l)) in Hn.
  cbn [app fst snd meanings]. cbn [meaning mbind option_bind].
  rewrite put_key_next, meanings_app, Hv by (cbn; (done || lia)). cbn [mbind option_bind].
  rewrite put_text_first, IH by lia. cbn [app]. rewrite <- !app_assoc. cbn [app]. by rewrite <- !app_assoc.
Qed.

Lemma meanings_key (k : list Z) (l : list api) (a : sink) :
  meanings (Key k :: l) a = meanings l (put_key k a).
Proof. reflexivity. Qed.

Lemma bracket_text (b : bracket) (s o : list Z) (x y : bool) (ls : list bool) :
  meaning (End b) (mkSink (out (put_text [opening b] (mkSink o (x :: ls))) ++ s) (y :: true :: ls)) =
  Some (put_text (opening b :: s ++ [closing b]) (mkSink o (x :: ls))).
Proof.
  unfold put_text, set_level, emit, upd. cbn [meaning levels out tail].
  unfold emit, upd. cbn [levels out]. by rewrite <- !app_assoc.
Qed.

Lemma value_written (v : value) : written v.
Proof.
  induction v as [s|l IH|l IH] using value_nested_ind; intros [o [|x ls]] Hne Hn; try done;
    cbn [nesting levels length] in Hn; cbn [calls meanings];
    rewrite meaning_begin by (unfold max_levels in *; lia);
    cbn [mbind option_bind]; set (o1 := out (put_text _ _)); rewrite meanings_app.
  - destruct l as [|v l].
    + cbn [flat_map meanings mbind option_bind]. rewrite <- (app_nil_r o1). unfold o1.
      by rewrite (bracket_text Arr []).
    + apply Forall_cons in IH as [Hv Hl]. cbn [map list_max fold_right] in Hn.
      fold (list_max (map nesting l)) in Hn. cbn [flat_map].
      rewrite meanings_app, Hv by (cbn [levels length]; (done || lia)). cbn [mbind option_bind].
      rewrite put_text_first, elems_written by (done || lia).
      rewrite <- app_assoc. cbn [mbind option_bind meanings]. unfold o1.
      by rewrite (bracket_text Arr).
  - destruct l as [|[k v] l].
    + cbn [flat_map meanings mbind option_bind]. rewrite <- (app_nil_r o1). unfold o1.
      by rewrite (bracket_text Obj []).
    + apply Forall_cons in IH as [Hv Hl]. cbn [map list_max fold_right snd] in Hn.
      fold (list_max (map (fun kv => nesting kv.2) l)) in Hn.
      cbn [flat_map app fst snd] in *.
      rewrite meanings_key, put_key_first, meanings_app, Hv by (cbn [levels length]; (done || lia)).
      cbn [mbind option_bind]. rewrite put_text_first, members_written by (done || lia).
      rewrite <- !app_assoc. cbn [mbind option_bind meanings]. unfold o1.
      rewrite (bracket_text Obj). do 2 f_equal. cbn [json_of map fst snd print members_text].
      by rewrite <- !app_assoc.
Qed.

(** ** What is written is JSON *)
Lemma numeral_ok (s : list Z) : numeral s -> prim_okb s = true.
Proof.
  intros [Hs Hne]. unfold prim_okb. apply andb_true_intro.
  assert (forall c, numchar c = true -> (32 <? c) && (c <? 127) && negb (prim_delim c) = true /\
    negb (c =? 123) && negb (c =? 91) && negb (c =? 34) = true) as Hc.
  { intros c Hc. assert (c = 45 \/ c = 46 \/ 48 <= c <= 57) as Hr
      by (unfold numchar, isdigit in Hc; lia).
    assert (is_byte c) as Hb by (unfold is_byte; lia).
    pose proof (byte_forall (fun c => implb (numchar c) ((32 <? c) && (c <? 127) && negb (prim_delim c)
      && (negb (c =? 123) && negb (c =? 91) && negb (c =? 34)))) ltac:(vm_compute; reflexivity) c Hb) as H.
    cbn beta in H. rewrite Hc in H. by apply andb_prop in H. }
  split.
  - rewrite !forallb_forall in *. intros c Hi. by apply Hc, Hs.
  - destruct s as [|c s]; [done|]. cbn in Hs. apply andb_prop in Hs as [Hs _]. by apply Hc.
Qed.

(** Escaping loses nothing, and its result is a string body. *)
Lemma jb_esc_ok (c : Z) (s : list Z) :
  cchar c -> str_okb (jb_esc c ++ s) = str_okb s /\ unescape (jb_esc c ++ s) = cons c <$> unescape s.
Proof.
  intros Hc. unfold jb_esc.
  repeat match goal with |- context [if ?x =? ?k then _ else _] =>
    destruct (Z.eqb_spec x k); [subst; split; reflexivity|] end.
  destruct (c <? 32) eqn:E.
  - pose proof (esc_low c ltac:(unfold is_byte, cchar in *; lia)) as H. rewrite E in H. zbool.
    cbn [app str_okb unescape Z.eqb Pos.eqb orb andb]. cbn [simple_escape Z.eqb Pos.eqb orb].
    rewrite H, H0, H1. change (is_hex 48) with true. done.
  - cbn [app str_okb unescape]. destruct (Z.eqb_spec c 34); [done|]. by destruct (Z.eqb_spec c 92).
Qed.

Lemma jb_escaped_ok (s : list Z) :
  Forall cchar s -> str_okb (jb_escaped s) = true /\ unescape (jb_escaped s) = Some s.
Proof.
  induction 1 as [|c s Hc _ [IH1 IH2]]; [done|].
  change (jb_escaped (c :: s)) with (jb_esc c ++ jb_escaped s).
  destruct (jb_esc_ok c (jb_escaped s) Hc) as [-> ->]. by rewrite IH2.
Qed.

Lemma scalar_json_ok (s : scalar) : scalar_ok s -> json_ok (scalar_json s) = true.
Proof.
  destruct s as [[s|]|s len|v|v|v|v d|[]| |v]; cbn; intros H; try done.
  - by apply jb_escaped_ok.
  - apply jb_escaped_ok, cstr_cchars, Forall_take, H.
  - apply numeral_ok, fmt_u_numeral, H.
  - apply numeral_ok, fmt_u_numeral, H.
  - apply numeral_ok, fmt_d_numeral.
  - apply numeral_ok, fmt_f_numeral, H.
Qed.

Lemma value_json_ok (v : value) : value_ok v -> json_ok (json_of v) = true /\ Forall api_ok (calls v).
Proof.
  induction v as [s|l IH|l IH] using value_nested_ind; cbn [value_ok json_of json_ok calls]; intros H.
  - split; [by apply scalar_json_ok|by repeat constructor].
  - enough (forallb json_ok (map json_of l) = true /\ Forall api_ok (flat_map calls l)) as [H1 H2]
      by (split; [done|]; constructor; [done|]; apply Forall_app; by repeat constructor).
    induction IH as [|v l Hv _ IH]; [done|]. cbn in *. destruct H as [H1 H2].
    destruct (Hv H1) as [-> ?], (IH H2) as [-> ?]. split; [done|]. by apply Forall_app.
  - enough (forallb (fun kv => str_okb kv.1 && json_ok kv.2)
        (map (fun kv => (jb_escaped kv.1, json_of kv.2)) l) = true /\
      Forall api_ok (flat_map (fun kv => Key kv.1 :: calls kv.2) l)) as [H1 H2]
      by (split; [done|]; constructor; [done|]; apply Forall_app; by repeat constructor).
    induction IH as [|[k v] l Hv _ IH]; [done|].
    cbn [fold_right map forallb flat_map fst snd app] in *. destruct H as [[Hk H1] H2].
    destruct (Hv H1) as [-> ?], (IH H2) as [-> ?]. rewrite (proj1 (jb_escaped_ok k Hk)).
    split; [done|]. constructor; [done|]. by apply Forall_app.
Qed.

(** ** Correctness *)


Definition sample_script : list api :=
  [Begin Obj; Pair (txt "a") (SU32 7); Key (txt "b"); Begin Arr; Scalar (SStr (Some [34; 7]));
   Scalar (SBool true); End Arr].


(** Round trip through the builder and the tokeniser.  Any value nested at
    most fifteen brackets deep, written call by call into a buffer that has
    room for its text and the NUL, comes out as exactly its printed form, and
    jsmn_parse reads the buffer back as the tokens of that value; the strings
    in it decode to the strings the client passed. *)
Theorem jb_value_roundtrip (v : value) (buf : list Z) (toks : list jsmntok_t) (num : nat) :
  value_ok v -> (nesting v <= 15)%nat -> (length (print (json_of v)) < length buf)%nat ->
  (length (tokens 0 (json_of v)) <= num <= length toks)%nat ->
  exists jb, (jb0 ← jb_init buf (length buf); script (calls v) jb0) = Some jb /\
    jb_overflow jb = false /\ take (jb_pos jb) (jb_buf jb) = print (json_of v) /\
    jb_buf jb !! jb_pos jb = Some 0 /\
    jsmn_parse jsmn_init (jb_buf jb) (jb_pos jb) toks num =
      (Z.of_nat (length (tokens 0 (json_of v))),
       tokens 0 (json_of v) ++ drop (length (tokens 0 (json_of v))) toks) /\
    (forall s, Forall cchar s -> unescape (jb_escaped s) = Some s).
Proof.
  intros Hv Hn Hb Ht. destruct (value_json_ok v Hv) as [Hj Hok].
  pose proof (value_written v empty_sink ltac:(done) ltac:(cbn; unfold max_levels; lia)) as Hm.
  destruct (init_refines (length buf) buf) as (j0 & E0 & H0); [lia..|].
  destruct (script_refines _ _ j0 _ _ H0 Hok Hm) as (jb & E & (_ & Hl & Hp & Hz & _ & Ho & He) & _).
  exists jb. rewrite E0. cbn [mbind option_bind]. split; [done|].
  cbn in Ho, He.
  assert (jb_overflow jb = false) as Hf by (rewrite Ho; apply Nat.leb_gt; lia).
  specialize (He Hf). split; [done|]. split; [done|]. split; [done|].
  split; [|intros s Hs; by apply jb_escaped_ok].
  rewrite <- (take_drop (jb_pos jb) (jb_buf jb)), He.
  assert (jb_pos jb = length (print (json_of v))) as -> by (rewrite <- He, length_take; lia).
  by apply (jsmn_parse_text_core _ _ _ _ _ _ (print_text _ Hj)).
Qed.

Definition sample_built : value :=
  VObj [(txt "type", VScalar (SStr (Some (txt "say " ++ [34; 8] ++ txt "hi")))); (txt "n", VScalar (SI32 (-5)));
        (txt "l", VArr [VScalar (SF32 (d_dec 25 (-1)) 2); VScalar SNull; VArr []; VScalar (SStrn [65; 0; 66] 3)])].

Lemma jb_value_roundtrip_witness :
  value_ok sample_built /\
  exists jb, (jb0 ← jb_init (replicate 100 9) 100; script (calls sample_built) jb0) = Some jb /\
    jb_overflow jb = false /\ take (jb_pos jb) (jb_buf jb) = print (json_of sample_built).
Proof.
  assert (value_ok sample_built) as Hv
    by (cbn; repeat first [split|constructor]; cbn; try lia; try reflexivity).
  split; [exact Hv|].
  destruct (jb_value_roundtrip sample_built (replicate 100 9) (replicate 32 inhabitant) 32)
    as (jb & E & Ho & Ht & _); [exact Hv|vm_compute; lia..|].
  exists jb. exact (conj E (conj Ho Ht)).
Defined.

(** ** Limits *)

(** [n] arrays around two numbers. *)
Fixpoint deep (n : nat) : list api :=
  match n with
  | O => [Scalar (SU32 1); Scalar (SU32 2)]
  | S n' => Begin Arr :: deep n' ++ [End Arr]
  end.

Definition built (size : nat) (l : list api) : option (list Z) :=
  jb0 ← jb_init (replicate size 0) size; jb ← script l jb0; Some (take (jb_pos jb) (jb_buf jb)).

(** The limits of the builder.  With sixteen brackets open the 16-bit mask
    has no bit for the level, the comma is lost and the two elements run
    together, while fifteen brackets come out right; and jb_f32 hands the
    length snprintf would have needed to jb_puts, so that a number of 32
    characters or more makes it read past its 32-octet array. *)
Theorem jb_limits :
  built 100 (deep 15) = Some (replicate 15 91 ++ txt "1,2" ++ replicate 15 93) /\
  built 100 (deep 16) = Some (replicate 16 91 ++ txt "12" ++ replicate 16 93) /\
  length (fmt_f 2 (d_dec 1 30)) = 34%nat /\
  built 100 [Scalar (SF32 (d_dec 1 30) 2)] = None.
Proof. repeat split; vm_compute; reflexivity. Qed.
End Builder.
