(* ===== verification/Config.v ===== *)
(** * Constants and the sampling mode: config.h *)
From Stdlib Require Import SpecFloat.
From S2P Require Import Prelude CLib.
#[local] Open Scope Z_scope.

Definition MAX_SESSIONS : nat := 4.
Definition MAX_MSG_BYTES : Z := 65536.
Definition MAX_JSON_TOKENS : nat := 256.

Definition SLC_FW_STRING : list Z := txt "sdr-slc-rtld/1.0".
Definition PROTO_NAME : list Z := txt "SDR-SLC Control Plane".
Definition PROTO_VERSION : list Z := txt "1.0".
Definition MANUFACTURER : list Z := txt "IXChange BV".
Definition HW_REVISION : list Z := txt "RTL-SDR-v4".
Definition MODEL_NAME : list Z := txt "RTL-SDR SDR-SLC Bridge".
Definition CAP_SCHEMA_VERSION : Z := 2.
Definition RX_TIER : Z := 2.

Inductive sampling_mode_t : Set := SAMPLING_NORMAL | SAMPLING_DIRECT_I | SAMPLING_DIRECT_Q.

#[export] Instance sampling_mode_eq_dec : EqDecision sampling_mode_t.
Proof. solve_decision. Defined.

Definition RTL_DEFAULT_FREQ : Z := 7000000.
Definition RTL_DEFAULT_GAIN : Z := 200.
Definition RTL_DEFAULT_RATE_NORMAL : Z := 2048000.
Definition RTL_DEFAULT_RATE_DIRECT : Z := 1024000.
Definition RTL_SAMPLE_RATES_NORMAL : list Z :=
  [250000; 1024000; 1536000; 1800000; 2048000; 2400000].
Definition RTL_SAMPLE_RATES_DIRECT : list Z := [250000; 512000; 1024000; 2048000].
Definition RTL_FREQ_MIN_NORMAL : Z := 500000.
Definition RTL_FREQ_MAX_NORMAL : Z := 1766000000.
Definition RTL_FREQ_MIN_DIRECT : Z := 100000.
Definition RTL_FREQ_MAX_DIRECT : Z := 30000000.

Definition VITA_SAMPLES_PER_PKT : nat := 256.
Definition RTL_ASYNC_BUF_LEN : nat := Z.to_nat 16384.
Definition VITA_CIF0_CHANGED : Z := 0x80000000.
Definition VITA_CIF0_REF_LEVEL : Z := 0x01000000.
Definition VITA_CIF0_PAYLOAD_FORMAT : Z := 0x00008000.
Definition VITA_CIF0_BASE : Z := Z.lor VITA_CIF0_REF_LEVEL VITA_CIF0_PAYLOAD_FORMAT.
Definition VITA_PAYLOAD_FMT_COMPLEX : Z := 0x300001C7.
Definition VITA_PAYLOAD_FMT_REAL : Z := 0x100001C7.
Definition VITA_CTX_PKT_SIZE_WORDS : Z := 6.

Definition RTL_REF_LEVEL_DBM_AT_0DB : double := d_dec (-100) (-1).
Definition RTL_REF_LEVEL_ACCURACY_DB : double := d_dec 80 (-1).
Definition RTL_BIAS_TEE_VOLTS : double := d_dec 50 (-1).
Definition RTL_ADC_FULL_SCALE : double := d_dec 1275 (-1).
Definition RTL_ADC_STRIDE : nat := 8.
Definition RTL_ADC_CLIP_LOW : Z := 1.
Definition RTL_ADC_CLIP_HIGH : Z := 254.
Definition RTL_ADC_CLIP_PPM_TRIGGER : Z := 100.
Definition ADC_OVERLOAD_MIN_GAP_MS : Z := 1000.

Definition RING_SLOTS : Z := 2048.
Definition RING_MASK : Z := RING_SLOTS - 1.

Definition d_zero : double := S754_zero false.

(** [x / 10.0] for an integer [x]. *)
Definition tenth (x : Z) : double := d_div (d_of_Z x) (d_of_Z 10).
