(* ===== verification/Rtl.v ===== *)
(** * The receiver: rtl/rtl_bridge.c

    librtlsdr is not part of the repository: it is the class [Platform], a
    device state with the operations the bridge calls, together with the
    libm logarithm.  What the theorems rely on of the library is the class
    [PlatformLaws]; the fake library of test/rtlsdr_stub.c is an instance.
    The globals of rtl_bridge.c are the fields of [Rtl]. *)
From Stdlib Require Import SpecFloat.
From S2P Require Import Prelude CLib Config.
#[local] Open Scope Z_scope.

(** ** librtlsdr *)
Class Platform (D : Type) := {
  rtlsdr_open : D -> Z * D;
  rtlsdr_set_center_freq : D -> Z -> Z * D;
  rtlsdr_get_center_freq : D -> Z;
  rtlsdr_set_sample_rate : D -> Z -> Z * D;
  rtlsdr_get_sample_rate : D -> Z;
  rtlsdr_set_tuner_gain_mode : D -> Z -> Z * D;
  rtlsdr_set_tuner_gain : D -> Z -> Z * D;
  rtlsdr_get_tuner_gain : D -> Z;
  rtlsdr_get_tuner_gains : D -> list Z;
  rtlsdr_set_agc_mode : D -> Z -> Z * D;
  rtlsdr_set_bias_tee : D -> Z -> Z * D;
  rtlsdr_set_freq_correction : D -> Z -> Z * D;
  rtlsdr_set_direct_sampling : D -> Z -> Z * D;
  rtlsdr_reset_buffer : D -> Z * D;
  rtlsdr_cancel_async : D -> Z * D;
  libm_log10 : double -> double
}.

(** Documented behaviour of the library, for a working tuner: after a successful
    rtlsdr_set_center_freq, rtlsdr_get_center_freq returns that frequency. *)
Class PlatformLaws (D : Type) `{Platform D} : Prop :=
  tunes (d : D) (f : Z) : RTL_FREQ_MIN_DIRECT <= f <= RTL_FREQ_MAX_NORMAL ->
    rtlsdr_get_center_freq (rtlsdr_set_center_freq d f).2 = f.

(** ** State *)
Record RingSlot := mkSlot { slot_data : list Z; slot_len : Z }.

Record Rtl (D : Type) := mkRtl {
  g_freq_hz : Z;
  g_rate_sps : Z;
  g_rate_requested_sps : Z;
  g_gain_tenth_db : Z;
  g_agc_enabled : bool;
  g_bias_tee_enabled : bool;
  g_ppm_correction : Z;
  g_sampling_mode : sampling_mode_t;
  g_samples_per_pkt : Z;
  g_bias_tee_volts : double;
  g_bias_tee_persist : bool;
  g_adc_overload : bool;
  s_dev : option D;
  rtl_running : bool;
  s_stream_count : Z;
  s_cb_count : Z;
  s_adc_sumsq : Z;
  s_adc_n : Z;
  s_adc_level_valid : bool;
  s_last_overload_ms : Z;
  s_overload_cb : bool;            (* cp_on_adc_overload is registered *)
  s_ring : list RingSlot;
  s_ring_write : Z;
  s_ring_read : Z
}.
Arguments mkRtl {D}.
Arguments g_freq_hz {D}. Arguments g_rate_sps {D}. Arguments g_rate_requested_sps {D}.
Arguments g_gain_tenth_db {D}. Arguments g_agc_enabled {D}. Arguments g_bias_tee_enabled {D}.
Arguments g_ppm_correction {D}. Arguments g_sampling_mode {D}. Arguments g_samples_per_pkt {D}.
Arguments g_bias_tee_volts {D}. Arguments g_bias_tee_persist {D}. Arguments g_adc_overload {D}.
Arguments s_dev {D}. Arguments rtl_running {D}. Arguments s_stream_count {D}.
Arguments s_cb_count {D}. Arguments s_adc_sumsq {D}. Arguments s_adc_n {D}.
Arguments s_adc_level_valid {D}. Arguments s_last_overload_ms {D}. Arguments s_overload_cb {D}.
Arguments s_ring {D}. Arguments s_ring_write {D}. Arguments s_ring_read {D}.

#[export] Instance eta_rtl (D : Type) : Eta (Rtl D) := fun r =>
  mkRtl (g_freq_hz r) (g_rate_sps r) (g_rate_requested_sps r) (g_gain_tenth_db r)
    (g_agc_enabled r) (g_bias_tee_enabled r) (g_ppm_correction r) (g_sampling_mode r)
    (g_samples_per_pkt r) (g_bias_tee_volts r) (g_bias_tee_persist r) (g_adc_overload r)
    (s_dev r) (rtl_running r) (s_stream_count r) (s_cb_count r) (s_adc_sumsq r) (s_adc_n r)
    (s_adc_level_valid r) (s_last_overload_ms r) (s_overload_cb r) (s_ring r)
    (s_ring_write r) (s_ring_read r).

(** The static initialisers. *)
Definition rtl_initial {D : Type} : Rtl D :=
  mkRtl RTL_DEFAULT_FREQ RTL_DEFAULT_RATE_NORMAL RTL_DEFAULT_RATE_NORMAL RTL_DEFAULT_GAIN
    false false 0 SAMPLING_NORMAL (Z.of_nat VITA_SAMPLES_PER_PKT) d_zero false false
    None false 0 0 0 0 false 0 false
    (replicate (Z.to_nat RING_SLOTS) (mkSlot (replicate 512 0) 0)) 0 0.

(** ** Mode-dependent limits *)
Definition rtl_freq_min {D} (r : Rtl D) : Z :=
  if decide (g_sampling_mode r = SAMPLING_NORMAL) then RTL_FREQ_MIN_NORMAL else RTL_FREQ_MIN_DIRECT.

Definition rtl_freq_max {D} (r : Rtl D) : Z :=
  if decide (g_sampling_mode r = SAMPLING_NORMAL) then RTL_FREQ_MAX_NORMAL else RTL_FREQ_MAX_DIRECT.

Definition rtl_rate_list {D} (r : Rtl D) : list Z :=
  if decide (g_sampling_mode r = SAMPLING_NORMAL)
  then RTL_SAMPLE_RATES_NORMAL else RTL_SAMPLE_RATES_DIRECT.

Definition rtl_preferred_rate {D} (r : Rtl D) : Z :=
  if decide (g_sampling_mode r = SAMPLING_NORMAL)
  then RTL_DEFAULT_RATE_NORMAL else RTL_DEFAULT_RATE_DIRECT.

Definition sampling_mode_signal_type (m : sampling_mode_t) : list Z :=
  match m with
  | SAMPLING_DIRECT_I => txt "real_i_branch"
  | SAMPLING_DIRECT_Q => txt "real_q_branch"
  | _ => txt "complex_iq"
  end.

Definition sampling_mode_payload_fmt (m : sampling_mode_t) : Z :=
  if decide (m = SAMPLING_NORMAL) then VITA_PAYLOAD_FMT_COMPLEX else VITA_PAYLOAD_FMT_REAL.

Definition rtl_reference_level_dbm (gain_db : double) : double :=
  d_sub RTL_REF_LEVEL_DBM_AT_0DB gain_db.

Definition ds_names (m : sampling_mode_t) : list Z :=
  match m with
  | SAMPLING_NORMAL => txt "off"
  | SAMPLING_DIRECT_I => txt "i_branch"
  | SAMPLING_DIRECT_Q => txt "q_branch"
  end.

Definition ds_code (m : sampling_mode_t) : Z :=
  match m with SAMPLING_DIRECT_I => 1 | SAMPLING_DIRECT_Q => 2 | SAMPLING_NORMAL => 0 end.

Section Bridge.
Context {D : Type} {P : Platform D}.

(** ** ADC level *)

(** [20 log10(rms / full scale)] of the published integers. *)
Definition dbfs_of (sumsq n : Z) : double :=
  let rms := d_sqrt (d_div (d_of_Z sumsq) (d_of_Z n)) in
  if d_lt d_zero rms
  then d_mul (d_of_Z 20) (libm_log10 (d_div rms RTL_ADC_FULL_SCALE))
  else d_of_Z (-120).

Definition rtl_get_adc_level_dbfs (r : Rtl D) : option double :=
  if negb (s_adc_level_valid r) then None
  else if s_adc_n r =? 0 then None
  else
    let dbfs := dbfs_of (s_adc_sumsq r) (s_adc_n r) in
    Some (if d_lt dbfs (d_of_Z (-120)) then d_of_Z (-120) else dbfs).

Definition rtl_reset_adc_level (r : Rtl D) : Rtl D :=
  r <| s_adc_level_valid := false |> <| s_adc_sumsq := 0 |> <| s_adc_n := 0 |>
    <| g_adc_overload := false |>.

(** The accumulation loop: every 8th octet, with sumsq (uint64_t), n and
    clipped (uint32_t). *)
Fixpoint adc_loop (fuel : nat) (l : list Z) (sumsq n clipped : Z) : Z * Z * Z :=
  match fuel, l with
  | S f, v :: _ =>
      let d := v - 128 in
      adc_loop f (drop RTL_ADC_STRIDE l) (u64 (sumsq + d * d)) (u32 (n + 1))
        (if (v <=? RTL_ADC_CLIP_LOW) || (RTL_ADC_CLIP_HIGH <=? v)
         then u32 (clipped + 1) else clipped)
  | _, _ => (sumsq, n, clipped)
  end.

(** The new state, and the level passed to the overload handler if it fires;
    [now] is now_ms(). *)
Definition measure_adc_level (now : Z) (buf : list Z) (r : Rtl D) : Rtl D * option double :=
  if (length buf =? 0)%nat then (r, None)
  else
    let '(sumsq, n, clipped) := adc_loop (length buf) buf 0 0 0 in
    if n =? 0 then (r, None)
    else
      let r1 := r <| s_adc_sumsq := sumsq |> <| s_adc_n := n |> <| s_adc_level_valid := true |> in
      let clip_ppm := u32 (u64 (clipped * 1000000) / n) in
      let overload := RTL_ADC_CLIP_PPM_TRIGGER <=? clip_ppm in
      let was := g_adc_overload r1 in
      let r2 := r1 <| g_adc_overload := overload |> in
      if overload && negb was && s_overload_cb r2
         && (ADC_OVERLOAD_MIN_GAP_MS <=? u64 (now - s_last_overload_ms r2))
      then (r2 <| s_last_overload_ms := now |>, Some (dbfs_of sumsq n))
      else (r2, None).

Definition rtl_set_overload_handler (r : Rtl D) : Rtl D := r <| s_overload_cb := true |>.

(** ** Ring buffer *)
Definition rtl_ring_read (r : Rtl D) : option RingSlot * Rtl D :=
  if s_ring_read r =? s_ring_write r then (None, r)
  else (s_ring r !! Z.to_nat (Z.land (s_ring_read r) RING_MASK),
        r <| s_ring_read := u32 (s_ring_read r + 1) |>).

Definition rtl_ring_used (r : Rtl D) : Z :=
  Z.land (u32 (s_ring_write r - s_ring_read r)) RING_MASK.

(** ** Lifecycle *)
Definition rtl_bridge_init (mode : sampling_mode_t) (bias_tee_volts : double) (agc : bool)
    (ppm : Z) (d : D) (r : Rtl D) : Z * Rtl D :=
  let '(rc, d) := rtlsdr_open d in
  if rc <? 0 then (-1, r)
  else
    let '(_, d) := rtlsdr_set_direct_sampling d (ds_code mode) in
    let default_rate := if decide (mode = SAMPLING_NORMAL)
                        then RTL_DEFAULT_RATE_NORMAL else RTL_DEFAULT_RATE_DIRECT in
    let '(_, d) := rtlsdr_set_sample_rate d default_rate in
    let rate := rtlsdr_get_sample_rate d in
    let '(_, d) := rtlsdr_set_center_freq d RTL_DEFAULT_FREQ in
    let freq := rtlsdr_get_center_freq d in
    let '(_, d) := rtlsdr_set_tuner_gain_mode d (if agc then 0 else 1) in
    let d := if agc then d else (rtlsdr_set_tuner_gain d RTL_DEFAULT_GAIN).2 in
    let '(_, d) := rtlsdr_set_agc_mode d (if agc then 1 else 0) in
    let gain := rtlsdr_get_tuner_gain d in
    let on := d_lt d_zero bias_tee_volts in
    let '(bt, d) := rtlsdr_set_bias_tee d (if on then 1 else 0) in
    let en := if bt =? 0 then on else false in
    let '(_, d) := rtlsdr_set_freq_correction d ppm in
    let '(_, d) := rtlsdr_reset_buffer d in
    (0, r <| g_sampling_mode := mode |> <| g_rate_requested_sps := default_rate |>
          <| g_rate_sps := rate |> <| g_freq_hz := freq |> <| g_agc_enabled := agc |>
          <| g_gain_tenth_db := gain |> <| g_bias_tee_enabled := en |>
          <| g_bias_tee_volts := if en then RTL_BIAS_TEE_VOLTS else d_zero |>
          <| g_ppm_correction := ppm |> <| s_dev := Some d |>).

Definition rtl_bridge_destroy (r : Rtl D) : Rtl D := r <| s_dev := None |>.

(** The device the handle refers to, after a call whose result is dropped. *)
Definition on_dev (f : D -> Z * D) (r : Rtl D) : Rtl D :=
  r <| s_dev := (fun d => (f d).2) <$> s_dev r |>.

(** [thread_ok]: pthread_create returned 0. *)
Definition rtl_bridge_start (thread_ok : bool) (r : Rtl D) : Z * Rtl D :=
  let r := r <| s_stream_count := s_stream_count r + 1 |> in
  if s_stream_count r =? 1 then
    let r := rtl_reset_adc_level
               (r <| s_ring_write := 0 |> <| s_ring_read := 0 |> <| s_cb_count := 0 |>) in
    let r := on_dev rtlsdr_reset_buffer r <| rtl_running := true |> in
    if thread_ok then (0, r)
    else (-1, r <| rtl_running := false |> <| s_stream_count := s_stream_count r - 1 |>)
  else (0, r).

Definition rtl_bridge_stop (r : Rtl D) : Rtl D :=
  let r := r <| s_stream_count := s_stream_count r - 1 |> in
  let r := if s_stream_count r <? 0 then r <| s_stream_count := 0 |> else r in
  if (s_stream_count r =? 0) && rtl_running r
  then on_dev rtlsdr_cancel_async (r <| rtl_running := false |>)
  else r.

Definition rtl_bridge_force_stop (r : Rtl D) : Rtl D :=
  let r := r <| s_stream_count := 0 |> in
  if rtl_running r then on_dev rtlsdr_cancel_async (r <| rtl_running := false |>) else r.

(** ** Hardware control *)
Definition rtl_set_frequency (freq_hz : Z) (r : Rtl D) : Z * Rtl D :=
  match s_dev r with
  | None => (0, r)
  | Some d =>
      let '(_, d) := rtlsdr_set_center_freq d (u32 freq_hz) in
      let applied := rtlsdr_get_center_freq d in
      let r := r <| s_dev := Some d |> in
      (applied, if applied =? 0 then r else r <| g_freq_hz := applied |>)
  end.

Definition rtl_set_sample_rate (rate_sps : Z) (r : Rtl D) : Z * Rtl D :=
  match s_dev r with
  | None => (0, r)
  | Some d =>
      let '(_, d) := rtlsdr_set_sample_rate d rate_sps in
      let applied := rtlsdr_get_sample_rate d in
      let r := r <| s_dev := Some d |> in
      let r := if applied =? 0 then r else r <| g_rate_sps := applied |> in
      (applied, r <| g_rate_requested_sps := rate_sps |>)
  end.

(** [None]: the conversion of [round(gain_db * 10.0)] to int is undefined. *)
Definition rtl_set_gain (gain_db : double) (r : Rtl D) : option (double * Rtl D) :=
  match s_dev r with
  | None => Some (d_of_Z (-1), r)
  | Some d =>
      match d_round_int (d_mul gain_db (d_of_Z 10)) with
      | None => None
      | Some tenth_db =>
          let '(_, d) := rtlsdr_set_tuner_gain_mode d 1 in
          let '(_, d) := rtlsdr_set_tuner_gain d tenth_db in
          let applied := rtlsdr_get_tuner_gain d in
          Some (tenth applied, r <| s_dev := Some d |> <| g_gain_tenth_db := applied |>)
      end
  end.

Definition rtl_get_gain (r : Rtl D) : double := tenth (g_gain_tenth_db r).

Definition rtl_set_agc (enable : bool) (r : Rtl D) : Z * Rtl D :=
  match s_dev r with
  | None => (-1, r)
  | Some d =>
      let '(_, d) := rtlsdr_set_agc_mode d (if enable then 1 else 0) in
      let d := if enable then (rtlsdr_set_tuner_gain_mode d 0).2
               else (rtlsdr_set_tuner_gain (rtlsdr_set_tuner_gain_mode d 1).2
                       (g_gain_tenth_db r)).2 in
      (0, r <| s_dev := Some d |> <| g_agc_enabled := enable |>)
  end.

Definition rtl_set_bias_tee (volts : double) (r : Rtl D) : Z * Rtl D :=
  match s_dev r with
  | None => (-1, r)
  | Some d =>
      let enable := d_lt d_zero volts in
      let '(rc, d) := rtlsdr_set_bias_tee d (if enable then 1 else 0) in
      let r := r <| s_dev := Some d |> in
      (rc, if rc =? 0
           then r <| g_bias_tee_enabled := enable |>
                  <| g_bias_tee_volts := if enable then RTL_BIAS_TEE_VOLTS else d_zero |>
           else r)
  end.

Definition rtl_set_direct_sampling (mode : sampling_mode_t) (r : Rtl D) : Z * Rtl D :=
  match s_dev r with
  | None => (-1, r)
  | Some d =>
      let '(rc, d) := rtlsdr_set_direct_sampling d (ds_code mode) in
      let r := r <| s_dev := Some d |> in
      (rc, if rc =? 0 then r <| g_sampling_mode := mode |> else r)
  end.

Definition rtl_set_ppm (ppm : Z) (r : Rtl D) : Z * Rtl D :=
  match s_dev r with
  | None => (-1, r)
  | Some d =>
      let '(rc, d) := rtlsdr_set_freq_correction d ppm in
      let r := r <| s_dev := Some d |> in
      (rc, if rc =? 0 then r <| g_ppm_correction := ppm |> else r)
  end.

(** The table the tuner reports; the caller's buffer has 64 entries and
    max_count is ignored, so a longer table is out of bounds ([None]). *)
Definition rtl_get_gain_list (r : Rtl D) : option (list Z) :=
  match s_dev r with
  | None => Some []
  | Some d =>
      let l := rtlsdr_get_tuner_gains d in
      if (64 <? length l)%nat then None else Some l
  end.
End Bridge.

(** ** The ADC measurement: specification *)

(** Every 8th octet of the buffer. *)
Definition strided (l : list Z) : list Z :=
  (fun i => l !!! (8 * i)%nat) <$> seq 0 ((length l + 7) / 8).

Definition sum_sq (l : list Z) : Z := foldr (fun v a => (v - 128) * (v - 128) + a) 0 l.

Definition is_clipped (v : Z) : bool := (v <=? RTL_ADC_CLIP_LOW) || (RTL_ADC_CLIP_HIGH <=? v).

Definition count_clipped (l : list Z) : Z :=
  foldr (fun v a => (if is_clipped v then 1 else 0) + a) 0 l.

Lemma strided_cons (v : Z) (l : list Z) : strided (v :: l) = v :: strided (drop 8 (v :: l)).
Proof.
  unfold strided.
  assert ((length (v :: l) + 7) / 8 = S ((length (drop 8 (v :: l)) + 7) / 8))%nat as ->.
  { rewrite length_drop. cbn [length]. destruct (decide (length l < 7)%nat).
    - rewrite (proj2 (Nat.sub_0_le (S (length l)) 8)) by lia.
      change ((0 + 7) / 8)%nat with 0%nat. symmetry.
      apply (Nat.div_unique _ _ _ (length l)); lia.
    - replace (S (length l) + 7)%nat with (1 * 8 + (S (length l) - 8 + 7))%nat by lia.
      by rewrite Nat.div_add_l by lia. }
  cbn [seq]. rewrite fmap_cons. f_equal. rewrite <- seq_shift, <- list_fmap_compose.
  apply list_fmap_ext. intros i x _. cbn [compose].
  rewrite lookup_total_drop. f_equal. lia.
Qed.

Lemma sq_bound (v : Z) : is_byte v -> 0 <= (v - 128) * (v - 128) <= 16384.
Proof.
  unfold is_byte. intros H. pose proof (Z.mul_nonneg_nonneg v (256 - v)).
  pose proof (Z.square_nonneg (v - 128)). lia.
Qed.

Lemma strided_bytes (l : list Z) : bytes_ok l -> bytes_ok (strided l).
Proof.
  intros H. unfold strided. apply Forall_fmap, Forall_forall. intros i [_ Hi]%elem_of_seq.
  assert (8 * i < length l)%nat as Hlt.
  { pose proof (Nat.Div0.mul_div_le (length l + 7) 8). lia. }
  destruct (lookup_lt_is_Some_2 l _ Hlt) as [x Hx]. cbn.
  rewrite (list_lookup_total_correct _ _ _ Hx). eapply Forall_lookup_1; eauto.
Qed.

Lemma sum_sq_bound (l : list Z) :
  bytes_ok l -> 0 <= sum_sq l <= 16384 * Z.of_nat (length l).
Proof.
  induction 1 as [|v l Hv _ IH]; cbn [sum_sq foldr length]; [lia|].
  pose proof (sq_bound v Hv). fold (sum_sq l). lia.
Qed.

Lemma count_clipped_bound (l : list Z) : 0 <= count_clipped l <= Z.of_nat (length l).
Proof.
  induction l as [|v l IH]; cbn [count_clipped foldr length]; [lia|].
  fold (count_clipped l). destruct (is_clipped v); lia.
Qed.

Lemma adc_loop_spec (fuel : nat) (l : list Z) (sumsq n clipped : Z) :
  bytes_ok l -> (length l <= fuel)%nat ->
  0 <= sumsq -> 0 <= n -> 0 <= clipped ->
  sumsq + sum_sq (strided l) < 2 ^ 64 -> n + Z.of_nat (length (strided l)) < 2 ^ 32 ->
  clipped + count_clipped (strided l) < 2 ^ 32 ->
  adc_loop fuel l sumsq n clipped =
  (sumsq + sum_sq (strided l), n + Z.of_nat (length (strided l)),
   clipped + count_clipped (strided l)).
Proof.
  revert l sumsq n clipped. induction fuel as [|f IH]; intros l sumsq n clipped Hb Hf Hs Hn Hc B1 B2 B3.
  { destruct l; [cbn; repeat f_equal; lia|cbn in Hf; lia]. }
  destruct l as [|v l]; [cbn; repeat f_equal; lia|].
  rewrite strided_cons in *. cbn [adc_loop sum_sq count_clipped foldr length] in *.
  assert (is_byte v) as Hv by (by inversion Hb).
  assert (bytes_ok (drop 8 (v :: l))) as Hd by (by apply Forall_drop).
  pose proof (sq_bound v Hv) as Hq.
  pose proof (sum_sq_bound _ (strided_bytes _ Hd)) as Hsb.
  pose proof (count_clipped_bound (strided (drop 8 (v :: l)))) as Hcb.
  fold (sum_sq (strided (drop 8 (v :: l)))) in *.
  fold (count_clipped (strided (drop 8 (v :: l)))) in *.
  rewrite (u64_small (sumsq + _)), (u32_small (n + 1)) by lia.
  fold (is_clipped v).
  assert ((if is_clipped v then u32 (clipped + 1) else clipped) =
          clipped + (if is_clipped v then 1 else 0)) as ->.
  { destruct (is_clipped v); [rewrite u32_small; lia|lia]. }
  assert (0 <= (if is_clipped v then 1 else 0) <= 1) as Hk by (destruct (is_clipped v); lia).
  set (k := if is_clipped v then 1 else 0) in *. change RTL_ADC_STRIDE with 8%nat.
  assert (length (drop 8 (v :: l)) <= f)%nat as Hlen
    by (rewrite length_drop; cbn [length] in *; lia).
  rewrite IH by (done || lia). f_equal; [f_equal|]; lia.
Qed.

Lemma strided_length (l : list Z) : length (strided l) = ((length l + 7) / 8)%nat.
Proof. unfold strided. by rewrite length_fmap, length_seq. Qed.


(** ** The reference count of the bridge *)

(** The read thread runs exactly while somebody counts as streaming. *)
Definition bridge_ok {D : Type} (r : Rtl D) : Prop :=
  0 <= s_stream_count r /\ rtl_running r = (0 <? s_stream_count r).

Section BridgeLemmas.
Context {D : Type} {P : Platform D}.

Lemma start_spec (ok : bool) (r : Rtl D) :
  bridge_ok r ->
  let '(rc, r') := rtl_bridge_start ok r in
  bridge_ok r' /\ (rc = 0 \/ rc = -1) /\
  s_stream_count r' = s_stream_count r + (if rc =? 0 then 1 else 0) /\
  (rc <> 0 -> ok = false /\ s_stream_count r = 0).
Proof.
  intros [Hc Hr]. unfold rtl_bridge_start. cbn [s_stream_count upd].
  destruct (Z.eqb_spec (s_stream_count r + 1) 1) as [E|E].
  - destruct ok; unfold bridge_ok; cbn; repeat split; try lia; auto; try (symmetry; apply Z.ltb_lt; lia).
  - unfold bridge_ok; cbn. repeat split; try lia; auto.
    rewrite Hr. transitivity true; [apply Z.ltb_lt; lia|symmetry; apply Z.ltb_lt; lia].
Qed.

Lemma stop_spec (r : Rtl D) :
  bridge_ok r ->
  bridge_ok (rtl_bridge_stop r) /\
  s_stream_count (rtl_bridge_stop r) = Z.max 0 (s_stream_count r - 1).
Proof.
  intros [Hc Hr]. unfold rtl_bridge_stop. cbn [s_stream_count upd].
  destruct (Z.ltb_spec (s_stream_count r - 1) 0); cbn [s_stream_count upd rtl_running].
  - assert (rtl_running r = false) as -> by (rewrite Hr; apply Z.ltb_ge; lia).
    cbn. unfold bridge_ok. cbn. repeat split; try lia. rewrite Hr. apply Z.ltb_ge. lia.
  - assert (rtl_running r = true) as -> by (rewrite Hr; apply Z.ltb_lt; lia).
    rewrite andb_true_r.
    destruct (Z.eqb_spec (s_stream_count r - 1) 0); unfold bridge_ok; cbn; rewrite ?Hr;
      repeat split; try lia; repeat destruct (Z.ltb_spec _ _); done || lia.
Qed.
End BridgeLemmas.

(** ** The fake librtlsdr of the test build *)
Record Stub := mkStub {
  st_open : Z; st_freq : Z; st_rate : Z; st_gain : Z; st_gain_mode : Z; st_agc : Z;
  st_bias : Z; st_ppm : Z; st_ds : Z; st_async : Z
}.

#[export] Instance eta_stub : Eta Stub := fun s =>
  mkStub (st_open s) (st_freq s) (st_rate s) (st_gain s) (st_gain_mode s) (st_agc s)
    (st_bias s) (st_ppm s) (st_ds s) (st_async s).

Definition stub_initial : Stub := mkStub 0 100000000 2048000 200 1 0 0 0 0 0.

Definition stub_gains : list Z :=
  [0; 9; 14; 27; 37; 77; 87; 125; 144; 157; 166; 197; 207; 229; 254; 280; 297; 328; 338;
   364; 372; 386; 402; 421; 434; 439; 445; 480; 496].

(** 28.8 MHz through the clock divider. *)
Definition stub_rate (rate : Z) : Z :=
  let x := d_mul (d_of_Z 28800000) (d_of_Z 4) in
  let cast (d : double) := u32 (default 0 (d_trunc d)) in
  let ratio := Z.land (cast (d_add (d_div x (d_of_Z rate)) (d_dec 5 (-1)))) (2 ^ 32 - 1 - 3) in
  let ratio := if ratio =? 0 then 4 else ratio in
  cast (d_add (d_div x (d_of_Z ratio)) (d_dec 5 (-1))).

Definition stub_nearest (gain : Z) : Z :=
  fold_left (fun best g => if Z.abs (g - gain) <? Z.abs (best - gain) then g else best)
    stub_gains (stub_gains !!! 0%nat).

#[export] Instance stub_platform : Platform Stub := {|
  rtlsdr_open s := (0, s <| st_open := 1 |>);
  rtlsdr_set_center_freq s f := (0, s <| st_freq := f |>);
  rtlsdr_get_center_freq s := u32 (st_freq s);
  rtlsdr_set_sample_rate s r := (0, s <| st_rate := stub_rate r |>);
  rtlsdr_get_sample_rate s := u32 (st_rate s);
  rtlsdr_set_tuner_gain_mode s m := (0, s <| st_gain_mode := m |>);
  rtlsdr_set_tuner_gain s g := (0, s <| st_gain := stub_nearest g |>);
  rtlsdr_get_tuner_gain s := st_gain s;
  rtlsdr_get_tuner_gains _ := stub_gains;
  rtlsdr_set_agc_mode s a := (0, s <| st_agc := a |>);
  rtlsdr_set_bias_tee s b := (0, s <| st_bias := b |>);
  rtlsdr_set_freq_correction s p := (0, s <| st_ppm := p |>);
  rtlsdr_set_direct_sampling s m := (0, s <| st_ds := m |>);
  rtlsdr_reset_buffer s := (0, s);
  rtlsdr_cancel_async s := (0, s <| st_async := 0 |>);
  libm_log10 x := x
|}.

#[export] Instance stub_laws : PlatformLaws Stub.
Proof.
  intros d f Hf. apply u32_small. unfold RTL_FREQ_MIN_DIRECT, RTL_FREQ_MAX_NORMAL in Hf. lia.
Qed.

