(* ===== verification/Vita.v ===== *)
(** * The VITA-49 sender: vita/vita_tx.c

    Packets are lists of octets; a datagram handed to sendto or sendmmsg is an
    entry of the log [vt_out], tagged with the session slot it belongs to.
    Whether the kernel drops a datagram is outside of the model.  The host is
    little-endian, as every platform the daemon is built for. *)
From Stdlib Require Import SpecFloat.
From S2P Require Import Prelude CLib Config Rtl.
#[local] Open Scope Z_scope.

Inductive iq_format_t : Set := IQ_FMT_INT16 | IQ_FMT_U8.

#[export] Instance iq_format_eq_dec : EqDecision iq_format_t.
Proof. solve_decision. Defined.

Definition MAX_VITA_SESSIONS : nat := 4.
Definition VRT_IF_DATA_BASE : Z := 0x18600000.
Definition CLASS_ID_W0 : Z := 0x00402814.
Definition CLASS_ID_W1 : Z := 0x00000001.
Definition VRT_CTX_HDR_BASE : Z := 0x40000000.
Definition VITA_MMSG_MAX_PKTS : Z := 1024.

(** ** State *)
Record VitaSession := mkVita {
  active : bool;
  v_stream_id : list Z;
  v_vita_stream_id : Z;
  v_dest_ip : list Z;
  v_dest_port : Z;
  v_dest_addr : list Z * Z;              (* the pre-built sockaddr *)
  v_fmt : iq_format_t;
  payload_fmt_word0 : Z;
  if_pkt_count : Z;
  ctx_pkt_count : Z;
  ctx_sent : bool;
  ctx_last_ref_word : Z;
  ctx_last_pf_word0 : Z;
  sample_count : Z;
  cb_count : Z;
  epoch_at_start : Z;
  rate_hz_anchor : Z
}.

#[export] Instance eta_vita : Eta VitaSession := fun v =>
  mkVita (active v) (v_stream_id v) (v_vita_stream_id v) (v_dest_ip v) (v_dest_port v)
    (v_dest_addr v) (v_fmt v) (payload_fmt_word0 v) (if_pkt_count v) (ctx_pkt_count v)
    (ctx_sent v) (ctx_last_ref_word v) (ctx_last_pf_word0 v) (sample_count v) (cb_count v)
    (epoch_at_start v) (rate_hz_anchor v).

(** A slot after memset to zero. *)
Definition vita_zero : VitaSession :=
  mkVita false [] 0 [0; 0; 0; 0] 0 ([0; 0; 0; 0], 0) IQ_FMT_INT16 0 0 0 false 0 0 0 0 0 0.

Record udp := mkUdp { u_slot : nat; u_ip : list Z; u_port : Z; u_bytes : list Z }.

Record Vita := mkVitaSt {
  vt_sessions : list VitaSession;
  vt_sock : bool;                        (* s_sock >= 0 *)
  vt_context_enabled : bool;
  vt_out : list udp
}.

#[export] Instance eta_vita_st : Eta Vita := fun v =>
  mkVitaSt (vt_sessions v) (vt_sock v) (vt_context_enabled v) (vt_out v).

Definition vita_initial : Vita :=
  mkVitaSt (replicate MAX_VITA_SESSIONS vita_zero) false true [].

(** ** u8 offset binary to int16 (float arithmetic at precision 24) *)
Definition f_sub : spec_float -> spec_float -> spec_float := SFsub 24 128.
Definition f_mul : spec_float -> spec_float -> spec_float := SFmul 24 128.
Definition f_div : spec_float -> spec_float -> spec_float := SFdiv 24 128.
Definition f_of_Z (n : Z) : spec_float := binary_normalize 24 128 n 0 false.

(** The int16 value, before the octets are swapped. *)
Definition u8_to_int16 (u : Z) : Z :=
  let f := f_mul (f_sub (f_of_Z u) (dec_round 24 128 1274 (-1)))
                 (f_div (f_of_Z 32767) (f_of_Z 128)) in
  let f := if SFltb (f_of_Z 32767) f then f_of_Z 32767 else f in
  let f := if SFltb f (f_of_Z (-32768)) then f_of_Z (-32768) else f in
  i16 (default 0 (d_trunc f)).

Definition u8_to_int16_be (u : Z) : Z :=
  let v := u8_to_int16 u in
  u16 (Z.lor (Z.shiftl (Z.land v 0xFF) 8) (Z.land (Z.shiftr v 8) 0xFF)).

(** A uint16_t as it lies in memory. *)
Definition mem16 (w : Z) : list Z := [u8 w; u8 (Z.shiftr w 8)].

(** ** Packet builders *)
Definition vita_build_if_data_packet (stream_id pkt_count tsi tsf_picos : Z) (iq_u8 : list Z)
    (num_pairs : Z) (fmt : iq_format_t) : list Z :=
  let payload_bytes := u16 (num_pairs * match fmt with IQ_FMT_INT16 => 4 | IQ_FMT_U8 => 2 end) in
  let payload_words := match fmt with
                       | IQ_FMT_INT16 => num_pairs
                       | IQ_FMT_U8 => u16 ((payload_bytes + 3) / 4)
                       end in
  let pkt_size := u16 (7 + payload_words) in
  let hdr := Z.lor (Z.lor VRT_IF_DATA_BASE (Z.shiftl (Z.land pkt_count 15) 16)) pkt_size in
  let head := be32 hdr ++ be32 stream_id ++ be32 CLASS_ID_W0 ++ be32 CLASS_ID_W1 ++ be32 tsi
              ++ be32 (Z.shiftr tsf_picos 32) ++ be32 (Z.land tsf_picos 0xFFFFFFFF) in
  let np2 := Z.to_nat (num_pairs * 2) in
  let payload :=
    match fmt with
    | IQ_FMT_INT16 => mjoin ((fun u => mem16 (u8_to_int16_be u)) <$> take np2 iq_u8)
    | IQ_FMT_U8 =>
        take np2 iq_u8 ++
        (if Z.land (num_pairs * 2) 3 =? 0 then []
         else replicate (Z.to_nat (4 - Z.land (num_pairs * 2) 3)) 0)
    end in
  head ++ payload.

Definition vita_encode_reference_level (dbm : double) : Z :=
  let scaled := d_mul dbm (d_of_Z 128) in
  let scaled := if d_lt (d_of_Z 32767) scaled then d_of_Z 32767 else scaled in
  let scaled := if d_lt scaled (d_of_Z (-32768)) then d_of_Z (-32768) else scaled in
  let q := i16 (default 0 (d_trunc
             (if d_lt scaled d_zero then d_sub scaled (d_dec 5 (-1))
              else d_add scaled (d_dec 5 (-1))))) in
  u16 q.

Definition vita_build_context_packet (stream_id pkt_count pf_word0 : Z) (ref_dbm : double)
    (changed : bool) : list Z :=
  let cif0 := Z.lor VITA_CIF0_BASE (if changed then VITA_CIF0_CHANGED else 0) in
  let hdr := Z.lor (Z.lor VRT_CTX_HDR_BASE (Z.shiftl (Z.land pkt_count 15) 16))
                   VITA_CTX_PKT_SIZE_WORDS in
  be32 hdr ++ be32 stream_id ++ be32 cif0
  ++ be32 (vita_encode_reference_level ref_dbm) ++ be32 pf_word0 ++ be32 0.

(** ** Context packets *)
Definition vita_set_context_packets (enable : bool) (v : Vita) : Vita :=
  v <| vt_context_enabled := enable |>.

(** A datagram handed to the socket, if there is one. *)
Definition sendto (p : udp) (v : Vita) : Vita :=
  if vt_sock v then v <| vt_out := vt_out v ++ [p] |> else v.

(** [gain] is g_gain_tenth_db. *)
Definition send_context_locked (gain : Z) (token : nat) (v : Vita) : Vita :=
  match vt_sessions v !! token with
  | None => v
  | Some sess =>
      if negb (active sess) || negb (vt_context_enabled v) then v
      else
        let ref_dbm := rtl_reference_level_dbm (tenth gain) in
        let ref_word := vita_encode_reference_level ref_dbm in
        let changed := negb (ctx_sent sess)
                       || negb (ref_word =? ctx_last_ref_word sess)
                       || negb (payload_fmt_word0 sess =? ctx_last_pf_word0 sess) in
        let pkt := vita_build_context_packet (v_vita_stream_id sess) (ctx_pkt_count sess)
                     (payload_fmt_word0 sess) ref_dbm changed in
        let sess' := sess <| ctx_pkt_count := Z.land (ctx_pkt_count sess + 1) 15 |>
                          <| ctx_sent := true |> <| ctx_last_ref_word := ref_word |>
                          <| ctx_last_pf_word0 := payload_fmt_word0 sess |> in
        sendto (mkUdp token (v_dest_ip sess) (v_dest_port sess) pkt)
          (v <| vt_sessions := <[token := sess']> (vt_sessions v) |>)
  end.

Definition vita_send_context_packet (gain : Z) (token : Z) (v : Vita) : Vita :=
  if (token <? 0) || (Z.of_nat MAX_VITA_SESSIONS <=? token) then v
  else if negb (vt_sock v) then v
  else send_context_locked gain (Z.to_nat token) v.

(** [send_context_locked] checks [active] itself, as the loop does. *)
Definition vita_send_context_all (gain : Z) (v : Vita) : Vita :=
  if negb (vt_sock v) then v
  else fold_left (fun v i => send_context_locked gain i v) (seq 0 MAX_VITA_SESSIONS) v.

(** ** IF Data packets *)

(** The stamps of the packet that starts at sample [sc]. *)
Definition stamp_tsi (epoch rate sc : Z) : Z :=
  u32 (epoch + u32 (if rate =? 0 then 0 else sc / rate)).

Definition stamp_picos (rate sc : Z) : Z :=
  if rate =? 0 then 0 else u64 ((sc mod rate) * 1000000000000) / rate.

(** The build loop over [n] packets. *)
Fixpoint build_pkts (n : nat) (slot : nat) (chunk : list Z) (sess : VitaSession)
    : list udp * VitaSession :=
  match n with
  | O => ([], sess)
  | S n' =>
      let sc := sample_count sess in
      let pkt := vita_build_if_data_packet (v_vita_stream_id sess) (if_pkt_count sess)
                   (stamp_tsi (epoch_at_start sess) (rate_hz_anchor sess) sc)
                   (stamp_picos (rate_hz_anchor sess) sc)
                   chunk (Z.of_nat VITA_SAMPLES_PER_PKT) (v_fmt sess) in
      let sess' := sess <| if_pkt_count := Z.land (if_pkt_count sess + 1) 15 |>
                        <| sample_count := u64 (sc + Z.of_nat VITA_SAMPLES_PER_PKT) |> in
      let '(pkts, sess'') := build_pkts n' slot (drop (2 * VITA_SAMPLES_PER_PKT) chunk) sess' in
      (mkUdp slot (fst (v_dest_addr sess)) (snd (v_dest_addr sess)) pkt :: pkts, sess'')
  end.

Definition burst_pkts (len : nat) : nat :=
  Z.to_nat (Z.min (Z.of_nat len / (Z.of_nat VITA_SAMPLES_PER_PKT * 2)) VITA_MMSG_MAX_PKTS).

Definition send_burst (buf : list Z) (v : Vita) (slot : nat) : Vita :=
  match vt_sessions v !! slot with
  | None => v
  | Some sess =>
      if negb (active sess) then v
      else
        let '(pkts, sess') := build_pkts (burst_pkts (length buf)) slot buf sess in
        v <| vt_sessions := <[slot := sess' <| cb_count := u64 (cb_count sess' + 1) |>]>
                              (vt_sessions v) |>
          <| vt_out := vt_out v ++ pkts |>
  end.

Definition vita_send_callback (buf : list Z) (v : Vita) : Vita :=
  if negb (vt_sock v) then v
  else if (burst_pkts (length buf) =? 0)%nat then v
  else fold_left (send_burst buf) (seq 0 MAX_VITA_SESSIONS) v.

(** ** Sessions *)
Fixpoint first_free (l : list VitaSession) (i : nat) : option nat :=
  match l with
  | [] => None
  | s :: l' => if active s then first_free l' (S i) else Some i
  end.

(** [epoch] is time(NULL), [gain] and [rate] the receiver's globals. *)
Definition vita_session_add (gain rate epoch : Z) (stream_id : list Z) (vita_id : Z)
    (ip : list Z) (port : Z) (fmt : iq_format_t) (pf_word0 : Z) (v : Vita) : Z * Vita :=
  match first_free (vt_sessions v) 0 with
  | None => (-1, v)
  | Some i =>
      let s' := (fun s : VitaSession =>
        s <| active := true |> <| v_vita_stream_id := vita_id |> <| v_dest_ip := ip |>
          <| v_dest_port := port |> <| v_dest_addr := (ip, port) |> <| v_fmt := fmt |>
          <| payload_fmt_word0 := pf_word0 |> <| if_pkt_count := 0 |> <| ctx_pkt_count := 0 |>
          <| ctx_sent := false |> <| sample_count := 0 |> <| cb_count := 0 |>
          <| epoch_at_start := u32 epoch |> <| rate_hz_anchor := rate |>
          <| v_stream_id := take 31 stream_id |>) in
      (Z.of_nat i,
       send_context_locked gain i (v <| vt_sessions := alter s' i (vt_sessions v) |>))
  end.

Definition vita_update_payload_format (pf_word0 : Z) (v : Vita) : Vita :=
  v <| vt_sessions :=
    (fun s => if active s then s <| payload_fmt_word0 := pf_word0 |> else s) <$> vt_sessions v |>.

Definition vita_session_remove (token : Z) (v : Vita) : Vita :=
  if (token <? 0) || (Z.of_nat MAX_VITA_SESSIONS <=? token) then v
  else v <| vt_sessions := <[Z.to_nat token := vita_zero]> (vt_sessions v) |>.

(** [sock]: socket() succeeded. *)
Definition vita_tx_init (sock : bool) (v : Vita) : Z * Vita :=
  let v := v <| vt_sessions := replicate MAX_VITA_SESSIONS vita_zero |> <| vt_sock := sock |> in
  (if sock then 0 else -1, v).

Definition vita_tx_destroy (v : Vita) : Vita := v <| vt_sock := false |>.

(** The send path has no thread of its own. *)
Definition vita_tx_start (v : Vita) : Z * Vita := (0, v).

Definition vita_tx_stop (v : Vita) : Vita := v.

(** ** The VITA-49 header, as a receiver reads it *)
Record vrt_hdr := mkHdr {
  h_type : Z; h_class : Z; h_tsi : Z; h_tsf : Z; h_count : Z; h_size : Z
}.

Definition decode_hdr (w : Z) : vrt_hdr :=
  mkHdr (w / 2 ^ 28) (w / 2 ^ 27 mod 2) (w / 2 ^ 22 mod 4) (w / 2 ^ 20 mod 4)
    (w / 2 ^ 16 mod 16) (w mod 2 ^ 16).

Lemma hdr_word (b cnt size : Z) :
  0 <= b < 2 ^ 12 -> 0 <= size < 2 ^ 16 ->
  Z.lor (Z.lor (Z.shiftl b 20) (Z.shiftl (Z.land cnt 15) 16)) size =
  (b * 16 + cnt mod 16) * 2 ^ 16 + size.
Proof.
  intros Hb Hs. rewrite land_15.
  change 20 with (4 + 16). rewrite <- Z.shiftl_shiftl, <- Z.shiftl_lor by lia.
  rewrite lor_shiftl_add by lia. rewrite lor_shiftl_add; [lia|lia|].
  apply Z.mod_pos_bound. lia.
Qed.

Lemma hdr_fields (b c s : Z) :
  0 <= b < 2 ^ 12 -> 0 <= c < 16 -> 0 <= s < 2 ^ 16 ->
  decode_hdr (u32 ((b * 16 + c) * 2 ^ 16 + s)) =
  mkHdr (b / 2 ^ 8) (b / 2 ^ 7 mod 2) (b / 4 mod 4) (b mod 4) c s.
Proof.
  intros Hb Hc Hs. rewrite u32_small by lia. unfold decode_hdr.
  assert (((b * 16 + c) * 2 ^ 16 + s) / 2 ^ 16 = b * 16 + c) as H16
    by (symmetry; apply (Z.div_unique _ _ _ s); lia).
  assert (((b * 16 + c) * 2 ^ 16 + s) / 2 ^ 20 = b) as H20
    by (symmetry; apply (Z.div_unique _ _ _ (c * 2 ^ 16 + s)); lia).
  rewrite H16, H20.
  change (2 ^ 28) with (2 ^ 20 * 2 ^ 8). change (2 ^ 27) with (2 ^ 20 * 2 ^ 7).
  change (2 ^ 22) with (2 ^ 20 * 4). rewrite <- !Z.div_div, H20 by lia. f_equal.
  - rewrite Z.add_comm, Z.mod_add by lia. by apply Z.mod_small.
  - rewrite Z.add_comm, Z.mod_add by lia. by apply Z.mod_small.
Qed.

(** The time stamp words. *)
Lemma stamp_words (t : Z) :
  0 <= t < 2 ^ 64 -> u32 (Z.shiftr t 32) * 2 ^ 32 + u32 (Z.land t 0xFFFFFFFF) = t.
Proof.
  intros Ht. change 0xFFFFFFFF with (Z.ones 32). rewrite Z.land_ones by lia.
  rewrite Z.shiftr_div_pow2 by lia.
  pose proof (Z.mod_pos_bound t (2 ^ 32) ltac:(lia)).
  assert (0 <= t / 2 ^ 32 < 2 ^ 32)
    by (split; [apply Z.div_pos; lia|apply Z.div_lt_upper_bound; lia]).
  rewrite !u32_small by lia. pose proof (Z.div_mod t (2 ^ 32)). lia.
Qed.

Lemma mem16_be (u : Z) :
  is_byte u -> mem16 (u8_to_int16_be u) = be16 (u8_to_int16 u).
Proof.
  intros Hu. apply (bool_decide_eq_true _). revert u Hu.
  apply (byte_forall (fun u => bool_decide (mem16 (u8_to_int16_be u) = be16 (u8_to_int16 u)))).
  vm_compute. reflexivity.
Qed.

(** The payload a receiver extracts: one sample per octet (u8), or one per
    big-endian signed half-word (int16). *)
Fixpoint be_halves (l : list Z) : list Z :=
  match l with
  | a :: b :: l' => i16 (of_be [a; b]) :: be_halves l'
  | _ => []
  end.

Definition samples_of (fmt : iq_format_t) (n : nat) (payload : list Z) : list Z :=
  match fmt with
  | IQ_FMT_U8 => take n payload
  | IQ_FMT_INT16 => take n (be_halves payload)
  end.

Definition convert (fmt : iq_format_t) (u : Z) : Z :=
  match fmt with IQ_FMT_U8 => u | IQ_FMT_INT16 => u8_to_int16 u end.

Lemma i16_u16 (x : Z) : -2 ^ 15 <= x < 2 ^ 15 -> i16 (u16 x) = x.
Proof.
  intros Hx. unfold i16, u16.
  rewrite Zplus_mod_idemp_l, Z.mod_small by lia. lia.
Qed.

Lemma i16_range (x : Z) : -2 ^ 15 <= i16 x < 2 ^ 15.
Proof. unfold i16. pose proof (Z.mod_pos_bound (x + 2 ^ 15) (2 ^ 16)). lia. Qed.

Lemma u8_to_int16_range (u : Z) : -2 ^ 15 <= u8_to_int16 u < 2 ^ 15.
Proof.
  unfold u8_to_int16. cbv zeta. apply i16_range.
Qed.

Lemma halves_payload (l : list Z) :
  bytes_ok l ->
  be_halves (mjoin ((fun u => mem16 (u8_to_int16_be u)) <$> l)) = u8_to_int16 <$> l.
Proof.
  induction 1 as [|u l Hu _ IH]; [done|].
  change (mjoin ((fun u => mem16 (u8_to_int16_be u)) <$> u :: l))
    with (mem16 (u8_to_int16_be u) ++ mjoin ((fun u => mem16 (u8_to_int16_be u)) <$> l)).
  rewrite (mem16_be u Hu). cbn [be16 app be_halves]. rewrite fmap_cons, IH. f_equal.
  change [u8 (Z.shiftr (u8_to_int16 u) 8); u8 (u8_to_int16 u)] with (be16 (u8_to_int16 u)).
  rewrite of_be_be16. apply i16_u16, u8_to_int16_range.
Qed.

Lemma mem16_length (l : list Z) :
  length (mjoin ((fun u => mem16 (u8_to_int16_be u)) <$> l)) = (2 * length l)%nat.
Proof.
  induction l as [|u l IH]; [done|].
  change (mjoin ((fun u => mem16 (u8_to_int16_be u)) <$> u :: l))
    with (mem16 (u8_to_int16_be u) ++ mjoin ((fun u => mem16 (u8_to_int16_be u)) <$> l)).
  rewrite length_app, IH. cbn [mem16 length]. lia.
Qed.

(** The words of the payload. *)
Definition payload_words (fmt : iq_format_t) (np : Z) : Z :=
  match fmt with IQ_FMT_INT16 => np | IQ_FMT_U8 => (2 * np + 3) / 4 end.

Definition if_payload (fmt : iq_format_t) (np : Z) (iq : list Z) : list Z :=
  let np2 := Z.to_nat (np * 2) in
  match fmt with
  | IQ_FMT_INT16 => mjoin ((fun u => mem16 (u8_to_int16_be u)) <$> take np2 iq)
  | IQ_FMT_U8 =>
      take np2 iq ++
      (if Z.land (np * 2) 3 =? 0 then []
       else replicate (Z.to_nat (4 - Z.land (np * 2) 3)) 0)
  end.

Lemma if_payload_length (fmt : iq_format_t) (np : Z) (iq : list Z) :
  0 <= np -> (Z.to_nat (2 * np) <= length iq)%nat ->
  Z.of_nat (length (if_payload fmt np iq)) = 4 * payload_words fmt np.
Proof.
  intros Hn Hl. unfold if_payload, payload_words. destruct fmt.
  - rewrite mem16_length, length_take. lia.
  - rewrite length_app, length_take, Nat.min_l by lia.
    assert (Z.land (np * 2) 3 = np * 2 mod 4) as -> by (by apply (Z.land_ones _ 2)).
    pose proof (Z.mod_pos_bound (np * 2) 4 ltac:(lia)).
    pose proof (Z.div_mod (np * 2) 4 ltac:(lia)).
    destruct (Z.eqb_spec (np * 2 mod 4) 0); [cbn [length]|rewrite length_replicate];
      rewrite Nat2Z.inj_add, ?Z2Nat.id by lia.
    + rewrite <- (Z.div_unique (2 * np + 3) 4 (np * 2 / 4) 3); lia.
    + rewrite <- (Z.div_unique (2 * np + 3) 4 (np * 2 / 4 + 1) (np * 2 mod 4 - 1)); lia.
Qed.

Lemma if_payload_samples (fmt : iq_format_t) (np : Z) (iq : list Z) :
  0 <= np -> bytes_ok iq -> (Z.to_nat (2 * np) <= length iq)%nat ->
  samples_of fmt (Z.to_nat (2 * np)) (if_payload fmt np iq) =
  convert fmt <$> take (Z.to_nat (2 * np)) iq.
Proof.
  intros Hn Hb Hl. unfold if_payload, samples_of. rewrite (Z.mul_comm np 2). destruct fmt.
  - rewrite halves_payload by (by apply Forall_take). cbn [convert].
    apply take_ge. rewrite length_fmap, length_take. lia.
  - rewrite take_app_le by (rewrite length_take; lia).
    rewrite take_take, Nat.min_id. symmetry. apply list_fmap_id.
Qed.

Lemma if_data_shape (sid cnt tsi t np : Z) (iq : list Z) (fmt : iq_format_t) :
  0 <= np <= 16000 ->
  vita_build_if_data_packet sid cnt tsi t iq np fmt =
  be32 ((0x186 * 16 + cnt mod 16) * 2 ^ 16 + (7 + payload_words fmt np))
  ++ be32 sid ++ be32 CLASS_ID_W0 ++ be32 CLASS_ID_W1 ++ be32 tsi
  ++ be32 (Z.shiftr t 32) ++ be32 (Z.land t 0xFFFFFFFF) ++ if_payload fmt np iq.
Proof.
  intros Hn. unfold vita_build_if_data_packet. rewrite <- !app_assoc. f_equal. f_equal.
  assert (0 <= payload_words fmt np <= 16000) as Hw.
  { unfold payload_words. destruct fmt; [lia|]. Z.to_euclidean_division_equations; lia. }
  rewrite <- hdr_word by lia. f_equal. unfold u16, payload_words in *. destruct fmt.
  - by rewrite Z.mod_small by lia.
  - rewrite (Z.mod_small (np * 2)), (Z.mul_comm np 2) by lia.
    rewrite (Z.mod_small ((2 * np + 3) / 4)), Z.mod_small by lia. done.
Qed.

(** C27: IF Data packets decode to what was sent.  For at most 16000 pairs, the
    packet vita_build_if_data_packet writes has the header of an IF Data packet
    with class identifier, UTC seconds and picoseconds, the packet count modulo
    16 and a size field equal to its length in words; the stream identifier,
    class identifier, both time stamps and every sample (verbatim for u8,
    through the int16 conversion otherwise) are recovered by a receiver. *)
Theorem vita_if_data_decodes (sid cnt tsi t np : Z) (iq : list Z) (fmt : iq_format_t) :
  0 <= np <= 16000 -> bytes_ok iq -> (Z.to_nat (2 * np) <= length iq)%nat -> 0 <= t < 2 ^ 64 ->
  let pkt := vita_build_if_data_packet sid cnt tsi t iq np fmt in
  let size := 7 + payload_words fmt np in
  decode_hdr (word 0 pkt) = mkHdr 1 1 1 2 (cnt mod 16) size /\
  Z.of_nat (length pkt) = 4 * size /\
  word 1 pkt = u32 sid /\ word 2 pkt = 0x402814 /\ word 3 pkt = 1 /\ word 4 pkt = u32 tsi /\
  word 5 pkt * 2 ^ 32 + word 6 pkt = t /\
  samples_of fmt (Z.to_nat (2 * np)) (drop 28 pkt) = convert fmt <$> take (Z.to_nat (2 * np)) iq.
Proof.
  intros Hn Hb Hl Ht. cbv zeta. rewrite if_data_shape by done.
  assert (0 <= payload_words fmt np <= 16000) as Hw.
  { unfold payload_words. destruct fmt; [lia|]. Z.to_euclidean_division_equations; lia. }
  assert (forall x l, word 0 (be32 x ++ l) = u32 x) as Hword by (intros; apply of_be_be32).
  assert (forall k x l, word (S k) (be32 x ++ l) = word k l) as Hskip.
  { intros k x l. unfold word. do 2 f_equal. replace (4 * S k)%nat with (4 + 4 * k)%nat by lia.
    by rewrite <- drop_drop. }
  rewrite !Hskip, !Hword. repeat split.
  - rewrite hdr_fields; [done|lia| |lia]. apply Z.mod_pos_bound. lia.
  - rewrite !length_app, !be32_length. rewrite !Nat2Z.inj_add, if_payload_length by lia. lia.
  - by apply stamp_words.
  - change 28%nat with (4 + 4 + 4 + 4 + 4 + 4 + 4)%nat. rewrite <- !drop_drop.
    change (drop 4 (be32 ?x ++ ?l)) with l. by apply if_payload_samples; [lia|..].
Qed.

Lemma vita_if_data_decodes_witness :
  let pkt := vita_build_if_data_packet 7 18 1700000000 (2 ^ 40 + 5) [1; 2; 3; 4; 5; 6] 3 IQ_FMT_U8 in
  decode_hdr (word 0 pkt) = mkHdr 1 1 1 2 2 9 /\ word 5 pkt * 2 ^ 32 + word 6 pkt = 2 ^ 40 + 5 /\
  samples_of IQ_FMT_U8 6 (drop 28 pkt) = [1; 2; 3; 4; 5; 6].
Proof.
  pose proof (vita_if_data_decodes 7 18 1700000000 (2 ^ 40 + 5) 3 [1; 2; 3; 4; 5; 6] IQ_FMT_U8
    ltac:(lia) ltac:(repeat constructor; unfold is_byte; lia) ltac:(vm_compute; lia) ltac:(lia)) as H.
  cbv zeta in *. destruct H as (H1 & _ & _ & _ & _ & _ & H2 & H3).
  split; [rewrite H1; vm_compute; reflexivity|]. split; [exact H2|exact H3].
Defined.

(** C28: Context packets.  A Context packet is six words: the header of an IF
    Context packet without class identifier or time stamps with the packet
    count modulo 16, the stream identifier, CIF0 with the Reference Level and
    Payload Format indicators and the change indicator in bit 31, the Reference
    Level word with a zero upper half, the Payload Format word, and zero. *)
Theorem vita_context_decodes (sid cnt pf : Z) (ref_dbm : double) (changed : bool) :
  let pkt := vita_build_context_packet sid cnt pf ref_dbm changed in
  length pkt = 24%nat /\
  decode_hdr (word 0 pkt) = mkHdr 4 0 0 0 (cnt mod 16) 6 /\
  word 1 pkt = u32 sid /\
  Z.testbit (word 2 pkt) 31 = changed /\ word 2 pkt mod 2 ^ 31 = 2 ^ 24 + 2 ^ 15 /\
  word 3 pkt = vita_encode_reference_level ref_dbm /\ word 3 pkt < 2 ^ 16 /\
  word 4 pkt = u32 pf /\ word 5 pkt = 0.
Proof.
  cbv zeta. unfold vita_build_context_packet.
  assert (forall x l, word 0 (be32 x ++ l) = u32 x) as Hword by (intros; apply of_be_be32).
  assert (forall k x l, word (S k) (be32 x ++ l) = word k l) as Hskip.
  { intros k x l. unfold word. do 2 f_equal. replace (4 * S k)%nat with (4 + 4 * k)%nat by lia.
    by rewrite <- drop_drop. }
  assert (0 <= vita_encode_reference_level ref_dbm < 2 ^ 16) as Hr
    by (unfold vita_encode_reference_level, u16; cbv zeta; apply Z.mod_pos_bound; lia).
  rewrite <- (app_nil_r (be32 0)). rewrite !Hskip, !Hword.
  rewrite (u32_small (vita_encode_reference_level ref_dbm)) by lia.
  repeat split; try lia.
  - change VRT_CTX_HDR_BASE with (Z.shiftl 0x400 20). rewrite hdr_word by (vm_compute; done).
    rewrite hdr_fields; [done|lia| |vm_compute; done]. apply Z.mod_pos_bound. lia.
  - by destruct changed.
  - by destruct changed.
Qed.

(** Sample conversion and Reference Level.  u8_to_int16 is, for every
    octet, exactly the truncation of (u - 127.4) * 32767 / 128, although it is
    computed in single precision, and the Reference Level word of every gain
    from 0 to 50.0 dB is the nearest multiple of 1/128 dB to -10 dBm - gain. *)
Theorem vita_numeric_exact :
  (forall u, is_byte u -> u8_to_int16 u = Z.quot ((10 * u - 1274) * 32767) 1280) /\
  (forall gain, 0 <= gain <= 500 ->
     Z.abs (10 * i16 (vita_encode_reference_level (rtl_reference_level_dbm (tenth gain)))
            - 128 * (-100 - gain)) <= 5).
Proof.
  split.
  - intros u Hu. apply Z.eqb_eq. revert u Hu.
    apply (byte_forall (fun u => u8_to_int16 u =? Z.quot ((10 * u - 1274) * 32767) 1280)).
    vm_compute. reflexivity.
  - intros gain Hg. apply Z.leb_le.
    set (P := fun gain => Z.abs (10 * i16 (vita_encode_reference_level
      (rtl_reference_level_dbm (tenth gain))) - 128 * (-100 - gain)) <=? 5).
    change (P gain = true).
    assert (forallb P (Z.of_nat <$> seq 0 501) = true) as H by (vm_compute; reflexivity).
    rewrite forallb_forall in H. apply H, list_elem_of_In, list_elem_of_fmap.
    exists (Z.to_nat gain). split; [lia|]. apply elem_of_seq. lia.
Qed.

(** ** Time stamps *)
Lemma stamp_picos_exact (rate sc : Z) :
  0 < rate <= 18446744 -> 0 <= sc ->
  stamp_picos rate sc = (sc mod rate) * 1000000000000 / rate /\
  0 <= stamp_picos rate sc < 1000000000000.
Proof.
  intros Hr Hs. unfold stamp_picos. rewrite (proj2 (Z.eqb_neq rate 0)) by lia.
  pose proof (Z.mod_pos_bound sc rate ltac:(lia)). rewrite u64_small by lia.
  split; [done|]. split; [apply Z.div_pos; lia|]. apply Z.div_lt_upper_bound; lia.
Qed.

(** C29: exact time stamps.  At any sample rate up to 18.4 MS/s (the daemon
    offers at most 2.4), the stamps of the packet that starts at sample [sc]
    are those of the exact sample time: whole seconds after the epoch and the
    floor of the picoseconds, with no 64-bit overflow and no accumulated
    error, however long the stream has run. *)
Theorem vita_stamps_exact (epoch rate sc : Z) :
  0 < rate <= 18446744 -> 0 <= sc < 2 ^ 64 ->
  stamp_tsi epoch rate sc = u32 (epoch + sc / rate) /\
  0 <= stamp_picos rate sc < 1000000000000 /\
  (sc / rate) * 1000000000000 + stamp_picos rate sc = sc * 1000000000000 / rate.
Proof.
  intros Hr Hs. destruct (stamp_picos_exact rate sc) as [-> Hp]; [lia..|].
  split; [|split; [done|]].
  - unfold stamp_tsi. rewrite (proj2 (Z.eqb_neq rate 0)) by lia. unfold u32.
    by rewrite Z.add_mod_idemp_r by lia.
  - pose proof (Z.div_mod sc rate ltac:(lia)) as Hd.
    rewrite Hd at 3. rewrite Z.mul_add_distr_r, <- Z.mul_assoc, (Z.mul_comm rate).
    by rewrite Z.div_add_l by lia.
Qed.

Lemma vita_stamps_exact_witness :
  stamp_tsi 1700000000 2048000 (2048000 * 86400 + 256) = 1700086400 /\
  stamp_picos 2048000 (2048000 * 86400 + 256) = 125000000.
Proof.
  pose proof (vita_stamps_exact 1700000000 2048000 (2048000 * 86400 + 256) ltac:(lia) ltac:(lia))
    as (H1 & H2 & H3).
  split; [rewrite H1; vm_compute; reflexivity|].
  change ((2048000 * 86400 + 256) * 1000000000000 / 2048000) with 86400000125000000 in H3.
  change ((2048000 * 86400 + 256) / 2048000 * 1000000000000) with 86400000000000000 in H3. lia.
Defined.

(** ** A stream as its receiver sees it

    The abstract stream counts its packets; the packet that the [n]-th data
    packet must be depends on [n] alone, and a Context packet is marked as
    changed when its fields differ from those of the previous one. *)
Record stream := mkStream {
  sm_slot : nat;
  sm_sid : Z;
  sm_fmt : iq_format_t;
  sm_ip : list Z;
  sm_port : Z;
  sm_epoch : Z;
  sm_rate : Z;
  sm_pf : Z;                         (* Payload Format in force *)
  sm_data : Z;                       (* data packets so far *)
  sm_ctx : Z;                        (* Context packets so far *)
  sm_last : option (Z * Z)           (* fields of the last Context packet *)
}.

#[export] Instance eta_stream : Eta stream := fun s =>
  mkStream (sm_slot s) (sm_sid s) (sm_fmt s) (sm_ip s) (sm_port s) (sm_epoch s) (sm_rate s)
    (sm_pf s) (sm_data s) (sm_ctx s) (sm_last s).

Definition spec_ctx (gain : Z) (s : stream) : list udp * stream :=
  let dbm := rtl_reference_level_dbm (tenth gain) in
  let fields := (vita_encode_reference_level dbm, sm_pf s) in
  ([mkUdp (sm_slot s) (sm_ip s) (sm_port s)
      (vita_build_context_packet (sm_sid s) (sm_ctx s mod 16) (sm_pf s) dbm
         (bool_decide (sm_last s <> Some fields)))],
   s <| sm_ctx := sm_ctx s + 1 |> <| sm_last := Some fields |>).

(** The data packet number [n] of the stream. *)
Definition spec_packet (s : stream) (n : Z) (chunk : list Z) : udp :=
  mkUdp (sm_slot s) (sm_ip s) (sm_port s)
    (vita_build_if_data_packet (sm_sid s) (n mod 16)
       (stamp_tsi (sm_epoch s) (sm_rate s) (u64 (256 * n)))
       (stamp_picos (sm_rate s) (u64 (256 * n))) chunk 256 (sm_fmt s)).

(** Packet [k] of a burst carries the [k]-th 512 octets of the buffer. *)
Definition spec_burst (buf : list Z) (s : stream) : list udp * stream :=
  let n := burst_pkts (length buf) in
  ((fun k => spec_packet s (sm_data s + Z.of_nat k) (drop (512 * k) buf)) <$> seq 0 n,
   s <| sm_data := sm_data s + Z.of_nat n |>).

(** ** The operations of the sender, as steps *)
Inductive vop : Type :=
  | OContextAll (gain : Z)
  | OPayloadFormat (pf : Z)
  | OBuffer (buf : list Z)
  | OAdd (gain rate epoch : Z) (sid : list Z) (id : Z) (ip : list Z) (port : Z)
         (fmt : iq_format_t) (pf : Z)
  | ORemove (token : Z).

Definition vita_step (v : Vita) (o : vop) : Vita :=
  match o with
  | OContextAll gain => vita_send_context_all gain v
  | OPayloadFormat pf => vita_update_payload_format pf v
  | OBuffer buf => vita_send_callback buf v
  | OAdd gain rate epoch sid id ip port fmt pf =>
      (vita_session_add gain rate epoch sid id ip port fmt pf v).2
  | ORemove token => vita_session_remove token v
  end.

Definition spec_step (s : stream) (o : vop) : list udp * stream :=
  match o with
  | OContextAll gain => spec_ctx gain s
  | OPayloadFormat pf => ([], s <| sm_pf := pf |>)
  | OBuffer buf => spec_burst buf s
  | OAdd _ _ _ _ _ _ _ _ _ | ORemove _ => ([], s)
  end.

Fixpoint spec_run (s : stream) (os : list vop) : list udp :=
  match os with
  | [] => []
  | o :: os' => let '(out, s') := spec_step s o in out ++ spec_run s' os'
  end.

Definition slot_out (i : nat) (out : list udp) : list udp :=
  filter (fun p => u_slot p = i) out.

(** The session in the table implements the abstract stream. *)
Definition implements (s : stream) (sess : VitaSession) : Prop :=
  active sess = true /\ v_vita_stream_id sess = sm_sid s /\ v_fmt sess = sm_fmt s /\
  v_dest_ip sess = sm_ip s /\ v_dest_port sess = sm_port s /\
  v_dest_addr sess = (sm_ip s, sm_port s) /\ epoch_at_start sess = sm_epoch s /\
  rate_hz_anchor sess = sm_rate s /\ payload_fmt_word0 sess = sm_pf s /\
  if_pkt_count sess = sm_data s mod 16 /\ sample_count sess = u64 (256 * sm_data s) /\
  ctx_pkt_count sess = sm_ctx s mod 16 /\
  ctx_sent sess = bool_decide (sm_last s <> None) /\
  (forall f, sm_last s = Some f -> f = (ctx_last_ref_word sess, ctx_last_pf_word0 sess)).

(** Nothing a receiver of slot [i] can see differs. *)
Definition same (i : nat) (v v' : Vita) : Prop :=
  vt_sessions v' !! i = vt_sessions v !! i /\
  slot_out i (vt_out v') = slot_out i (vt_out v) /\
  vt_sock v' = vt_sock v /\ vt_context_enabled v' = vt_context_enabled v.

#[export] Instance same_refl (i : nat) : Reflexive (same i).
Proof. done. Qed.

#[export] Instance same_trans (i : nat) : Transitive (same i).
Proof. intros a b c (?&?&?&?) (?&?&?&?). unfold same. by repeat split; etrans. Qed.

Lemma slot_out_other (i j : nat) (out : list udp) :
  i <> j -> Forall (fun p => u_slot p = j) out -> slot_out i out = [].
Proof.
  intros Hne. induction 1 as [|p out Hp _ IH]; [done|].
  unfold slot_out. rewrite filter_cons_False by congruence. exact IH.
Qed.

Lemma slot_out_same (i : nat) (out : list udp) :
  Forall (fun p => u_slot p = i) out -> slot_out i out = out.
Proof.
  induction 1 as [|p out Hp _ IH]; [done|].
  unfold slot_out in *. by rewrite filter_cons_True, IH.
Qed.

Lemma same_other (i j : nat) (v : Vita) (sess : VitaSession) (out : list udp) :
  i <> j -> Forall (fun p => u_slot p = j) out ->
  same i v (v <| vt_sessions := <[j := sess]> (vt_sessions v) |> <| vt_out := vt_out v ++ out |>).
Proof.
  intros Hne Hout. unfold same. cbn. rewrite list_lookup_insert_ne by done.
  repeat split. unfold slot_out. rewrite filter_app. fold (slot_out i out).
  by rewrite (slot_out_other i j), app_nil_r.
Qed.

Lemma build_pkts_slot (n slot : nat) (chunk : list Z) (sess : VitaSession) :
  Forall (fun p => u_slot p = slot) (build_pkts n slot chunk sess).1.
Proof.
  revert chunk sess. induction n as [|n IH]; intros chunk sess; cbn [build_pkts]; [constructor|].
  match goal with |- context [build_pkts n slot ?c ?s] => specialize (IH c s); destruct (build_pkts n slot c s) end.
  by constructor.
Qed.

Lemma context_other (gain : Z) (i j : nat) (v : Vita) :
  i <> j -> same i v (send_context_locked gain j v).
Proof.
  intros Hne. unfold send_context_locked. destruct (vt_sessions v !! j) as [sess|]; [|done].
  case_match; [done|]. unfold sendto. cbn [vt_sock upd].
  destruct (vt_sock v) eqn:E.
  - apply (same_other i j v); [done|by repeat constructor].
  - unfold same. cbn. by rewrite list_lookup_insert_ne.
Qed.

Lemma burst_other (buf : list Z) (i j : nat) (v : Vita) :
  i <> j -> same i v (send_burst buf v j).
Proof.
  intros Hne. unfold send_burst. destruct (vt_sessions v !! j) as [sess|]; [|done].
  case_match; [done|]. pose proof (build_pkts_slot (burst_pkts (length buf)) j buf sess) as Hs.
  destruct (build_pkts _ _ _ _) as [pkts sess']. by apply same_other.
Qed.

Lemma fold_slots (f : Vita -> nat -> Vita) (i : nat) (v : Vita) :
  (forall j v, i <> j -> same i v (f v j)) -> (i < MAX_VITA_SESSIONS)%nat ->
  exists v1, same i v v1 /\ same i (f v1 i) (fold_left f (seq 0 MAX_VITA_SESSIONS) v).
Proof.
  intros Hf Hi. unfold MAX_VITA_SESSIONS in *. cbn [seq fold_left].
  destruct i as [|[|[|[|i]]]]; [..|lia].
  - exists v. split; [done|]. repeat (etrans; [|by apply Hf]). done.
  - exists (f v 0%nat). split; [by apply Hf|]. repeat (etrans; [|by apply Hf]). done.
  - exists (f (f v 0%nat) 1%nat). split; [etrans; [by apply (Hf 0%nat)|by apply (Hf 1%nat)]|]. by apply Hf.
  - exists (f (f (f v 0%nat) 1%nat) 2%nat). split; [|done].
    etrans; [by apply (Hf 0%nat)|]. etrans; [by apply (Hf 1%nat)|]. by apply (Hf 2%nat).
Qed.

Lemma succ_mod16 (n : Z) : Z.land (n mod 16 + 1) 15 = (n + 1) mod 16.
Proof. rewrite land_15. by rewrite Z.add_mod_idemp_l by lia. Qed.

Lemma context_own (gain : Z) (i : nat) (v : Vita) (s : stream) (sess : VitaSession) :
  vt_sessions v !! i = Some sess -> implements s sess -> sm_slot s = i ->
  vt_sock v = true -> vt_context_enabled v = true ->
  let v' := send_context_locked gain i v in
  (exists sess', vt_sessions v' !! i = Some sess' /\ implements (spec_ctx gain s).2 sess') /\
  vt_out v' = vt_out v ++ (spec_ctx gain s).1 /\
  vt_sock v' = true /\ vt_context_enabled v' = true.
Proof.
  intros Hl Hi Hslot Hsock Hen. cbv zeta. unfold send_context_locked. rewrite Hl.
  destruct Hi as (Ha & Hsid & Hfmt & Hip & Hport & Haddr & Hep & Hra & Hpf & Hif & Hsc & Hcc & Hcs & Hlast).
  rewrite Ha, Hen. cbn [negb orb]. unfold sendto. cbn [vt_sock upd]. rewrite Hsock. cbn.
  set (ref := vita_encode_reference_level _).
  repeat split; try done.
  - eexists. split; [apply list_lookup_insert_eq; by eapply lookup_lt_Some|].
    unfold implements. cbn. rewrite Hcc, succ_mod16, Hpf. repeat split; try done.
    by intros f [= <-].
  - rewrite Hip, Hport, Hsid, Hcc, Hpf, Hcs, Hslot. fold ref.
    enough (negb (bool_decide (sm_last s <> None)) || negb (ref =? ctx_last_ref_word sess)
            || negb (sm_pf s =? ctx_last_pf_word0 sess) =
            bool_decide (sm_last s <> Some (ref, sm_pf s))) as -> by done.
    destruct (sm_last s) as [[r p]|] eqn:El; [|done].
    specialize (Hlast _ eq_refl) as [= -> ->]. rewrite bool_decide_eq_true_2 by done. cbn [negb orb].
    destruct (Z.eqb_spec ref (ctx_last_ref_word sess)) as [E1|E1];
      destruct (Z.eqb_spec (sm_pf s) (ctx_last_pf_word0 sess)) as [E2|E2]; cbn [negb orb];
      symmetry; first [apply bool_decide_eq_true_2; congruence|apply bool_decide_eq_false_2; congruence].
Qed.

Lemma build_own (n : nat) (chunk : list Z) (s : stream) (sess : VitaSession) :
  implements s sess ->
  let '(pkts, sess') := build_pkts n (sm_slot s) chunk sess in
  pkts = (fun k => spec_packet s (sm_data s + Z.of_nat k) (drop (512 * k) chunk)) <$> seq 0 n /\
  implements (s <| sm_data := sm_data s + Z.of_nat n |>) sess'.
Proof.
  revert chunk s sess. induction n as [|n IH]; intros chunk s sess Hi; cbn [build_pkts seq].
  { split; [done|]. unfold implements in *. cbn -[Z.of_nat]. by rewrite Z.add_0_r. }
  set (sess1 := sess <| if_pkt_count := _ |> <| sample_count := _ |>).
  assert (implements (s <| sm_data := sm_data s + 1 |>) sess1) as Hi1.
  { destruct Hi as (Ha & Hsid & Hfmt & Hip & Hport & Haddr & Hep & Hra & Hpf & Hif & Hsc & Hrest).
    unfold implements, sess1. cbn -[Z.mul Z.of_nat].
    change (Z.of_nat VITA_SAMPLES_PER_PKT) with 256. rewrite Hif, Hsc, succ_mod16. repeat split; try done; try apply Hrest.
    unfold u64. rewrite Z.add_mod_idemp_l by lia. f_equal. lia. }
  specialize (IH (drop (2 * VITA_SAMPLES_PER_PKT) chunk) _ sess1 Hi1). cbn [sm_slot upd] in IH.
  destruct (build_pkts n (sm_slot s) _ sess1) as [pkts sess'] eqn:Eb. destruct IH as [-> Hi'].
  split.
  - rewrite fmap_cons. f_equal.
    + destruct Hi as (Ha & Hsid & Hfmt & Hip & Hport & Haddr & Hep & Hra & Hpf & Hif & Hsc & Hrest).
      unfold spec_packet. rewrite Haddr, Hsid, Hif, Hep, Hra, Hsc, Hfmt, Z.add_0_r. done.
    + rewrite <- seq_shift, <- list_fmap_compose. apply list_fmap_ext. intros j k _. cbn [compose].
      unfold spec_packet. cbn [sm_slot sm_ip sm_port sm_sid sm_epoch sm_rate sm_fmt sm_data upd].
      rewrite drop_drop. replace (2 * VITA_SAMPLES_PER_PKT + 512 * k)%nat with (512 * S k)%nat
        by (unfold VITA_SAMPLES_PER_PKT; lia).
      by replace (sm_data s + 1 + Z.of_nat k) with (sm_data s + Z.of_nat (S k)) by lia.
  - unfold implements in *. cbn [sm_data upd] in *. cbn -[Z.of_nat Z.mul] in Hi' |- *.
    by replace (sm_data s + Z.of_nat (S n)) with (sm_data s + 1 + Z.of_nat n) by lia.
Qed.

(** ** The simulation *)
Definition sim (i : nat) (v : Vita) (s : stream) : Prop :=
  (exists sess, vt_sessions v !! i = Some sess /\ implements s sess) /\
  sm_slot s = i /\ vt_sock v = true /\ vt_context_enabled v = true.

(** The step is not the removal of session [i]. *)
Definition keeps (i : nat) (o : vop) : Prop :=
  match o with ORemove t => t <> Z.of_nat i | _ => True end.

Lemma sim_same (i : nat) (v v' : Vita) (s : stream) :
  sim i v s -> same i v v' -> sim i v' s.
Proof.
  intros ((sess & Hl & Hi) & Hs & Hk & He) (H1 & _ & H3 & H4).
  split; [exists sess; by rewrite H1|]. by rewrite H3, H4.
Qed.

Lemma first_free_spec (l : list VitaSession) (k j : nat) :
  first_free l k = Some j ->
  exists s, l !! (j - k)%nat = Some s /\ active s = false /\ (k <= j)%nat.
Proof.
  revert k. induction l as [|s l IH]; intros k; cbn [first_free]; [done|].
  destruct (active s) eqn:E.
  - intros (s' & Hl & Ha & Hle)%IH. exists s'.
    replace (j - k)%nat with (S (j - S k)) by lia. cbn. split; [done|]. split; [done|lia].
  - intros [= <-]. exists s. by rewrite Nat.sub_diag.
Qed.

Lemma context_all_sim (gain : Z) (i : nat) (v : Vita) (s : stream) :
  sim i v s -> (i < MAX_VITA_SESSIONS)%nat ->
  sim i (vita_send_context_all gain v) (spec_ctx gain s).2 /\
  slot_out i (vt_out (vita_send_context_all gain v)) =
  slot_out i (vt_out v) ++ (spec_ctx gain s).1.
Proof.
  intros Hsim Hi. unfold vita_send_context_all. destruct Hsim as (Hx & Hs & Hk & He).
  rewrite Hk. cbn [negb].
  destruct (fold_slots (fun v i => send_context_locked gain i v) i v) as (v1 & H1 & H2);
    [intros; by apply context_other|done|].
  destruct (sim_same i v v1 s) as ((sess & Hl & Him) & _ & Hk1 & He1); [done..|].
  destruct (context_own gain i v1 s sess Hl Him Hs Hk1 He1) as (Hx' & Hout & Hk2 & He2).
  split.
  - eapply sim_same; [|exact H2]. by split.
  - destruct H2 as (_ & -> & _). rewrite Hout. unfold slot_out. rewrite filter_app.
    f_equal; [apply H1|]. fold (slot_out i (spec_ctx gain s).1). apply slot_out_same.
    by repeat constructor.
Qed.

Lemma burst_own (buf : list Z) (i : nat) (v : Vita) (s : stream) :
  sim i v s ->
  sim i (send_burst buf v i) (spec_burst buf s).2 /\
  vt_out (send_burst buf v i) = vt_out v ++ (spec_burst buf s).1.
Proof.
  intros ((sess & Hl & Hi) & <- & Hk & He). unfold send_burst. rewrite Hl.
  pose proof (build_own (burst_pkts (length buf)) buf s sess Hi) as Hb.
  destruct Hi as (Ha & _). rewrite Ha. cbn [negb].
  destruct (build_pkts _ _ _ _) as [pkts sess']. destruct Hb as [-> Hi'].
  split; [|done]. split; [|by split].
  eexists. split; [apply list_lookup_insert_eq; by eapply lookup_lt_Some|]. exact Hi'.
Qed.

Lemma callback_sim (buf : list Z) (i : nat) (v : Vita) (s : stream) :
  sim i v s -> (i < MAX_VITA_SESSIONS)%nat ->
  sim i (vita_send_callback buf v) (spec_burst buf s).2 /\
  slot_out i (vt_out (vita_send_callback buf v)) =
  slot_out i (vt_out v) ++ (spec_burst buf s).1.
Proof.
  intros Hsim Hi. unfold vita_send_callback.
  assert (vt_sock v = true) as -> by apply Hsim. cbn [negb].
  destruct (Nat.eqb_spec (burst_pkts (length buf)) 0) as [E|E].
  - unfold spec_burst. rewrite E. cbn [seq fmap list_fmap fst snd]. rewrite app_nil_r.
    split; [|done]. destruct Hsim as ((sess & Hl & Him) & Hrest). split; [|done].
    exists sess. split; [done|]. unfold implements in *. cbn. by rewrite Z.add_0_r.
  - destruct (fold_slots (send_burst buf) i v) as (v1 & H1 & H2);
      [intros; by apply burst_other|done|].
    destruct (burst_own buf i v1 s) as [Hs' Hout]; [by eapply sim_same|].
    split; [by eapply sim_same|]. destruct H2 as (_ & -> & _). rewrite Hout.
    unfold slot_out. rewrite filter_app. f_equal; [apply H1|].
    fold (slot_out i (spec_burst buf s).1). apply slot_out_same.
    apply Forall_fmap, Forall_true. intros k. cbn. by destruct Hsim as (_ & ? & _).
Qed.

Lemma add_other (i : nat) (v : Vita) (s : stream) (gain rate epoch id port pf : Z)
    (sid ip : list Z) (fmt : iq_format_t) :
  sim i v s -> same i v (vita_session_add gain rate epoch sid id ip port fmt pf v).2.
Proof.
  intros ((sess & Hl & Hi) & _). unfold vita_session_add.
  destruct (first_free (vt_sessions v) 0) as [j|] eqn:Ef; [|done].
  apply first_free_spec in Ef as (s' & Hj & Ha & _). rewrite Nat.sub_0_r in Hj.
  assert (i <> j) as Hne by (intros ->; destruct Hi as [Ha' _]; congruence).
  cbn [snd]. etrans; [|by apply context_other]. unfold same. cbn.
  by rewrite list_lookup_alter_ne.
Qed.

Lemma step_sim (i : nat) (v : Vita) (s : stream) (o : vop) :
  sim i v s -> (i < MAX_VITA_SESSIONS)%nat -> keeps i o ->
  sim i (vita_step v o) (spec_step s o).2 /\
  slot_out i (vt_out (vita_step v o)) = slot_out i (vt_out v) ++ (spec_step s o).1.
Proof.
  intros Hsim Hi Ho. destruct o as [gain|pf|buf|gain rate epoch sid id ip port fmt pf|t];
    cbn [vita_step spec_step fst snd].
  - by apply context_all_sim.
  - rewrite app_nil_r. split; [|done]. destruct Hsim as ((sess & Hl & Him) & Hrest).
    split; [|done]. eexists. unfold vita_update_payload_format. cbn.
    rewrite list_lookup_fmap, Hl. cbn. split; [done|]. destruct Him as (Ha & Him). rewrite Ha.
    split; [done|]. cbn. tauto.
  - by apply callback_sim.
  - rewrite app_nil_r. pose proof (add_other i v s gain rate epoch id port pf sid ip fmt Hsim) as Hs.
    split; [by eapply sim_same|apply Hs].
  - rewrite app_nil_r. unfold vita_session_remove. cbn in Ho. case_match; [done|].
    assert (same i v (v <| vt_sessions := <[Z.to_nat t := vita_zero]> (vt_sessions v) |>)) as Hs.
    { unfold same. cbn. rewrite list_lookup_insert_ne by (zbool; lia). done. }
    split; [by eapply sim_same|apply Hs].
Qed.

Lemma run_sim (i : nat) (v : Vita) (s : stream) (os : list vop) :
  sim i v s -> (i < MAX_VITA_SESSIONS)%nat -> Forall (keeps i) os ->
  slot_out i (vt_out (fold_left vita_step os v)) = slot_out i (vt_out v) ++ spec_run s os.
Proof.
  intros Hsim Hi Ho. revert v s Hsim. induction Ho as [|o os Ho _ IH]; intros v s Hsim;
    cbn [fold_left spec_run]; [by rewrite app_nil_r|].
  destruct (step_sim i v s o Hsim Hi Ho) as [Hs' Hout].
  destruct (spec_step s o) as [out s']. cbn [fst snd] in *. rewrite (IH _ _ Hs'), Hout.
  by rewrite app_assoc.
Qed.

Lemma add_sim (v v1 : Vita) (gain rate epoch id port pf : Z) (sid ip : list Z)
    (fmt : iq_format_t) (i : nat) :
  vt_sock v = true -> vt_context_enabled v = true ->
  vita_session_add gain rate epoch sid id ip port fmt pf v = (Z.of_nat i, v1) ->
  let s0 := mkStream i id fmt ip port (u32 epoch) rate pf 0 0 None in
  sim i v1 (spec_ctx gain s0).2 /\
  slot_out i (vt_out v1) = slot_out i (vt_out v) ++ (spec_ctx gain s0).1.
Proof.
  intros Hk He Hadd s0. unfold vita_session_add in Hadd.
  destruct (first_free (vt_sessions v) 0) as [j|] eqn:Ef; [|injection Hadd; lia].
  apply first_free_spec in Ef as (sess & Hj & Ha & _). rewrite Nat.sub_0_r in Hj.
  injection Hadd as Hij <-. assert (j = i) as -> by lia. clear Hij.
  match goal with |- context [send_context_locked gain i ?w] =>
    destruct (context_own gain i w s0 _ ltac:(cbn; rewrite list_lookup_alter_eq, Hj; reflexivity)
      ltac:(by unfold implements) eq_refl Hk He) as (Hx & Hout & Hk' & He') end.
  split; [by split|]. rewrite Hout. unfold slot_out. rewrite filter_app. f_equal.
  fold (slot_out i (spec_ctx gain s0).1). apply slot_out_same. by repeat constructor.
Qed.

(** C5: stream refinement.  From the moment vita_session_add returns a slot,
    whatever the sender is then asked to do (gain and mode changes, USB
    buffers, other sessions coming and going) until that slot is removed, the
    datagrams of the slot are exactly those of the abstract stream: a Context
    packet marked as changed before anything else; data packets numbered
    consecutively modulo 16 and stamped from their own sample count, carrying
    the buffers' octets in order; Context packets numbered consecutively
    modulo 16, with the change indicator set exactly when a field differs from
    the previous one. *)
Theorem vita_stream_refines (v v1 : Vita) (gain rate epoch id port pf : Z) (sid ip : list Z)
    (fmt : iq_format_t) (i : nat) (os : list vop) :
  vt_sock v = true -> vt_context_enabled v = true ->
  length (vt_sessions v) = MAX_VITA_SESSIONS ->
  vita_session_add gain rate epoch sid id ip port fmt pf v = (Z.of_nat i, v1) ->
  Forall (keeps i) os ->
  slot_out i (vt_out (fold_left vita_step os v1)) =
  slot_out i (vt_out v) ++
  spec_run (mkStream i id fmt ip port (u32 epoch) rate pf 0 0 None) (OContextAll gain :: os).
Proof.
  intros Hk He Hlen Hadd Ho.
  destruct (add_sim v v1 gain rate epoch id port pf sid ip fmt i Hk He Hadd) as [Hs Hout].
  assert (i < MAX_VITA_SESSIONS)%nat as Hi.
  { unfold vita_session_add in Hadd. destruct (first_free _ 0) as [j|] eqn:Ef; [|injection Hadd; lia].
    apply first_free_spec in Ef as (s & Hj & _). rewrite Nat.sub_0_r in Hj.
    apply lookup_lt_Some in Hj. injection Hadd. lia. }
  rewrite (run_sim i v1 _ os Hs Hi Ho), Hout. cbn [spec_run spec_step].
  destruct (spec_ctx gain _) as [out s']. cbn [fst snd]. by rewrite app_assoc.
Qed.

Definition sample_vita : Vita := vita_initial <| vt_sock := true |>.

Lemma vita_stream_refines_witness :
  let v1 := (vita_session_add 197 2048000 1700000000 (txt "rx-1") 1 [10; 0; 0; 2] 5000
               IQ_FMT_U8 VITA_PAYLOAD_FMT_COMPLEX sample_vita).2 in
  let os := [OBuffer (replicate 1024 127); OContextAll 197; OContextAll 207] in
  slot_out 0 (vt_out (fold_left vita_step os v1)) =
  slot_out 0 (vt_out sample_vita) ++
  spec_run (mkStream 0 1 IQ_FMT_U8 [10; 0; 0; 2] 5000 1700000000 2048000
              VITA_PAYLOAD_FMT_COMPLEX 0 0 None) (OContextAll 197 :: os).
Proof.
  cbv zeta.
  apply (vita_stream_refines sample_vita _ 197 2048000 1700000000 1 5000 VITA_PAYLOAD_FMT_COMPLEX
    (txt "rx-1") [10; 0; 0; 2] IQ_FMT_U8 0
    [OBuffer (replicate 1024 127); OContextAll 197; OContextAll 207]);
    [reflexivity..| |repeat constructor].
  vm_compute. reflexivity.
Defined.
