(* ===== verification/World.v ===== *)
(** * The state of the daemon and the handler monad

    [Session] is the struct of cp/cp_session.h; [World] collects the globals of
    the control plane, the receiver ([Rtl]) and the sender ([Vita]).  A session
    pointer is the index of its slot in the session table.  Text handed to a
    TCP socket is an entry of the log [w_out].

    A handler is a function of the world that may fail: [None] is undefined
    behaviour of the C code (an index outside of the token array, an undefined
    conversion).  What the operating system answers to the calls a handler
    makes (clocks, random source, thread creation, files) is the record [Env];
    each handler makes each of these calls at most once. *)
From Stdlib Require Import SpecFloat.
From S2P Require Import Prelude CLib Jsmn JsonText JsonTok Sha256 Auth Config Rtl Vita.
#[local] Open Scope Z_scope.

(** ** Sessions *)
Inductive SessionState : Set :=
  | SESSION_AWAIT_HELLO | SESSION_IDLE | SESSION_STREAM_OPEN | SESSION_STREAMING.

#[export] Instance session_state_eq_dec : EqDecision SessionState.
Proof. solve_decision. Defined.

Record Session := mkSession {
  ss_fd : Z;
  ss_state : SessionState;
  ss_client_ip : list Z;
  ss_owns_rx : bool;
  ss_client_name : list Z;
  ss_nonce : list Z;
  ss_nonce_hex : list Z;
  ss_nonce_valid : bool;
  ss_rx_unlocked : bool;
  ss_auth_failures : Z;
  ss_auth_window_ns : Z;
  ss_close_after_reply : bool;
  ss_stream_open : bool;
  ss_stream_id : list Z;
  ss_vita_stream_id : Z;
  ss_dest_ip : list Z;
  ss_dest_port : Z;
  ss_iq_fmt : iq_format_t;
  ss_vita_token : Z;
  ss_frequency_hz : Z;
  ss_sample_rate_sps : Z;
  ss_rf_gain_db : double
}.

#[export] Instance eta_session : Eta Session := fun s =>
  mkSession (ss_fd s) (ss_state s) (ss_client_ip s) (ss_owns_rx s) (ss_client_name s)
    (ss_nonce s) (ss_nonce_hex s) (ss_nonce_valid s) (ss_rx_unlocked s) (ss_auth_failures s)
    (ss_auth_window_ns s) (ss_close_after_reply s) (ss_stream_open s) (ss_stream_id s)
    (ss_vita_stream_id s) (ss_dest_ip s) (ss_dest_port s) (ss_iq_fmt s) (ss_vita_token s)
    (ss_frequency_hz s) (ss_sample_rate_sps s) (ss_rf_gain_db s).

(** A slot after memset to zero. *)
Definition session_zero : Session :=
  mkSession 0 SESSION_AWAIT_HELLO [0; 0; 0; 0] false [] (replicate 16 0) [] false false 0 0 false
    false [] 0 [0; 0; 0; 0] 0 IQ_FMT_INT16 0 0 0 d_zero.

#[export] Instance session_inhabited : Inhabited Session := populate session_zero.

(** ** The world *)
Record tcp := mkTcp { t_slot : nat; t_bytes : list Z }.

(** What the command line fixed before the server started. *)
Record Conf := mkConf {
  g_rx_auth : bool;
  g_keys : auth_keyring_t;
  g_device_name : list Z;
  g_vita_src_port : Z;
  g_u8_zero_point : double
}.

Record World (D : Type) := mkWorld {
  w_conf : Conf;
  w_sessions : list Session;
  w_stream_counter : Z;
  w_rx_owner : option nat;
  w_gains : option (list Z);          (* s_gains[0 .. s_ngains); None is s_ngains == -1 *)
  w_gain_default : double;
  w_rtl : Rtl D;
  w_vita : Vita;
  w_out : list tcp
}.
Arguments mkWorld {D}. Arguments w_conf {D}. Arguments w_sessions {D}.
Arguments w_stream_counter {D}. Arguments w_rx_owner {D}. Arguments w_gains {D}.
Arguments w_gain_default {D}. Arguments w_rtl {D}. Arguments w_vita {D}. Arguments w_out {D}.

#[export] Instance eta_world (D : Type) : Eta (World D) := fun w =>
  mkWorld (w_conf w) (w_sessions w) (w_stream_counter w) (w_rx_owner w) (w_gains w)
    (w_gain_default w) (w_rtl w) (w_vita w) (w_out w).

(** ** The environment of one handler call *)
Record Env := mkEnv {
  e_mono_ns : Z;                            (* clock_gettime(CLOCK_MONOTONIC) *)
  e_wall_s : Z;                             (* clock_gettime(CLOCK_REALTIME) *)
  e_wall_ns : Z;
  e_random : list rnd;                      (* getrandom *)
  e_thread_ok : bool;                       (* pthread_create == 0 *)
  e_sockname : option (list Z);             (* getsockname: the local address *)
  e_temp : option double;                   (* the number in thermal_zone0/temp *)
  e_hwmon_name : nat -> option (list Z);    (* first line of hwmon<i>/name, if it opens *)
  e_hwmon_in0 : nat -> option double;       (* the number in hwmon<i>/in0_input *)
  e_stack : sha256_t                        (* the uninitialised hash state *)
}.

(** ** The monad *)
Definition M (D A : Type) : Type := World D -> option (A * World D).

Definition ret {D A} (a : A) : M D A := fun w => Some (a, w).

Definition bind {D A B} (m : M D A) (k : A -> M D B) : M D B := fun w =>
  match m w with None => None | Some (a, w') => k a w' end.

Notation "'let*' x := m 'in' k" := (bind m (fun x => k))
  (at level 10, x binder, m at level 100, k at level 200).
Notation "m ';;;' k" := (bind m (fun _ => k)) (at level 199, right associativity).

(** Undefined behaviour when there is no value. *)
Definition lift {D A} (o : option A) : M D A := fun w =>
  match o with None => None | Some a => Some (a, w) end.

Definition get {D A} (f : World D -> A) : M D A := fun w => Some (f w, w).

Definition modify {D} (f : World D -> World D) : M D unit := fun w => Some (tt, f w).

(** The session a pointer refers to, and an update of it. *)
Definition sess {D} (w : World D) (s : nat) : Session := w_sessions w !!! s.

Definition set_sess {D} (s : nat) (f : Session -> Session) : M D unit :=
  modify (fun w => w <| w_sessions := alter f s (w_sessions w) |>).

(** A call into the receiver or the sender. *)
Definition with_rtl {D A} (f : Rtl D -> A * Rtl D) : M D A := fun w =>
  let '(a, r) := f (w_rtl w) in Some (a, w <| w_rtl := r |>).

Definition do_rtl {D} (f : Rtl D -> Rtl D) : M D unit :=
  modify (fun w => w <| w_rtl := f (w_rtl w) |>).

Definition with_vita {D A} (f : Vita -> A * Vita) : M D A := fun w =>
  let '(a, v) := f (w_vita w) in Some (a, w <| w_vita := v |>).

Definition do_vita {D} (f : Vita -> Vita) : M D unit :=
  modify (fun w => w <| w_vita := f (w_vita w) |>).

(** ** Reasoning: partial correctness triples

    [hoare P m Q]: from a world with [P], a result of [m] satisfies [Q].
    [stays P m]: [m] does not leave [P]. *)
Definition hoare {D A} (P : World D -> Prop) (m : M D A) (Q : A -> World D -> Prop) : Prop :=
  forall w a w', P w -> m w = Some (a, w') -> Q a w'.

Definition stays {D A} (P : World D -> Prop) (m : M D A) : Prop := hoare P m (fun _ => P).

(** A predicate that does not look at the log of sent messages. *)
Class Stable {D} (P : World D -> Prop) : Prop :=
  stable : forall w o, P w -> P (w <| w_out := o |>).

#[export] Instance stable_and {D} (P Q : World D -> Prop) :
  Stable P -> Stable Q -> Stable (fun w => P w /\ Q w).
Proof. intros HP HQ w o [? ?]. split; [by apply HP|by apply HQ]. Qed.

#[export] Instance stable_imp {D} (A : Prop) (Q : World D -> Prop) :
  Stable Q -> Stable (fun w => A -> Q w).
Proof. intros HQ w o H HA. by apply HQ, H. Qed.

Section Rules.
Context {D : Type}.
Implicit Types P : World D -> Prop.

Lemma h_ret {A} P (a : A) : hoare P (ret a) (fun b w => P w /\ b = a).
Proof. by intros w b w' Hw [= <- <-]. Qed.

Lemma h_lift {A} P (o : option A) : hoare P (lift o) (fun a w => P w /\ o = Some a).
Proof. intros w b w' Hw. unfold lift. destruct o; [by intros [= <- <-]|done]. Qed.

Lemma h_get {A} P (f : World D -> A) : hoare P (get f) (fun a w => P w /\ a = f w).
Proof. by intros w b w' Hw [= <- <-]. Qed.

Lemma h_modify P (f : World D -> World D) (Q : World D -> Prop) :
  (forall w, P w -> Q (f w)) -> hoare P (modify f) (fun _ => Q).
Proof. intros H w b w' Hw [= <- <-]. by apply H. Qed.

Lemma h_bind {A B} P (m : M D A) (k : A -> M D B) Q R :
  hoare P m Q -> (forall a, hoare (Q a) (k a) R) -> hoare P (bind m k) R.
Proof.
  intros Hm Hk w b w' Hw H. unfold bind in H. destruct (m w) as [[a w1]|] eqn:E; [|done].
  eapply Hk; [|exact H]. by eapply Hm.
Qed.

Lemma h_stay {A B} P (m : M D A) (k : A -> M D B) R :
  stays P m -> (forall a, hoare P (k a) R) -> hoare P (bind m k) R.
Proof. intros Hm. by apply h_bind. Qed.

Lemma h_then {A B} P P' (m : M D A) (k : M D B) R :
  hoare P m (fun _ => P') -> hoare P' k R -> hoare P (bind m (fun _ => k)) R.
Proof. intros Hm Hk. by eapply h_bind. Qed.

Lemma h_seq {A B C} P (m : M D A) (m2 : M D B) (k : B -> M D C) R :
  hoare P (bind (bind m (fun _ => m2)) k) R -> hoare P (bind m (fun _ => bind m2 k)) R.
Proof.
  intros H w c w' Hw E. apply (H w c w' Hw). revert E. unfold bind.
  by destruct (m w) as [[? ?]|].
Qed.

Lemma h_get_bind {A B} P (f : World D -> A) (k : A -> M D B) R :
  (forall a, hoare (fun w => P w /\ a = f w) (k a) R) -> hoare P (bind (get f) k) R.
Proof. apply h_bind, h_get. Qed.

Lemma h_conseq {A} P P' (m : M D A) (Q Q' : A -> World D -> Prop) :
  hoare P' m Q' -> (forall w, P w -> P' w) -> (forall a w, Q' a w -> Q a w) -> hoare P m Q.
Proof. intros H HP HQ w a w' Hw E. apply HQ. eapply H; [|done]. by apply HP. Qed.

Lemma h_pre {A} P P' (m : M D A) (Q : A -> World D -> Prop) :
  (forall w, P w -> P' w) -> hoare P' m Q -> hoare P m Q.
Proof. intros HP H. eapply h_conseq; eauto. Qed.

Lemma h_post {A} P (m : M D A) (Q Q' : A -> World D -> Prop) :
  hoare P m Q' -> (forall a w, Q' a w -> Q a w) -> hoare P m Q.
Proof. intros H HQ. eapply h_conseq; eauto. Qed.

Lemma h_absurd {A} P (m : M D A) (Q : A -> World D -> Prop) :
  (forall w, P w -> False) -> hoare P m Q.
Proof. intros H w a w' Hw. by destruct (H w). Qed.

Lemma h_fact {A} P (F : Prop) (m : M D A) (Q : A -> World D -> Prop) :
  (forall w, P w -> F) -> (F -> hoare P m Q) -> hoare P m Q.
Proof. intros H Hm w a w' Hw. apply Hm; [by eapply H|done]. Qed.

Lemma s_ret {A} P (a : A) : stays P (ret a).
Proof. by intros w b w' Hw [= <- <-]. Qed.

Lemma s_lift {A} P (o : option A) : stays P (lift o).
Proof. intros w b w' Hw. unfold lift. destruct o; [by intros [= <- <-]|done]. Qed.

Lemma s_get {A} P (f : World D -> A) : stays P (get f).
Proof. by intros w b w' Hw [= <- <-]. Qed.

Lemma s_modify P (f : World D -> World D) : (forall w, P w -> P (f w)) -> stays P (modify f).
Proof. apply h_modify. Qed.
End Rules.

Create HintDb quiet discriminated.
#[export] Hint Constants Opaque : quiet.
#[export] Hint Resolve s_ret s_lift s_get : quiet.
#[export] Hint Extern 1 (Stable _) => typeclasses eauto : quiet.

(** Walk through a computation whose parts leave the precondition alone. *)
Ltac hleaf :=
  lazymatch goal with
  | |- stays _ _ => solve [eauto 3 with quiet nocore]
  | |- hoare ?P ?m (fun _ => ?P) => change (stays P m); solve [eauto 3 with quiet nocore]
  end.

Ltac hwalk :=
  lazymatch goal with
  | |- stays _ (bind _ _) =>
      eapply h_stay; [first [hleaf|solve [repeat first [hleaf|hwalk]]]|intros ?]; cbv beta
  | |- hoare _ (bind _ _) _ =>
      eapply h_stay; [first [hleaf|solve [repeat first [hleaf|hwalk]]]|intros ?]; cbv beta
  | |- stays _ (match ?x with _ => _ end) => destruct x eqn:?
  | |- hoare _ (match ?x with _ => _ end) _ => destruct x eqn:?
  end.

Ltac hquiet := repeat first [hleaf | hwalk].

(** Forget what a [get] told about the world. *)
Ltac hforget :=
  lazymatch goal with
  | |- hoare _ _ (fun _ => ?Q) => apply (h_pre _ Q); [intros ? ?; tauto|]
  end.
