(* ===== verification/Session.v ===== *)
(** * Sessions: cp/cp_session.c

    Framing on the control connection, stream identifiers, ownership of the rx
    channel, event broadcast, and the life cycle of a session.  The command
    loop is in Server.v. *)
From Stdlib Require Import SpecFloat.
From S2P Require Import Prelude CLib Jsmn JsonText JsonTok Sha256 Auth Config Rtl Vita World.
#[local] Open Scope Z_scope.

(** ** Framing *)

(** [recv_exact]: the octets arrive in segments; a call of recv returns at
    most what it is asked for and at most one segment, and 0 at the end of
    the stream.  The result is the octets and what is still to arrive. *)
Fixpoint recv_exact (fuel n : nat) (segs : list (list Z)) : option (list Z * list (list Z)) :=
  match n, fuel with
  | O, _ => Some ([], segs)
  | _, O => None
  | S _, S f =>
      match segs with
      | [] | [] :: _ => None
      | seg :: segs' =>
          let got := take n seg in
          let rest := drop n seg in
          match recv_exact f (n - length got)
                  (match rest with [] => segs' | _ => rest :: segs' end) with
          | None => None
          | Some (l, r) => Some (got ++ l, r)
          end
      end
  end.

(** The sending loop: [accepts] is what the calls of send return, in order;
    no entry, or one that is not positive, is an error. *)
Fixpoint send_loop (accepts : list Z) (data : list Z) : Z * list Z :=
  match data with
  | [] => (0, [])
  | _ =>
      match accepts with
      | [] => (-1, [])
      | r :: rs =>
          if r <=? 0 then (-1, [])
          else
            let n := Z.to_nat r in
            let '(rc, sent) := send_loop rs (drop n data) in
            (rc, take n data ++ sent)
      end
  end.

(** The octets that reach the connection, with the result of send_framed;
    [hdr] is what the send of the length prefix returns. *)
Definition send_frame (hdr : Z) (accepts : list Z) (json : list Z) : Z * list Z :=
  let len_net := be32 (u32 (Z.of_nat (length json))) in
  if negb (hdr =? 4) then (-1, take (Z.to_nat hdr) len_net)
  else
    let '(rc, sent) := send_loop accepts json in
    (rc, len_net ++ sent).

(** The frame reader of the command loop: length prefix, check, payload. *)
Definition recv_frame (segs : list (list Z)) : option (list Z * list (list Z)) :=
  match recv_exact 4 4 segs with
  | None => None
  | Some (h, segs1) =>
      let len := of_be h in
      if (len =? 0) || (MAX_MSG_BYTES <? len) then None
      else recv_exact (Z.to_nat len) (Z.to_nat len) segs1
  end.

(** An identifier of a stream as text. *)
Definition stream_name (n : Z) : list Z := snprintf 32 (txt "rx-" ++ fmt_u n).

Section Session.
Context {D : Type} {P : Platform D}.

(** The whole frame is handed to the socket of the slot; every caller ignores
    the result. *)
Definition send_framed (s : nat) (json : list Z) : M D unit :=
  modify (fun w =>
    if ss_fd (sess w s) <=? 0 then w
    else w <| w_out := w_out w ++
                [mkTcp s (be32 (u32 (Z.of_nat (length json))) ++ json)] |>).

(** ** Stream identifiers *)
Definition alloc_stream_id (s : nat) : M D unit :=
  modify (fun w => w <| w_stream_counter := u32 (w_stream_counter w + 1) |>) ;;;
  let* n := get w_stream_counter in
  set_sess s (fun x => x <| ss_stream_id := stream_name n |> <| ss_vita_stream_id := n |>).

(** ** Events *)
Definition event_text (event params : list Z) : list Z :=
  snprintf 512 (jq "{'type':'event','event':'" ++ event ++ jq "','params':" ++ params ++ jq "}").

Definition hears (skip : option nat) (w : World D) (i : nat) : bool :=
  (0 <? ss_fd (sess w i)) && negb (bool_decide (skip = Some i))
  && negb (bool_decide (ss_state (sess w i) = SESSION_AWAIT_HELLO)).

Fixpoint broadcast_loop (n i : nat) (skip : option nat) (buf : list Z) : M D unit :=
  match n with
  | O => ret tt
  | S n' =>
      let* h := get (fun w => hears skip w i) in
      (if h then send_framed i buf else ret tt) ;;;
      broadcast_loop n' (S i) skip buf
  end.

Definition broadcast (skip : option nat) (event params : list Z) : M D unit :=
  broadcast_loop MAX_SESSIONS 0 skip (event_text event params).

Definition cp_broadcast_event (event params : list Z) : M D unit := broadcast None event params.

Definition cp_broadcast_event_except (s : nat) (event params : list Z) : M D unit :=
  broadcast (Some s) event params.

(** The identifier of the first streaming session. *)
Fixpoint streaming_id (l : list Session) : list Z :=
  match l with
  | [] => []
  | x :: l' =>
      if (0 <? ss_fd x) && bool_decide (ss_state x = SESSION_STREAMING)
      then snprintf 32 (ss_stream_id x) else streaming_id l'
  end.

Definition cp_on_adc_overload (dbfs : double) : M D unit :=
  let* sid := get (fun w => streaming_id (w_sessions w)) in
  cp_broadcast_event (txt "adc_overload")
    (snprintf 224 (jq "{'stream_id':'" ++ sid ++ jq "','function':'rx','adc_level_dbfs':"
       ++ fmt_f 1 dbfs ++ jq ",'suggested_action':'reduce_rf_gain'}")).

(** ** Ownership of the rx channel *)
Definition cp_rx_claim (s : nat) : M D bool :=
  let* o := get w_rx_owner in
  if bool_decide (o = None) || bool_decide (o = Some s) then
    modify (fun w => w <| w_rx_owner := Some s |>) ;;;
    set_sess s (fun x => x <| ss_owns_rx := true |>) ;;;
    ret true
  else ret false.

Definition cp_rx_release (s : nat) : M D unit :=
  let* o := get w_rx_owner in
  let released := bool_decide (o = Some s) in
  modify (fun w => if released then w <| w_rx_owner := None |> else w) ;;;
  set_sess s (fun x => x <| ss_owns_rx := false |>) ;;;
  if released
  then cp_broadcast_event_except s (txt "control_revoked")
         (jq "{'function':'rx','control_state':'free'}")
  else ret tt.

Definition cp_rx_owned_by_other (s : nat) : M D bool :=
  get (fun w => negb (bool_decide (w_rx_owner w = None))
                && negb (bool_decide (w_rx_owner w = Some s))).

Definition cp_rx_control_state (s : nat) : M D (list Z) :=
  get (fun w => if decide (w_rx_owner w = None) then txt "free"
                else if decide (w_rx_owner w = Some s) then txt "owned_by_me"
                else txt "owned_by_other").

(** ** Life cycle *)
Fixpoint free_slot (l : list Session) (i : nat) : option nat :=
  match l with
  | [] => None
  | x :: l' => if ss_fd x =? 0 then Some i else free_slot l' (S i)
  end.

Definition session_create (fd : Z) (client_ip : list Z) : M D (option nat) :=
  let* r := get (fun w => free_slot (w_sessions w) 0) in
  match r with
  | None => ret None
  | Some i =>
      let* gain := get (fun w => g_gain_tenth_db (w_rtl w)) in
      set_sess i (fun _ =>
        session_zero <| ss_fd := fd |> <| ss_client_ip := client_ip |>
          <| ss_state := SESSION_AWAIT_HELLO |> <| ss_owns_rx := false |>
          <| ss_vita_token := -1 |> <| ss_frequency_hz := RTL_DEFAULT_FREQ |>
          <| ss_sample_rate_sps := RTL_DEFAULT_RATE_NORMAL |>
          <| ss_rf_gain_db := tenth gain |>) ;;;
      ret (Some i)
  end.

(** [if (s->vita_token >= 0) { remove; token = -1 }], in three places. *)
Definition drop_vita (s : nat) : M D unit :=
  let* t := get (fun w => ss_vita_token (sess w s)) in
  if 0 <=? t then
    do_vita (vita_session_remove t) ;;;
    set_sess s (fun x => x <| ss_vita_token := -1 |>)
  else ret tt.

Definition stream_event (sid : list Z) (streaming : bool) (reason : list Z) : list Z :=
  snprintf 192 (jq "{'stream_id':'" ++ sid ++ jq "','streaming':"
    ++ (if streaming then txt "true" else txt "false")
    ++ jq ",'function':'rx','reason':'" ++ reason ++ jq "'}").

Definition session_destroy (s : nat) : M D unit :=
  drop_vita s ;;;
  let* x := get (fun w => sess w s) in
  (if decide (ss_state x = SESSION_STREAMING) then
     do_rtl rtl_bridge_stop ;;;
     do_rtl rtl_reset_adc_level ;;;
     cp_broadcast_event_except s (txt "stream_state")
       (stream_event (ss_stream_id x) false (txt "control_lost"))
   else ret tt) ;;;
  cp_rx_release s ;;;
  let* r := get w_rtl in
  (if g_bias_tee_enabled r && negb (g_bias_tee_persist r)
   then let* _ := with_rtl (rtl_set_bias_tee d_zero) in ret tt
   else ret tt) ;;;
  set_sess s (fun _ => session_zero).
End Session.

(** ** Framing: what arrives is what was sent *)
Lemma recv_exact_spec (fuel n : nat) (segs : list (list Z)) (l more : list Z) :
  (n <= fuel)%nat -> Forall (fun s => s <> []) segs ->
  mjoin segs = l ++ more -> length l = n ->
  exists rest, recv_exact fuel n segs = Some (l, rest) /\ mjoin rest = more /\
    Forall (fun s => s <> []) rest.
Proof.
  revert n segs l. induction fuel as [|f IH]; intros n segs l Hf Hs Hj Hl.
  { destruct n, l; cbn in *; try lia. eauto. }
  destruct n as [|n]; [destruct l; [|done]; cbn; eauto|].
  destruct Hs as [|seg segs Hseg Hs]; [destruct l; done|].
  change (mjoin (seg :: segs)) with (seg ++ mjoin segs) in Hj.
  cbn [recv_exact]. destruct seg as [|c seg]; [done|]. set (s := c :: seg) in *.
  set (got := take (S n) s). set (rest := drop (S n) s).
  assert (1 <= length got <= S n)%nat as Hgot
    by (unfold got; rewrite length_take; unfold s; cbn [length]; lia).
  assert (got = take (length got) l) as Eg.
  { assert (s ++ mjoin segs = got ++ rest ++ mjoin segs) as E
      by (unfold got, rest; by rewrite app_assoc, take_drop).
    rewrite E in Hj. apply (f_equal (take (length got))) in Hj.
    rewrite take_app_length in Hj. rewrite Hj at 1. rewrite take_app_le by lia. done. }
  assert (mjoin (match rest with [] => segs | _ => rest :: segs end) =
          drop (length got) l ++ more) as Hj'.
  { assert (mjoin (match rest with [] => segs | _ => rest :: segs end) = rest ++ mjoin segs) as ->
      by (by destruct rest).
    assert (s ++ mjoin segs = got ++ rest ++ mjoin segs) as E
      by (unfold got, rest; by rewrite app_assoc, take_drop).
    rewrite E in Hj. apply (f_equal (drop (length got))) in Hj.
    rewrite drop_app_length in Hj. rewrite Hj, drop_app_le by lia. done. }
  assert (Forall (fun x => x <> []) (match rest with [] => segs | _ => rest :: segs end)) as Hs'
    by (destruct rest; by repeat constructor).
  destruct (IH (S n - length got)%nat _ (drop (length got) l) ltac:(lia) Hs' Hj'
    ltac:(rewrite length_drop; lia)) as (r & -> & Hr & Hne).
  exists r. rewrite Eg at 1. by rewrite take_drop.
Qed.

Lemma send_loop_ok (accepts data sent : list Z) :
  send_loop accepts data = (0, sent) -> sent = data.
Proof.
  revert data sent. induction accepts as [|r rs IH]; intros data sent; destruct data as [|c data];
    cbn [send_loop]; try (by intros [= <-]).
  destruct (Z.leb_spec r 0); [done|].
  destruct (send_loop rs _) as [rc s] eqn:E. intros [= -> <-]. apply IH in E as ->. apply take_drop.
Qed.

Lemma be32_inj_len (json : list Z) :
  Z.of_nat (length json) < 2 ^ 32 ->
  of_be (be32 (u32 (Z.of_nat (length json)))) = Z.of_nat (length json).
Proof. intros H. rewrite of_be_be32, (u32_small (Z.of_nat _)), u32_small; lia. Qed.

(** C30: framing round trip.  If send_framed succeeds on a message of 1 to
    65536 octets, however the kernel split its calls, then a peer that runs the
    daemon's own frame reader on the octets, cut into any non-empty segments
    and followed by anything, gets exactly the message and is left at the first
    octet behind it. *)
Theorem frame_roundtrip (hdr : Z) (accepts json wire more : list Z) (segs : list (list Z)) :
  send_frame hdr accepts json = (0, wire) ->
  0 < Z.of_nat (length json) <= MAX_MSG_BYTES ->
  Forall (fun s => s <> []) segs -> mjoin segs = wire ++ more ->
  exists rest, recv_frame segs = Some (json, rest) /\ mjoin rest = more.
Proof.
  intros Hsend Hlen Hs Hj. unfold MAX_MSG_BYTES in Hlen. unfold send_frame in Hsend.
  destruct (Z.eqb_spec hdr 4); [|done]. cbn [negb] in Hsend.
  destruct (send_loop accepts json) as [rc sent] eqn:E. apply pair_equal_spec in Hsend as [-> <-].
  apply send_loop_ok in E as ->. rewrite <- app_assoc in Hj. unfold recv_frame.
  destruct (recv_exact_spec 4 4 segs _ _ (le_n _) Hs Hj (be32_length _)) as (r1 & -> & Hj1 & Hs1).
  rewrite be32_inj_len by lia. rewrite (proj2 (Z.eqb_neq _ 0)) by lia.
  unfold MAX_MSG_BYTES. rewrite (proj2 (Z.ltb_ge 65536 _)) by lia. cbn [orb]. rewrite Nat2Z.id.
  destruct (recv_exact_spec (length json) (length json) r1 json more (le_n _) Hs1 Hj1 eq_refl)
    as (r2 & -> & Hj2 & _). eauto.
Qed.

Lemma frame_roundtrip_witness :
  exists rest, recv_frame [[0; 0]; [0; 2; 123]; [125; 0]] = Some ([123; 125], rest) /\
    mjoin rest = [0].
Proof.
  apply (frame_roundtrip 4 [1; 5] [123; 125] [0; 0; 0; 2; 123; 125] [0]
    [[0; 0]; [0; 2; 123]; [125; 0]]).
  - vm_compute. reflexivity.
  - vm_compute. split; [reflexivity|discriminate].
  - repeat constructor; discriminate.
  - reflexivity.
Defined.
