(* ===== verification/Commands.v ===== *)
(** * Command handlers: cp/cp_commands.c

    One definition per handler, written in the order of the source, with an
    early return as the other branch of its test.  [js] is the message buffer,
    [t] the token array, [s] the slot of the session, [id] the request id.
    JSON templates are written with [jq]. *)
From Stdlib Require Import SpecFloat.
From S2P Require Import Prelude CLib Jsmn JsonText JsonTok Sha256 Auth JsonEscape Config Rtl Vita World Session.
#[local] Open Scope Z_scope.

(** ** Wall clock *)

(** gmtime_r: the civil date of a day number since 1970-01-01. *)
Definition civil (days : Z) : Z * Z * Z :=
  let z := days + 719468 in
  let era := z / 146097 in
  let doe := z mod 146097 in
  let yoe := (doe - doe / 1460 + doe / 36524 - doe / 146096) / 365 in
  let doy := doe - (365 * yoe + yoe / 4 - yoe / 100) in
  let mp := (5 * doy + 2) / 153 in
  let d := doy - (153 * mp + 2) / 5 + 1 in
  let m := if mp <? 10 then mp + 3 else mp - 9 in
  (yoe + era * 400 + (if m <=? 2 then 1 else 0), m, d).

Definition utc_now (e : Env) : list Z * Z :=
  let '(y, m, d) := civil (e_wall_s e / 86400) in
  let sod := e_wall_s e mod 86400 in
  let stamp := fmt_d y ++ txt "-" ++ fmt_0 2 m ++ txt "-" ++ fmt_0 2 d ++ txt "T"
               ++ fmt_0 2 (sod / 3600) ++ txt ":" ++ fmt_0 2 (sod / 60 mod 60) ++ txt ":"
               ++ fmt_0 2 (sod mod 60) in
  (snprintf 40 (stamp ++ txt "." ++ fmt_0 3 (e_wall_ns e / 1000000) ++ txt "Z"), e_wall_s e).

(** ** Responses *)
Definition esc_char (c : Z) : list Z :=
  if c =? 34 then [92; 34]
  else if c =? 92 then [92; 92]
  else if c =? 10 then [92; 110]
  else if c =? 13 then [92; 114]
  else if c =? 9 then [92; 116]
  else if c =? 8 then [92; 98]
  else if c =? 12 then [92; 102]
  else if c <? 32 then [92; 117; 48; 48; hx (c / 16); hx (c mod 16)]
  else [c].

Fixpoint escape_loop (cap : nat) (s out : list Z) : list Z :=
  match s with
  | [] => out
  | c :: s' =>
      let e := esc_char c in
      if (cap <=? length out + length e)%nat then out else escape_loop cap s' (out ++ e)
  end.

Definition json_escape (s : list Z) (cap : nat) : list Z := escape_loop cap s [].

Definition ok_text (id result : list Z) : list Z :=
  snprintf (Z.to_nat MAX_MSG_BYTES)
    (jq "{'type':'response','id':'" ++ json_escape id 288 ++ jq "','status':'ok','result':"
     ++ result ++ jq "}").

Definition error_text (id code message : list Z) : list Z :=
  snprintf 1024
    (jq "{'type':'response','id':'" ++ json_escape id 288
     ++ jq "','status':'error','error':{'code':'" ++ code ++ jq "','message':'"
     ++ json_escape message 512 ++ jq "'}}").

(** ** Monitors *)
Definition in_range (lo hi : Z) (x : option double) : option double :=
  match x with
  | Some v => if d_lt (d_of_Z lo) v && d_lt v (d_of_Z hi) then Some v else None
  | None => None
  end.

Definition read_sysfs_number (v : option double) : option double :=
  (fun x => d_mul x (d_dec 1 (-3))) <$> v.

Definition read_board_temperature (e : Env) : option double :=
  in_range (-40) 150 (read_sysfs_number (e_temp e)).

Fixpoint supply_loop (n i : nat) (e : Env) : option double :=
  match n with
  | O => None
  | S n' =>
      match e_hwmon_name e i with
      | None => supply_loop n' (S i) e
      | Some name =>
          if negb (streq (take 8 name) (txt "rpi_volt")) then supply_loop n' (S i) e
          else
            match read_sysfs_number (e_hwmon_in0 e i) with
            | Some v => in_range 0 30 (Some v)
            | None => supply_loop n' (S i) e
            end
      end
  end.

Definition read_supply_voltage (e : Env) : option double := supply_loop 16 0 e.

Definition fmt_nullable (v : option double) : list Z :=
  match v with Some x => snprintf 24 (fmt_f 1 x) | None => txt "null" end.

(** A comma-separated list between brackets, built with strncat. *)
Fixpoint cat_list (cap : nat) (items : list (list Z)) (first : bool) (acc : list Z) : list Z :=
  match items with
  | [] => strncat_cap cap acc (txt "]")
  | x :: l =>
      cat_list cap l false
        (strncat_cap cap acc (snprintf 16 ((if first then [] else txt ",") ++ x)))
  end.

Definition nearest_gain (l : list Z) (best : Z) : Z :=
  fold_left (fun b g => if Z.abs (g - RTL_DEFAULT_GAIN) <? Z.abs (b - RTL_DEFAULT_GAIN)
                        then g else b) l best.

Definition tf (b : bool) : list Z := if b then txt "true" else txt "false".

Section Commands.
Context {D : Type} {P : Platform D} (e : Env).

Definition send_ok (s : nat) (id result : list Z) : M D unit := send_framed s (ok_text id result).

Definition send_error (s : nat) (id : list Z) (code : string) (message : list Z) : M D unit :=
  send_framed s (error_text id (txt code) message).

Definition send_event (s : nat) (event params : list Z) : M D unit :=
  send_framed s (event_text event params).

(** ** Parameters *)
Definition find (js : list Z) (t : list jsmntok_t) (obj : Z) (key : string) : M D Z :=
  lift (tok_find_key js t (Z.to_nat obj) (txt key)).

Definition find_if (js : list Z) (t : list jsmntok_t) (obj : Z) (key : string) : M D Z :=
  if 0 <=? obj then find js t obj key else ret (-1).

Definition tok (t : list jsmntok_t) (i : Z) : M D jsmntok_t := lift (t !! Z.to_nat i).

Definition find_params (js : list Z) (t : list jsmntok_t) : M D Z := find js t 0 "params".

Definition require_function (s : nat) (id js : list Z) (t : list jsmntok_t) : M D Z :=
  let* p := find_params js t in
  if p <? 0 then send_error s id "missing_parameter" (txt "params required") ;;; ret (-1)
  else
    let* f := find js t p "function" in
    if f <? 0 then
      let* d := find js t p "direction" in
      (if 0 <=? d
       then send_error s id "missing_parameter"
              (txt "function required (Release 1.2 renamed direction to function; see SDR-SLC-CP-1.0 12.1)")
       else send_error s id "missing_parameter" (txt "function required")) ;;;
      ret (-1)
    else
      let* ft := tok t f in
      if tok_eq js ft (txt "rx") then ret p
      else
        send_error s id "not_supported" (txt "This device implements the rx function block only") ;;;
        ret (-1).

Definition channel_ok (s : nat) (id js : list Z) (t : list jsmntok_t) (p : Z) : M D bool :=
  let* c := find js t p "channel" in
  if c <? 0 then ret true
  else
    send_error s id "invalid_parameter"
      (txt "This device has a single signal path and publishes no channels; omit the channel parameter") ;;;
    ret false.

Definition may_configure (s : nat) (id : list Z) : M D bool :=
  let* other := cp_rx_owned_by_other s in
  if negb other then ret true
  else send_error s id "in_use" (txt "The rx channel is held by another client") ;;; ret false.

(** ** Capabilities *)
Definition load_gain_table : M D unit :=
  let* g := get w_gains in
  match g with
  | Some _ => ret tt
  | None =>
      let* r := get w_rtl in
      let* l := lift (rtl_get_gain_list r) in
      match l with
      | [] => modify (fun w => w <| w_gains := Some [] |>
                                 <| w_gain_default := tenth RTL_DEFAULT_GAIN |>)
      | g0 :: rest => modify (fun w => w <| w_gains := Some l |>
                                         <| w_gain_default := tenth (nearest_gain rest g0) |>)
      end
  end.

Definition cp_default_gain_db : M D double := load_gain_table ;;; get w_gain_default.

(** The gains table, once loaded. *)
Definition gains {D'} (w : World D') : list Z := default [] (w_gains w).

Definition controls_json (gs : list Z) (pref : double) : list Z :=
  let gain_min := match gs with [] => d_zero | g :: _ => tenth g end in
  let gain_max := match rev gs with [] => d_dec 496 (-1) | g :: _ => tenth g end in
  let bt := fmt_f 1 RTL_BIAS_TEE_VOLTS in
  snprintf 1200
    (jq "[{'name':'rf_gain','type':'float','unit':'dB','min':" ++ fmt_f 1 gain_min
     ++ jq ",'max':" ++ fmt_f 1 gain_max ++ jq ",'default':" ++ fmt_f 1 pref
     ++ jq ",'allowed_values':" ++ cat_list 400 (fmt_f 1 <$> (tenth <$> gs)) true (txt "[")
     ++ jq "},{'name':'agc','type':'boolean','default':false},"
     ++ jq "{'name':'bias_tee','type':'float','unit':'V','min':0.0,'max':" ++ bt
     ++ jq ",'step':" ++ bt ++ jq ",'default':0.0,'allowed_values':[0.0," ++ bt
     ++ jq "]},{'name':'ppm_correction','type':'integer','min':-100,'max':100,'step':1,'default':0},"
     ++ jq "{'name':'direct_sampling','type':'enum','values':['off','i_branch','q_branch'],'default':'off'}]").

Definition capabilities_json (c : Conf) (r : Rtl D) (gs : list Z) (pref : double) : list Z :=
  snprintf (Z.to_nat 6144)
    (jq "{'schema':'sdrslc.capabilities','schema_version':" ++ fmt_d CAP_SCHEMA_VERSION
     ++ jq ",'rx':{'tier':" ++ fmt_d RX_TIER ++ jq ",'access':'exclusive','auth':'"
     ++ (if g_rx_auth c then AUTH_METHOD_PSK else txt "none")
     ++ jq "','frequency_ranges_hz':[{'min':" ++ fmt_u (rtl_freq_min r)
     ++ jq ",'max':" ++ fmt_u (rtl_freq_max r)
     ++ jq "}],'sample_rates_sps':" ++ cat_list 160 (fmt_u <$> rtl_rate_list r) true (txt "[")
     ++ jq ",'preferred_sample_rate_sps':" ++ fmt_u (rtl_preferred_rate r)
     ++ jq ",'preferred_gain_db':" ++ fmt_f 1 pref
     ++ jq ",'reference_level_dbm_at_preferred_gain':" ++ fmt_f 1 (rtl_reference_level_dbm pref)
     ++ jq ",'reference_level_accuracy_db':" ++ fmt_f 1 RTL_REF_LEVEL_ACCURACY_DB
     ++ jq ",'transports':[{'protocol':'vita49','protocol_version':'VITA-A/1.0','source_port':"
     ++ fmt_d (g_vita_src_port c) ++ jq ",'samples_per_packet':" ++ fmt_u (g_samples_per_pkt r)
     ++ jq "}],'iq_formats':[{'encoding':'unsigned','bits_per_component':8,'container_bits':8,"
     ++ jq "'packing':'interleaved','byte_order':'big_endian','zero_point':"
     ++ fmt_f 2 (g_u8_zero_point c)
     ++ jq ",'native':true,'supported':true,'label':'u8'}],'controls':" ++ controls_json gs pref
     ++ jq "}}").

Definition build_capabilities_json : M D (list Z) :=
  load_gain_table ;;;
  get (fun w => capabilities_json (w_conf w) (w_rtl w) (gains w) (w_gain_default w)).

(** ** hello *)

(** The loop over the offered versions: is "1.0" among them, is a release
    number. *)
Fixpoint versions_loop (n : nat) (js : list Z) (t : list jsmntok_t) (vi : nat)
    (supports offered : bool) : option (bool * bool) :=
  match n with
  | O => Some (supports, offered)
  | S n' =>
      match t !! vi with
      | None => None
      | Some tk =>
          let sup := tok_eq js tk PROTO_VERSION in
          let rel := negb sup && (tok_eq js tk (txt "1.1") || tok_eq js tk (txt "1.2")
                                  || tok_eq js tk (txt "1.3")) in
          match skip_loop (length t) t (tk_size tk) (S vi) with
          | None => None
          | Some vi' => versions_loop n' js t vi' (supports || sup) (offered || rel)
          end
      end
  end.

Definition auth_object (s : nat) : M D (list Z) :=
  let* c := get w_conf in
  if g_rx_auth c then
    let* x := get (fun w => sess w s) in
    let '(ok, raw, hex) := auth_make_nonce (e_random e) (ss_nonce x) (ss_nonce_hex x) in
    let hex' := if ok then hex else [] in
    set_sess s (fun x => x <| ss_nonce := raw |> <| ss_nonce_hex := hex' |>
                           <| ss_nonce_valid := ok |>) ;;;
    ret (snprintf 160 (jq ",'auth':{'methods':['" ++ AUTH_METHOD_PSK ++ jq "'],'nonce':'"
                       ++ hex' ++ jq "'}"))
  else ret [].

Definition cmd_hello (s : nat) (id : list Z) (t : list jsmntok_t) (js : list Z) : M D unit :=
  let* p := find_params js t in
  if p <? 0 then send_error s id "missing_parameter" (txt "params required")
  else
    let* vers := find js t p "supported_protocol_versions" in
    let* vt := (if vers <? 0 then ret None else let* x := tok t vers in ret (Some x)) in
    match vt with
    | Some vt =>
      if negb (bool_decide (tk_type vt = JSMN_ARRAY)) then
        send_error s id "missing_parameter"
          (jq "hello requires supported_protocol_versions, an array of version strings such as ['1.0']")
      else
        let* r := lift (versions_loop (Z.to_nat (tk_size vt)) js t (S (Z.to_nat vers)) false false) in
        let '(supports, offered_release) := r in
        if negb supports then
          send_error s id "unsupported_protocol_version"
            (if offered_release : bool
             then jq "No common protocol version: this device speaks '1.0'. Release numbers (1.1, 1.2, 1.3) are document revisions, not protocol versions (SDR-SLC-CP-1.0 10.1)"
             else jq "No common protocol version; this device speaks '1.0'")
        else
          let* cn := find js t p "client_name" in
          let* name := (if 0 <=? cn then let* x := tok t cn in ret (tok_str js x 48)
                        else ret (txt "(unnamed)")) in
          set_sess s (fun x => x <| ss_client_name := name |> <| ss_state := SESSION_IDLE |>) ;;;
          let* auth_obj := auth_object s in
          let* c := get w_conf in
          send_ok s id
            (snprintf 800
               (jq "{'protocol_name':'" ++ PROTO_NAME ++ jq "','selected_protocol_version':'"
                ++ PROTO_VERSION ++ jq "','device_name':'" ++ g_device_name c
                ++ jq "','manufacturer':'" ++ MANUFACTURER ++ jq "','model':'" ++ MODEL_NAME
                ++ jq "','hardware_revision':'" ++ HW_REVISION ++ jq "','firmware_version':'"
                ++ SLC_FW_STRING ++ jq "'" ++ auth_obj ++ jq "}"))
    | None =>
        send_error s id "missing_parameter"
          (jq "hello requires supported_protocol_versions, an array of version strings such as ['1.0']")
    end.

(** ** authenticate *)
Definition AUTH_MAX_FAILURES : Z := 10.
Definition AUTH_WINDOW_NS : Z := 60000000000.

Definition auth_failed_text (id details : list Z) : list Z :=
  snprintf 640
    (jq "{'type':'response','id':'" ++ json_escape id 288
     ++ jq "','status':'error','error':{'code':'auth_failed','message':'authentication was rejected','details':"
     ++ details ++ jq "}}").

(** The failure path: count, new nonce, reply, and the close request. *)
Definition auth_refused (s : nat) (id : list Z) : M D unit :=
  set_sess s (fun x => x <| ss_auth_failures := u32 (ss_auth_failures x + 1) |>) ;;;
  let* x := get (fun w => sess w s) in
  let '(ok, raw, hex) := auth_make_nonce (e_random e) (ss_nonce x) (ss_nonce_hex x) in
  set_sess s (fun x => x <| ss_nonce := raw |> <| ss_nonce_hex := hex |>
                         <| ss_nonce_valid := ok |>) ;;;
  let details := if ok : bool then snprintf 96 (jq "{'nonce':'" ++ hex ++ jq "'}") else txt "{}" in
  send_framed s (auth_failed_text id details) ;;;
  let* x := get (fun w => sess w s) in
  if AUTH_MAX_FAILURES <=? ss_auth_failures x
  then set_sess s (fun x => x <| ss_close_after_reply := true |>)
  else ret tt.

Definition cmd_authenticate (s : nat) (id : list Z) (t : list jsmntok_t) (js : list Z) : M D unit :=
  let* c := get w_conf in
  if negb (g_rx_auth c) then send_ok s id (jq "{'authenticated':true,'functions':[]}")
  else
    let* p := find_params js t in
    let* mi := find_if js t p "method" in
    let* ki := find_if js t p "key_id" in
    let* ri := find_if js t p "response" in
    if (mi <? 0) || (ri <? 0) then
      send_error s id "missing_parameter"
        (jq "authenticate requires 'method' and 'response'; 'key_id' defaults to 'default'")
    else
      let* mt := tok t mi in
      let* rt := tok t ri in
      let method := tok_str js mt 48 in
      let resp := tok_str js rt 80 in
      let* kid := (if 0 <=? ki then let* kt := tok t ki in ret (tok_str js kt AUTH_KEY_ID_MAX)
                   else ret (txt "default")) in
      let now := u64 (e_mono_ns e) in
      set_sess s (fun x =>
        if AUTH_WINDOW_NS <? u64 (now - ss_auth_window_ns x)
        then x <| ss_auth_window_ns := now |> <| ss_auth_failures := 0 |> else x) ;;;
      let* x := get (fun w => sess w s) in
      let ok := ss_nonce_valid x && streq method AUTH_METHOD_PSK
                && (0 <? length (keys (g_keys c)))%nat
                && auth_verify (e_stack e) (g_keys c) kid (ss_nonce x) resp in
      if negb ok then auth_refused s id
      else
        set_sess s (fun x => x <| ss_rx_unlocked := true |> <| ss_nonce_valid := false |>) ;;;
        send_ok s id (jq "{'authenticated':true,'functions':['rx']}").

(** The gate: does the command address rx? *)
Definition cmd_addresses_rx (cmd : list Z) (t : list jsmntok_t) (js : list Z) : M D bool :=
  if streq cmd (txt "start_rx") || streq cmd (txt "stop_rx") || streq cmd (txt "close_stream")
  then ret true
  else if negb (streq cmd (txt "set_frequency") || streq cmd (txt "set_sample_rate")
                || streq cmd (txt "set_control") || streq cmd (txt "open_stream"))
  then ret false
  else
    let* p := find_params js t in
    if p <? 0 then ret false
    else
      let* f := find js t p "function" in
      if f <? 0 then ret false
      else let* ft := tok t f in ret (tok_eq js ft (txt "rx")).
End Commands.

(** ** Escaping *)

Definition escaped (s : list Z) : list Z := mjoin (esc_char <$> s).

Lemma escaped_cons (c : Z) (s : list Z) : escaped (c :: s) = esc_char c ++ escaped s.
Proof. reflexivity. Qed.

Lemma unescape_esc (c : Z) (s : list Z) :
  cchar c -> unescape (esc_char c ++ s) = cons c <$> unescape s.
Proof.
  intros Hc. unfold esc_char.
  repeat match goal with |- context [if ?x =? ?k then _ else _] =>
    destruct (Z.eqb_spec x k); [subst; reflexivity|] end.
  destruct (c <? 32) eqn:E.
  - pose proof (esc_low c ltac:(unfold is_byte, cchar in *; lia)) as H. rewrite E in H. zbool.
    cbn [app unescape Z.eqb Pos.eqb orb andb]. by rewrite H.
  - cbn [app unescape]. destruct (Z.eqb_spec c 92); [done|]. by destruct (Z.eqb_spec c 34).
Qed.

Lemma unescape_escaped (s : list Z) : Forall cchar s -> unescape (escaped s) = Some s.
Proof.
  induction 1 as [|c s Hc _ IH]; [done|]. by rewrite escaped_cons, unescape_esc, IH.
Qed.

Lemma str_okb_esc (c : Z) (s : list Z) : cchar c -> str_okb (esc_char c ++ s) = str_okb s.
Proof.
  intros Hc. unfold esc_char.
  repeat match goal with |- context [if ?x =? ?k then _ else _] =>
    destruct (Z.eqb_spec x k); [subst; reflexivity|] end.
  destruct (c <? 32) eqn:E.
  - pose proof (esc_low c ltac:(unfold is_byte, cchar in *; lia)) as H. rewrite E in H. zbool.
    cbn [app str_okb Z.eqb Pos.eqb]. cbn [simple_escape Z.eqb Pos.eqb orb]. rewrite H0, H1.
    change (is_hex 48) with true. done.
  - cbn [app str_okb]. destruct (Z.eqb_spec c 34); [done|]. by destruct (Z.eqb_spec c 92).
Qed.

Lemma str_okb_escaped (s : list Z) : Forall cchar s -> str_okb (escaped s) = true.
Proof.
  induction 1 as [|c s Hc _ IH]; [done|]. by rewrite escaped_cons, str_okb_esc.
Qed.

Lemma escape_loop_spec (cap : nat) (s out : list Z) :
  (length out < cap)%nat ->
  exists k, escape_loop cap s out = out ++ escaped (take k s) /\
    (length (escape_loop cap s out) < cap)%nat /\
    ((length out + length (escaped s) < cap)%nat -> (length s <= k)%nat).
Proof.
  revert out. induction s as [|c s IH]; intros out Ho; cbn [escape_loop].
  { exists 0%nat. rewrite app_nil_r. auto. }
  rewrite escaped_cons, length_app.
  destruct (Nat.leb_spec cap (length out + length (esc_char c))).
  - exists 0%nat. cbn. rewrite app_nil_r. split; [done|]. split; [done|lia].
  - destruct (IH (out ++ esc_char c)) as (k & -> & Hl & Hk); [rewrite length_app; lia|].
    exists (S k). cbn [take]. rewrite escaped_cons, <- app_assoc. split; [done|].
    rewrite <- app_assoc in Hl. split; [done|]. rewrite length_app in Hk. cbn [length]. lia.
Qed.

Lemma json_escape_spec (s : list Z) (cap : nat) :
  (0 < cap)%nat ->
  exists k, json_escape s cap = escaped (take k s) /\ (length (json_escape s cap) < cap)%nat /\
    ((length (escaped s) < cap)%nat -> take k s = s).
Proof.
  intros Hc. destruct (escape_loop_spec cap s [] Hc) as (k & H1 & H2 & H3).
  exists k. split; [exact H1|]. split; [exact H2|]. intros H. apply take_ge. by apply H3.
Qed.

(** Escaping.  json_escape into a buffer of [cap] octets never overruns
    it, produces a valid JSON string body even when it has to stop early (an
    escape is never cut), and what it produced decodes to a prefix of the
    input; the prefix is the whole input whenever its escaped form fits. *)
Theorem json_escape_correct (s : list Z) (cap : nat) :
  (0 < cap)%nat -> Forall cchar s ->
  (length (json_escape s cap) < cap)%nat /\
  str_okb (json_escape s cap) = true /\
  exists k, unescape (json_escape s cap) = Some (take k s) /\
    ((length (escaped s) < cap)%nat -> take k s = s).
Proof.
  intros Hc Hs. destruct (json_escape_spec s cap Hc) as (k & E & Hl & Hk).
  split; [done|]. rewrite E. assert (Forall cchar (take k s)) as Ht by (by apply Forall_take).
  split; [by apply str_okb_escaped|]. exists k. split; [by apply unescape_escaped|done].
Qed.

Lemma json_escape_correct_witness :
  json_escape (txt "a" ++ [34; 92; 7; 10]) 288 = txt "a" ++ [92; 34; 92; 92] ++ txt "\u0007\n" /\
  unescape (json_escape (txt "a" ++ [34; 92; 7; 10]) 288) = Some (txt "a" ++ [34; 92; 7; 10]).
Proof.
  split; [vm_compute; reflexivity|].
  destruct (json_escape_correct (txt "a" ++ [34; 92; 7; 10]) 288) as (_ & _ & k & H & Hk);
    [lia|repeat constructor; vm_compute; done|].
  rewrite H, Hk; [reflexivity|vm_compute; lia].
Defined.

(** ** Error replies are JSON *)
Definition error_value (id code message : list Z) : json :=
  JObj [(txt "type", JStr (txt "response")); (txt "id", JStr (json_escape id 288));
        (txt "status", JStr (txt "error"));
        (txt "error", JObj [(txt "code", JStr code); (txt "message", JStr (json_escape message 512))])].

Lemma snprintf_fits (cap : nat) (s : list Z) : (length s < cap)%nat -> snprintf cap s = s.
Proof. intros H. apply take_ge. lia. Qed.

Lemma error_text_print (id code message : list Z) :
  (length code <= 64)%nat -> error_text id code message = print (error_value id code message).
Proof.
  intros Hc. destruct (json_escape_spec id 288) as (_ & _ & Hi & _); [lia|].
  destruct (json_escape_spec message 512) as (_ & _ & Hm & _); [lia|].
  unfold error_text, error_value. rewrite snprintf_fits.
  - generalize (json_escape id 288), (json_escape message 512). intros i m.
    cbn [print]. unfold quoted.
    vm_compute (jq _). vm_compute (txt _). cbn [app].
    repeat (rewrite <- app_assoc; cbn [app]). reflexivity.
  - rewrite !length_app. vm_compute (length (jq _)). lia.
Qed.

(** Every error reply is a complete JSON text.  For any request id and
    message text (C strings of any content) and any code of plain characters
    that is not absurdly long, the reply of send_error is never truncated: it
    is the text of a JSON object whose members are type, id, status and error,
    with the id and the message decoding to (prefixes of) the originals. *)
Theorem error_text_json (id code message : list Z) :
  Forall cchar id -> Forall cchar message ->
  (length code <= 64)%nat -> str_okb code = true ->
  text_of (error_value id code message) (error_text id code message)
    (tokens 0 (error_value id code message)) /\
  (exists k, unescape (json_escape id 288) = Some (take k id)) /\
  (exists k, unescape (json_escape message 512) = Some (take k message)).
Proof.
  intros Hi Hm Hl Hc. rewrite error_text_print by done.
  destruct (json_escape_spec id 288) as (ki & Ei & _); [lia|].
  destruct (json_escape_spec message 512) as (km & Em & _); [lia|].
  split; [|split; [exists ki; rewrite Ei|exists km; rewrite Em];
           apply unescape_escaped; by apply Forall_take].
  apply print_text. unfold error_value. cbn [json_ok forallb fst snd]. rewrite Hc, Ei, Em.
  rewrite !str_okb_escaped by (by apply Forall_take). reflexivity.
Qed.

Lemma error_text_json_witness :
  text_of (error_value (txt "q" ++ [34]) (txt "in_use") (txt "held"))
    (error_text (txt "q" ++ [34]) (txt "in_use") (txt "held"))
    (tokens 0 (error_value (txt "q" ++ [34]) (txt "in_use") (txt "held"))).
Proof.
  apply (error_text_json (txt "q" ++ [34]) (txt "in_use") (txt "held"));
    [repeat constructor; vm_compute; done..|vm_compute; lia|reflexivity].
Defined.
