(* ===== verification/RxCommands.v ===== *)
(** * The rx block: cp/cp_commands.c, status, configuration and streams *)
From Stdlib Require Import SpecFloat.
From S2P Require Import Prelude CLib Jsmn JsonText JsonTok Sha256 Auth Config Rtl Vita World.
From S2P Require Import Session Commands.
#[local] Open Scope Z_scope.

Section RxCommands.
Context {D : Type} {P : Platform D} (e : Env).

(** ** Envelope commands without parameters *)
Definition cmd_get_capabilities (s : nat) (id : list Z) (t : list jsmntok_t) (js : list Z)
    : M D unit :=
  let* caps := build_capabilities_json in
  send_ok s id (snprintf (Z.to_nat 6272) (jq "{'capabilities':" ++ caps ++ jq "}")).

Definition cmd_ping (s : nat) (id : list Z) (t : list jsmntok_t) (js : list Z) : M D unit :=
  send_ok s id (txt "{}").

(** ** Status *)
Definition status_json (x : Session) (control : list Z) (r : Rtl D) : list Z :=
  let adc := match rtl_get_adc_level_dbfs r with
             | Some d => snprintf 32 (fmt_f 1 d)
             | None => txt "null"
             end in
  let gain := tenth (g_gain_tenth_db r) in
  snprintf 1024
    (jq "{'rx':{'enabled':true,'streaming':" ++ tf (bool_decide (ss_state x = SESSION_STREAMING))
     ++ jq ",'control_state':'" ++ control ++ jq "','frequency_hz':" ++ fmt_u (g_freq_hz r)
     ++ jq ",'sample_rate_sps':" ++ fmt_u (g_rate_requested_sps r)
     ++ jq ",'actual_sample_rate_sps':" ++ fmt_u (g_rate_sps r)
     ++ jq ",'reference_level_dbm':" ++ fmt_f 1 (rtl_reference_level_dbm gain)
     ++ jq ",'adc_overload':" ++ tf (g_adc_overload r) ++ jq ",'adc_level_dbfs':" ++ adc
     ++ jq ",'lo_locked':null,'controls':{'rf_gain':" ++ fmt_f 1 gain
     ++ jq ",'agc':" ++ tf (g_agc_enabled r) ++ jq ",'bias_tee':" ++ fmt_f 1 (g_bias_tee_volts r)
     ++ jq ",'ppm_correction':" ++ fmt_d (g_ppm_correction r)
     ++ jq ",'direct_sampling':'" ++ ds_names (g_sampling_mode r)
     ++ jq "'},'hardware_monitors':{'pa_temperature_celsius':null,'pa_supply_voltage_v':null,"
     ++ jq "'pa_drain_current_ma':null,'board_temperature_celsius':"
     ++ fmt_nullable (read_board_temperature e)
     ++ jq ",'supply_voltage_v':" ++ fmt_nullable (read_supply_voltage e)
     ++ jq ",'total_current_ma':null}}}").

Definition cmd_get_status (s : nat) (id : list Z) (t : list jsmntok_t) (js : list Z) : M D unit :=
  let* control := cp_rx_control_state s in
  let* x := get (fun w => sess w s) in
  let* r := get w_rtl in
  send_ok s id (status_json x control r).

Definition cmd_get_clock_status (s : nat) (id : list Z) (t : list jsmntok_t) (js : list Z)
    : M D unit :=
  let '(iso, epoch) := utc_now e in
  send_ok s id
    (snprintf 256
       (jq "{'source':'free_running','synced':false,'accuracy_us':null,'utc_time':'" ++ iso
        ++ jq "','epoch_s':" ++ fmt_d epoch
        ++ jq ",'ptp':{'available':false},'gps':{'available':false}}")).

(** ** Configuration *)

(** require_function, channel_ok and may_configure in sequence, as every
    configuring command starts: the params token, or -1 after an answer. *)
Definition configure_params (s : nat) (id js : list Z) (t : list jsmntok_t) : M D Z :=
  let* p := require_function s id js t in
  if p <? 0 then ret (-1)
  else
    let* ok := channel_ok s id js t p in
    if negb ok then ret (-1)
    else
      let* mine := may_configure s id in
      if negb mine then ret (-1) else ret p.

Definition freq_event (applied : Z) : list Z :=
  snprintf 128 (jq "{'function':'rx','frequency_hz':" ++ fmt_u applied ++ jq "}").

Definition rate_event (rate applied : Z) : list Z :=
  snprintf 192 (jq "{'function':'rx','sample_rate_sps':" ++ fmt_u rate
    ++ jq ",'actual_sample_rate_sps':" ++ fmt_u applied ++ jq "}").

Definition cmd_set_frequency (s : nat) (id : list Z) (t : list jsmntok_t) (js : list Z) : M D unit :=
  let* p := configure_params s id js t in
  if p <? 0 then ret tt
  else
    let* fi := find js t p "frequency_hz" in
    if fi <? 0 then send_error s id "missing_parameter" (txt "frequency_hz required")
    else
      let* ft := tok t fi in
      let '(freq, erange) := strtoull (tok_str js ft 32) in
      if erange || (freq <? 1) then
        send_error s id "invalid_parameter" (txt "frequency_hz out of range")
      else
        let* r := get w_rtl in
        if (freq <? rtl_freq_min r) || (rtl_freq_max r <? freq) then
          send_error s id "unsupported_frequency"
            (txt "Frequency outside the published range for this mode")
        else
          let* applied := with_rtl (rtl_set_frequency freq) in
          if applied =? 0 then send_error s id "device_error" (txt "Frequency set failed")
          else
            set_sess s (fun x => x <| ss_frequency_hz := applied |>) ;;;
            send_ok s id (snprintf 128
              (jq "{'function':'rx','applied_frequency_hz':" ++ fmt_u applied ++ jq "}")) ;;;
            cp_broadcast_event (txt "frequency_changed") (freq_event applied).

Definition cmd_set_sample_rate (s : nat) (id : list Z) (t : list jsmntok_t) (js : list Z)
    : M D unit :=
  let* p := configure_params s id js t in
  if p <? 0 then ret tt
  else
    let* x := get (fun w => sess w s) in
    if bool_decide (ss_state x = SESSION_STREAMING)
       || bool_decide (ss_state x = SESSION_STREAM_OPEN) then
      send_error s id "stream_reconfiguration_required"
        (txt "Close the stream before changing the sample rate")
    else
      let* ri := find js t p "sample_rate_sps" in
      if ri <? 0 then send_error s id "missing_parameter" (txt "sample_rate_sps required")
      else
        let* rt := tok t ri in
        let rate := u32 (strtoul (tok_str js rt 16)) in
        let* r := get w_rtl in
        if negb (existsb (fun x => x =? rate) (rtl_rate_list r)) then
          send_error s id "unsupported_sample_rate"
            (txt "Rate not present in the published sample_rates_sps")
        else
          let* applied := with_rtl (rtl_set_sample_rate rate) in
          if applied =? 0 then send_error s id "device_error" (txt "Sample rate set failed")
          else
            set_sess s (fun x => x <| ss_sample_rate_sps := applied |>) ;;;
            send_ok s id (snprintf 160
              (jq "{'function':'rx','applied_sample_rate_sps':" ++ fmt_u rate ++ jq "}")) ;;;
            cp_broadcast_event (txt "sample_rate_changed") (rate_event rate applied).

Definition apply_mode_change_side_effects : M D unit :=
  let* r := get w_rtl in
  (if (g_freq_hz r <? rtl_freq_min r) || (rtl_freq_max r <? g_freq_hz r) then
     let target := if g_freq_hz r <? rtl_freq_min r then rtl_freq_min r else rtl_freq_max r in
     let* applied := with_rtl (rtl_set_frequency target) in
     if applied =? 0 then ret tt
     else cp_broadcast_event (txt "frequency_changed") (freq_event applied)
   else ret tt) ;;;
  let* r := get w_rtl in
  (if existsb (fun x => x =? g_rate_requested_sps r) (rtl_rate_list r) then ret tt
   else
     let want := rtl_preferred_rate r in
     let* applied := with_rtl (rtl_set_sample_rate want) in
     if applied =? 0 then ret tt
     else cp_broadcast_event (txt "sample_rate_changed") (rate_event want applied)) ;;;
  let* r := get w_rtl in
  do_vita (vita_update_payload_format (sampling_mode_payload_fmt (g_sampling_mode r))) ;;;
  do_vita (vita_send_context_all (g_gain_tenth_db r)).

Definition applied_json (name : string) (value : list Z) : list Z :=
  snprintf 160 (jq "{'function':'rx','name':'" ++ txt name ++ jq "','applied_value':"
    ++ value ++ jq "}").

Definition control_event (name : string) (value : list Z) : list Z :=
  snprintf 192 (jq "{'function':'rx','name':'" ++ txt name ++ jq "','value':" ++ value ++ jq "}").

Definition is_number (js : list Z) (vt : jsmntok_t) : bool :=
  bool_decide (tk_type vt = JSMN_PRIMITIVE) && negb (tok_is_bool js vt).

(** The Context packets after a gain change. *)
Definition context_all : M D unit :=
  let* r := get w_rtl in do_vita (vita_send_context_all (g_gain_tenth_db r)).

Definition on_gain_list (val : double) (l : list Z) : bool :=
  existsb (fun g => d_lt (d_abs (d_sub val (tenth g))) (d_dec 5 (-2))) l.

Definition set_rf_gain (s : nat) (id js : list Z) (vt : jsmntok_t) (valstr : list Z) : M D unit :=
  if negb (is_number js vt) then
    send_error s id "invalid_parameter" (txt "rf_gain requires a numeric value")
  else
    let* r := get w_rtl in
    if g_agc_enabled r then send_ok s id (applied_json "rf_gain" (fmt_f 1 (rtl_get_gain r)))
    else
      let val := strtod valstr in
      load_gain_table ;;;
      let* gs := get gains in
      if negb (on_gain_list val gs) then
        send_error s id "invalid_parameter"
          (txt "rf_gain must be one of the tuner's steps listed in capabilities.rx.controls[rf_gain].allowed_values")
      else
        let* res := lift (rtl_set_gain val r) in
        let '(applied, r') := res in
        modify (fun w => w <| w_rtl := r' |>) ;;;
        set_sess s (fun x => x <| ss_rf_gain_db := applied |>) ;;;
        send_ok s id (applied_json "rf_gain" (fmt_f 1 applied)) ;;;
        context_all ;;;
        cp_broadcast_event (txt "control_changed") (control_event "rf_gain" (fmt_f 1 applied)).

Definition set_agc (s : nat) (id js : list Z) (vt : jsmntok_t) : M D unit :=
  if negb (tok_is_bool js vt) then
    send_error s id "invalid_parameter" (txt "agc requires true or false")
  else
    let en := tok_is_true js vt in
    let* _ := with_rtl (rtl_set_agc en) in
    send_ok s id (applied_json "agc" (tf en)) ;;;
    context_all ;;;
    cp_broadcast_event (txt "control_changed") (control_event "agc" (tf en)).

Definition set_bias_tee (s : nat) (id js : list Z) (vt : jsmntok_t) (valstr : list Z) : M D unit :=
  if negb (is_number js vt) then
    send_error s id "invalid_parameter"
      (txt "bias_tee is a float in volts (0.0 or 5.0), not a boolean")
  else
    let volts := strtod valstr in
    if negb (d_eq volts d_zero) && negb (d_eq volts RTL_BIAS_TEE_VOLTS) then
      send_error s id "invalid_parameter" (txt "bias_tee accepts only the published allowed_values")
    else
      let* rc := with_rtl (rtl_set_bias_tee volts) in
      if negb (rc =? 0) then
        send_error s id "not_supported" (txt "bias_tee not supported by this hardware")
      else
        let* r := get w_rtl in
        send_ok s id (applied_json "bias_tee" (fmt_f 1 (g_bias_tee_volts r))) ;;;
        cp_broadcast_event (txt "control_changed")
          (control_event "bias_tee" (fmt_f 1 (g_bias_tee_volts r))).

Definition set_ppm (s : nat) (id js : list Z) (vt : jsmntok_t) (valstr : list Z) : M D unit :=
  if negb (is_number js vt) then
    send_error s id "invalid_parameter" (txt "ppm_correction requires an integer")
  else
    let ppm := i32 (strtol valstr) in
    if (ppm <? -100) || (100 <? ppm) then
      send_error s id "invalid_parameter" (txt "ppm_correction out of range [-100,100]")
    else
      let* _ := with_rtl (rtl_set_ppm ppm) in
      let* r := get w_rtl in
      send_ok s id (applied_json "ppm_correction" (fmt_d (g_ppm_correction r))) ;;;
      cp_broadcast_event (txt "control_changed")
        (control_event "ppm_correction" (fmt_d (g_ppm_correction r))).

Definition mode_of (js : list Z) (vt : jsmntok_t) : option sampling_mode_t :=
  if tok_eq js vt (txt "off") then Some SAMPLING_NORMAL
  else if tok_eq js vt (txt "i_branch") then Some SAMPLING_DIRECT_I
  else if tok_eq js vt (txt "q_branch") then Some SAMPLING_DIRECT_Q
  else None.

Definition quote (l : list Z) : list Z := jq "'" ++ l ++ jq "'".

Definition set_direct_sampling (s : nat) (id js : list Z) (vt : jsmntok_t) (valstr : list Z)
    : M D unit :=
  if negb (bool_decide (tk_type vt = JSMN_STRING)) then
    send_error s id "invalid_parameter"
      (txt "direct_sampling requires a string from the published values")
  else
    match mode_of js vt with
    | None =>
        send_error s id "invalid_parameter"
          (txt "direct_sampling must be off, i_branch or q_branch")
    | Some mode =>
        let* r := get w_rtl in
        if bool_decide (mode = g_sampling_mode r) then
          send_ok s id (applied_json "direct_sampling" (quote valstr))
        else
          let* x := get (fun w => sess w s) in
          if ss_stream_open x then
            send_error s id "stream_reconfiguration_required"
              (txt "Close the stream before changing direct_sampling")
          else
            let* rc := with_rtl (rtl_set_direct_sampling mode) in
            if negb (rc =? 0) then
              send_error s id "device_error" (txt "direct_sampling change failed")
            else
              send_ok s id (applied_json "direct_sampling" (quote (ds_names mode))) ;;;
              cp_broadcast_event (txt "control_changed")
                (control_event "direct_sampling" (quote (ds_names mode))) ;;;
              apply_mode_change_side_effects ;;;
              cp_broadcast_event (txt "warning")
                (jq "{'code':'capabilities_changed','message':'direct_sampling changed; re-read get_capabilities for the current frequency range and sample rates'}")
    end.

Definition cmd_set_control (s : nat) (id : list Z) (t : list jsmntok_t) (js : list Z) : M D unit :=
  let* p := configure_params s id js t in
  if p <? 0 then ret tt
  else
    let* ni := find js t p "name" in
    let* vi := find js t p "value" in
    if (ni <? 0) || (vi <? 0) then
      send_error s id "missing_parameter" (txt "name and value required")
    else
      let* nt := tok t ni in
      let* vt := tok t vi in
      let name := tok_str js nt 32 in
      let valstr := tok_str js vt 64 in
      if streq name (txt "rf_gain") then set_rf_gain s id js vt valstr
      else if streq name (txt "agc") then set_agc s id js vt
      else if streq name (txt "bias_tee") then set_bias_tee s id js vt valstr
      else if streq name (txt "ppm_correction") then set_ppm s id js vt valstr
      else if streq name (txt "direct_sampling") then set_direct_sampling s id js vt valstr
      else send_error s id "not_supported" (txt "Unknown control name").

Definition value_json (name : string) (value : list Z) : list Z :=
  snprintf 160 (jq "{'function':'rx','name':'" ++ txt name ++ jq "','value':" ++ value ++ jq "}").

Definition cmd_get_control (s : nat) (id : list Z) (t : list jsmntok_t) (js : list Z) : M D unit :=
  let* p := require_function s id js t in
  if p <? 0 then ret tt
  else
    let* ok := channel_ok s id js t p in
    if negb ok then ret tt
    else
      let* ni := find js t p "name" in
      if ni <? 0 then send_error s id "missing_parameter" (txt "name required")
      else
        let* nt := tok t ni in
        let name := tok_str js nt 32 in
        let* r := get w_rtl in
        if streq name (txt "rf_gain") then
          send_ok s id (value_json "rf_gain" (fmt_f 1 (rtl_get_gain r)))
        else if streq name (txt "agc") then
          send_ok s id (value_json "agc" (tf (g_agc_enabled r)))
        else if streq name (txt "bias_tee") then
          send_ok s id (value_json "bias_tee" (fmt_f 1 (g_bias_tee_volts r)))
        else if streq name (txt "ppm_correction") then
          send_ok s id (value_json "ppm_correction" (fmt_d (g_ppm_correction r)))
        else if streq name (txt "direct_sampling") then
          send_ok s id (value_json "direct_sampling" (quote (ds_names (g_sampling_mode r))))
        else send_error s id "not_supported" (txt "Unknown control name").

(** ** Streams *)

(** Release the channel and answer an error: every refusal of open_stream
    after the claim. *)
Definition refuse (s : nat) (id : list Z) (code : string) (message : list Z) : M D unit :=
  cp_rx_release s ;;; send_error s id code message.

(** Does the format object ask for u8? *)
Definition format_matches (js : list Z) (t : list jsmntok_t) (fmt_i : Z) : M D bool :=
  let* lbl := find js t fmt_i "label" in
  let* enc := find js t fmt_i "encoding" in
  let* bits := find js t fmt_i "bits_per_component" in
  let eq i k := if i <? 0 then ret false else let* x := tok t i in ret (tok_eq js x (txt k)) in
  let* is_u8 := eq lbl "u8"%string in
  if is_u8 then ret true
  else if (0 <=? enc) && (0 <=? bits) then
    let* a := eq enc "unsigned"%string in
    if a then eq bits "8"%string else ret false
  else eq enc "unsigned"%string.

Definition open_result (c : Conf) (x : Session) (r : Rtl D) (src_ip ip_str : list Z) : list Z :=
  let fmt := ss_iq_fmt x in
  let int16 := bool_decide (fmt = IQ_FMT_INT16) in
  let bits := if int16 then fmt_d 16 else fmt_d 8 in
  let zero_point := if int16 then []
                    else snprintf 40 (jq "'zero_point':" ++ fmt_f 2 (g_u8_zero_point c) ++ txt ",") in
  snprintf 1400
    (jq "{'stream_id':'" ++ ss_stream_id x ++ jq "','function':'rx','sample_rate_sps':"
     ++ fmt_u (g_rate_sps r) ++ jq ",'signal_type':'"
     ++ sampling_mode_signal_type (g_sampling_mode r)
     ++ jq "','vita':{'protocol_version':'VITA-A/1.0','source':{'ip':'" ++ src_ip
     ++ jq "','port':" ++ fmt_d (g_vita_src_port c)
     ++ jq "},'destination':{'ip':'" ++ ip_str ++ jq "','port':" ++ fmt_u (ss_dest_port x)
     ++ jq "},'samples_per_packet':" ++ fmt_u (g_samples_per_pkt r)
     ++ jq ",'stream_id':" ++ fmt_u (ss_vita_stream_id x)
     ++ jq ",'packet_class':'if_data','timestamp_mode':'utc_picoseconds','format':{'encoding':'"
     ++ (if int16 then txt "twos_complement" else txt "unsigned")
     ++ jq "','bits_per_component':" ++ bits ++ jq ",'container_bits':" ++ bits
     ++ jq ",'packing':'interleaved','byte_order':'big_endian'," ++ zero_point
     ++ jq "'native':" ++ tf (negb int16) ++ jq ",'supported':true,'label':'"
     ++ (if int16 then txt "int16" else txt "u8") ++ jq "'}}}").

(** The stream is open: identifiers, destination, answer, event. *)
Definition open_accept (s : nat) (id ip_str addr : list Z) (dp : Z) : M D unit :=
  alloc_stream_id s ;;;
  set_sess s (fun x => x <| ss_dest_ip := addr |> <| ss_dest_port := u16 dp |>
                         <| ss_iq_fmt := IQ_FMT_U8 |> <| ss_stream_open := true |>
                         <| ss_state := SESSION_STREAM_OPEN |>) ;;;
  let src_ip := match e_sockname e with Some a => inet_ntop a | None => txt "0.0.0.0" end in
  let* c := get w_conf in
  let* x := get (fun w => sess w s) in
  let* r := get w_rtl in
  send_ok s id (open_result c x r src_ip ip_str) ;;;
  cp_broadcast_event_except s (txt "control_revoked")
    (jq "{'function':'rx','control_state':'owned_by_other'}").

(** From the destination on. *)
Definition open_destination (s : nat) (id js : list Z) (t : list jsmntok_t) (vi : Z) : M D unit :=
  let* dest_i := find js t vi "destination" in
  let* dt := (if dest_i <? 0 then ret None else let* x := tok t dest_i in ret (Some x)) in
  if negb (match dt with Some x => bool_decide (tk_type x = JSMN_OBJECT) | None => false end)
  then refuse s id "missing_parameter" (txt "vita.destination required")
  else
    let* ip_i := find js t dest_i "ip" in
    let* port_i := find js t dest_i "port" in
    if (ip_i <? 0) || (port_i <? 0) then
      refuse s id "missing_parameter" (txt "vita.destination.ip and .port required")
    else
      let* it := tok t ip_i in
      let* pt := tok t port_i in
      let ip_str := tok_str js it 16 in
      match inet_pton ip_str with
      | None => refuse s id "invalid_parameter" (txt "vita.destination.ip invalid")
      | Some addr =>
          let dp := strtoul (tok_str js pt 8) in
          if (dp =? 0) || (65535 <? dp) then
            refuse s id "invalid_parameter" (txt "vita.destination.port invalid")
          else open_accept s id ip_str addr dp
      end.

(** From the vita object on. *)
Definition open_vita (s : nat) (id js : list Z) (t : list jsmntok_t) (vi : Z) : M D unit :=
  let* pv := find js t vi "protocol_version" in
  let* pv_ok := (if pv <? 0 then ret true
                 else let* x := tok t pv in ret (tok_eq js x (txt "VITA-A/1.0"))) in
  if negb pv_ok then
    refuse s id "unsupported_stream_protocol"
      (txt "capabilities.rx.transports advertises VITA-A/1.0 only")
  else
    let* fmt_i := find js t vi "format" in
    let* ft := (if fmt_i <? 0 then ret None else let* x := tok t fmt_i in ret (Some x)) in
    let* matched :=
      (if match ft with Some x => bool_decide (tk_type x = JSMN_OBJECT) | None => false end
       then format_matches js t fmt_i else ret true) in
    if negb matched then
      refuse s id "unsupported_format"
        (txt "This device streams unsigned 8-bit IQ only; see capabilities.rx.iq_formats")
    else open_destination s id js t vi.

Definition cmd_open_stream (s : nat) (id : list Z) (t : list jsmntok_t) (js : list Z) : M D unit :=
  let* p := require_function s id js t in
  if p <? 0 then ret tt
  else
    let* ok := channel_ok s id js t p in
    if negb ok then ret tt
    else
      let* x := get (fun w => sess w s) in
      if ss_stream_open x then
        send_error s id "stream_already_open"
          (txt "This session already holds an rx stream; call close_stream first")
      else
        let* claimed := cp_rx_claim s in
        if negb claimed then
          send_error s id "in_use" (txt "The rx channel is held by another client")
        else
          let* proto_i := find js t p "protocol" in
          if proto_i <? 0 then refuse s id "missing_parameter" (txt "protocol required")
          else
            let* pt := tok t proto_i in
            if negb (tok_eq js pt (txt "vita49")) then
              refuse s id "unsupported_stream_protocol"
                (txt "Only vita49 is present in capabilities.rx.transports")
            else
              let* vi := find js t p "vita" in
              let* vt := (if vi <? 0 then ret None else let* x := tok t vi in ret (Some x)) in
              if negb (match vt with Some x => bool_decide (tk_type x = JSMN_OBJECT)
                                   | None => false end)
              then
                cp_rx_release s ;;;
                let* d := find js t p "destination" in
                if 0 <=? d then
                  send_error s id "missing_parameter"
                    (txt "Transport parameters belong inside a vita object since Release 1.2; see SDR-SLC-CP-1.0 14.2")
                else send_error s id "missing_parameter" (txt "vita transport object required")
              else open_vita s id js t vi.

(** The session holds the stream named in the request: the common start of
    start_rx, stop_rx and close_stream; false after an error answer. *)
Definition stream_named (s : nat) (id js : list Z) (t : list jsmntok_t) : M D bool :=
  let* p := find_params js t in
  let* si := find_if js t p "stream_id" in
  if si <? 0 then
    send_error s id "missing_parameter" (txt "stream_id required") ;;; ret false
  else
    let* st := tok t si in
    let sid := tok_str js st 32 in
    let* x := get (fun w => sess w s) in
    if negb (ss_stream_open x) || negb (streq sid (ss_stream_id x)) then
      send_error s id "stream_not_found" (txt "stream_id not found") ;;; ret false
    else ret true.

Definition streaming_json (b : bool) : list Z :=
  jq "{'function':'rx','streaming':" ++ tf b ++ jq "}".

Definition cmd_start_rx (s : nat) (id : list Z) (t : list jsmntok_t) (js : list Z) : M D unit :=
  let* named := stream_named s id js t in
  if negb named then ret tt
  else
    let* x := get (fun w => sess w s) in
    if bool_decide (ss_state x = SESSION_STREAMING) then send_ok s id (streaming_json true)
    else
      let* r := get w_rtl in
      let* token := with_vita (vita_session_add (g_gain_tenth_db r) (g_rate_sps r) (e_wall_s e)
                      (ss_stream_id x) (ss_vita_stream_id x) (ss_dest_ip x) (ss_dest_port x)
                      (ss_iq_fmt x) (sampling_mode_payload_fmt (g_sampling_mode r))) in
      set_sess s (fun x => x <| ss_vita_token := token |>) ;;;
      if token <? 0 then send_error s id "busy" (txt "No free stream slot; retry shortly")
      else
        let* rc := with_rtl (rtl_bridge_start (e_thread_ok e)) in
        if rc <? 0 then
          do_vita (vita_session_remove token) ;;;
          set_sess s (fun x => x <| ss_vita_token := -1 |>) ;;;
          send_error s id "device_error" (txt "Failed to start RTL async read")
        else
          set_sess s (fun x => x <| ss_state := SESSION_STREAMING |>) ;;;
          send_ok s id (streaming_json true) ;;;
          send_event s (txt "stream_state")
            (stream_event (ss_stream_id x) true (txt "client_request")).

Definition cmd_stop_rx (s : nat) (id : list Z) (t : list jsmntok_t) (js : list Z) : M D unit :=
  let* named := stream_named s id js t in
  if negb named then ret tt
  else
    let* x := get (fun w => sess w s) in
    if negb (bool_decide (ss_state x = SESSION_STREAMING)) then
      send_ok s id (streaming_json false)
    else
      drop_vita s ;;;
      do_rtl rtl_bridge_stop ;;;
      do_rtl rtl_reset_adc_level ;;;
      set_sess s (fun x => x <| ss_state := SESSION_STREAM_OPEN |>) ;;;
      send_ok s id (streaming_json false) ;;;
      send_event s (txt "stream_state")
        (stream_event (ss_stream_id x) false (txt "client_request")).

Definition cmd_close_stream (s : nat) (id : list Z) (t : list jsmntok_t) (js : list Z) : M D unit :=
  let* named := stream_named s id js t in
  if negb named then ret tt
  else
    drop_vita s ;;;
    let* x := get (fun w => sess w s) in
    let was_streaming := bool_decide (ss_state x = SESSION_STREAMING) in
    (if was_streaming then do_rtl rtl_bridge_stop ;;; do_rtl rtl_reset_adc_level else ret tt) ;;;
    set_sess s (fun x => x <| ss_stream_open := false |> <| ss_state := SESSION_IDLE |>
                           <| ss_stream_id := [] |>) ;;;
    cp_rx_release s ;;;
    send_ok s id (jq "{'closed':true}") ;;;
    if was_streaming
    then send_event s (txt "stream_state")
           (stream_event (snprintf 32 (ss_stream_id x)) false (txt "client_request"))
    else ret tt.
End RxCommands.
