(* ===== verification/Server.v ===== *)
(** * The command loop and the server: cp_session_thread, cp_server.c, and the
    USB callback

    A client's message is handled in two steps, as in the loop of
    cp_session_thread: receiving it into the message buffer, which is one static
    array shared by all session threads, and processing what the buffer holds.
    A server state [Srv] is the world with that buffer, the token array of each
    thread (local, so what an earlier message left in it stays), and how much
    each thread has received.  A step is atomic; the sequences of steps are the
    interleavings of the threads. *)
From Stdlib Require Import SpecFloat.
From S2P Require Import Prelude CLib Jsmn JsonText JsonTok Sha256 Auth Config Rtl Vita World.
From S2P Require Import Session Commands RxCommands.
#[local] Open Scope Z_scope.

Section Dispatch.
Context {D : Type} {P : Platform D} (e : Env).

Definition cmd_fn : Type := nat -> list Z -> list jsmntok_t -> list Z -> M D unit.

Definition s_dispatch : list (list Z * cmd_fn) :=
  [(txt "hello", cmd_hello e);
   (txt "authenticate", cmd_authenticate e);
   (txt "get_capabilities", cmd_get_capabilities);
   (txt "set_frequency", cmd_set_frequency);
   (txt "set_sample_rate", cmd_set_sample_rate);
   (txt "set_control", cmd_set_control);
   (txt "open_stream", cmd_open_stream e);
   (txt "start_rx", cmd_start_rx e);
   (txt "stop_rx", cmd_stop_rx);
   (txt "close_stream", cmd_close_stream);
   (txt "ping", cmd_ping);
   (txt "get_status", cmd_get_status e);
   (txt "get_control", cmd_get_control);
   (txt "get_clock_status", cmd_get_clock_status e)].

Fixpoint lookup_cmd (cmd : list Z) (l : list (list Z * cmd_fn)) : option cmd_fn :=
  match l with
  | [] => None
  | (n, f) :: l' => if streq cmd n then Some f else lookup_cmd cmd l'
  end.

Definition no_key_message : list Z :=
  txt "the rx function requires authentication and this device has no pre-shared key configured, so rx is locked (SDR-SLC-CP-1.0 26.3). On the device, run: sudo sdr-slc-rtld keygen".

Definition locked_message : list Z :=
  txt "the rx function requires authentication (psk-hmac-sha256); send authenticate with the nonce from hello before addressing rx".

(** Dispatch, and the check of close_after_reply: true when the loop ends. *)
Definition dispatch (s : nat) (cmd id : list Z) (t : list jsmntok_t) (js : list Z) : M D bool :=
  (match lookup_cmd cmd s_dispatch with
   | Some f => f s id t js
   | None => send_error s id "unknown_command" (txt "Unrecognised command")
   end) ;;;
  get (fun w => ss_close_after_reply (sess w s)).

(** The gate, then dispatch. *)
Definition gated_dispatch (s : nat) (cmd id : list Z) (t : list jsmntok_t) (js : list Z)
    : M D bool :=
  let* c := get w_conf in
  let* x := get (fun w => sess w s) in
  let* locked := (if g_rx_auth c && negb (ss_rx_unlocked x)
                  then cmd_addresses_rx cmd t js else ret false) in
  if locked then
    send_error s id "unauthorized"
      (if (length (keys (g_keys c)) =? 0)%nat then no_key_message else locked_message) ;;;
    ret false
  else dispatch s cmd id t js.

(** The envelope of a parsed message; true when the loop ends. *)
Definition process_request (s : nat) (ntok : Z) (t : list jsmntok_t) (js : list Z) : M D bool :=
  if ntok <? 1 then
    send_error s (txt "?") "invalid_request" (txt "Malformed JSON envelope") ;;; ret false
  else
    let* t0 := tok t 0 in
    if negb (bool_decide (tk_type t0 = JSMN_OBJECT)) then
      send_error s (txt "?") "invalid_request" (txt "Malformed JSON envelope") ;;; ret false
    else
      let* idx_type := find js t 0 "type" in
      let* idx_id := find js t 0 "id" in
      let* idx_command := find js t 0 "command" in
      if (idx_type <? 0) || (idx_id <? 0) || (idx_command <? 0) then
        send_error s (txt "?") "invalid_request" (txt "Missing type/id/command") ;;; ret false
      else
        let* tt_ := tok t idx_type in
        if negb (tok_eq js tt_ (txt "request")) then ret false
        else
          let* ti := tok t idx_id in
          let* tc := tok t idx_command in
          let id := tok_str js ti 128 in
          let cmd := tok_str js tc 64 in
          let* x := get (fun w => sess w s) in
          if bool_decide (ss_state x = SESSION_AWAIT_HELLO) && negb (streq cmd (txt "hello")) then
            send_error s id "invalid_request" (txt "hello must be the first command") ;;; ret false
          else gated_dispatch s cmd id t js.

(** rtl_callback: ADC measurement, overload event, data packets; [now] is
    now_ms(). *)
Definition rtl_callback (now : Z) (buf : list Z) : M D unit :=
  let* r := get w_rtl in
  if negb (rtl_running r) then ret tt
  else
    do_rtl (fun r => r <| s_cb_count := u64 (s_cb_count r + 1) |>
                       <| g_samples_per_pkt := Z.of_nat VITA_SAMPLES_PER_PKT |>) ;;;
    let* ev := with_rtl (fun r => let '(r', ev) := measure_adc_level now buf r in (ev, r')) in
    (match ev with Some dbfs => cp_on_adc_overload dbfs | None => ret tt end) ;;;
    do_vita (vita_send_callback buf).

(** One turn of the accept loop; the connection is closed when the table is
    full. *)
Definition accept_client (fd : Z) (client_ip : list Z) : M D unit :=
  let* r := session_create fd client_ip in
  match r with
  | None => ret tt
  | Some i => if e_thread_ok e then ret tt else session_destroy i
  end.
End Dispatch.

(** ** The server *)
Record Srv (D : Type) := mkSrv {
  sv_world : World D;
  sv_msg_buf : list Z;                        (* static char msg_buf[MAX_MSG_BYTES + 1] *)
  sv_tokens : list (list jsmntok_t);          (* tokens[MAX_JSON_TOKENS] of each thread *)
  sv_pending : list (option nat)              (* length received, not yet processed *)
}.
Arguments mkSrv {D}. Arguments sv_world {D}. Arguments sv_msg_buf {D}.
Arguments sv_tokens {D}. Arguments sv_pending {D}.

#[export] Instance eta_srv (D : Type) : Eta (Srv D) := fun v =>
  mkSrv (sv_world v) (sv_msg_buf v) (sv_tokens v) (sv_pending v).

Section Server.
Context {D : Type} {P : Platform D}.

Definition live (v : Srv D) (s : nat) : Prop := 0 < ss_fd (sess (sv_world v) s).

(** Reading the payload into the message buffer, and its terminating NUL. *)
Definition store_message (s : nat) (payload : list Z) (v : Srv D) : Srv D :=
  v <| sv_msg_buf := write_at 0 (payload ++ [0]) (sv_msg_buf v) |>
    <| sv_pending := <[s := Some (length payload)]> (sv_pending v) |>.

(** The rest of one turn of the loop: parse and process what the buffer
    holds.  [None]: undefined behaviour. *)
Definition process_message (e : Env) (s len : nat) (v : Srv D) : option (Srv D) :=
  let js := sv_msg_buf v in
  let '(ntok, t) := jsmn_parse jsmn_init js len (sv_tokens v !!! s) MAX_JSON_TOKENS in
  match process_request e s ntok t js (sv_world v) with
  | None => None
  | Some (stop, w) =>
      let w' := if stop : bool then session_destroy s w else Some (tt, w) in
      match w' with
      | None => None
      | Some (_, w'') =>
          Some (v <| sv_world := w'' |> <| sv_tokens := <[s := t]> (sv_tokens v) |>
                  <| sv_pending := <[s := None]> (sv_pending v) |>)
      end
  end.

Inductive step : Srv D -> Srv D -> Prop :=
  | step_accept v e fd ip w' :
      0 < fd -> accept_client e fd ip (sv_world v) = Some (tt, w') ->
      step v (v <| sv_world := w' |>)
  | step_receive v s payload :
      (s < MAX_SESSIONS)%nat -> live v s -> sv_pending v !! s = Some None ->
      bytes_ok payload -> 0 < Z.of_nat (length payload) <= MAX_MSG_BYTES ->
      step v (store_message s payload v)
  | step_process v e s len v' :
      (s < MAX_SESSIONS)%nat -> live v s -> sv_pending v !! s = Some (Some len) ->
      process_message e s len v = Some v' ->
      step v v'
  | step_disconnect v s w' :
      (s < MAX_SESSIONS)%nat -> live v s -> sv_pending v !! s = Some None ->
      session_destroy s (sv_world v) = Some (tt, w') ->
      step v (v <| sv_world := w' |>)
  | step_usb v now buf w' :
      bytes_ok buf -> rtl_callback now buf (sv_world v) = Some (tt, w') ->
      step v (v <| sv_world := w' |>).

(** The world when the server starts: nobody connected, the device open;
    [ctx]: context packets are enabled. *)
Definition world_initial (c : Conf) (r : Rtl D) (ctx : bool) : World D :=
  mkWorld c (replicate MAX_SESSIONS session_zero) 0 None None d_zero r
    (vita_initial <| vt_context_enabled := ctx |> <| vt_sock := true |>) [].

Definition srv_initial (c : Conf) (r : Rtl D) (ctx : bool) (buf : list Z) (toks : list (list jsmntok_t))
    : Srv D :=
  mkSrv (world_initial c r ctx) buf toks (replicate MAX_SESSIONS None).

(** Buffers of the declared sizes, with any contents. *)
Definition buffers_ok (buf : list Z) (toks : list (list jsmntok_t)) : Prop :=
  Z.of_nat (length buf) = MAX_MSG_BYTES + 1 /\ length toks = MAX_SESSIONS /\
  Forall (fun t => length t = MAX_JSON_TOKENS) toks.

Definition reachable (c : Conf) (r : Rtl D) (v : Srv D) : Prop :=
  exists ctx buf toks, buffers_ok buf toks /\ rtc step (srv_initial c r ctx buf toks) v.
End Server.
