(* ===== verification/Quiet.v ===== *)
(** * What the handlers leave alone

    Sending a message changes nothing but the log, and the parameter helpers do
    nothing but send; so do a predicate that does not look at the log no harm.
    These facts, in the hint database [quiet], let the proofs about a handler
    deal with its state-changing calls only. *)
From Stdlib Require Import SpecFloat.
From S2P Require Import Prelude CLib Jsmn JsonText JsonTok Sha256 Auth Config Rtl Vita World.
From S2P Require Import Session Commands RxCommands Server.
#[local] Open Scope Z_scope.

Section Quiet.
Context {D : Type} {P : Platform D}.
Context (I : World D -> Prop) `{HI : !Stable I}.

Lemma q_send_framed (s : nat) (json : list Z) : stays I (send_framed s json).
Proof. apply s_modify. intros w Hw. case_match; [done|]. by apply HI. Qed.

Lemma q_send_ok (s : nat) (id r : list Z) : stays I (send_ok s id r).
Proof. apply q_send_framed. Qed.

Lemma q_send_error (s : nat) (id : list Z) (c : string) (m : list Z) :
  stays I (send_error s id c m).
Proof. apply q_send_framed. Qed.

Lemma q_send_event (s : nat) (ev ps : list Z) : stays I (send_event s ev ps).
Proof. apply q_send_framed. Qed.

Lemma q_broadcast_loop (n i : nat) (skip : option nat) (buf : list Z) :
  stays I (broadcast_loop n i skip buf).
Proof.
  revert i. induction n as [|n IH]; intros i; cbn [broadcast_loop]; [apply s_ret|].
  eapply h_stay; [apply s_get|]. intros b. eapply h_stay; [|intros _; apply IH].
  destruct b; [apply q_send_framed|apply s_ret].
Qed.

Lemma q_broadcast (skip : option nat) (ev ps : list Z) : stays I (broadcast skip ev ps).
Proof. apply q_broadcast_loop. Qed.

Lemma q_event (ev ps : list Z) : stays I (cp_broadcast_event ev ps).
Proof. apply q_broadcast. Qed.

Lemma q_event_except (s : nat) (ev ps : list Z) : stays I (cp_broadcast_event_except s ev ps).
Proof. apply q_broadcast. Qed.

Lemma q_find (js : list Z) (t : list jsmntok_t) (o : Z) (k : string) : stays I (find js t o k).
Proof. apply s_lift. Qed.

Lemma q_find_if (js : list Z) (t : list jsmntok_t) (o : Z) (k : string) :
  stays I (find_if js t o k).
Proof. unfold find_if. case_match; [apply s_lift|apply s_ret]. Qed.

Lemma q_tok (t : list jsmntok_t) (i : Z) : stays I (tok t i).
Proof. apply s_lift. Qed.

Lemma q_find_params (js : list Z) (t : list jsmntok_t) : stays I (find_params js t).
Proof. apply s_lift. Qed.
End Quiet.

#[export] Hint Resolve q_send_framed q_send_ok q_send_error q_send_event q_broadcast q_event
  q_event_except q_find q_find_if q_tok q_find_params : quiet.

Section Quiet2.
Context {D : Type} {P : Platform D}.
Context (I : World D -> Prop) `{HI : !Stable I}.

Lemma q_require_function (s : nat) (id js : list Z) (t : list jsmntok_t) :
  stays I (require_function s id js t).
Proof. unfold require_function. hquiet. Qed.

Lemma q_channel_ok (s : nat) (id js : list Z) (t : list jsmntok_t) (p : Z) :
  stays I (channel_ok s id js t p).
Proof. unfold channel_ok. hquiet. Qed.

Lemma q_may_configure (s : nat) (id : list Z) : stays I (may_configure s id).
Proof. unfold may_configure, cp_rx_owned_by_other. hquiet. Qed.

Lemma q_addresses (cmd : list Z) (t : list jsmntok_t) (js : list Z) :
  stays I (cmd_addresses_rx cmd t js).
Proof. unfold cmd_addresses_rx. hquiet. Qed.

Lemma q_stream_named (s : nat) (id js : list Z) (t : list jsmntok_t) :
  stays I (stream_named s id js t).
Proof. unfold stream_named. hquiet. Qed.

Lemma q_format_matches (js : list Z) (t : list jsmntok_t) (i : Z) :
  stays I (format_matches js t i).
Proof.
  unfold format_matches. do 3 (eapply h_stay; [apply q_find|intros ?]).
  assert (forall j k, stays I (if j <? 0 then ret false
    else let* x := tok t j in ret (tok_eq js x (txt k)))) as Heq by (intros; hquiet).
  eapply h_stay; [apply Heq|intros b]. destruct b; [apply s_ret|].
  case_match; [|apply Heq]. eapply h_stay; [apply Heq|intros b]. destruct b; [apply Heq|apply s_ret].
Qed.

Lemma q_adc_overload (dbfs : double) : stays I (cp_on_adc_overload dbfs).
Proof. unfold cp_on_adc_overload. hquiet. Qed.

Lemma q_get_clock (e : Env) (s : nat) (id : list Z) (t : list jsmntok_t) (js : list Z) :
  stays I (cmd_get_clock_status e s id t js).
Proof. unfold cmd_get_clock_status. hquiet. Qed.

Lemma q_get_status (e : Env) (s : nat) (id : list Z) (t : list jsmntok_t) (js : list Z) :
  stays I (cmd_get_status e s id t js).
Proof. unfold cmd_get_status, cp_rx_control_state. hquiet. Qed.

Lemma q_ping (s : nat) (id : list Z) (t : list jsmntok_t) (js : list Z) :
  stays I (cmd_ping s id t js).
Proof. unfold cmd_ping. hquiet. Qed.
End Quiet2.

#[export] Hint Resolve q_require_function q_channel_ok q_may_configure q_addresses q_stream_named
  q_format_matches q_adc_overload q_get_clock q_get_status q_ping : quiet.

Section Quiet3.
Context {D : Type} {P : Platform D}.
Context (I : World D -> Prop) `{HI : !Stable I}.

Lemma q_get_control (s : nat) (id : list Z) (t : list jsmntok_t) (js : list Z) :
  stays I (cmd_get_control s id t js).
Proof. unfold cmd_get_control. hquiet. Qed.
End Quiet3.

#[export] Hint Resolve q_get_control : quiet.
