(* ===== verification/Invariants.v ===== *)
(** * The invariant of the server

    The rx channel has at most one owner; a session has a stream open only
    while it owns the channel, and streams only while its stream is open; with
    authentication on, only an unlocked session has a stream; the USB reader
    runs exactly while the bridge counts somebody as streaming, and it counts a
    streaming session.  Every step of the server preserves this. *)
From Stdlib Require Import SpecFloat.
From S2P Require Import Prelude CLib Jsmn JsonText JsonTok Sha256 Auth Config Rtl Vita World.
From S2P Require Import Session Commands RxCommands Server Quiet.
#[local] Open Scope Z_scope.

(** What must hold of the session in slot [i], with the owner [o] of the
    channel, authentication on or off, and the bridge's count [n]. *)
Record sess_ok (auth : bool) (o : option nat) (n : Z) (i : nat) (x : Session) : Prop := {
  so_fd : 0 <= ss_fd x;
  so_own : ss_owns_rx x = bool_decide (o = Some i);
  so_live : o = Some i -> 0 < ss_fd x;
  so_open : ss_stream_open x = true -> o = Some i;
  so_state : ss_state x = SESSION_STREAM_OPEN \/ ss_state x = SESSION_STREAMING ->
             ss_stream_open x = true;
  so_auth : auth = true -> ss_stream_open x = true -> ss_rx_unlocked x = true;
  so_count : ss_state x = SESSION_STREAMING -> 1 <= n
}.

Section Invariant.
Context {D : Type} {P : Platform D}.
Implicit Types w : World D.

Definition ok_at (w : World D) (i : nat) (x : Session) : Prop :=
  sess_ok (g_rx_auth (w_conf w)) (w_rx_owner w) (s_stream_count (w_rtl w)) i x.

(** The invariant, with one slot exempt while a handler is busy with it. *)
Definition inv (ex : option nat) (w : World D) : Prop :=
  length (w_sessions w) = MAX_SESSIONS /\ bridge_ok (w_rtl w) /\
  (forall i, w_rx_owner w = Some i -> (i < MAX_SESSIONS)%nat) /\
  (forall i x, w_sessions w !! i = Some x -> ex <> Some i -> ok_at w i x).

(** The world is in order and the session is connected. *)
Definition ready (s : nat) (w : World D) : Prop := inv None w /\ 0 < ss_fd (sess w s).

#[export] Instance stable_inv ex : Stable (inv ex).
Proof. intros w o H. exact H. Qed.

#[export] Instance stable_ready s : Stable (ready s).
Proof. intros w o H. exact H. Qed.

Lemma inv_weaken ex w : inv None w -> inv ex w.
Proof.
  intros (H1 & H2 & H3 & H4). split; [done|]. split; [done|]. split; [done|].
  intros i x Hx _. by apply H4.
Qed.

Lemma inv_frame ex w w' :
  inv ex w -> w_sessions w' = w_sessions w -> w_rx_owner w' = w_rx_owner w ->
  w_conf w' = w_conf w -> s_stream_count (w_rtl w') = s_stream_count (w_rtl w) ->
  rtl_running (w_rtl w') = rtl_running (w_rtl w) -> inv ex w'.
Proof.
  unfold inv, ok_at, bridge_ok. intros (H1 & H2 & H3 & H4) -> -> -> -> ->. done.
Qed.

Lemma ready_frame s w w' :
  ready s w -> w_sessions w' = w_sessions w -> w_rx_owner w' = w_rx_owner w ->
  w_conf w' = w_conf w -> s_stream_count (w_rtl w') = s_stream_count (w_rtl w) ->
  rtl_running (w_rtl w') = rtl_running (w_rtl w) -> ready s w'.
Proof.
  intros [Hi Hf] E1 E2 E3 E4 E5. split; [by eapply inv_frame|]. unfold sess. by rewrite E1.
Qed.

Lemma inv_update ex ex' w s f :
  inv ex w -> (forall i, i <> s -> ex' <> Some i -> ex <> Some i) ->
  (forall x, w_sessions w !! s = Some x -> ex' <> Some s -> ok_at w s (f x)) ->
  inv ex' (w <| w_sessions := alter f s (w_sessions w) |>).
Proof.
  intros (H1 & H2 & H3 & H4) He Hf. split; [cbn; by rewrite length_alter|].
  split; [done|]. split; [done|]. intros i x Hx Hex. cbn in Hx.
  apply list_lookup_alter_Some in Hx as [(-> & y & Hy & ->)|[Hne Hx]].
  - by apply Hf.
  - apply (H4 i x); auto.
Qed.

Lemma sess_lookup w s x :
  length (w_sessions w) = MAX_SESSIONS -> (s < MAX_SESSIONS)%nat ->
  w_sessions w !! s = Some x <-> sess w s = x.
Proof.
  intros Hl Hs. unfold sess. split; [by apply list_lookup_total_correct|].
  intros <-. apply list_lookup_lookup_total_lt. lia.
Qed.

Lemma ready_ok s w : ready s w -> (s < MAX_SESSIONS)%nat -> ok_at w s (sess w s).
Proof.
  intros [(H1 & _ & _ & H4) _] Hs. apply H4; [|done]. by apply sess_lookup.
Qed.

Lemma sess_alter w s f :
  length (w_sessions w) = MAX_SESSIONS -> (s < MAX_SESSIONS)%nat ->
  sess (w <| w_sessions := alter f s (w_sessions w) |>) s = f (sess w s).
Proof.
  intros Hl Hs. unfold sess. cbn. apply list_lookup_total_correct.
  rewrite list_lookup_alter_eq. rewrite list_lookup_lookup_total_lt by lia. done.
Qed.

Context (s : nat) (Hs : (s < MAX_SESSIONS)%nat).

(** An update of the session that keeps it in order. *)
Lemma ready_set (R : World D -> Prop) f :
  (forall w, ready s w -> R w -> ok_at w s (f (sess w s)) /\ ss_fd (f (sess w s)) = ss_fd (sess w s)) ->
  hoare (fun w => ready s w /\ R w) (set_sess s f) (fun _ => ready s).
Proof.
  intros Hf. apply h_modify. intros w [Hr HR]. destruct (Hf w Hr HR) as [Hok Hfd].
  pose proof Hr as [Hi Hlive]. pose proof Hi as (Hlen & _). split.
  - eapply inv_update; [exact Hi|done|]. intros x Hx _. apply sess_lookup in Hx as <-; done.
  - rewrite sess_alter by done. by rewrite Hfd.
Qed.

Lemma ready_set' f :
  (forall a o n x, sess_ok a o n s x -> sess_ok a o n s (f x) /\ ss_fd (f x) = ss_fd x) ->
  stays (ready s) (set_sess s f).
Proof.
  intros Hf. eapply h_pre; [|apply (ready_set (fun _ => True))]; [by auto|].
  intros w Hr _. apply Hf. by apply ready_ok.
Qed.

(** A call into the receiver that leaves the reader alone. *)
Lemma ready_rtl {A} (f : Rtl D -> A * Rtl D) :
  (forall r, s_stream_count (f r).2 = s_stream_count r /\ rtl_running (f r).2 = rtl_running r) ->
  stays (ready s) (with_rtl f).
Proof.
  intros Hf w a w' Hr. unfold with_rtl. specialize (Hf (w_rtl w)).
  destruct (f (w_rtl w)) as [b r]. intros [= <- <-]. eapply ready_frame; try done; apply Hf.
Qed.

Lemma ready_vita f : stays (ready s) (do_vita f).
Proof. apply s_modify. intros w Hr. by eapply ready_frame. Qed.

Lemma ready_with_vita {A} (f : Vita -> A * Vita) : stays (ready s) (with_vita f).
Proof.
  intros w a w' Hr. unfold with_vita. destruct (f (w_vita w)). intros [= <- <-].
  by eapply ready_frame.
Qed.

Lemma ready_load_gains : stays (ready s) load_gain_table.
Proof.
  unfold load_gain_table. do 2 hwalk; [hleaf|]. do 2 hwalk. hwalk; apply s_modify; intros w Hr;
    by eapply ready_frame.
Qed.
End Invariant.

(** ** The receiver's settings leave the reader alone *)
Section RtlQuiet.
Context {D : Type} {P : Platform D}.
Implicit Types r : Rtl D.

Definition reader_same r r' : Prop :=
  s_stream_count r' = s_stream_count r /\ rtl_running r' = rtl_running r.

Lemma set_frequency_reader f r : reader_same r (rtl_set_frequency f r).2.
Proof. unfold rtl_set_frequency. by repeat case_match. Qed.

Lemma set_sample_rate_reader f r : reader_same r (rtl_set_sample_rate f r).2.
Proof. unfold rtl_set_sample_rate. by repeat case_match. Qed.

Lemma set_agc_reader b r : reader_same r (rtl_set_agc b r).2.
Proof. unfold rtl_set_agc. by repeat case_match. Qed.

Lemma set_bias_tee_reader v r : reader_same r (rtl_set_bias_tee v r).2.
Proof. unfold rtl_set_bias_tee. by repeat case_match. Qed.

Lemma set_direct_sampling_reader m r : reader_same r (rtl_set_direct_sampling m r).2.
Proof. unfold rtl_set_direct_sampling. by repeat case_match. Qed.

Lemma set_ppm_reader p r : reader_same r (rtl_set_ppm p r).2.
Proof. unfold rtl_set_ppm. by repeat case_match. Qed.

Lemma set_gain_reader g r a r' : rtl_set_gain g r = Some (a, r') -> reader_same r r'.
Proof. unfold rtl_set_gain. repeat case_match; intros [= <- <-]; done. Qed.

Lemma measure_reader now buf r : reader_same r (measure_adc_level now buf r).1.
Proof. unfold measure_adc_level. by repeat case_match. Qed.
End RtlQuiet.

Lemma load_gains_rtl {D : Type} `{Platform D} (w : World D) a w' :
  load_gain_table w = Some (a, w') -> w_rtl w' = w_rtl w.
Proof.
  unfold load_gain_table, bind, get. destruct (w_gains w); [by intros [= _ <-]|].
  unfold lift. destruct (rtl_get_gain_list _) as [[|g l]|]; by intros [= _ <-].
Qed.

(** ** The handlers *)

(** Solve the obligations of [ready_set']. *)
Ltac keep_sess :=
  apply ready_set'; [assumption|];
  intros ? ? ? ? []; split; [split; cbn; repeat case_match; naive_solver|by repeat case_match].

Section Handlers.
Context {D : Type} {P : Platform D} (e : Env) (s : nat) (Hs : (s < MAX_SESSIONS)%nat).
Context (id js : list Z) (t : list jsmntok_t).
Implicit Types w : World D.

#[local] Hint Extern 1 (stays _ (do_vita _)) => apply ready_vita : quiet.
#[local] Hint Extern 1 (stays _ (with_vita _)) => apply ready_with_vita : quiet.
#[local] Hint Extern 1 (stays _ load_gain_table) => apply ready_load_gains : quiet.
#[local] Hint Extern 1 (stays _ (set_sess _ _)) => keep_sess : quiet.
#[local] Hint Extern 1 (stays _ (with_rtl _)) =>
  apply ready_rtl; intros; first [apply set_frequency_reader|apply set_sample_rate_reader
    |apply set_agc_reader|apply set_bias_tee_reader|apply set_direct_sampling_reader
    |apply set_ppm_reader] : quiet.

Lemma r_configure_params : stays (ready (D := D) s) (configure_params s id js t).
Proof. unfold configure_params. hquiet. Qed.
#[local] Hint Resolve r_configure_params : quiet.

Lemma r_set_frequency : stays (ready (D := D) s) (cmd_set_frequency s id t js).
Proof. unfold cmd_set_frequency. hquiet. Qed.

Lemma r_set_sample_rate : stays (ready (D := D) s) (cmd_set_sample_rate s id t js).
Proof. unfold cmd_set_sample_rate. hquiet. Qed.

Lemma r_context_all : stays (ready (D := D) s) context_all.
Proof. unfold context_all. hquiet. Qed.
#[local] Hint Resolve r_context_all : quiet.

Lemma r_mode_change : stays (ready (D := D) s) apply_mode_change_side_effects.
Proof. unfold apply_mode_change_side_effects. hquiet. Qed.
#[local] Hint Resolve r_mode_change : quiet.

Lemma r_set_rf_gain vt v : stays (ready (D := D) s) (set_rf_gain s id js vt v).
Proof.
  unfold set_rf_gain. hwalk; [hleaf|]. apply h_get_bind. intros r. hwalk; [hforget; hleaf|].
  eapply h_pre with (P' := fun w => ready s w /\ reader_same (w_rtl w) r);
    [by intros w [Hr ->]|].
  eapply h_bind with (Q := fun _ w => ready s w /\ reader_same (w_rtl w) r).
  { intros w a w' [Hr Hrd] E. split; [by eapply ready_load_gains|].
    by rewrite (load_gains_rtl _ _ _ E). }
  intros _. apply h_get_bind. intros gs. hwalk.
  { hforget. hleaf. }
  eapply h_bind; [apply h_lift|]. intros [applied r'].
  eapply h_bind with (Q := fun _ => ready s).
  { apply h_modify. intros w [[[Hr [R1 R2]] _] E]. apply set_gain_reader in E as [E1 E2].
    eapply ready_frame; try done; cbn; congruence. }
  intros _. hquiet.
Qed.

Lemma r_set_agc vt : stays (ready (D := D) s) (set_agc s id js vt).
Proof. unfold set_agc. hquiet. Qed.

Lemma r_set_bias_tee vt v : stays (ready (D := D) s) (set_bias_tee s id js vt v).
Proof. unfold set_bias_tee. hquiet. Qed.

Lemma r_set_ppm vt v : stays (ready (D := D) s) (set_ppm s id js vt v).
Proof. unfold set_ppm. hquiet. Qed.

Lemma r_set_direct_sampling vt v : stays (ready (D := D) s) (set_direct_sampling s id js vt v).
Proof. unfold set_direct_sampling. hquiet. Qed.
#[local] Hint Resolve r_set_rf_gain r_set_agc r_set_bias_tee r_set_ppm r_set_direct_sampling : quiet.

Lemma r_set_control : stays (ready (D := D) s) (cmd_set_control s id t js).
Proof. unfold cmd_set_control. hquiet. Qed.

Lemma r_get_capabilities : stays (ready (D := D) s) (cmd_get_capabilities s id t js).
Proof. unfold cmd_get_capabilities, build_capabilities_json. hquiet. Qed.

Lemma r_auth_object : stays (ready (D := D) s) (auth_object e s).
Proof. unfold auth_object. hquiet. Qed.
#[local] Hint Resolve r_auth_object : quiet.

Lemma r_hello : stays (ready (D := D) s) (cmd_hello e s id t js).
Proof. unfold cmd_hello. hquiet. Qed.

Lemma r_auth_refused : stays (ready (D := D) s) (auth_refused e s id).
Proof. unfold auth_refused. hquiet. Qed.
#[local] Hint Resolve r_auth_refused : quiet.

Lemma r_authenticate : stays (ready (D := D) s) (cmd_authenticate e s id t js).
Proof. unfold cmd_authenticate. hquiet. Qed.
End Handlers.

(** ** Ownership *)
Lemma sess_ok_owner a o o' n i x :
  sess_ok a o n i x -> (o = Some i <-> o' = Some i) -> sess_ok a o' n i x.
Proof.
  intros [] E. split; try done; try (by rewrite <- E).
  rewrite so_own0. by apply bool_decide_ext.
Qed.

Lemma sess_ok_closed a o o' n i x :
  sess_ok a o n i x -> ss_stream_open x = false -> o' <> Some i ->
  sess_ok a o' n i (x <| ss_owns_rx := false |>).
Proof.
  intros [] Hc Ho. split; cbn; try done.
  - by rewrite bool_decide_eq_false_2.
  - intros; congruence.
Qed.

Lemma sess_ok_mine a o n i x :
  sess_ok a o n i x -> 0 < ss_fd x -> sess_ok a (Some i) n i (x <| ss_owns_rx := true |>).
Proof. intros [] Hf. split; cbn; try done. by rewrite bool_decide_eq_true_2. Qed.

Section Ownership.
Context {D : Type} {P : Platform D} (s : nat) (Hs : (s < MAX_SESSIONS)%nat).
Implicit Types w : World D.

(** With authentication on, the session is unlocked. *)
Definition unlocked (w : World D) : Prop :=
  g_rx_auth (w_conf w) = true -> ss_rx_unlocked (sess w s) = true.

Definition is_open (w : World D) : Prop := ss_stream_open (sess w s) = true.

Definition no_stream (w : World D) : Prop := ss_stream_open (sess w s) = false.

(** The session may open a stream; it holds the channel for one. *)
Definition may_open (w : World D) : Prop := ready s w /\ unlocked w /\ no_stream w.

Definition holding (w : World D) : Prop := may_open w /\ w_rx_owner w = Some s.

#[export] Instance stable_unlocked : Stable unlocked.
Proof. intros w o H. exact H. Qed.
#[export] Instance stable_is_open : Stable is_open.
Proof. intros w o H. exact H. Qed.
#[export] Instance stable_may_open : Stable may_open.
Proof. intros w o H. exact H. Qed.
#[export] Instance stable_holding : Stable holding.
Proof. intros w o H. exact H. Qed.

Definition released (w : World D) : World D :=
  let w1 := if bool_decide (w_rx_owner w = Some s) then w <| w_rx_owner := None |> else w in
  w1 <| w_sessions := alter (fun x => x <| ss_owns_rx := false |>) s (w_sessions w1) |>.

Lemma released_owner w : w_rx_owner (released w) <> Some s.
Proof. unfold released. case_bool_decide; cbn; congruence. Qed.

Lemma inv_released ex w :
  inv ex w -> ex = Some s \/ no_stream w -> inv ex (released w).
Proof.
  intros (H1 & H2 & H3 & H4) Hex. split; [|split; [|split]].
  - unfold released. cbn. rewrite length_alter. by case_bool_decide.
  - unfold released. cbn. by case_bool_decide.
  - intros i. unfold released. cbn. case_bool_decide; [done|]. apply H3.
  - intros i x Hx Hne.
    assert (w_sessions (released w) =
            alter (fun x => x <| ss_owns_rx := false |>) s (w_sessions w)) as E
      by (unfold released; cbn; by case_bool_decide).
    rewrite E in Hx. clear E.
    assert (g_rx_auth (w_conf (released w)) = g_rx_auth (w_conf w) /\
            s_stream_count (w_rtl (released w)) = s_stream_count (w_rtl w)) as [Ea En]
      by (unfold released; by case_bool_decide).
    unfold ok_at. rewrite Ea, En.
    apply list_lookup_alter_Some in Hx as [(-> & y & Hy & ->)|[Hi Hx]].
    + destruct Hex as [->|Hc]; [done|]. unfold no_stream in Hc.
      rewrite (proj1 (sess_lookup w s y H1 Hs) Hy) in Hc.
      eapply sess_ok_closed; [by apply H4|done|apply released_owner].
    + eapply sess_ok_owner; [by apply H4|]. unfold released.
      case_bool_decide as Eo; cbn; [|done]. rewrite Eo. split; congruence.
Qed.

Lemma sess_released w :
  length (w_sessions w) = MAX_SESSIONS ->
  sess (released w) s = (sess w s) <| ss_owns_rx := false |>.
Proof.
  intros Hl. unfold released. case_bool_decide; by rewrite sess_alter.
Qed.

(** After the channel is released: what follows from the world then. *)
Lemma h_release (Q Q' : World D -> Prop) `{!Stable Q'} :
  (forall w, Q w -> Q' (released w)) -> hoare Q (cp_rx_release s) (fun _ => Q').
Proof.
  intros HQ w a w' Hw E.
  assert (cp_rx_release s w =
    (if bool_decide (w_rx_owner w = Some s)
     then cp_broadcast_event_except s (txt "control_revoked")
            (jq "{'function':'rx','control_state':'free'}")
     else ret tt) (released w)) as Er by (unfold released; cbn; by case_bool_decide).
  rewrite Er in E. specialize (HQ w Hw). revert E.
  case_bool_decide; [by apply q_event_except|by intros [= _ <-]].
Qed.

Lemma ready_released w : ready s w -> no_stream w -> ready s (released w).
Proof.
  intros [Hi Hf] Hn. split; [apply inv_released; by auto|].
  rewrite sess_released by apply Hi. done.
Qed.

Lemma r_release : hoare (fun w => ready s w /\ no_stream w) (cp_rx_release s) (fun _ => ready s).
Proof. apply h_release; [apply _|]. intros w [? ?]. by apply ready_released. Qed.

Lemma claim_inv w :
  ready s w -> w_rx_owner w = None \/ w_rx_owner w = Some s ->
  inv None (w <| w_rx_owner := Some s |>
              <| w_sessions := alter (fun x => x <| ss_owns_rx := true |>) s (w_sessions w) |>).
Proof.
  intros [(H1 & H2 & H3 & H4) Hf] Ho. split; [cbn; by rewrite length_alter|].
  split; [done|]. split; [by intros i [= <-]|]. intros i x Hx _. cbn in Hx. unfold ok_at. cbn.
  apply list_lookup_alter_Some in Hx as [(-> & y & Hy & ->)|[Hi Hx]].
  - eapply sess_ok_mine; [by apply H4|]. by rewrite <- (proj1 (sess_lookup w s y H1 Hs) Hy).
  - eapply sess_ok_owner; [by apply H4|]. destruct Ho as [->| ->]; split; congruence.
Qed.

Lemma r_claim :
  hoare may_open (cp_rx_claim s) (fun b w => may_open w /\ (b = true -> w_rx_owner w = Some s)).
Proof.
  unfold cp_rx_claim. apply h_get_bind. intros o.
  destruct (bool_decide (o = None) || bool_decide (o = Some s)) eqn:E.
  2: { intros w b w' [Hw _] [= <- <-]. by split. }
  intros w b w' [(Hr & Hu & Hn) ->] [= <- <-].
  assert (w_rx_owner w = None \/ w_rx_owner w = Some s) as Ho.
  { apply orb_true_iff in E as [E|E]; apply bool_decide_eq_true in E; auto. }
  pose proof (claim_inv w Hr Ho) as Hi. destruct Hr as [Hi0 Hf].
  pose proof Hi0 as (Hl & _).
  assert (sess (w <| w_rx_owner := Some s |>
     <| w_sessions := alter (fun x => x <| ss_owns_rx := true |>) s (w_sessions w) |>) s =
     (sess w s) <| ss_owns_rx := true |>) as Es
    by exact (sess_alter w s (fun x => x <| ss_owns_rx := true |>) Hl Hs).
  split; [|done]. split; [|by unfold unlocked, no_stream; rewrite Es].
  split; [exact Hi|]. by rewrite Es.
Qed.

(** An update that touches neither state nor ownership nor locks. *)
Definition minor (f : Session -> Session) : Prop :=
  forall x, ss_fd (f x) = ss_fd x /\ ss_state (f x) = ss_state x /\ ss_owns_rx (f x) = ss_owns_rx x /\
    ss_rx_unlocked (f x) = ss_rx_unlocked x /\ ss_stream_open (f x) = ss_stream_open x.

Lemma sess_ok_minor a o n f x : minor f -> sess_ok a o n s x -> sess_ok a o n s (f x).
Proof.
  intros Hm []. destruct (Hm x) as (E1 & E2 & E3 & E4 & E5).
  split; rewrite ?E1, ?E2, ?E3, ?E4, ?E5; done.
Qed.

Lemma ready_minor f : minor f -> stays (ready (D := D) s) (set_sess s f).
Proof.
  intros Hm. apply ready_set'; [done|]. intros a o n x Hx.
  split; [by apply sess_ok_minor|apply Hm].
Qed.

Lemma with_minor (R : Session -> Prop) f :
  minor f -> (forall x, R x -> R (f x)) ->
  stays (fun w : World D => ready s w /\ R (sess w s)) (set_sess s f).
Proof.
  intros Hm HR w a w' [Hr HRw] E. split; [by eapply ready_minor|].
  injection E as _ <-. destruct Hr as [Hi _]. rewrite sess_alter; [by apply HR|apply Hi|done].
Qed.

Lemma holding_set f : minor f -> stays holding (set_sess s f).
Proof.
  intros Hm w a w' [(Hr & Hu & Hn) Ho] E.
  pose proof (ready_minor f Hm _ _ _ Hr E) as Hr'. injection E as _ <-.
  destruct Hr as [(Hl & _) _]. destruct (Hm (sess w s)) as (_ & _ & _ & Eu & Es).
  split; [|done]. split; [done|]. unfold unlocked, no_stream. rewrite sess_alter by done.
  by rewrite Eu, Es.
Qed.
End Ownership.

(** ** Streams *)

(** require_function accepts only what the gate treats as addressing rx. *)
Lemma require_function_gate {D : Type} `{Platform D} (s : nat) (id js : list Z)
    (t : list jsmntok_t) (w w' : World D) (p : Z) (cmd : list Z) :
  streq cmd (txt "set_frequency") || streq cmd (txt "set_sample_rate")
    || streq cmd (txt "set_control") || streq cmd (txt "open_stream") = true ->
  require_function s id js t w = Some (p, w') -> 0 <= p ->
  w' = w /\ cmd_addresses_rx cmd t js w = Some (true, w).
Proof.
  intros Hcmd. unfold require_function, cmd_addresses_rx, find_params, find, tok, bind, lift.
  destruct (tok_find_key js t (Z.to_nat 0) (txt "params")) as [p0|] eqn:E0; [|done].
  destruct (p0 <? 0) eqn:Ep.
  { destruct (send_error _ _ _ _ _) as [[? ?]|]; [|done]. intros [= <- <-] ?. lia. }
  destruct (tok_find_key js t (Z.to_nat p0) (txt "function")) as [f|] eqn:Ef; [|done].
  destruct (f <? 0) eqn:Ef0.
  { destruct (tok_find_key _ _ _ (txt "direction")); [|done].
    match goal with |- context [(if ?b then ?x else ?y) ?w] => destruct ((if b then x else y) w) as [[? ?]|] end;
      [|done]. intros [= <- <-] ?. lia. }
  destruct (t !! Z.to_nat f) as [ft|] eqn:Et; [|done].
  destruct (tok_eq js ft (txt "rx")) eqn:Erx.
  - intros [= <- <-] _. split; [done|].
    destruct (streq cmd (txt "start_rx") || _ || _); [done|]. by rewrite Hcmd.
  - destruct (send_error _ _ _ _ _) as [[? ?]|]; [|done]. intros [= <- <-] ?. lia.
Qed.

Section Streams.
Context {D : Type} {P : Platform D} (e : Env) (s : nat) (Hs : (s < MAX_SESSIONS)%nat).
Context (id js : list Z) (t : list jsmntok_t).
Implicit Types w : World D.

#[local] Hint Extern 1 (stays _ (do_vita _)) => apply ready_vita : quiet.
#[local] Hint Extern 1 (stays _ (with_vita _)) => apply ready_with_vita : quiet.
#[local] Hint Extern 1 (stays _ (set_sess _ _)) => keep_sess : quiet.

Lemma r_refuse code m : hoare (holding (D := D) s) (refuse s id code m) (fun _ => ready s).
Proof.
  unfold refuse. eapply h_bind with (Q := fun _ => ready s); [|intros _; hleaf].
  eapply h_pre; [|by apply r_release]. by intros w [(? & _ & ?) _].
Qed.

Lemma holding_counter f :
  stays (holding (D := D) s) (modify (fun w => w <| w_stream_counter := f (w_stream_counter w) |>)).
Proof. apply s_modify. intros w H. exact H. Qed.

Lemma r_open_accept ip addr dp :
  hoare (holding (D := D) s) (open_accept e s id ip addr dp) (fun _ => ready s).
Proof.
  unfold open_accept, alloc_stream_id.
  eapply h_stay.
  { eapply h_stay; [apply (holding_counter (fun n => u32 (n + 1)))|intros _].
    eapply h_stay; [apply s_get|intros n]. apply holding_set; [done|]. by intros x. }
  intros _. cbv zeta. eapply h_bind with (Q := fun _ => ready s); [|intros _; hquiet].
  eapply h_pre; [|apply (ready_set s Hs (fun w => unlocked s w /\ no_stream s w /\ w_rx_owner w = Some s))].
  { by intros w [(? & ? & ?) ?]. }
  intros w Hr (Hu & Hn & Ho). pose proof (ready_ok s w Hr Hs) as []. split; [|done].
  unfold ok_at. split; cbn; try done. naive_solver.
Qed.

#[local] Hint Resolve r_refuse r_open_accept : quiet.

Ltac walk_holding :=
  repeat first
    [ lazymatch goal with
      | |- hoare _ (refuse _ _ _ _) _ => apply r_refuse
      | |- hoare _ (open_accept _ _ _ _ _ _) _ => apply r_open_accept
      end
    | hwalk ].

Lemma r_open_destination vi :
  hoare (holding (D := D) s) (open_destination e s id js t vi) (fun _ => ready s).
Proof. unfold open_destination. walk_holding. Qed.

Lemma r_open_vita vi : hoare (holding (D := D) s) (open_vita e s id js t vi) (fun _ => ready s).
Proof. unfold open_vita. walk_holding. all: apply r_open_destination. Qed.

(** The gate lets an open_stream through only from an unlocked session, or
    when it does not address rx. *)
Definition gate_passed (cmd : list Z) (w : World D) : Prop :=
  unlocked s w \/ cmd_addresses_rx cmd t js w = Some (false, w).

Lemma r_open_stream :
  hoare (fun w => ready s w /\ gate_passed (txt "open_stream") w)
    (cmd_open_stream e s id t js) (fun _ => ready s).
Proof.
  unfold cmd_open_stream.
  eapply h_bind with (Q := fun p w => ready s w /\ (0 <= p -> unlocked s w)).
  { intros w p w' [Hr Hg] E. split; [by eapply (q_require_function (ready s))|].
    intros Hp. destruct (require_function_gate s id js t w w' p (txt "open_stream") eq_refl E Hp)
      as [-> Ha]. destruct Hg as [Hu|Hf]; [done|congruence]. }
  intros p. destruct (Z.ltb_spec p 0); [hforget; hleaf|].
  apply h_pre with (P' := fun w => ready s w /\ unlocked s w); [by intros w [? ?]; auto|].
  hwalk. hwalk; [hforget; hleaf|]. apply h_get_bind. intros x.
  destruct (ss_stream_open x) eqn:Ex; [hforget; hleaf|].
  apply h_pre with (P' := may_open s); [by intros w [[? ?] ->]|].
  eapply h_bind; [by apply r_claim|]. intros claimed. destruct claimed; cbn [negb].
  2: { apply h_pre with (P' := ready s); [by intros w [[? _] _]|hleaf]. }
  apply h_pre with (P' := holding s); [intros w [? ?]; by split; auto|].
  hwalk. hwalk; [apply r_refuse|]. hwalk. hwalk; [apply r_refuse|]. hwalk. hwalk. hwalk.
  - eapply h_bind with (Q := fun _ => ready s); [|intros _; hquiet].
    eapply h_pre; [|by apply r_release]. by intros w [(? & _ & ?) _].
  - apply r_open_vita.
Qed.

(** The named stream is the session's own, and open. *)
Lemma r_stream_named :
  hoare (ready (D := D) s) (stream_named s id js t)
    (fun b w => ready s w /\ (b = true -> is_open s w)).
Proof.
  unfold stream_named. do 2 hwalk. hwalk.
  { eapply h_stay; [hleaf|intros _]. eapply h_post; [apply h_ret|]. by intros b w [? ->]. }
  hwalk. apply h_get_bind. intros x. cbv zeta.
  destruct (negb (ss_stream_open x) || _) eqn:E.
  { apply h_pre with (P' := ready s); [tauto|]. hwalk.
    eapply h_post; [apply h_ret|]. by intros b w [? ->]. }
  eapply h_post; [apply h_ret|]. intros b w [[Hr ->] ->]. split; [done|]. intros _.
  zbool. done.
Qed.

Lemma r_drop_vita : stays (ready (D := D) s) (drop_vita s).
Proof. unfold drop_vita. hquiet. Qed.

(** While the handler has stopped the reader but not yet the session: the
    other sessions are in order, and so is this one but for the count. *)
Definition stopping (w : World D) : Prop :=
  inv (Some s) w /\ 0 < ss_fd (sess w s) /\
  sess_ok (g_rx_auth (w_conf w)) (w_rx_owner w) 1 s (sess w s).

#[export] Instance stable_stopping : Stable stopping.
Proof. intros w o H. exact H. Qed.

Lemma ready_stopping w : ready s w -> stopping w.
Proof.
  intros Hr. pose proof (ready_ok s w Hr Hs) as []. destruct Hr as [Hi Hf].
  split; [by apply inv_weaken|]. split; [done|]. by split.
Qed.

Lemma r_bridge_stop :
  hoare (fun w => ready s w /\ ss_state (sess w s) = SESSION_STREAMING)
    (do_rtl rtl_bridge_stop ;;; do_rtl rtl_reset_adc_level)
    (fun _ w => stopping w /\ ss_state (sess w s) = SESSION_STREAMING).
Proof.
  intros w a w' [Hr Hst] [= _ <-]. pose proof (ready_stopping w Hr) as (_ & Hf & Hok).
  pose proof (ready_ok s w Hr Hs) as Hme. destruct Hr as [(H1 & H2 & H3 & H4) _].
  destruct (stop_spec (w_rtl w) H2) as [Hb Hc].
  split; [|done]. split; [|by split]. split; [done|]. split; [exact Hb|]. split; [done|].
  intros i x Hx Hi. destruct (H4 i x Hx) as []; [done|]. split; try done. cbn.
  intros Hst'. exfalso.
  assert (w_rx_owner w = Some s) as E1 by (apply Hme, Hme; auto).
  assert (w_rx_owner w = Some i) as E2 by auto. congruence.
Qed.

Lemma stopping_set (R : Session -> Prop) f :
  (forall a o n x, sess_ok a o 1 s x -> R x -> sess_ok a o n s (f x) /\ ss_fd (f x) = ss_fd x) ->
  hoare (fun w => stopping w /\ R (sess w s)) (set_sess s f)
    (fun _ w => ready s w /\ exists x, sess w s = f x).
Proof.
  intros Hf. apply h_modify. intros w [(Hi & Hfd & Hok) HR]. pose proof Hi as (Hl & _).
  split; [split|].
  - eapply inv_update; [exact Hi|congruence|]. intros x Hx _.
    apply sess_lookup in Hx as <-; [|done..]. by apply Hf.
  - rewrite sess_alter by done. by rewrite (proj2 (Hf _ _ 0 _ Hok HR)).
  - exists (sess w s). by apply sess_alter.
Qed.

Lemma r_start_rx : stays (ready (D := D) s) (cmd_start_rx e s id t js).
Proof.
  unfold cmd_start_rx. eapply h_bind; [apply r_stream_named|]. intros [|]; cbn [negb].
  2: { hforget. hleaf. }
  apply h_pre with (P' := fun w => ready s w /\ is_open s w); [by intros w [? ?]; auto|].
  apply h_get_bind. intros x. hwalk; [hforget; hleaf|].
  apply h_pre with (P' := fun w => ready s w /\ is_open s w); [tauto|].
  hwalk. eapply h_bind with (Q := fun _ w => ready s w /\ is_open s w).
  { intros w a0 w' [Hr Ho] E. split; [by eapply (ready_with_vita s)|]. revert E.
    unfold with_vita. destruct (vita_session_add _ _ _ _ _ _ _ _ _ _). by intros [= _ <-]. }
  intros token. eapply h_stay.
  { apply (with_minor s Hs (fun x => ss_stream_open x = true)); [|done]. by intros y. }
  intros _. hwalk; [hforget; hleaf|].
  eapply h_bind with (Q := fun rc w => ready s w /\ is_open s w /\
                                        (0 <= rc -> 1 <= s_stream_count (w_rtl w))).
  { intros w rc w' [Hr Ho] E. unfold with_rtl in E. pose proof Hr as [(H1 & H2 & H3 & H4) Hf].
    pose proof (start_spec (e_thread_ok e) (w_rtl w) H2) as Hsp.
    destruct (rtl_bridge_start _ _) as [rc' r']. injection E as -> <-.
    destruct Hsp as (Hb & Hrc & Hcnt & Hfail).
    assert (s_stream_count (w_rtl w) <= s_stream_count r') as Hle by (case_match; lia).
    split; [|split; [done|]].
    - split; [|done]. split; [done|]. split; [done|]. split; [done|].
      intros i y Hy Hi. destruct (H4 i y Hy Hi). split; try done. cbn. intros Hst. specialize (so_count0 Hst). lia.
    - intros Hge. cbn. destruct Hrc as [->| ->]; [|lia]. cbn in Hcnt. destruct H2. lia. }
  intros rc. destruct (Z.ltb_spec rc 0).
  { apply h_pre with (P' := ready s); [by intros w [? _]|]. hquiet. }
  eapply h_bind with (Q := fun _ => ready s); [|intros _; hquiet].
  eapply h_pre; [|apply (ready_set s Hs (fun w => is_open s w /\ 1 <= s_stream_count (w_rtl w)))];
    [by intros w (? & ? & Hc); auto|].
  intros w Hr [Ho Hc]. pose proof (ready_ok s w Hr Hs) as []. split; [|done]. by split.
Qed.

(** Removing the data stream of a session keeps what its state says. *)
Lemma drop_vita_with (R : Session -> Prop) :
  (forall x, R x -> R (x <| ss_vita_token := -1 |>)) ->
  stays (fun w : World D => ready s w /\ R (sess w s)) (drop_vita s).
Proof.
  intros HR. unfold drop_vita. apply h_get_bind. intros tk.
  apply h_pre with (P' := fun w => ready s w /\ R (sess w s)); [tauto|].
  destruct (0 <=? tk); [|apply s_ret]. eapply h_stay.
  - apply s_modify. intros w [Hr Hst]. split; [|done]. by eapply ready_frame.
  - intros _. apply (with_minor s Hs R); [|done]. by intros y.
Qed.

Lemma r_stop_rx : stays (ready (D := D) s) (cmd_stop_rx s id t js).
Proof.
  unfold cmd_stop_rx. hwalk. hwalk; [hleaf|]. apply h_get_bind. intros x.
  destruct (bool_decide _) eqn:Ex; cbn [negb]; [|hforget; hleaf]. apply bool_decide_eq_true in Ex.
  apply h_pre with (P' := fun w => ready s w /\ ss_state (sess w s) = SESSION_STREAMING);
    [by intros w [? ->]|].
  eapply h_stay; [by apply (drop_vita_with (fun x => ss_state x = SESSION_STREAMING))|].
  intros _. apply h_seq. eapply h_then; [apply r_bridge_stop|].
  eapply h_then; [apply (stopping_set (fun x => ss_state x = SESSION_STREAMING))|hforget; hquiet].
  intros au o n y [] Hy. split; [|done]. split; cbn; auto; congruence.
Qed.

(** Stopping the reader if, and only if, the session was streaming. *)
Lemma stop_if_streaming {A} (x : Session) (k : M D A) R :
  hoare stopping k R ->
  hoare (fun w => ready s w /\ x = sess w s)
    ((if bool_decide (ss_state x = SESSION_STREAMING)
      then do_rtl rtl_bridge_stop ;;; do_rtl rtl_reset_adc_level else ret tt) ;;; k) R.
Proof.
  intros Hk. eapply h_then; [|exact Hk]. case_bool_decide as Hx.
  - eapply h_conseq; [apply r_bridge_stop|by intros w [? ->]|]. by intros u w [? _].
  - eapply h_post; [apply h_ret|]. intros u w [[Hr _] _]. by apply ready_stopping.
Qed.

Lemma r_close_stream : stays (ready (D := D) s) (cmd_close_stream s id t js).
Proof.
  unfold cmd_close_stream. hwalk. hwalk; [hleaf|].
  eapply h_stay; [apply r_drop_vita|intros _]. apply h_get_bind. intros x. cbv zeta.
  apply stop_if_streaming.
  eapply h_then; [eapply h_pre; [|apply (stopping_set (fun _ => True))]; [done|]|].
  { intros au o n y [] _. split; [|done]. split; cbn; auto; try done. by intros [?|?]. }
  apply (h_then _ (ready s)); [|hquiet]. eapply h_pre; [|by apply r_release].
  intros w [Hr [y Hy]]. split; [done|]. unfold no_stream. by rewrite Hy.
Qed.
End Streams.
