(* ===== verification/Safety.v ===== *)
(** * What every reachable state of the server satisfies

    The life cycle of a session and the command loop preserve the invariant of
    Invariants.v, so it holds after every interleaving of the session threads,
    the accept loop and the USB thread. *)
From Stdlib Require Import SpecFloat.
From S2P Require Import Prelude CLib Jsmn JsonText JsonTok Sha256 Auth Config Rtl Vita World.
From S2P Require Import Session Commands RxCommands Server Quiet Invariants.
#[local] Open Scope Z_scope.

(** ** The life cycle of a session *)
Section LifeCycle.
Context {D : Type} {P : Platform D} (s : nat) (Hs : (s < MAX_SESSIONS)%nat).
Implicit Types w : World D.

(** The channel is not the session's, and everybody else is in order. *)
Definition detached (w : World D) : Prop := inv (Some s) w /\ w_rx_owner w <> Some s.

#[export] Instance stable_detached : Stable detached.
Proof. intros w o H. exact H. Qed.

Lemma detached_release : hoare (stopping (D := D) s) (cp_rx_release s) (fun _ => detached).
Proof.
  apply h_release; [apply _|]. intros w (Hi & _). split; [|apply released_owner].
  apply inv_released; auto.
Qed.

Lemma detached_bias (r : Rtl D) :
  stays detached (if g_bias_tee_enabled r && negb (g_bias_tee_persist r)
    then let* _ := with_rtl (rtl_set_bias_tee d_zero) in ret tt else ret tt).
Proof.
  case_match; [|apply s_ret]. eapply h_stay; [|intros _; apply s_ret].
  intros w a w' [Hi Ho]. unfold with_rtl.
  pose proof (set_bias_tee_reader d_zero (w_rtl w)) as [E1 E2].
  destruct (rtl_set_bias_tee _ _) as [b r']. intros [= <- <-]. split; [|done].
  by eapply inv_frame.
Qed.

Lemma detached_clear : hoare detached (set_sess s (fun _ => session_zero)) (fun _ => inv None).
Proof.
  apply h_modify. intros w [Hi Ho]. eapply inv_update; [exact Hi|congruence|].
  intros x _ _. split; cbn; try done; try (by intros [? | ?]).
  by rewrite bool_decide_eq_false_2.
Qed.

Lemma i_session_destroy : hoare (ready (D := D) s) (session_destroy s) (fun _ => inv None).
Proof.
  unfold session_destroy. eapply h_stay; [by apply r_drop_vita|intros _].
  apply h_get_bind. intros x. apply (h_then _ (stopping s)).
  - case_match eqn:Hx.
    + apply h_seq. eapply h_then with (P' := stopping s); [|hleaf].
      eapply h_conseq; [by apply r_bridge_stop|by intros w [? ->]|]. by intros u w [? _].
    + eapply h_post; [apply h_ret|]. intros u w [[Hr _] _]. by apply ready_stopping.
  - eapply h_then; [apply detached_release|]. eapply h_stay; [apply s_get|intros r].
    eapply h_then; [apply detached_bias|apply detached_clear].
Qed.
End LifeCycle.

Lemma free_slot_spec (l : list Session) (k i : nat) :
  free_slot l k = Some i -> exists x, l !! (i - k)%nat = Some x /\ ss_fd x = 0 /\ (k <= i)%nat.
Proof.
  revert k. induction l as [|x l IH]; intros k; cbn [free_slot]; [done|].
  destruct (Z.eqb_spec (ss_fd x) 0).
  - intros [= <-]. exists x. by rewrite Nat.sub_diag.
  - intros (y & Hy & Hf & Hle)%IH. exists y.
    replace (i - k)%nat with (S (i - S k)) by lia. split; [done|]. split; [done|lia].
Qed.

Section Accept.
Context {D : Type} {P : Platform D}.
Implicit Types w : World D.

(** A new session is in order and connected; nothing happens otherwise. *)
Lemma i_session_create (fd : Z) (ip : list Z) :
  0 < fd ->
  hoare (inv (D := D) None) (session_create fd ip)
    (fun r w => inv None w /\ forall i, r = Some i -> (i < MAX_SESSIONS)%nat /\ ready i w).
Proof.
  intros Hfd w r w' Hi. unfold session_create, bind, get.
  destruct (free_slot _ 0) as [i|] eqn:E; [|by intros [= <- <-]].
  apply free_slot_spec in E as (x & Hx & Hx0 & _). rewrite Nat.sub_0_r in Hx.
  pose proof Hi as (Hl & _ & _ & Hok).
  assert (i < MAX_SESSIONS)%nat as His by (rewrite <- Hl; by eapply lookup_lt_Some).
  assert (w_rx_owner w <> Some i) as Ho.
  { intros Ho. pose proof (so_live _ _ _ _ _ (Hok i x Hx ltac:(done)) Ho). lia. }
  unfold set_sess, modify, ret. intros [= <- <-].
  match goal with |- inv None ?v /\ _ => assert (inv None v) as Hv end.
  { eapply inv_update; [exact Hi|done|]. intros y _ _.
    split; cbn; try done; try lia; try (by intros [? | ?]). by rewrite bool_decide_eq_false_2. }
  split; [exact Hv|]. intros j [= <-]. split; [done|]. split; [exact Hv|].
  by rewrite sess_alter by done.
Qed.

Lemma i_accept_client (e : Env) (fd : Z) (ip : list Z) :
  0 < fd -> stays (inv (D := D) None) (accept_client e fd ip).
Proof.
  intros Hfd. unfold accept_client. eapply h_bind; [by apply i_session_create|].
  intros [i|]; cbv beta.
  - case_match.
    + eapply h_post; [apply h_ret|]. by intros ? w [[? _] _].
    + apply (h_fact _ (i < MAX_SESSIONS)%nat); [intros w [_ H2]; by apply H2|]. intros His.
      eapply h_pre; [|by apply i_session_destroy]. intros w [_ H2]. by apply H2.
  - eapply h_post; [apply h_ret|]. by intros ? w [[? _] _].
Qed.

Lemma i_rtl_callback (now : Z) (buf : list Z) :
  stays (inv (D := D) None) (rtl_callback now buf).
Proof.
  unfold rtl_callback. eapply h_stay; [apply s_get|intros r]. case_match; [apply s_ret|].
  eapply h_stay; [apply s_modify; intros w Hi; by eapply inv_frame|intros _].
  eapply h_stay.
  { intros w a w' Hi. unfold with_rtl. pose proof (measure_reader now buf (w_rtl w)) as [E1 E2].
    destruct (measure_adc_level now buf (w_rtl w)) as [r' ev]. intros [= <- <-].
    by eapply inv_frame. }
  intros ev. eapply h_stay; [destruct ev; [apply q_adc_overload; apply _|apply s_ret]|].
  intros _. apply s_modify. intros w Hi. by eapply inv_frame.
Qed.
End Accept.

(** ** The command loop *)
Lemma lookup_cmd_In {D : Type} (cmd : list Z) (l : list (list Z * cmd_fn (D := D))) f :
  lookup_cmd cmd l = Some f -> exists n, In (n, f) l /\ streq cmd n = true.
Proof.
  induction l as [|[n g] l IH]; cbn [lookup_cmd]; [done|].
  destruct (streq cmd n) eqn:E.
  - intros [= ->]. exists n. split; [by left|done].
  - intros (m & Hm & Es)%IH. exists m. split; [by right|done].
Qed.

Section Loop.
Context {D : Type} {P : Platform D} (e : Env) (s : nat) (Hs : (s < MAX_SESSIONS)%nat).
Implicit Types w : World D.

Lemma i_dispatch (cmd id : list Z) (t : list jsmntok_t) (js : list Z) :
  hoare (fun w => ready s w /\ gate_passed s js t cmd w) (dispatch e s cmd id t js)
    (fun _ => ready s).
Proof.
  unfold dispatch. apply (h_then _ (ready s)); [|apply s_get].
  destruct (lookup_cmd cmd (s_dispatch e)) as [f|] eqn:E; [|hforget; hleaf].
  apply lookup_cmd_In in E as (n & Hin & En). apply bool_decide_eq_true in En as ->.
  cbn [s_dispatch In] in Hin.
  repeat match type of Hin with _ \/ _ => destruct Hin as [Hin|Hin] end; try done;
    apply pair_equal_spec in Hin as [<- <-]; try (by apply r_open_stream); hforget;
    first [by apply r_hello|by apply r_authenticate|by apply r_get_capabilities
          |by apply r_set_frequency|by apply r_set_sample_rate|by apply r_set_control
          |by apply r_start_rx|by apply r_stop_rx|by apply r_close_stream
          |hleaf].
Qed.

Lemma addresses_pure (cmd : list Z) (t : list jsmntok_t) (js : list Z) (w w' : World D) (b : bool) :
  cmd_addresses_rx cmd t js w = Some (b, w') -> w' = w.
Proof.
  unfold cmd_addresses_rx, find_params, find, tok, lift, bind, ret.
  intros H. repeat case_match; by simplify_eq.
Qed.

Lemma i_gated_dispatch (cmd id : list Z) (t : list jsmntok_t) (js : list Z) :
  stays (ready (D := D) s) (gated_dispatch e s cmd id t js).
Proof.
  unfold gated_dispatch. apply h_get_bind. intros c. apply h_get_bind. intros x.
  eapply h_bind with (Q := fun b w => ready s w /\ (b = false -> gate_passed s js t cmd w)).
  - intros w b w' [[Hr ->] ->]. destruct (g_rx_auth (w_conf w)) eqn:Ea; cbn [andb];
      [destruct (ss_rx_unlocked (sess w s)) eqn:Eu; cbn [negb]|].
    1, 3: intros [= <- <-]; split; [done|]; intros _; left; unfold unlocked; congruence.
    intros E. pose proof (addresses_pure _ _ _ _ _ _ E) as ->. split; [done|]. intros ->. by right.
  - intros [|].
    + hforget. hquiet.
    + eapply h_pre; [|apply i_dispatch]. intros w [Hr Hg]. auto.
Qed.

Lemma i_process_request (ntok : Z) (t : list jsmntok_t) (js : list Z) :
  stays (ready (D := D) s) (process_request e s ntok t js).
Proof.
  pose proof i_gated_dispatch as Hg. unfold process_request. hquiet.
Qed.

Lemma i_process_message (len : nat) (v v' : Srv D) :
  ready s (sv_world v) -> process_message e s len v = Some v' -> inv None (sv_world v').
Proof.
  intros Hr. unfold process_message. destruct (jsmn_parse _ _ _ _ _) as [ntok t].
  destruct (process_request _ _ _ _ _ _) as [[stop w]|] eqn:E; [|done].
  apply i_process_request in E; [|done].
  destruct stop; [destruct (session_destroy s w) as [[? w2]|] eqn:Ed; [|done]|];
    intros [= <-]; cbn; [|apply E].
  by eapply i_session_destroy.
Qed.
End Loop.

Section Step.
Context {D : Type} {P : Platform D}.
Implicit Types v : Srv D.

Lemma step_inv v v' : step v v' -> inv None (sv_world v) -> inv None (sv_world v').
Proof.
  intros Hst Hi. destruct Hst as [v e fd ip w' Hfd Hw|v s payload Hs|v e s len v' Hs Hl _ Hp
    |v s w' Hs Hl _ Hw|v now buf w' _ Hw]; cbn.
  - by eapply i_accept_client.
  - exact Hi.
  - by eapply i_process_message; [|split|].
  - by eapply i_session_destroy; [| |exact Hw].
  - by eapply i_rtl_callback.
Qed.

Lemma initial_inv (c : Conf) (r : Rtl D) (ctx : bool) :
  bridge_ok r -> inv None (world_initial c r ctx).
Proof.
  intros Hr. split; [done|]. split; [done|]. split; [done|].
  intros i x Hx _. apply lookup_replicate in Hx as [-> _].
  split; cbn; try done; by intros [? | ?].
Qed.

Lemma reachable_inv (c : Conf) (r : Rtl D) v :
  bridge_ok r -> reachable c r v -> inv None (sv_world v).
Proof.
  intros Hr (ctx & buf & toks & _ & Hst). eapply (rtc_ind_r (fun v => inv None (sv_world v)));
    [|intros ? ? _; by apply step_inv|exact Hst].
  by apply initial_inv.
Qed.
End Step.

(** ** Running the server

    A script of inputs and its execution, to reach concrete states. *)
Inductive action : Type :=
  | AAccept (e : Env) (fd : Z) (ip : list Z)
  | AReceive (s : nat) (payload : list Z)
  | AProcess (e : Env) (s : nat)
  | ADisconnect (s : nat)
  | AUsb (now : Z) (buf : list Z).

Definition byteb (x : Z) : bool := (0 <=? x) && (x <? 256).

Section Run.
Context {D : Type} {P : Platform D}.

Definition in_turn (s : nat) (v : Srv D) : bool :=
  (s <? MAX_SESSIONS)%nat && (0 <? ss_fd (sess (sv_world v) s)).

Definition act (a : action) (v : Srv D) : option (Srv D) :=
  match a with
  | AAccept e fd ip =>
      if 0 <? fd then
        '(_, w) ← accept_client e fd ip (sv_world v); Some (v <| sv_world := w |>)
      else None
  | AReceive s payload =>
      if in_turn s v && bool_decide (sv_pending v !! s = Some None) && forallb byteb payload
         && (0 <? Z.of_nat (length payload)) && (Z.of_nat (length payload) <=? MAX_MSG_BYTES)
      then Some (store_message s payload v) else None
  | AProcess e s =>
      match sv_pending v !! s with
      | Some (Some len) => if in_turn s v then process_message e s len v else None
      | _ => None
      end
  | ADisconnect s =>
      if in_turn s v && bool_decide (sv_pending v !! s = Some None) then
        '(_, w) ← session_destroy s (sv_world v); Some (v <| sv_world := w |>)
      else None
  | AUsb now buf =>
      if forallb byteb buf then
        '(_, w) ← rtl_callback now buf (sv_world v); Some (v <| sv_world := w |>)
      else None
  end.

Fixpoint run (l : list action) (v : Srv D) : option (Srv D) :=
  match l with
  | [] => Some v
  | a :: l' => v' ← act a v; run l' v'
  end.

Lemma forallb_bytes (l : list Z) : forallb byteb l = true -> bytes_ok l.
Proof.
  intros H. apply Forall_forall. intros x Hx. rewrite forallb_forall in H.
  apply list_elem_of_In in Hx. apply H in Hx. unfold byteb in Hx. unfold is_byte. lia.
Qed.

Lemma in_turn_spec s (v : Srv D) : in_turn s v = true -> (s < MAX_SESSIONS)%nat /\ live v s.
Proof. unfold in_turn, live. intros H. zbool. split; lia. Qed.

Lemma act_step a (v v' : Srv D) : act a v = Some v' -> step v v'.
Proof.
  destruct a as [e fd ip|s payload|e s|s|now buf]; cbn [act]; intros H.
  - case_match eqn:Hf; [|done]. destruct (accept_client _ _ _ _) as [[[] w]|] eqn:E; [|done].
    injection H as <-. apply Z.ltb_lt in Hf. by econstructor.
  - case_match eqn:Hg; [|done]. injection H as <-.
    rewrite !andb_true_iff, bool_decide_eq_true, Z.ltb_lt, Z.leb_le in Hg.
    destruct Hg as ((((Hg & Hp) & Hb) & Hlo) & Hhi). apply in_turn_spec in Hg as [Hs Hl].
    apply step_receive; try done. by apply forallb_bytes.
  - destruct (sv_pending v !! s) as [[len|]|] eqn:Ep; [|done..]. case_match eqn:Hg; [|done].
    apply in_turn_spec in Hg as [Hs Hl]. by eapply step_process.
  - case_match eqn:Hg; [|done]. destruct (session_destroy s _) as [[[] w]|] eqn:E; [|done].
    injection H as <-. rewrite andb_true_iff, bool_decide_eq_true in Hg. destruct Hg as [Hg Hp].
    apply in_turn_spec in Hg as [Hs Hl]. by apply (step_disconnect v s w).
  - case_match eqn:Hb; [|done]. destruct (rtl_callback _ _ _) as [[[] w]|] eqn:E; [|done].
    injection H as <-. apply forallb_bytes in Hb. by econstructor.
Qed.

Lemma run_steps l (v v' : Srv D) : run l v = Some v' -> rtc step v v'.
Proof.
  revert v. induction l as [|a l IH]; intros v; cbn [run]; [by intros [= <-]|].
  destruct (act a v) as [v1|] eqn:E; [|done]. cbn. intros H. econstructor; [by eapply act_step|].
  by apply IH.
Qed.
End Run.

(** ** A sample server

    The test build's device, initialised as main does; one client connects, greets,
    opens a stream and starts it. *)
Module Sample.
Definition conf (auth : bool) (ring : auth_keyring_t) : Conf :=
  mkConf auth ring (txt "SLC-AABBCC") 4621 (d_dec 1274 (-1)).

Definition env : Env :=
  mkEnv 5000000000 1700000000 123456789 [RGot (replicate 16 1)] true (Some [192; 168; 1; 5])
    None (fun _ => None) (fun _ => None) sha_junk.

Definition rtl : Rtl Stub :=
  (rtl_bridge_init SAMPLING_NORMAL d_zero false 0 stub_initial rtl_initial).2.

Definition buf : list Z := replicate (Z.to_nat 65537) 0.

Definition toks : list (list jsmntok_t) := replicate MAX_SESSIONS (replicate MAX_JSON_TOKENS inhabitant).

Definition server (auth : bool) (ring : auth_keyring_t) : Srv Stub :=
  srv_initial (conf auth ring) rtl true buf toks.

(** A message received and processed at once. *)
Definition request (s : nat) (text : list Z) : list action := [AReceive s text; AProcess env s].

Definition hello (s : nat) : list action :=
  request s (jq "{'type':'request','id':'1','command':'hello','params':{'supported_protocol_versions':['1.0']}}").

Definition open (s : nat) : list action :=
  request s (jq "{'type':'request','id':'2','command':'open_stream','params':{'function':'rx','protocol':'vita49','vita':{'destination':{'ip':'10.0.0.9','port':5000}}}}").

Definition start (s : nat) : list action :=
  request s (jq "{'type':'request','id':'3','command':'start_rx','params':{'stream_id':'rx-1'}}").

Definition close (s : nat) : list action :=
  request s (jq "{'type':'request','id':'4','command':'close_stream','params':{'stream_id':'rx-1'}}").

(** The reply a holder of [key] gives to the nonce of [env]. *)
Definition login_text (key : list Z) : list Z :=
  jq "{'type':'request','id':'5','command':'authenticate','params':{'method':'psk-hmac-sha256','response':'"
    ++ auth_hex (HMAC key (replicate 16 1)) ++ jq "'}}".

Definition login (s : nat) (key : list Z) : list action := request s (login_text key).

Definition tune_text : list Z :=
  jq "{'type':'request','id':'t','command':'set_frequency','params':{'function':'rx','frequency_hz':7100000}}".

Definition connect (fd : Z) : list action := [AAccept env fd [10; 0; 0; 9]].

Definition after (l : list action) (v : Srv Stub) : Srv Stub := default v (run l v).

(** A message handled on its own. *)
Definition parsed (text : list Z) : Z * list jsmntok_t :=
  jsmn_parse jsmn_init (text ++ [0]) (length text) (replicate MAX_JSON_TOKENS inhabitant)
    MAX_JSON_TOKENS.

Definition handled (s : nat) (text : list Z) (w : World Stub) : option (bool * World Stub) :=
  process_request env s (parsed text).1 (parsed text).2 (text ++ [0]) w.

Lemma handled_eq (s : nat) (text : list Z) (w : World Stub) :
  handled s text w = process_request env s (parsed text).1 (parsed text).2 (text ++ [0]) w.
Proof. reflexivity. Qed.

Lemma buffers : buffers_ok buf toks.
Proof.
  split; [vm_compute; reflexivity|]. split; [done|]. by apply Forall_replicate.
Qed.

Lemma rtl_ok : bridge_ok rtl.
Proof. vm_compute. by split. Qed.

(** A script that runs to its end reaches its last state. *)
Lemma reached (auth : bool) (ring : auth_keyring_t) (l : list action) :
  bool_decide (is_Some (run l (server auth ring))) = true ->
  reachable (conf auth ring) rtl (after l (server auth ring)).
Proof.
  intros H%bool_decide_eq_true. exists true, buf, toks. split; [apply buffers|]. unfold after.
  destruct (run l (server auth ring)) as [v|] eqn:E; [by eapply run_steps|by apply is_Some_None in H].
Qed.
End Sample.

(** C1: exclusive use of the receiver.  In every state the server can reach,
    under any interleaving of its threads and any input from clients and
    hardware: a session's own flag agrees with the global owner; a session has a
    stream open only while it is connected and owns the rx channel, hence at most
    one session has one; only a session with an open stream streams, and while
    one does the bridge counts it; with authentication on, only an unlocked
    session ever has a stream; and the USB reader runs exactly while the bridge
    counts somebody. *)
Theorem rx_exclusive {D : Type} {P : Platform D} (c : Conf) (r : Rtl D) (v : Srv D) :
  bridge_ok r -> reachable c r v ->
  let w := sv_world v in
  (forall i x, w_sessions w !! i = Some x ->
     ss_owns_rx x = bool_decide (w_rx_owner w = Some i) /\
     (ss_stream_open x = true -> w_rx_owner w = Some i /\ 0 < ss_fd x) /\
     (ss_state x = SESSION_STREAMING -> ss_stream_open x = true /\ 1 <= s_stream_count (w_rtl w)) /\
     (g_rx_auth (w_conf w) = true -> ss_stream_open x = true -> ss_rx_unlocked x = true)) /\
  (forall i j x y, w_sessions w !! i = Some x -> w_sessions w !! j = Some y ->
     ss_stream_open x = true -> ss_stream_open y = true -> i = j) /\
  rtl_running (w_rtl w) = (0 <? s_stream_count (w_rtl w)).
Proof.
  intros Hr Hv. destruct (reachable_inv c r v Hr Hv) as (_ & [_ Hb] & _ & Hok). cbn zeta.
  split; [|split; [|exact Hb]].
  - intros i x Hx. destruct (Hok i x Hx) as []; [done|]. auto 10.
  - intros i j x y Hx Hy Ox Oy. 
    pose proof (so_open _ _ _ _ _ (Hok i x Hx ltac:(done)) Ox) as E.
    rewrite (so_open _ _ _ _ _ (Hok j y Hy ltac:(done)) Oy) in E. congruence.
Qed.

(** A client streams; another one, connected too, is refused the channel. *)
Definition two_clients : list action :=
  Sample.connect 7 ++ Sample.connect 8 ++ Sample.hello 0 ++ Sample.hello 1
    ++ Sample.open 0 ++ Sample.open 1 ++ Sample.start 0 ++ [AUsb 77 (replicate 8 128)].

Lemma rx_exclusive_witness :
  let w := sv_world (Sample.after two_clients (Sample.server false (mkRing [] [] false))) in
  (forall i x, w_sessions w !! i = Some x -> ss_stream_open x = true -> w_rx_owner w = Some i) /\
  w_rx_owner w = Some 0%nat /\ (ss_state <$> w_sessions w !! 0%nat) = Some SESSION_STREAMING /\
  rtl_running (w_rtl w) = true.
Proof.
  pose proof (Sample.reached false (mkRing [] [] false) two_clients
    ltac:(vm_compute; reflexivity)) as Hv.
  cbn zeta. split; [|vm_compute; auto]. revert Hv.
  generalize (Sample.after two_clients (Sample.server false (mkRing [] [] false))).
  intros v Hv i x Hx Hopen. destruct (rx_exclusive _ _ v Sample.rtl_ok Hv) as [H _].
  by apply (H i x).
Defined.
