(* ===== verification/Kept.v ===== *)
(** * Invariants kept by every handler

    Many invariants are kept by each handler on its own, by the start and the end of
    a session, and by the USB callback.  [Kept] is this interface; what it promises
    holds in every reachable state of the server ([kept_reachable]). *)
From Stdlib Require Import SpecFloat.
From S2P Require Import Prelude CLib Jsmn JsonText JsonTok Sha256 Auth Config Rtl Vita World.
From S2P Require Import Session Commands RxCommands Server Quiet Invariants Safety.
#[local] Open Scope Z_scope.

Class Kept {D : Type} {P : Platform D} (I : World D -> Prop) : Prop := {
  kept_out : Stable I;
  kept_hello e s id t js : stays I (cmd_hello e s id t js);
  kept_authenticate e s id t js : stays I (cmd_authenticate e s id t js);
  kept_get_capabilities s id t js : stays I (cmd_get_capabilities s id t js);
  kept_set_frequency s id t js : stays I (cmd_set_frequency s id t js);
  kept_set_sample_rate s id t js : stays I (cmd_set_sample_rate s id t js);
  kept_set_control s id t js : stays I (cmd_set_control s id t js);
  kept_open_stream e s id t js : stays I (cmd_open_stream e s id t js);
  kept_start_rx e s id t js : stays I (cmd_start_rx e s id t js);
  kept_stop_rx s id t js : stays I (cmd_stop_rx s id t js);
  kept_close_stream s id t js : stays I (cmd_close_stream s id t js);
  kept_create fd ip : stays I (session_create fd ip);
  kept_destroy s : stays I (session_destroy s);
  kept_callback now buf : stays I (rtl_callback now buf)
}.

Section Kept.
Context {D : Type} {P : Platform D} (I : World D -> Prop) {HI : Kept I}.

#[local] Instance kept_stable : Stable I := kept_out.

#[local] Hint Resolve kept_hello kept_authenticate kept_get_capabilities kept_set_frequency kept_set_sample_rate
  kept_set_control kept_open_stream kept_start_rx kept_stop_rx kept_close_stream kept_destroy : quiet.

Lemma kept_dispatch (e : Env) (s : nat) (cmd id : list Z) (t : list jsmntok_t) (js : list Z) :
  stays I (dispatch e s cmd id t js).
Proof.
  unfold dispatch. eapply h_stay; [|intros _; apply s_get].
  destruct (lookup_cmd cmd (s_dispatch e)) as [f|] eqn:E; [|hleaf].
  apply lookup_cmd_In in E as (n & Hin & _). cbn [s_dispatch In] in Hin.
  repeat match type of Hin with _ \/ _ => destruct Hin as [Hin|Hin] end; try done;
    apply pair_equal_spec in Hin as [_ <-]; hleaf.
Qed.

Lemma kept_process_request (e : Env) (s : nat) (ntok : Z) (t : list jsmntok_t) (js : list Z) :
  stays I (process_request e s ntok t js).
Proof. pose proof (kept_dispatch e s) as Hd. unfold process_request, gated_dispatch. hquiet. Qed.

Lemma kept_accept (e : Env) (fd : Z) (ip : list Z) : stays I (accept_client e fd ip).
Proof.
  unfold accept_client. eapply h_stay; [apply kept_create|]. intros r. destruct r; [|apply s_ret].
  case_match; [apply s_ret|apply kept_destroy].
Qed.

Lemma kept_step (v v' : Srv D) : step v v' -> I (sv_world v) -> I (sv_world v').
Proof.
  intros Hst Hi. destruct Hst as [v e fd ip w' _ Hw|v s payload|v e s len v' _ _ _ Hp
    |v s w' _ _ _ Hw|v now buf w' _ Hw]; cbn.
  - by eapply kept_accept.
  - exact Hi.
  - revert Hp. unfold process_message. destruct (jsmn_parse _ _ _ _ _) as [ntok t].
    destruct (process_request _ _ _ _ _ _) as [[stop w]|] eqn:E; [|done].
    apply kept_process_request in E; [|done].
    destruct stop; [destruct (session_destroy s w) as [[? w2]|] eqn:Ed; [|done]|];
      intros [= <-]; cbn; [|exact E]. by eapply kept_destroy.
  - by eapply kept_destroy.
  - by eapply kept_callback.
Qed.

(** What holds at the start holds in every reachable state. *)
Lemma kept_reachable (c : Conf) (r : Rtl D) (v : Srv D) :
  (forall ctx, I (world_initial c r ctx)) -> reachable c r v -> I (sv_world v).
Proof.
  intros H0 (ctx & buf & toks & _ & Hst).
  specialize (H0 ctx). change (I (sv_world (srv_initial c r ctx buf toks))) in H0. revert H0.
  induction Hst as [|v v1 v2 Hs _ IH]; [done|]. intros Hv. apply IH. by eapply kept_step.
Qed.
End Kept.
