(* ===== verification/Steady.v ===== *)
(** * What the commands do to the sender

    Every command but start_rx, stop_rx and close_stream reaches the sender only by
    sending Context packets and by changing the payload format, and leaves alone
    which session has which stream there.  [Steady] is the interface: a predicate on
    worlds closed under what these commands do to it; each of them preserves every
    such predicate. *)
From Stdlib Require Import SpecFloat.
From S2P Require Import Prelude CLib Jsmn JsonText JsonTok Sha256 Auth Config Rtl Vita World.
From S2P Require Import Session Commands RxCommands Server Quiet Invariants.
#[local] Open Scope Z_scope.

(** An update of a session that keeps its stream in the sender. *)
Definition steady_update (f : Session -> Session) : Prop :=
  forall x, ss_fd (f x) = ss_fd x /\ ss_vita_token (f x) = ss_vita_token x /\
    (ss_stream_open x = true -> ss_stream_open (f x) = true).

Class Steady {D : Type} (I : World D -> Prop) : Prop := {
  steady_out w o : I w -> I (w <| w_out := o |>);
  steady_context w g : I w -> I (w <| w_vita := vita_send_context_all g (w_vita w) |>);
  steady_format w pf : I w -> I (w <| w_vita := vita_update_payload_format pf (w_vita w) |>);
  steady_rtl w r : reader_same (w_rtl w) r -> I w -> I (w <| w_rtl := r |>);
  steady_session w s f : steady_update f -> I w -> I (w <| w_sessions := alter f s (w_sessions w) |>);
  steady_gains w g d : I w -> I (w <| w_gains := g |> <| w_gain_default := d |>);
  steady_owner w o : I w -> I (w <| w_rx_owner := o |>);
  steady_counter w n : I w -> I (w <| w_stream_counter := n |>)
}.

#[export] Instance stable_steady {D : Type} (I : World D -> Prop) : Steady I -> Stable I.
Proof. intros H w o. apply steady_out. Qed.

#[export] Instance steady_and {D : Type} (I J : World D -> Prop) :
  Steady I -> Steady J -> Steady (fun w => I w /\ J w).
Proof. intros HI HJ. split; intros; split; first [by apply HI|by apply HJ|apply HI; tauto|apply HJ; tauto]. Qed.

Section Handlers.
Context {D : Type} {P : Platform D} (I : World D -> Prop) {HI : Steady I}.
Context (e : Env) (s : nat) (id js : list Z) (t : list jsmntok_t).
Implicit Types w : World D.

Lemma t_rtl {A} (f : Rtl D -> A * Rtl D) : (forall r, reader_same r (f r).2) -> stays I (with_rtl f).
Proof.
  intros Hf w a w' Hw. unfold with_rtl. specialize (Hf (w_rtl w)). destruct (f (w_rtl w)) as [b r].
  intros [= _ <-]. by apply steady_rtl.
Qed.

Lemma t_session i f : steady_update f -> stays I (set_sess i f).
Proof. intros Hf. apply s_modify. intros w. by apply steady_session. Qed.

Lemma t_context g : stays I (do_vita (vita_send_context_all g)).
Proof. apply s_modify. intros w. apply steady_context. Qed.

Lemma t_format pf : stays I (do_vita (vita_update_payload_format pf)).
Proof. apply s_modify. intros w. apply steady_format. Qed.

#[local] Hint Resolve t_context t_format : quiet.
#[local] Hint Extern 1 (stays _ (set_sess _ _)) =>
  apply t_session; intros ?; repeat case_match; done : quiet.
#[local] Hint Extern 1 (stays _ (with_rtl _)) =>
  apply t_rtl; intros; first [apply set_frequency_reader|apply set_sample_rate_reader
    |apply set_agc_reader|apply set_bias_tee_reader|apply set_direct_sampling_reader
    |apply set_ppm_reader] : quiet.

Lemma t_gains : stays I load_gain_table.
Proof.
  unfold load_gain_table. hwalk. hwalk; [hleaf|]. do 2 hwalk.
  hwalk; apply s_modify; intros w; apply steady_gains.
Qed.
#[local] Hint Resolve t_gains : quiet.

Lemma t_context_all : stays I context_all.
Proof. unfold context_all. hquiet. Qed.
#[local] Hint Resolve t_context_all : quiet.

Lemma t_configure : stays I (configure_params s id js t).
Proof. unfold configure_params. hquiet. Qed.
#[local] Hint Resolve t_configure : quiet.

Lemma t_hello : stays I (cmd_hello e s id t js).
Proof. unfold cmd_hello, auth_object. hquiet. Qed.

Lemma t_authenticate : stays I (cmd_authenticate e s id t js).
Proof. unfold cmd_authenticate, auth_refused. hquiet. Qed.

Lemma t_get_capabilities : stays I (cmd_get_capabilities s id t js).
Proof. unfold cmd_get_capabilities, build_capabilities_json. hquiet. Qed.

Lemma t_set_frequency : stays I (cmd_set_frequency s id t js).
Proof. unfold cmd_set_frequency. hquiet. Qed.

Lemma t_set_sample_rate : stays I (cmd_set_sample_rate s id t js).
Proof. unfold cmd_set_sample_rate. hquiet. Qed.

Lemma t_mode_change : stays I apply_mode_change_side_effects.
Proof. unfold apply_mode_change_side_effects. hquiet. Qed.
#[local] Hint Resolve t_mode_change : quiet.

Lemma t_set_rf_gain vt v : stays I (set_rf_gain s id js vt v).
Proof.
  unfold set_rf_gain. hwalk; [hleaf|]. apply h_get_bind. intros r. hwalk; [hforget; hleaf|].
  eapply h_bind with (Q := fun _ w => I w /\ reader_same (w_rtl w) r).
  { intros w a w' [Hw ->] E. split; [by eapply t_gains|]. by rewrite (load_gains_rtl _ _ _ E). }
  intros _. apply h_get_bind. intros gs. hwalk; [hforget; hleaf|].
  eapply h_bind; [apply h_lift|]. intros [applied r'].
  apply (h_then _ I); [|hquiet]. apply h_modify. intros w [[[Hw [R1 R2]] _] E].
  apply set_gain_reader in E as [E1 E2]. apply steady_rtl; [|done]. split; congruence.
Qed.

Lemma t_set_direct_sampling vt v : stays I (set_direct_sampling s id js vt v).
Proof. unfold set_direct_sampling. hquiet. Qed.
#[local] Hint Resolve t_set_rf_gain t_set_direct_sampling : quiet.

Lemma t_set_control : stays I (cmd_set_control s id t js).
Proof. unfold cmd_set_control, set_agc, set_bias_tee, set_ppm. hquiet. Qed.

Lemma t_release : stays I (cp_rx_release s).
Proof.
  unfold cp_rx_release. hwalk. cbv zeta.
  eapply h_stay; [apply s_modify; intros w Hw; case_match; [by apply steady_owner|done]|intros _].
  hquiet.
Qed.

Lemma t_claim : stays I (cp_rx_claim s).
Proof.
  unfold cp_rx_claim. hwalk. hwalk; [|hleaf].
  eapply h_stay; [apply s_modify; intros w Hw; by apply steady_owner|intros _]. hquiet.
Qed.
#[local] Hint Resolve t_release t_claim : quiet.

Lemma t_alloc : stays I (alloc_stream_id s).
Proof.
  unfold alloc_stream_id.
  eapply h_stay; [apply s_modify; intros w Hw; by apply steady_counter|intros _]. hquiet.
Qed.
#[local] Hint Resolve t_alloc : quiet.

Lemma t_open_stream : stays I (cmd_open_stream e s id t js).
Proof. unfold cmd_open_stream, open_vita, open_destination, refuse, open_accept. hquiet. Qed.
End Handlers.
