(* ===== verification/Requests.v ===== *)
(** * Requests, as a client writes them

    The handlers read tokens; the theorems about them speak of the JSON value a
    client sent.  [message] ties the two: the message buffer and the token array
    hold that value.  Here are the equations by which a handler runs on such a
    message, the world after a reply and after an event ([post]), and the way of a
    request from the message buffer to its handler ([request_runs]). *)
From Stdlib Require Import SpecFloat.
From S2P Require Import Prelude CLib Jsmn JsonText JsonTok Sha256 Auth Config Rtl Vita World.
From S2P Require Import Session Commands RxCommands Server Quiet Invariants Safety.
#[local] Open Scope Z_scope.

Abbreviation members := (list (list Z * json)) (only parsing).

(** ** What a scalar says *)

(** A value whose token spans the text [x]. *)
Definition says (v : json) (x : list Z) : Prop := v = JStr x \/ v = JPrim x.

(** A text short enough for a field of [cap] octets, and without NUL. *)
Definition fits_field (cap : nat) (x : list Z) : Prop := (length x < cap)%nat /\ cstr x = x.

Section Reading.
Context (js : list Z) (t : list jsmntok_t).

Lemma located_says (i : nat) (v : json) (x : list Z) :
  located js t i v -> says v x -> exists tk, t !! i = Some tk /\ tk_type tk = tok_type v /\ spans js tk x.
Proof.
  intros Hl Hv. destruct (located_head _ _ _ _ Hl) as (tk & s & Htk & Hty & _ & Hsp & Hp).
  exists tk. split; [done|]. split; [done|]. destruct Hv as [-> | ->]; [done|]. by rewrite (Hp x) in Hsp.
Qed.

Lemma spans_str (tk : jsmntok_t) (x : list Z) (cap : nat) :
  spans js tk x -> fits_field cap x -> Z.of_nat cap < 2 ^ 64 -> tok_str js tk cap = x.
Proof.
  intros Hs [Hl Hc] Hcap. rewrite (tok_str_spans _ _ _ _ Hs) by lia. by rewrite take_ge by lia.
Qed.
End Reading.

(** ** Running a handler *)
Section Running.
Context {D : Type} {P : Platform D}.

Lemma run_bind {A B} (m : M D A) (k : A -> M D B) (w w1 : World D) (a : A) :
  m w = Some (a, w1) -> bind m k w = k a w1.
Proof. unfold bind. by intros ->. Qed.

Lemma run_get {A B} (f : World D -> A) (k : A -> M D B) (w : World D) : bind (get f) k w = k (f w) w.
Proof. reflexivity. Qed.

Lemma run_ret {A B} (a : A) (k : A -> M D B) (w : World D) : bind (ret a) k w = k a w.
Proof. reflexivity. Qed.

Lemma run_modify {B} (f : World D -> World D) (k : unit -> M D B) (w : World D) : bind (modify f) k w = k tt (f w).
Proof. reflexivity. Qed.

Lemma run_rtl {A B} (g : Rtl D -> A * Rtl D) (a : A) (r : Rtl D) (k : A -> M D B) (w : World D) :
  g (w_rtl w) = (a, r) -> bind (with_rtl g) k w = k a (w <| w_rtl := r |>).
Proof. unfold with_rtl, bind. by intros ->. Qed.

Lemma run_vita {A B} (g : Vita -> A * Vita) (a : A) (v : Vita) (k : A -> M D B) (w : World D) :
  g (w_vita w) = (a, v) -> bind (with_vita g) k w = k a (w <| w_vita := v |>).
Proof. unfold with_vita, bind. by intros ->. Qed.

Lemma run_do_vita {B} (g : Vita -> Vita) (k : unit -> M D B) (w : World D) :
  bind (do_vita g) k w = k tt (w <| w_vita := g (w_vita w) |>).
Proof. reflexivity. Qed.

Lemma run_do_rtl {B} (g : Rtl D -> Rtl D) (k : unit -> M D B) (w : World D) :
  bind (do_rtl g) k w = k tt (w <| w_rtl := g (w_rtl w) |>).
Proof. reflexivity. Qed.

Lemma run_session {B} (s : nat) (f : Session -> Session) (k : unit -> M D B) (w : World D) :
  bind (set_sess s f) k w = k tt (w <| w_sessions := alter f s (w_sessions w) |>).
Proof. reflexivity. Qed.

Lemma run_assoc {A B C} (m : M D A) (k : A -> M D B) (h : B -> M D C) (w : World D) :
  bind (bind m k) h w = bind m (fun a => bind (k a) h) w.
Proof. unfold bind. by destruct (m w) as [[? ?]|]. Qed.

End Running.

Section Lookups.
(** A member of an object. *)
Lemma run_find (js : list Z) (t : list jsmntok_t) (i : nat) (l : members) (key : string) (v : json) :
  located js t i (JObj l) -> jfind (txt key) l = Some v ->
  exists j, located js t j v /\ forall D B (k : Z -> M D B) w, bind (find js t (Z.of_nat i) key) k w = k (Z.of_nat j) w.
Proof.
  intros Hl Hv. pose proof (located_find js t i l (txt key) Hl) as H. rewrite Hv in H. destruct H as (j & E & Hj).
  exists j. unfold find. rewrite Nat2Z.id, E. done.
Qed.

Lemma run_find_none {D B} (js : list Z) (t : list jsmntok_t) (i : nat) (l : members) (key : string) (k : Z -> M D B) w :
  located js t i (JObj l) -> jfind (txt key) l = None -> bind (find js t (Z.of_nat i) key) k w = k (-1) w.
Proof.
  intros Hl Hv. pose proof (located_find js t i l (txt key) Hl) as H. rewrite Hv in H.
  unfold find. by rewrite Nat2Z.id, H.
Qed.

(** The token of a scalar. *)
Lemma run_tok (js : list Z) (t : list jsmntok_t) (i : nat) (v : json) (x : list Z) :
  located js t i v -> says v x ->
  exists tk, tk_type tk = tok_type v /\ spans js tk x /\
    forall D B (k : jsmntok_t -> M D B) w, bind (tok t (Z.of_nat i)) k w = k tk w.
Proof.
  intros Hl Hv. destruct (located_says _ _ _ _ _ Hl Hv) as (tk & Htk & Hty & Hs). exists tk.
  split; [done|]. split; [done|]. intros D B k w. unfold tok. by rewrite Nat2Z.id, Htk.
Qed.

Lemma run_tok_any (js : list Z) (t : list jsmntok_t) (i : nat) (v : json) :
  located js t i v ->
  exists tk, tk_type tk = tok_type v /\ forall D B (k : jsmntok_t -> M D B) w, bind (tok t (Z.of_nat i)) k w = k tk w.
Proof.
  intros Hl. destruct (located_head _ _ _ _ Hl) as (tk & s & Htk & Hty & _). exists tk.
  split; [done|]. intros D B k w. unfold tok. by rewrite Nat2Z.id, Htk.
Qed.

End Lookups.

(** The next access of a run is to a member that is there: [j] is its token. *)
Tactic Notation "run_member" constr(Hl) constr(Hv) "as" ident(j) ident(Lj) :=
  let R := fresh in destruct (run_find _ _ _ _ _ _ Hl Hv) as (j & Lj & R); rewrite R; clear R.

(** The next access reads the token of a scalar. *)
Tactic Notation "run_scalar" constr(Lj) "as" ident(tk) ident(Ht) ident(Hs) :=
  let R := fresh in
  destruct (run_tok _ _ _ _ _ Lj ltac:(first [left; reflexivity|right; reflexivity|eassumption]))
    as (tk & Ht & Hs & R); rewrite R; clear R.

Section Posting.
Context {D : Type} {P : Platform D}.

(** ** Messages to clients *)
Definition frame (s : nat) (json : list Z) : tcp := mkTcp s (be32 (u32 (Z.of_nat (length json))) ++ json).

(** The world after the frames [l] have been sent. *)
Definition post (l : list tcp) (w : World D) : World D := w <| w_out := w_out w ++ l |>.

Lemma post_nil (w : World D) : post [] w = w.
Proof. unfold post. rewrite app_nil_r. by destruct w. Qed.

Lemma post_post (l k : list tcp) (w : World D) : post l (post k w) = post (k ++ l) w.
Proof. unfold post. cbn. by rewrite app_assoc. Qed.

(** Who hears an event. *)
Definition audience (skip : option nat) (w : World D) : list nat :=
  filter (fun i => hears skip w i = true) (seq 0 MAX_SESSIONS).

Definition announce (skip : option nat) (event params : list Z) (w : World D) : list tcp :=
  (fun i => frame i (event_text event params)) <$> audience skip w.

Lemma run_send (s : nat) (json : list Z) (w : World D) :
  0 < ss_fd (sess w s) -> send_framed s json w = Some (tt, post [frame s json] w).
Proof. intros H. unfold send_framed, modify. by rewrite (proj2 (Z.leb_gt _ _)) by lia. Qed.

Lemma broadcast_loop_run (n i : nat) (skip : option nat) (buf : list Z) (w : World D) :
  broadcast_loop n i skip buf w =
  Some (tt, post ((fun i => frame i buf) <$> filter (fun i => hears skip w i = true) (seq i n)) w).
Proof.
  revert i w. induction n as [|n IH]; intros i w; cbn [broadcast_loop seq]; [cbn; by rewrite post_nil|].
  rewrite run_get. destruct (hears skip w i) eqn:E.
  - rewrite (run_bind _ _ _ (post [frame i buf] w) tt).
    + rewrite IH, filter_cons_True by done. cbn [fmap list_fmap]. by rewrite post_post.
    + apply run_send. unfold hears in E. zbool. lia.
  - rewrite run_ret, IH, filter_cons_False by congruence. done.
Qed.

Lemma run_announce (skip : option nat) (event params : list Z) (w : World D) :
  broadcast skip event params w = Some (tt, post (announce skip event params w) w).
Proof. apply broadcast_loop_run. Qed.
End Posting.

(** ** A request *)

(** The object [l] is a request: these members, among others, in any order. *)
Record request (l : members) (id cmd : list Z) (p : members) : Prop := {
  rq_type : jfind (txt "type") l = Some (JStr (txt "request"));
  rq_id : jfind (txt "id") l = Some (JStr id);
  rq_command : jfind (txt "command") l = Some (JStr cmd);
  rq_params : jfind (txt "params") l = Some (JObj p);
  rq_short : fits_field 128 id
}.

(** The message buffer of a parsed message holds the object [l]. *)
Definition message (js : list Z) (t : list jsmntok_t) (ntok : Z) (l : members) : Prop :=
  1 <= ntok /\ located js t 0 (JObj l).

(** The session [s] has received the text of [l], with white space anywhere, and
    anything behind it in the buffer. *)
Definition delivered {D} (v : Srv D) (s len : nat) (l : members) : Prop :=
  sv_pending v !! s = Some (Some len) /\ length (sv_tokens v !!! s) = MAX_JSON_TOKENS /\
  Z.of_nat (length (sv_msg_buf v)) = MAX_MSG_BYTES + 1 /\
  exists text junk ts, text_of (JObj l) text ts /\ sv_msg_buf v = text ++ junk /\ len = length text /\
    (length ts <= MAX_JSON_TOKENS)%nat.

Definition greeted {D} (w : World D) (s : nat) : Prop := ss_state (sess w s) <> SESSION_AWAIT_HELLO.

Section Request.
Context {D : Type} {P : Platform D} (e : Env).

Lemma text_tokens (v : json) (s : list Z) (ts : list jsmntok_t) : text_of v s ts -> (1 <= length ts)%nat.
Proof. intros [w1 s' w2 ts' _ _ Hv]. destruct Hv; cbn; lia. Qed.

(** Processing a delivered message is running its request. *)
Lemma delivered_message (v : Srv D) (s len : nat) (l : members) :
  delivered v s len l ->
  exists ntok t, message (sv_msg_buf v) t ntok l /\
    forall stop w', process_request e s ntok t (sv_msg_buf v) (sv_world v) = Some (stop, w') -> stop = false ->
      process_message e s len v =
      Some (v <| sv_world := w' |> <| sv_tokens := <[s := t]> (sv_tokens v) |>
              <| sv_pending := <[s := None]> (sv_pending v) |>).
Proof.
  intros (_ & Hn & _ & text & junk & ts & Ht & Hb & -> & Hl). unfold process_message. rewrite Hb.
  exists (Z.of_nat (length ts)), (ts ++ drop (length ts) (sv_tokens v !!! s)).
  split; [split; [pose proof (text_tokens _ _ _ Ht); lia|by apply located_text]|].
  intros stop w' E ->. rewrite (jsmn_parse_text_core (JObj l) text ts junk) by (done || (rewrite Hn; lia)).
  cbv iota beta zeta. by rewrite E.
Qed.

(** A client that may use rx commands: connected, greeted, unlocked if need be,
    and not about to be disconnected. *)
Record client (w : World D) (s : nat) : Prop := {
  cl_fd : 0 < ss_fd (sess w s);
  cl_greeted : greeted w s;
  cl_open : ss_close_after_reply (sess w s) = false
}.

(** The command in its envelope. *)
Lemma envelope_any (js : list Z) (t : list jsmntok_t) (ntok : Z) (l p : members) (id cmd : list Z) (s : nat) (w : World D) :
  message js t ntok l -> request l id cmd p -> fits_field 64 cmd ->
  (greeted w s \/ cmd = txt "hello") ->
  process_request e s ntok t js w = gated_dispatch e s cmd id t js w.
Proof.
  intros [Hn Hl] [Hty Hid Hcmd Hp Hs] Hc Hg. unfold process_request.
  destruct (Z.ltb_spec ntok 1); [lia|].
  destruct (run_tok_any js t 0 _ Hl) as (t0 & Ht0 & R0). change 0 with (Z.of_nat 0). rewrite R0, Ht0.
  change (bool_decide (tok_type (JObj l) = JSMN_OBJECT)) with true. cbn [negb].
  run_member Hl Hty as jt Lt. run_member Hl Hid as ji Li. run_member Hl Hcmd as jc Lc.
  rewrite !(proj2 (Z.ltb_ge _ _)) by lia. cbn [orb].
  run_scalar Lt as kt Tt St. rewrite (tok_eq_spans _ _ _ _ St), bool_decide_true by done. cbn [negb].
  run_scalar Li as ki Ti Si. run_scalar Lc as kc Tc Sc.
  rewrite (spans_str js ki id 128), (spans_str js kc cmd 64) by done. rewrite run_get.
  destruct Hg as [Hg | ->]; [by rewrite bool_decide_false|]. by rewrite andb_false_r.
Qed.

Lemma envelope_run (js : list Z) (t : list jsmntok_t) (ntok : Z) (l p : members) (id cmd : list Z) (s : nat) (w : World D) :
  message js t ntok l -> request l id cmd p -> fits_field 64 cmd -> greeted w s ->
  process_request e s ntok t js w = gated_dispatch e s cmd id t js w.
Proof. intros. eapply envelope_any; eauto. Qed.

(** An unlocked session's command reaches its handler. *)
Lemma dispatch_run (s : nat) (cmd id : list Z) (t : list jsmntok_t) (js : list Z) (w w' : World D) (f : cmd_fn) :
  lookup_cmd cmd (s_dispatch e) = Some f -> f s id t js w = Some (tt, w') ->
  dispatch e s cmd id t js w = Some (ss_close_after_reply (sess w' s), w').
Proof. intros E Ef. unfold dispatch. rewrite E. by rewrite (run_bind _ _ _ w' tt). Qed.

Lemma gate_run (s : nat) (cmd id : list Z) (t : list jsmntok_t) (js : list Z) (w : World D) :
  unlocked s w -> gated_dispatch e s cmd id t js w = dispatch e s cmd id t js w.
Proof.
  intros Hu. unfold gated_dispatch. rewrite !run_get. unfold unlocked in Hu.
  destruct (g_rx_auth (w_conf w)); cbn [andb]; [rewrite Hu by done; cbn [negb]|]; by rewrite run_ret.
Qed.

(** A command that does not address rx passes the gate as it is. *)
Lemma ungated (s : nat) (cmd id : list Z) (t : list jsmntok_t) (js : list Z) (w : World D) :
  cmd_addresses_rx (D := D) cmd t js = ret false -> gated_dispatch e s cmd id t js w = dispatch e s cmd id t js w.
Proof. intros E. unfold gated_dispatch. rewrite !run_get, E. by case_match. Qed.

Lemma request_runs (js : list Z) (t : list jsmntok_t) (ntok : Z) (l p : members) (id cmd : list Z) (s : nat)
    (w w' : World D) (f : cmd_fn) :
  message js t ntok l -> request l id cmd p -> fits_field 64 cmd -> greeted w s -> unlocked s w ->
  lookup_cmd cmd (s_dispatch e) = Some f -> f s id t js w = Some (tt, w') ->
  process_request e s ntok t js w = Some (ss_close_after_reply (sess w' s), w').
Proof.
  intros Hm Hr Hc Hg Hu Hf Ef. rewrite (envelope_run js t ntok l p id cmd s w Hm Hr Hc Hg), gate_run by done.
  by eapply dispatch_run.
Qed.
End Request.

(** ** What the audience depends on *)

(** An update of a session keeps what [g] sees of every session. *)
Lemma alter_keeps {A : Type} (g : Session -> A) (f : Session -> Session) (l : list Session) (s i : nat) :
  (forall x, g (f x) = g x) -> g (alter f s l !!! i) = g (l !!! i).
Proof.
  intros H. revert s i. induction l as [|x l IH]; intros [|s] [|i]; try done; cbn; [apply H|apply IH].
Qed.

Lemma alter_twice {A : Type} (f g : A -> A) (l : list A) (s : nat) :
  alter f s (alter g s l) = alter (fun x => f (g x)) s l.
Proof. revert s. induction l as [|x l IH]; intros [|s]; try done. cbn. f_equal. apply IH. Qed.

Lemma sess_total {D : Type} (s : nat) (f : Session -> Session) (w : World D) :
  0 < ss_fd (sess w s) -> alter f s (w_sessions w) !!! s = f (sess w s).
Proof.
  intros H. unfold sess in *. apply list_lookup_total_alter_eq. apply lookup_lt_is_Some.
  destruct (w_sessions w !! s) eqn:E; [done|]. rewrite list_lookup_total_alt, E in H. done.
Qed.

Definition heard_alike {D} (skip : option nat) (w w' : World D) : Prop :=
  forall i, skip <> Some i -> ss_fd (sess w' i) = ss_fd (sess w i) /\ ss_state (sess w' i) = ss_state (sess w i).

Lemma audience_same {D : Type} (skip : option nat) (w w' : World D) :
  heard_alike skip w w' -> audience skip w' = audience skip w.
Proof.
  intros H. unfold audience. apply list_filter_iff. intros i. unfold hears.
  destruct (decide (skip = Some i)) as [E|E].
  - rewrite (bool_decide_true _ E). cbn [negb]. by rewrite !andb_false_r.
  - by destruct (H i E) as [-> ->].
Qed.

(** An update of the session that does not listen, or of what listening does not
    depend on. *)
Lemma heard_alter {D : Type} (skip : option nat) (f : Session -> Session) (s : nat) (w w' : World D) :
  w_sessions w' = alter f s (w_sessions w) ->
  skip = Some s \/ (forall x, ss_fd (f x) = ss_fd x /\ ss_state (f x) = ss_state x) -> heard_alike skip w w'.
Proof.
  intros E [-> | H] i Hi; unfold sess; rewrite E.
  - rewrite list_lookup_total_alter_ne by congruence. done.
  - split; apply alter_keeps; apply H.
Qed.

(** ** Replies and events as JSON *)
Definition ok_value (id : list Z) (result : json) : json :=
  JObj [(txt "type", JStr (txt "response")); (txt "id", JStr (json_escape id 288));
        (txt "status", JStr (txt "ok")); (txt "result", result)].

Definition event_value (name : list Z) (params : json) : json :=
  JObj [(txt "type", JStr (txt "event")); (txt "event", JStr name); (txt "params", params)].

Definition num (n : Z) : json := JPrim (fmt_u n).

Definition bool_value (b : bool) : json := JPrim (tf b).

(** Two texts spelt out are the same. *)
Ltac spelt :=
  cbn [print num]; unfold quoted; vm_compute (jq _); vm_compute (txt _); cbn [app];
  repeat (rewrite <- app_assoc; cbn [app]); reflexivity.

(** The text of a template is the printed object. *)
Ltac json_text :=
  rewrite snprintf_fits;
  [spelt|rewrite ?length_app; vm_compute (length (jq _)); vm_compute (length (txt _));
         repeat match goal with |- context [length (fmt_u ?n)] =>
           lazymatch goal with
           | _ : (length (fmt_u n) <= 20)%nat |- _ => fail
           | _ => assert (length (fmt_u n) <= 20)%nat by (apply (fmt_u_length 19); lia)
           end end; lia].

Lemma snprintf_le (cap : nat) (x : list Z) : (length (snprintf cap x) <= cap)%nat.
Proof. unfold snprintf. rewrite length_take. lia. Qed.

Lemma ok_text_print (id : list Z) (v : json) :
  Z.of_nat (length (print v)) <= 60000 -> ok_text id (print v) = print (ok_value id v).
Proof.
  intros Hv. destruct (json_escape_spec id 288) as (_ & _ & Hi & _); [lia|].
  unfold ok_text, ok_value. rewrite snprintf_fits.
  - cbn [print]. generalize (json_escape id 288), (print v). intros i x. spelt.
  - rewrite !length_app. vm_compute (length (jq _)). unfold MAX_MSG_BYTES. lia.
Qed.

Lemma event_text_print (name : list Z) (v : json) :
  (length name + length (print v) <= 460)%nat -> event_text name (print v) = print (event_value name v).
Proof.
  intros Hv. unfold event_text, event_value. rewrite snprintf_fits.
  - cbn [print]. generalize (print v). intros x. spelt.
  - rewrite !length_app. vm_compute (length (jq _)). lia.
Qed.

Lemma num_length (n : Z) : 0 <= n < 2 ^ 64 -> (length (fmt_u n) <= 20)%nat.
Proof. intros H. apply (fmt_u_length 19). lia. Qed.

(** ** Refusals that commands have in common *)

(** A code with a message. *)
Abbreviation refusal := (string * list Z)%type (only parsing).

Definition refused {D} (s : nat) (id : list Z) (e : refusal) (w : World D) : World D :=
  post [frame s (error_text id (txt e.1) e.2)] w.

(** A scalar's text; nothing for an object or an array. *)
Definition scalar (v : json) : option (list Z) :=
  match v with JStr x | JPrim x => Some x | _ => None end.

Definition function_refusal (p : members) : option refusal :=
  match jfind (txt "function") p with
  | None =>
      Some ("missing_parameter"%string,
        if jfind (txt "direction") p is Some _
        then txt "function required (Release 1.2 renamed direction to function; see SDR-SLC-CP-1.0 12.1)"
        else txt "function required")
  | Some v =>
      if decide (scalar v = Some (txt "rx")) then None
      else Some ("not_supported"%string, txt "This device implements the rx function block only")
  end.

Definition channel_refusal (p : members) : option refusal :=
  if jfind (txt "channel") p is Some _
  then Some ("invalid_parameter"%string,
         txt "This device has a single signal path and publishes no channels; omit the channel parameter")
  else None.

Definition held : refusal := ("in_use"%string, txt "The rx channel is held by another client").

Definition other_owner {D} (w : World D) (s : nat) : Prop := exists o, w_rx_owner w = Some o /\ o <> s.

#[export] Instance other_owner_dec {D} (w : World D) (s : nat) : Decision (other_owner w s).
Proof.
  unfold other_owner, Decision. destruct (w_rx_owner w) as [o|]; [destruct (decide (o = s)) as [->|Hn]|].
  - right. intros (o & [= <-] & H). done.
  - left. by exists o.
  - right. intros (o & H & _). done.
Defined.

Definition owner_refusal {D} (w : World D) (s : nat) : option refusal :=
  if decide (other_owner w s) then Some held else None.

(** The first of several refusals. *)
Definition first (a b : option refusal) : option refusal := if a is Some _ then a else b.

Definition unless {A} (c : option refusal) (x : refusal + A) : refusal + A := if c is Some e then inl e else x.

(** A request is refused, or granted with what it is granted for. *)
Definition outcome {D A} (s : nat) (id : list Z) (x : refusal + A) (grant : A -> World D -> World D)
    (w : World D) : World D :=
  match x with inl e => refused s id e w | inr a => grant a w end.

(** A composite value is no word: its text starts with a bracket. *)
Lemma tok_eq_word (js : list Z) (t : list jsmntok_t) (i : nat) (v : json) (c : Z) (word : list Z) :
  located js t i v -> c <> 91 -> c <> 123 ->
  exists tk, t !! i = Some tk /\ tok_eq js tk (c :: word) = bool_decide (scalar v = Some (c :: word)).
Proof.
  intros Hl H1 H2. destruct Hl as (o & s & ts & pre & post & Hv & Ht & -> & <-).
  pose proof (value_head js o v s ts Hv Ht) as (tk & ts' & -> & _ & _ & Hsp).
  exists tk. cbn [app]. rewrite list_lookup_middle by done. split; [done|]. rewrite (tok_eq_spans _ _ _ _ Hsp).
  apply bool_decide_ext. inversion Hv; subst; cbn; split; intros E; simplify_eq; done || congruence.
Qed.

Lemma run_tok_word (js : list Z) (t : list jsmntok_t) (i : nat) (v : json) (c : Z) (word : list Z) :
  located js t i v -> c <> 91 -> c <> 123 ->
  exists tk, tok_eq js tk (c :: word) = bool_decide (scalar v = Some (c :: word)) /\
    forall D B (k : jsmntok_t -> M D B) w, bind (tok t (Z.of_nat i)) k w = k tk w.
Proof.
  intros Hl H1 H2. destruct (tok_eq_word js t i v c word Hl H1 H2) as (tk & Htk & E). exists tk.
  split; [done|]. intros D B k w. unfold tok. by rewrite Nat2Z.id, Htk.
Qed.

(** The first [k] octets of a scalar, as they are copied to a field of the program. *)
Definition field (k : nat) (v : json) : list Z := cstr (take k (default [] (scalar v))).

Lemma text_at_length (js : list Z) (o : nat) (x : list Z) : text_at js o x -> (length x <= length js)%nat.
Proof.
  intros H. destruct x as [|c x]; [cbn; lia|].
  destruct (lookup_lt_is_Some_2 (c :: x) (length x)) as [d Hd]; [cbn [length]; lia|].
  apply H, lookup_lt_Some in Hd. cbn [length]. lia.
Qed.

(** The token of a value, its text as it is copied, and the words it equals. *)
Lemma field_token (js : list Z) (t : list jsmntok_t) (i : nat) (v : json) :
  located js t i v -> Z.of_nat (length js) < 2 ^ 64 ->
  exists tk, t !! i = Some tk /\ tk_type tk = tok_type v /\
    (forall cap, (1 < cap)%nat -> tok_str js tk cap = field (cap - 1) v \/
       scalar v = None /\ exists c x, tok_str js tk cap = c :: x /\ (c = 91 \/ c = 123)).
Proof.
  intros Hl Hjs. destruct Hl as (o & s & ts & pre & post & Hv & Ht & -> & <-).
  pose proof (value_head js o v s ts Hv Ht) as (tk & ts' & -> & Hty & _ & Hsp). exists tk.
  split; [cbn [app]; by rewrite list_lookup_middle|]. split; [done|].
  intros cap Hcap. rewrite (tok_str_spans _ _ _ _ Hsp).
  - inversion Hv; subst; cbn [tok_text]; [left|left|right|right]; try reflexivity;
      (split; [done|]); destruct cap as [|[|cap]]; try lia; do 2 eexists; (split; [reflexivity|auto]).
  - lia.
  - destruct Hsp as [_ Ht']. apply text_at_length in Ht'. lia.
Qed.

Lemma run_field (js : list Z) (t : list jsmntok_t) (i : nat) (v : json) :
  located js t i v -> Z.of_nat (length js) < 2 ^ 64 ->
  exists tk, tk_type tk = tok_type v /\
    (forall cap, (1 < cap)%nat -> tok_str js tk cap = field (cap - 1) v \/
       scalar v = None /\ exists c x, tok_str js tk cap = c :: x /\ (c = 91 \/ c = 123)) /\
    forall D B (k : jsmntok_t -> M D B) w, bind (tok t (Z.of_nat i)) k w = k tk w.
Proof.
  intros Hl Hjs. destruct (field_token js t i v Hl Hjs) as (tk & E & Hty & Hs). exists tk.
  split; [done|]. split; [done|]. intros D B k w. unfold tok. by rewrite Nat2Z.id, E.
Qed.

(** A member, there or not, and its token. *)
Definition token_of (js : list Z) (t : list jsmntok_t) (o : option json) (z : Z) : Prop :=
  match o with Some v => exists j, z = Z.of_nat j /\ located js t j v | None => z = -1 end.

Lemma run_find_opt (js : list Z) (t : list jsmntok_t) (i : nat) (l : members) (key : string) :
  located js t i (JObj l) ->
  exists z, token_of js t (jfind (txt key) l) z /\
    forall D B (k : Z -> M D B) w, bind (find js t (Z.of_nat i) key) k w = k z w.
Proof.
  intros Hl. destruct (jfind (txt key) l) as [v|] eqn:E.
  - destruct (run_find js t i l key v Hl E) as (j & Hj & R). exists (Z.of_nat j). split; [by exists j|exact R].
  - exists (-1). split; [done|]. intros D B k w. by apply (run_find_none js t i l).
Qed.

Lemma token_of_neg (js : list Z) (t : list jsmntok_t) (o : option json) (z : Z) :
  token_of js t o z -> (z <? 0) = (if o is Some _ then false else true).
Proof. destruct o as [v|]; [intros (j & -> & _)|intros ->]; [apply Z.ltb_ge; lia|done]. Qed.

Lemma token_of_pos (js : list Z) (t : list jsmntok_t) (o : option json) (z : Z) :
  token_of js t o z -> (0 <=? z) = (if o is Some _ then true else false).
Proof. destruct o as [v|]; [intros (j & -> & _)|intros ->]; [apply Z.leb_le; lia|done]. Qed.

(** A word does not start like an object or an array. *)
Definition plain_word (word : string) : Prop :=
  match txt word with c :: _ => c <> 91 /\ c <> 123 | [] => False end.

Definition is_word (o : option json) (word : string) : bool := bool_decide ((o ≫= scalar) = Some (txt word)).

Lemma run_word {D : Type} (js : list Z) (t : list jsmntok_t) (v : json) (z : Z) (word : string) :
  token_of js t (Some v) z -> plain_word word ->
  exists tk, tok_eq js tk (txt word) = is_word (Some v) word /\
    forall B (k : jsmntok_t -> M D B) w, bind (tok t z) k w = k tk w.
Proof.
  intros (j & -> & Hl) Hw. unfold plain_word, is_word in *. destruct (txt word) as [|c x]; [done|].
  destruct (run_tok_word js t j v c x Hl (proj1 Hw) (proj2 Hw)) as (tk & E & R). exists tk.
  split; [exact E|apply R].
Qed.

(** All that a handler may see of a value. *)
Lemma run_value (js : list Z) (t : list jsmntok_t) (v : json) (z : Z) :
  token_of js t (Some v) z -> Z.of_nat (length js) < 2 ^ 64 ->
  exists tk, tk_type tk = tok_type v /\
    (forall cap, (1 < cap)%nat -> tok_str js tk cap = field (cap - 1) v \/
       scalar v = None /\ exists c x, tok_str js tk cap = c :: x /\ (c = 91 \/ c = 123)) /\
    (forall word, plain_word word -> tok_eq js tk (txt word) = is_word (Some v) word) /\
    forall D B (k : jsmntok_t -> M D B) w, bind (tok t z) k w = k tk w.
Proof.
  intros (j & -> & Hl) Hjs. destruct (field_token js t j v Hl Hjs) as (tk & E & Hty & Hs). exists tk.
  split; [done|]. split; [done|]. split; [|intros D B k w; unfold tok; by rewrite Nat2Z.id, E].
  intros word Hw. unfold plain_word, is_word in *. destruct (txt word) as [|c x]; [done|].
  destruct (tok_eq_word js t j v c x Hl (proj1 Hw) (proj2 Hw)) as (tk' & E' & Ew). replace tk with tk' by congruence. exact Ew.
Qed.

Lemma run_member_word {D B : Type} (js : list Z) (t : list jsmntok_t) (o : option json) (z : Z) (word : string)
    (k : bool -> M D B) w :
  token_of js t o z -> plain_word word ->
  bind (if z <? 0 then ret false else let* x := tok t z in ret (tok_eq js x (txt word))) k w =
  k (is_word o word) w.
Proof.
  intros Ho Hw. rewrite (token_of_neg _ _ _ _ Ho). destruct o as [v|]; [|done].
  destruct (run_word (D := D) js t v z word Ho Hw) as (tk & E & R). by rewrite run_assoc, R, run_ret, E.
Qed.

Section Refusing.
Context {D : Type} {P : Platform D}.

Lemma run_error (s : nat) (id : list Z) (code : string) (msg : list Z) (w : World D) :
  0 < ss_fd (sess w s) -> send_error s id code msg w = Some (tt, refused s id (code, msg) w).
Proof. apply run_send. Qed.

(** A refusal, as the handlers return it. *)
Lemma run_refuse {A B} (s : nat) (id : list Z) (code : string) (msg : list Z) (a : A) (k : A -> M D B) (w : World D) :
  0 < ss_fd (sess w s) ->
  bind (send_error s id code msg ;;; ret a) k w = k a (refused s id (code, msg) w).
Proof. intros H. rewrite run_assoc, (run_bind _ _ _ _ _ (run_error s id code msg w H)). apply run_ret. Qed.

Lemma require_function_run (js : list Z) (t : list jsmntok_t) (l p : members) (id : list Z) (s : nat) :
  located js t 0 (JObj l) -> jfind (txt "params") l = Some (JObj p) ->
  exists i, located js t i (JObj p) /\ forall B (k : Z -> M D B) w, 0 < ss_fd (sess w s) ->
    bind (require_function s id js t) k w =
    if function_refusal p is Some e then k (-1) (refused s id e w) else k (Z.of_nat i) w.
Proof.
  intros Hl Hp. unfold require_function, find_params.
  change (find (D := D) js t 0) with (find (D := D) js t (Z.of_nat 0)).
  destruct (run_find js t 0 l "params" _ Hl Hp) as (i & Li & R). exists i. split; [done|]. intros B k w Hfd.
  rewrite run_assoc, R, (proj2 (Z.ltb_ge _ _)) by lia. clear R. unfold function_refusal. rewrite run_assoc.
  destruct (jfind (txt "function") p) as [v|] eqn:Ef.
  - run_member Li Ef as j Lj. rewrite (proj2 (Z.ltb_ge _ _)) by lia. rewrite run_assoc.
    destruct (run_tok_word js t j v 114 (txt "x") Lj) as (tk & E & R); [done..|]. rewrite R.
    change (114 :: txt "x") with (txt "rx") in E. rewrite E. case_decide as Hx.
    + by rewrite bool_decide_true, run_ret.
    + rewrite bool_decide_false by done. by rewrite run_refuse.
  - rewrite (run_find_none js t i p "function" _ w Li Ef). change (-1 <? 0) with true. cbv iota. rewrite run_assoc.
    destruct (jfind (txt "direction") p) as [d|] eqn:Ed.
    + run_member Li Ed as j Lj. rewrite (proj2 (Z.leb_le _ _)) by lia. cbv iota. by rewrite run_refuse.
    + rewrite (run_find_none js t i p "direction" _ w Li Ed). change (0 <=? -1) with false. cbv iota.
      by rewrite run_refuse.
Qed.

Lemma channel_run {B} (js : list Z) (t : list jsmntok_t) (i : nat) (p : members) (id : list Z) (s : nat)
    (k : bool -> M D B) (w : World D) :
  located js t i (JObj p) -> 0 < ss_fd (sess w s) ->
  bind (channel_ok s id js t (Z.of_nat i)) k w =
  if channel_refusal p is Some e then k false (refused s id e w) else k true w.
Proof.
  intros Li Hfd. unfold channel_ok, channel_refusal. rewrite run_assoc. destruct (jfind (txt "channel") p) as [c|] eqn:E.
  - run_member Li E as j Lj. rewrite (proj2 (Z.ltb_ge _ _)) by lia. by rewrite run_refuse.
  - by rewrite (run_find_none js t i p "channel" _ w Li E).
Qed.

Lemma owned_by_other_spec (w : World D) (s : nat) :
  negb (bool_decide (w_rx_owner w = None)) && negb (bool_decide (w_rx_owner w = Some s)) =
  bool_decide (other_owner w s).
Proof.
  apply eq_iff_eq_true. rewrite andb_true_iff, !negb_true_iff, !bool_decide_eq_false, bool_decide_eq_true.
  unfold other_owner. destruct (w_rx_owner w) as [o|]; split.
  - intros [_ H]. exists o. split; [done|]. by intros ->.
  - intros (o' & [= <-] & H). split; [done|]. by intros [= ->].
  - by intros [H _].
  - by intros (o & H & _).
Qed.

Lemma may_configure_run {B} (id : list Z) (s : nat) (k : bool -> M D B) (w : World D) :
  0 < ss_fd (sess w s) ->
  bind (may_configure s id) k w =
  if owner_refusal w s is Some e then k false (refused s id e w) else k true w.
Proof.
  intros Hfd. unfold may_configure, cp_rx_owned_by_other, owner_refusal.
  rewrite run_assoc, run_get, owned_by_other_spec. case_decide.
  - rewrite bool_decide_true by done. cbn [negb]. by rewrite run_refuse.
  - by rewrite bool_decide_false.
Qed.

(** Why a request to configure is refused, in the order of the checks. *)
Definition config_refusal (p : members) (s : nat) (w : World D) : option refusal :=
  first (function_refusal p) (first (channel_refusal p) (owner_refusal w s)).

Lemma configure_run (js : list Z) (t : list jsmntok_t) (l p : members) (id : list Z) (s : nat) :
  located js t 0 (JObj l) -> jfind (txt "params") l = Some (JObj p) ->
  exists i, located js t i (JObj p) /\ forall B (k : Z -> M D B) w, 0 < ss_fd (sess w s) ->
    bind (configure_params s id js t) k w =
    if config_refusal p s w is Some e then k (-1) (refused s id e w) else k (Z.of_nat i) w.
Proof.
  intros Hl Hp. destruct (require_function_run js t l p id s Hl Hp) as (i & Li & R). exists i. split; [done|].
  intros B k w Hfd. unfold configure_params, config_refusal. rewrite run_assoc, R by done.
  destruct (function_refusal p); [reflexivity|]. cbn [first]. rewrite (proj2 (Z.ltb_ge _ _)) by lia.
  rewrite run_assoc, (channel_run js t i p) by done. destruct (channel_refusal p); [reflexivity|]. cbn [first negb].
  rewrite run_assoc, may_configure_run by done. by destruct (owner_refusal w s).
Qed.
End Refusing.

(** ** What a request asks for *)

(** A number of at most [k] decimal digits, bare or in quotes; [None]: no such member. *)
Definition asks (k : nat) (p : members) (key : string) (n : option Z) : Prop :=
  match n with
  | None => jfind (txt key) p = None
  | Some n => 0 <= n < 10 ^ Z.of_nat k /\ exists v, jfind (txt key) p = Some v /\ says v (fmt_u n)
  end.

Lemma fmt_u_fits (n : Z) (k : nat) : 0 <= n < 10 ^ Z.of_nat k -> (0 < k)%nat -> fits_field (S k) (fmt_u n).
Proof.
  intros Hn Hk. destruct k as [|k]; [lia|]. split.
  - pose proof (fmt_u_length k n Hn). lia.
  - apply cstr_digits. apply fmt_u_digits. lia.
Qed.

(** The events of a broadcast. *)
Definition events {D} (skip : option nat) (name : string) (params : json) (w : World D) : list tcp :=
  (fun i => frame i (print (event_value (txt name) params))) <$> audience skip w.

Definition reply {D} (s : nat) (id : list Z) (result : json) : World D -> World D :=
  post [frame s (print (ok_value id result))].

(** What one field of one session tells of another field. *)
Lemma sess_keeps {D A : Type} (g : Session -> A) (f : Session -> Session) (s i : nat) (w : World D) :
  (forall x, g (f x) = g x) -> g (sess (w <| w_sessions := alter f s (w_sessions w) |>) i) = g (sess w i).
Proof. apply alter_keeps. Qed.

Lemma events_same {D} (skip : option nat) (name : string) (params : json) (w w' : World D) :
  heard_alike skip w w' -> events skip name params w' = events skip name params w.
Proof. intros H. unfold events. by rewrite (audience_same skip w w' H). Qed.

Section Serving.
Context {D : Type} {P : Platform D} (e : Env).

Lemma run_reply {B} (s : nat) (id text : list Z) (result : json) (k : unit -> M D B) (w : World D) :
  0 < ss_fd (sess w s) -> text = print result -> (length text <= 4000)%nat ->
  bind (send_ok s id text) k w = k tt (reply s id result w).
Proof.
  intros Hfd -> Hl. unfold send_ok, reply. rewrite ok_text_print by lia. by rewrite (run_bind _ _ _ _ _ (run_send s _ w Hfd)).
Qed.

Lemma run_events {B} (skip : option nat) (name : string) (text : list Z) (params : json) (k : unit -> M D B) (w : World D) :
  text = print params -> (length (txt name) + length text <= 460)%nat ->
  bind (broadcast skip (txt name) text) k w = k tt (post (events skip name params w) w).
Proof.
  intros -> Hl. rewrite (run_bind _ _ _ _ _ (run_announce skip _ _ w)). unfold announce, events. by rewrite event_text_print.
Qed.

(** The last call of a handler. *)
Lemma run_last {A} (m : M D A) (w : World D) : m w = bind m ret w.
Proof. unfold bind. by destruct (m w) as [[? ?]|]. Qed.

Lemma reply_last (s : nat) (id text : list Z) (result : json) (w : World D) :
  0 < ss_fd (sess w s) -> text = print result -> (length text <= 4000)%nat ->
  send_ok s id text w = Some (tt, reply s id result w).
Proof. intros. rewrite run_last. by rewrite (run_reply s id text result). Qed.

(** The message that session [s] has sent is processed, and [w] is the world then. *)
Definition served (v : Srv D) (s len : nat) (w : World D) : Prop :=
  exists v', process_message e s len v = Some v' /\ sv_world v' = w /\ sv_pending v' = <[s := None]> (sv_pending v).

Lemma request_served (v : Srv D) (s len : nat) (l p : members) (id cmd : list Z) (f : cmd_fn) (w' : World D) :
  delivered v s len l -> request l id cmd p -> client (sv_world v) s -> unlocked s (sv_world v) ->
  fits_field 64 cmd -> lookup_cmd cmd (s_dispatch e) = Some f ->
  (forall js t, located js t 0 (JObj l) -> Z.of_nat (length js) < 2 ^ 64 -> f s id t js (sv_world v) = Some (tt, w')) ->
  ss_close_after_reply (sess w' s) = false -> served v s len w'.
Proof.
  intros Hd Hr Hc Hu Hf Hk Hrun Hno. destruct (delivered_message e v s len l Hd) as (ntok & t & Hm & Hp).
  eexists. split; [|split].
  - apply (Hp false w'); [|done]. rewrite <- Hno. eapply request_runs; try done; [apply Hc|].
    apply Hrun; [apply Hm|]. destruct Hd as (_ & _ & -> & _). unfold MAX_MSG_BYTES. lia.
  - done.
  - done.
Qed.
End Serving.

(** ** From the receipt of a text to a delivered message *)
Lemma delivered_store {D} (v : Srv D) (s : nat) (l : members) (text : list Z) (ts : list jsmntok_t) :
  text_of (JObj l) text ts -> (length ts <= MAX_JSON_TOKENS)%nat -> (s < length (sv_pending v))%nat ->
  length (sv_tokens v !!! s) = MAX_JSON_TOKENS -> Z.of_nat (length (sv_msg_buf v)) = MAX_MSG_BYTES + 1 ->
  (length text < length (sv_msg_buf v))%nat -> delivered (store_message s text v) s (length text) l.
Proof.
  intros Ht Hn Hs Hl Hb Hlt. split; [by apply list_lookup_insert_eq|]. split; [done|]. split.
  { unfold store_message. cbn. rewrite write_at_length; [done|]. rewrite length_app. cbn [length]. lia. }
  exists text, (0 :: drop (length (text ++ [0])) (sv_msg_buf v)), ts.
  split; [done|]. split; [|done]. unfold store_message, write_at. cbn. by rewrite <- app_assoc.
Qed.

(** A request with nothing else in it. *)
Definition plain_request (id cmd : list Z) (p : members) : members :=
  [(txt "type", JStr (txt "request")); (txt "id", JStr id); (txt "command", JStr cmd); (txt "params", JObj p)].

Lemma plain_request_ok (id cmd : list Z) (p : members) :
  fits_field 128 id -> request (plain_request id cmd p) id cmd p.
Proof. by split. Qed.

(** The state in which session [s] has just received a plain request. *)
Definition receives {D} (s : nat) (id cmd : list Z) (p : members) (v : Srv D) : Srv D :=
  store_message s (print (JObj (plain_request id cmd p))) v.

Definition request_length (id cmd : list Z) (p : members) : nat := length (print (JObj (plain_request id cmd p))).

Lemma delivered_plain {D} (v : Srv D) (s : nat) (id cmd : list Z) (p : members) :
  json_ok (JObj (plain_request id cmd p)) = true ->
  (length (tokens 0 (JObj (plain_request id cmd p))) <= MAX_JSON_TOKENS)%nat -> (s < length (sv_pending v))%nat ->
  length (sv_tokens v !!! s) = MAX_JSON_TOKENS -> Z.of_nat (length (sv_msg_buf v)) = MAX_MSG_BYTES + 1 ->
  (request_length id cmd p < length (sv_msg_buf v))%nat ->
  delivered (receives s id cmd p v) s (request_length id cmd p) (plain_request id cmd p).
Proof. intros Hj Hn Hs Hl Hb Hlt. eapply delivered_store; [by apply print_text|done..]. Qed.

(** ** Examples *)

(** A state from which client 0 can send a request. *)
Record example (v : Srv Stub) : Prop := {
  ex_client : client (sv_world v) 0;
  ex_unlocked : unlocked 0 (sv_world v);
  ex_device : is_Some (s_dev (w_rtl (sv_world v)));
  ex_pending : length (sv_pending v) = 4%nat;
  ex_tokens : length (sv_tokens v !!! 0%nat) = MAX_JSON_TOKENS;
  ex_buffer : Z.of_nat (length (sv_msg_buf v)) = MAX_MSG_BYTES + 1;
  ex_zero_point : (length (fmt_f 2 (g_u8_zero_point (w_conf (sv_world v)))) <= 20)%nat
}.

Definition exampleb (v : Srv Stub) : bool :=
  let w := sv_world v in
  bool_decide (0 < ss_fd (sess w 0)) && negb (bool_decide (ss_state (sess w 0) = SESSION_AWAIT_HELLO)) &&
  negb (ss_close_after_reply (sess w 0)) && negb (g_rx_auth (w_conf w)) && bool_decide (is_Some (s_dev (w_rtl w))) &&
  bool_decide (length (sv_pending v) = 4%nat) && bool_decide (length (sv_tokens v !!! 0%nat) = MAX_JSON_TOKENS) &&
  bool_decide (Z.of_nat (length (sv_msg_buf v)) = MAX_MSG_BYTES + 1) &&
  bool_decide (length (fmt_f 2 (g_u8_zero_point (w_conf w))) <= 20)%nat.

Lemma exampleb_ok (v : Srv Stub) : exampleb v = true -> example v.
Proof.
  unfold exampleb. cbv zeta. intros H. zbool. split; try done.
  unfold unlocked. congruence.
Qed.

(** The states of a script, computed when asked for and not before. *)
Definition after_aux (l : list action) : { v : Srv Stub | v = Sample.after l (Sample.server false (mkRing [] [] false)) }.
Proof. by eexists. Qed.

Definition after (l : list action) : Srv Stub := proj1_sig (after_aux l).

Lemma after_eq (l : list action) : after l = Sample.after l (Sample.server false (mkRing [] [] false)).
Proof. exact (proj2_sig (after_aux l)). Qed.

(** A client that has said hello, and one that has opened a stream as well. *)
Definition idle : Srv Stub := after (Sample.connect 7 ++ Sample.hello 0).

Definition open_idle : Srv Stub := after (Sample.connect 7 ++ Sample.hello 0 ++ Sample.open 0).

Lemma idle_example : example idle.
Proof. apply exampleb_ok. unfold idle. rewrite after_eq. vm_compute. reflexivity. Qed.

Lemma open_idle_example : example open_idle.
Proof. apply exampleb_ok. unfold open_idle. rewrite after_eq. vm_compute. reflexivity. Qed.

(** It sends a request with these parameters. *)
Definition asking (v : Srv Stub) (cmd : string) (p : members) : Srv Stub := receives 0 (txt "7") (txt cmd) p v.

Definition asking_length (cmd : string) (p : members) : nat := request_length (txt "7") (txt cmd) p.

Definition asking_members (cmd : string) (p : members) : members := plain_request (txt "7") (txt cmd) p.

Lemma asking_request (cmd : string) (p : members) : request (asking_members cmd p) (txt "7") (txt cmd) p.
Proof. apply plain_request_ok. split; [vm_compute; lia|reflexivity]. Qed.

Lemma asking_delivered (v : Srv Stub) (cmd : string) (p : members) :
  example v ->
  json_ok (JObj (asking_members cmd p)) &&
    (length (tokens 0 (JObj (asking_members cmd p))) <=? MAX_JSON_TOKENS)%nat &&
    (asking_length cmd p <? 4000)%nat = true ->
  delivered (asking v cmd p) 0 (asking_length cmd p) (asking_members cmd p).
Proof.
  intros [] [[Hj Ht%Nat.leb_le]%andb_prop Hs%Nat.ltb_lt]%andb_prop.
  unfold asking, asking_length, asking_members in *. apply delivered_plain; try done.
  - rewrite ex_pending0. lia.
  - unfold MAX_MSG_BYTES in *. lia.
Qed.

(** From a reachable state it gets to a reachable state. *)
Lemma asking_reachable (c : Conf) (r : Rtl Stub) (v : Srv Stub) (cmd : string) (p : members) :
  reachable c r v -> example v ->
  bool_decide (sv_pending v !! 0%nat = Some None) = true ->
  forallb byteb (print (JObj (asking_members cmd p))) && (0 <? Z.of_nat (asking_length cmd p)) &&
    (Z.of_nat (asking_length cmd p) <=? MAX_MSG_BYTES) = true ->
  reachable c r (asking v cmd p).
Proof.
  intros (ctx & buf & toks & Hb & Hst) Hv Hp%bool_decide_eq_true [[Ht H1%Z.ltb_lt]%andb_prop H2%Z.leb_le]%andb_prop.
  exists ctx, buf, toks. split; [exact Hb|]. eapply rtc_r; [exact Hst|].
  apply step_receive; [unfold MAX_SESSIONS; lia|apply (ex_client _ Hv)|exact Hp|by apply forallb_bytes|].
  unfold asking_length, request_length in *. done.
Qed.

Lemma after_reachable (l : list action) :
  bool_decide (is_Some (run l (Sample.server false (mkRing [] [] false)))) = true ->
  reachable (Sample.conf false (mkRing [] [] false)) Sample.rtl (after l).
Proof. intros H. rewrite after_eq. by apply Sample.reached. Qed.

Lemma asking_world (v : Srv Stub) (cmd : string) (p : members) : sv_world (asking v cmd p) = sv_world v.
Proof. reflexivity. Qed.
