(* ===== verification/Tuning.v ===== *)
(** * Tuning requests

    What set_frequency and set_sample_rate do with a request, for every way the
    request and the state can be: the refusals in their order, with code and
    message, and the new setting with its reply and its event.  The statements
    speak of the JSON object the client sent and of numbers, not of texts. *)
From Stdlib Require Import SpecFloat.
From S2P Require Import Prelude CLib Jsmn JsonText JsonTok Sha256 Auth Config Rtl Vita World.
From S2P Require Import Session Commands RxCommands Server Quiet Invariants Safety Requests.
#[local] Open Scope Z_scope.

(** The type of rtlsdr_get_sample_rate is uint32_t. *)
Class PlatformTypes (D : Type) `{Platform D} : Prop :=
  rate_u32 (d : D) : 0 <= rtlsdr_get_sample_rate d < 2 ^ 32.

#[export] Instance stub_types : PlatformTypes Stub.
Proof. intros d. apply Z.mod_pos_bound. lia. Qed.

Section Specification.
Context {D : Type} {P : Platform D}.

(** ** The decisions *)
Definition frequency_decision (r : Rtl D) (n : option Z) : refusal + Z :=
  match n with
  | None => inl ("missing_parameter"%string, txt "frequency_hz required")
  | Some f =>
      if decide (1 <= f < 2 ^ 64) then
        if decide (rtl_freq_min r <= f <= rtl_freq_max r) then inr f
        else inl ("unsupported_frequency"%string, txt "Frequency outside the published range for this mode")
      else inl ("invalid_parameter"%string, txt "frequency_hz out of range")
  end.

(** The rate is taken in 32 bits. *)
Definition rate_decision (x : Session) (r : Rtl D) (n : option Z) : refusal + Z :=
  if decide (ss_state x = SESSION_STREAMING \/ ss_state x = SESSION_STREAM_OPEN)
  then inl ("stream_reconfiguration_required"%string, txt "Close the stream before changing the sample rate")
  else
    match n with
    | None => inl ("missing_parameter"%string, txt "sample_rate_sps required")
    | Some f =>
        if decide (u32 f ∈ rtl_rate_list r) then inr (u32 f)
        else inl ("unsupported_sample_rate"%string, txt "Rate not present in the published sample_rates_sps")
    end.

(** ** The settings *)
Definition frequency_set (s : nat) (f : Z) (w : World D) : World D :=
  w <| w_rtl := (on_dev (fun d => rtlsdr_set_center_freq d f) (w_rtl w)) <| g_freq_hz := f |> |>
    <| w_sessions := alter (fun x => x <| ss_frequency_hz := f |>) s (w_sessions w) |>.

(** The reply to the client, then the event to everybody. *)
Definition frequency_told (s : nat) (id : list Z) (f : Z) (w : World D) : World D :=
  post (events None "frequency_changed"
          (JObj [(txt "function", JStr (txt "rx")); (txt "frequency_hz", num f)]) w)
    (reply s id (JObj [(txt "function", JStr (txt "rx")); (txt "applied_frequency_hz", num f)]) w).

(** The rate asked for is [f], the device runs at [a]. *)
Definition rate_set (s : nat) (f a : Z) (d : D) (w : World D) : World D :=
  w <| w_rtl := (w_rtl w) <| s_dev := Some d |> <| g_rate_sps := a |> <| g_rate_requested_sps := f |> |>
    <| w_sessions := alter (fun x => x <| ss_sample_rate_sps := a |>) s (w_sessions w) |>.

(** What the call leaves in the bridge. *)
Definition rate_applied (f : Z) (d : D) (r : Rtl D) : Rtl D :=
  let r := r <| s_dev := Some d |> in
  (if rtlsdr_get_sample_rate d =? 0 then r else r <| g_rate_sps := rtlsdr_get_sample_rate d |>)
    <| g_rate_requested_sps := f |>.

Definition rate_told (s : nat) (id : list Z) (f a : Z) (w : World D) : World D :=
  post (events None "sample_rate_changed"
          (JObj [(txt "function", JStr (txt "rx")); (txt "sample_rate_sps", num f);
                 (txt "actual_sample_rate_sps", num a)]) w)
    (reply s id (JObj [(txt "function", JStr (txt "rx")); (txt "applied_sample_rate_sps", num f)]) w).

(** The device [d] after it was asked for the rate [f]; a rate of 0 is a failure. *)
Definition rate_granted (s : nat) (id : list Z) (f : Z) (w : World D) : World D :=
  match s_dev (w_rtl w) with
  | None => w
  | Some d0 =>
      let d := (rtlsdr_set_sample_rate d0 f).2 in
      let a := rtlsdr_get_sample_rate d in
      if decide (a = 0)
      then refused s id ("device_error"%string, txt "Sample rate set failed")
             (w <| w_rtl := (w_rtl w) <| s_dev := Some d |> <| g_rate_requested_sps := f |> |>)
      else rate_told s id f a (rate_set s f a d w)
  end.

Definition frequency_granted (s : nat) (id : list Z) (f : Z) (w : World D) : World D :=
  frequency_told s id f (frequency_set s f w).
End Specification.

Lemma existsb_eqb (u : Z) (l : list Z) : existsb (fun x => x =? u) l = bool_decide (u ∈ l).
Proof.
  induction l as [|x l IH]; [done|]. cbn [existsb]. rewrite IH. destruct (Z.eqb_spec x u) as [->|Hn].
  - symmetry. apply bool_decide_true, list_elem_of_here.
  - apply bool_decide_ext. rewrite elem_of_cons. intuition congruence.
Qed.

(** ** The handlers meet the specification *)
Section Handlers.
Context {D : Type} {P : Platform D} {T : PlatformLaws D} {W : PlatformTypes D}.

Lemma freq_range (r : Rtl D) (f : Z) :
  rtl_freq_min r <= f <= rtl_freq_max r -> RTL_FREQ_MIN_DIRECT <= f <= RTL_FREQ_MAX_NORMAL.
Proof.
  unfold rtl_freq_min, rtl_freq_max, RTL_FREQ_MIN_NORMAL, RTL_FREQ_MIN_DIRECT, RTL_FREQ_MAX_NORMAL,
    RTL_FREQ_MAX_DIRECT. repeat case_decide; lia.
Qed.

Lemma set_frequency_device (r : Rtl D) (d : D) (f : Z) :
  s_dev r = Some d -> RTL_FREQ_MIN_DIRECT <= f <= RTL_FREQ_MAX_NORMAL ->
  rtl_set_frequency f r = (f, (on_dev (fun d => rtlsdr_set_center_freq d f) r) <| g_freq_hz := f |>).
Proof.
  intros Ed Hf. unfold rtl_set_frequency, on_dev. rewrite Ed. cbn [fmap option_fmap option_map].
  pose proof (tunes d f Hf) as Ht. unfold RTL_FREQ_MIN_DIRECT, RTL_FREQ_MAX_NORMAL in Hf.
  rewrite u32_small by lia. destruct (rtlsdr_set_center_freq d f) as [rc d']. cbn in Ht |- *. rewrite Ht.
  by rewrite (proj2 (Z.eqb_neq f 0)) by lia.
Qed.

(** The reply to the client and the event to everybody. *)
Lemma frequency_told_run (s : nat) (id : list Z) (f : Z) (w : World D) :
  0 < ss_fd (sess w s) -> 0 <= f < 2 ^ 64 ->
  (send_ok s id (snprintf 128 (jq "{'function':'rx','applied_frequency_hz':" ++ fmt_u f ++ jq "}")) ;;;
   cp_broadcast_event (txt "frequency_changed") (freq_event f)) w = Some (tt, frequency_told s id f w).
Proof.
  intros Hfd Hf.
  rewrite (run_reply s id _ (JObj [(txt "function", JStr (txt "rx")); (txt "applied_frequency_hz", num f)]));
    [|done|json_text|etransitivity; [apply snprintf_le|lia]].
  rewrite run_last. unfold cp_broadcast_event.
  rewrite (run_events None "frequency_changed" _ (JObj [(txt "function", JStr (txt "rx")); (txt "frequency_hz", num f)]));
    [done|unfold freq_event; json_text|].
  etransitivity; [apply Nat.add_le_mono_l, snprintf_le|]. vm_compute (length _). lia.
Qed.

Lemma rate_told_run (s : nat) (id : list Z) (f a : Z) (w : World D) :
  0 < ss_fd (sess w s) -> 0 <= f < 2 ^ 32 -> 0 <= a < 2 ^ 32 ->
  (send_ok s id (snprintf 160 (jq "{'function':'rx','applied_sample_rate_sps':" ++ fmt_u f ++ jq "}")) ;;;
   cp_broadcast_event (txt "sample_rate_changed") (rate_event f a)) w = Some (tt, rate_told s id f a w).
Proof.
  intros Hfd Hf Ha.
  rewrite (run_reply s id _ (JObj [(txt "function", JStr (txt "rx")); (txt "applied_sample_rate_sps", num f)]));
    [|done|json_text|etransitivity; [apply snprintf_le|lia]].
  rewrite run_last. unfold cp_broadcast_event.
  rewrite (run_events None "sample_rate_changed" _ (JObj [(txt "function", JStr (txt "rx"));
    (txt "sample_rate_sps", num f); (txt "actual_sample_rate_sps", num a)])); [done|unfold rate_event; json_text|].
  etransitivity; [apply Nat.add_le_mono_l, snprintf_le|]. vm_compute (length _). lia.
Qed.

Lemma set_rate_device (r : Rtl D) (d0 d : D) (f : Z) :
  s_dev r = Some d0 -> d = (rtlsdr_set_sample_rate d0 f).2 ->
  rtl_set_sample_rate f r = (rtlsdr_get_sample_rate d, rate_applied f d r).
Proof. intros E ->. unfold rtl_set_sample_rate, rate_applied. rewrite E. by destruct (rtlsdr_set_sample_rate d0 f). Qed.

Lemma cmd_set_frequency_run (js : list Z) (t : list jsmntok_t) (l p : members) (id : list Z) (s : nat)
    (n : option Z) (w : World D) :
  located js t 0 (JObj l) -> jfind (txt "params") l = Some (JObj p) -> 0 < ss_fd (sess w s) ->
  is_Some (s_dev (w_rtl w)) -> asks 31 p "frequency_hz" n ->
  cmd_set_frequency s id t js w =
  Some (tt, outcome s id (unless (config_refusal p s w) (frequency_decision (w_rtl w) n))
              (frequency_granted s id) w).
Proof.
  intros Hl Hp Hfd [d Ed] Hn. unfold cmd_set_frequency.
  destruct (configure_run (D := D) js t l p id s Hl Hp) as (i & Li & R). rewrite R by done. clear R.
  destruct (config_refusal p s w) as [c|]; [reflexivity|]. cbn [unless].
  rewrite (proj2 (Z.ltb_ge _ _)) by lia. destruct n as [f|]; cbn [asks frequency_decision] in *.
  2:{ rewrite (run_find_none js t i p "frequency_hz" _ w Li Hn). by apply run_error. }
  destruct Hn as (Hf & v & Hv & Hs). run_member Li Hv as j Lj. rewrite (proj2 (Z.ltb_ge _ _)) by lia.
  run_scalar Lj as tk Ht Hsp. rewrite (spans_str js tk (fmt_u f) 32) by (done || by apply (fmt_u_fits f 31); lia).
  rewrite strtoull_fmt_u by lia. case_decide as H1.
  2:{ destruct (Z.leb_spec (2 ^ 64) f); [by apply run_error|]. cbv iota.
      rewrite (proj2 (Z.ltb_lt f 1)) by lia. by apply run_error. }
  rewrite (proj2 (Z.leb_gt (2 ^ 64) f)) by lia. cbv iota. rewrite (proj2 (Z.ltb_ge f 1)) by lia. cbn [orb].
  rewrite run_get. case_decide as H2.
  2:{ destruct (Z.ltb_spec f (rtl_freq_min (w_rtl w))); [by apply run_error|].
      rewrite (proj2 (Z.ltb_lt (rtl_freq_max (w_rtl w)) f)) by lia. by apply run_error. }
  rewrite !(proj2 (Z.ltb_ge _ _)) by lia. cbn [orb].
  rewrite (run_rtl _ _ _ _ _ (set_frequency_device (w_rtl w) d f Ed (freq_range _ _ H2))).
  rewrite (proj2 (Z.eqb_neq f 0)) by lia. rewrite run_session.
  by rewrite frequency_told_run by (rewrite ?(sess_keeps ss_fd) by done; done || lia).
Qed.

Lemma cmd_set_sample_rate_run (js : list Z) (t : list jsmntok_t) (l p : members) (id : list Z) (s : nat)
    (n : option Z) (w : World D) :
  located js t 0 (JObj l) -> jfind (txt "params") l = Some (JObj p) -> 0 < ss_fd (sess w s) ->
  is_Some (s_dev (w_rtl w)) -> asks 15 p "sample_rate_sps" n ->
  cmd_set_sample_rate s id t js w =
  Some (tt, outcome s id (unless (config_refusal p s w) (rate_decision (sess w s) (w_rtl w) n))
              (rate_granted s id) w).
Proof.
  intros Hl Hp Hfd [d Ed] Hn. unfold cmd_set_sample_rate.
  destruct (configure_run (D := D) js t l p id s Hl Hp) as (i & Li & R). rewrite R by done. clear R.
  destruct (config_refusal p s w) as [c|]; [reflexivity|]. cbn [unless].
  rewrite (proj2 (Z.ltb_ge _ _)) by lia. rewrite run_get. unfold rate_decision. case_decide as Hst.
  { destruct Hst as [-> | ->]; by apply run_error. }
  rewrite !bool_decide_false by tauto. cbn [orb]. destruct n as [f|]; cbn [asks] in *.
  2:{ rewrite (run_find_none js t i p "sample_rate_sps" _ w Li Hn). by apply run_error. }
  destruct Hn as (Hf & v & Hv & Hs). run_member Li Hv as j Lj. rewrite (proj2 (Z.ltb_ge _ _)) by lia.
  run_scalar Lj as tk Ht Hsp. rewrite (spans_str js tk (fmt_u f) 16) by (done || by apply (fmt_u_fits f 15); lia).
  assert (strtoul (fmt_u f) = f) as ->.
  { unfold strtoul. rewrite strtoull_fmt_u, (proj2 (Z.leb_gt _ _)) by lia. done. }
  rewrite run_get. assert (0 <= u32 f < 2 ^ 32) as Hu by (apply Z.mod_pos_bound; lia).
  set (u := u32 f) in *. case_decide as Hin.
  2:{ rewrite existsb_eqb, bool_decide_false by done. by apply run_error. }
  rewrite existsb_eqb, bool_decide_true by done.
  cbn [negb outcome]. unfold rate_granted. rewrite Ed. clear Hin.
  pose proof (rate_u32 (rtlsdr_set_sample_rate d u).2) as Ha.
  remember ((rtlsdr_set_sample_rate d u).2) as d' eqn:Ed'.
  rewrite (run_rtl _ _ _ _ _ (set_rate_device (w_rtl w) d d' u Ed Ed')). unfold rate_applied.
  destruct (Z.eqb_spec (rtlsdr_get_sample_rate d') 0) as [E|Hne].
  - rewrite decide_True by done. by apply run_error.
  - rewrite decide_False by done. rewrite run_session.
    by rewrite rate_told_run by (rewrite ?(sess_keeps ss_fd) by done; done || lia).
Qed.
End Handlers.

(** ** The requests *)
Section Theorems.
Context {D : Type} {P : Platform D} {T : PlatformLaws D} {W : PlatformTypes D}.

Lemma outcome_close {A} (s i : nat) (id : list Z) (x : refusal + A) (grant : A -> World D -> World D) (w : World D) :
  (forall a, ss_close_after_reply (sess (grant a w) i) = ss_close_after_reply (sess w i)) ->
  ss_close_after_reply (sess (outcome s id x grant w) i) = ss_close_after_reply (sess w i).
Proof. intros H. destruct x; [done|apply H]. Qed.


End Theorems.

(** ** Examples *)

Definition tune_params (key value : string) : members :=
  [(txt "function", JStr (txt "rx")); (txt key, JStr (txt value))].


