(* ===== verification/Opening.v ===== *)
(** * The open_stream request

    open_stream, whatever the client writes: the refusals in their order, the claim
    of the receiver and its return when the rest of the request is refused, and the
    stream that is opened otherwise.  As in Tuning, the statement speaks of the JSON
    object that was sent. *)
From Stdlib Require Import SpecFloat.
From S2P Require Import Prelude CLib Jsmn JsonText JsonTok Sha256 Auth Config Rtl Vita World.
From S2P Require Import Session Commands RxCommands Server Quiet Invariants Safety Requests.
#[local] Open Scope Z_scope.

(** ** What open_stream asks for *)

(** The member is there and says this word. *)
Definition says_word (l : members) (key word : string) : bool :=
  bool_decide ((jfind (txt key) l ≫= scalar) = Some (txt word)).

(** The format object asks for unsigned 8-bit samples. *)
Definition format_ok (f : members) : bool :=
  says_word f "label" "u8" ||
  says_word f "encoding" "unsigned" &&
    (if jfind (txt "bits_per_component") f is Some _ then says_word f "bits_per_component" "8" else true).

Definition missing (what : string) : refusal := ("missing_parameter"%string, txt what).

(** Text, address and port of a destination. *)
Definition destination (d : members) : refusal + (list Z * list Z * Z) :=
  match jfind (txt "ip") d, jfind (txt "port") d with
  | Some ip, Some port =>
      match inet_pton (field 15 ip) with
      | None => inl ("invalid_parameter"%string, txt "vita.destination.ip invalid")
      | Some addr =>
          let n := strtoul (field 7 port) in
          if decide (1 <= n <= 65535) then inr (field 15 ip, addr, n)
          else inl ("invalid_parameter"%string, txt "vita.destination.port invalid")
      end
  | _, _ => inl (missing "vita.destination.ip and .port required")
  end.

Definition vita_transport (vt : members) : refusal + (list Z * list Z * Z) :=
  if (if jfind (txt "protocol_version") vt is Some _ then says_word vt "protocol_version" "VITA-A/1.0" else true) then
    if (if jfind (txt "format") vt is Some (JObj f) then format_ok f else true) then
      if jfind (txt "destination") vt is Some (JObj d) then destination d
      else inl (missing "vita.destination required")
    else inl ("unsupported_format"%string,
           txt "This device streams unsigned 8-bit IQ only; see capabilities.rx.iq_formats")
  else inl ("unsupported_stream_protocol"%string, txt "capabilities.rx.transports advertises VITA-A/1.0 only").

Definition transport (p : members) : refusal + (list Z * list Z * Z) :=
  if jfind (txt "protocol") p is Some _ then
    if says_word p "protocol" "vita49" then
      if jfind (txt "vita") p is Some (JObj vt) then vita_transport vt
      else inl (missing (if jfind (txt "destination") p is Some _
        then "Transport parameters belong inside a vita object since Release 1.2; see SDR-SLC-CP-1.0 14.2"
        else "vita transport object required"))
    else inl ("unsupported_stream_protocol"%string, txt "Only vita49 is present in capabilities.rx.transports")
  else inl (missing "protocol required").

Section Opening.
Context {D : Type} {P : Platform D} (e : Env).
Implicit Types w : World D.

(** Refused before the channel is claimed. *)
Definition open_refusal (p : members) (s : nat) w : option refusal :=
  first (function_refusal p) (first (channel_refusal p)
    (first (if ss_stream_open (sess w s)
            then Some ("stream_already_open"%string,
                   txt "This session already holds an rx stream; call close_stream first")
            else None)
       (owner_refusal w s))).

(** Refused after it: everybody else hears that the channel is free again. *)
Definition withdrawn (s : nat) (id : list Z) (c : refusal) w : World D :=
  refused s id c
    (post (events (Some s) "control_revoked"
             (JObj [(txt "function", JStr (txt "rx")); (txt "control_state", JStr (txt "free"))]) w)
       (w <| w_rx_owner := None |>
          <| w_sessions := alter (fun x => x <| ss_owns_rx := false |>) s (w_sessions w) |>)).

(** The session once its stream is open, with the [n]-th identifier. *)
Definition open_session (n : Z) (addr : list Z) (port : Z) (x : Session) : Session :=
  x <| ss_stream_id := stream_name n |> <| ss_vita_stream_id := n |>
    <| ss_dest_ip := addr |> <| ss_dest_port := u16 port |> <| ss_iq_fmt := IQ_FMT_U8 |>
    <| ss_stream_open := true |> <| ss_state := SESSION_STREAM_OPEN |>.

(** What the client is told of its stream. *)
Definition open_value (c : Conf) (r : Rtl D) (n port : Z) (src_ip ip : list Z) : json :=
  let end_point ip port := JObj [(txt "ip", JStr ip); (txt "port", port)] in
  JObj [(txt "stream_id", JStr (stream_name n)); (txt "function", JStr (txt "rx"));
        (txt "sample_rate_sps", num (g_rate_sps r));
        (txt "signal_type", JStr (sampling_mode_signal_type (g_sampling_mode r)));
        (txt "vita", JObj
          [(txt "protocol_version", JStr (txt "VITA-A/1.0"));
           (txt "source", end_point src_ip (JPrim (fmt_d (g_vita_src_port c))));
           (txt "destination", end_point ip (num (u16 port)));
           (txt "samples_per_packet", num (g_samples_per_pkt r)); (txt "stream_id", num n);
           (txt "packet_class", JStr (txt "if_data")); (txt "timestamp_mode", JStr (txt "utc_picoseconds"));
           (txt "format", JObj
             [(txt "encoding", JStr (txt "unsigned")); (txt "bits_per_component", num 8);
              (txt "container_bits", num 8); (txt "packing", JStr (txt "interleaved"));
              (txt "byte_order", JStr (txt "big_endian"));
              (txt "zero_point", JPrim (fmt_f 2 (g_u8_zero_point c)));
              (txt "native", JPrim (txt "true")); (txt "supported", JPrim (txt "true"));
              (txt "label", JStr (txt "u8"))])])].

Definition opened (s : nat) (id : list Z) (d : list Z * list Z * Z) w : World D :=
  let '(ip, addr, port) := d in
  let n := u32 (w_stream_counter w + 1) in
  let w1 := w <| w_rx_owner := Some s |> <| w_stream_counter := n |>
              <| w_sessions := alter (fun x => open_session n addr port (x <| ss_owns_rx := true |>)) s (w_sessions w) |> in
  let src_ip := if e_sockname e is Some a then inet_ntop a else txt "0.0.0.0" in
  post (events (Some s) "control_revoked"
          (JObj [(txt "function", JStr (txt "rx")); (txt "control_state", JStr (txt "owned_by_other"))]) w)
    (post [frame s (ok_text id (snprintf 1400 (print (open_value (w_conf w) (w_rtl w) n port src_ip ip))))] w1).

Definition open_outcome (p : members) (s : nat) (id : list Z) w : World D :=
  match open_refusal p s w with
  | Some c => refused s id c w
  | None => match transport p with inl c => withdrawn s id c w | inr d => opened s id d w end
  end.
End Opening.

Lemma open_result_print {D} (c : Conf) (r : Rtl D) (x : Session) (n port : Z) (addr src_ip ip : list Z) :
  (length (fmt_f 2 (g_u8_zero_point c)) <= 20)%nat ->
  open_result c (open_session n addr port x) r src_ip ip = snprintf 1400 (print (open_value c r n port src_ip ip)).
Proof.
  intros Hz. unfold open_result. change (ss_iq_fmt (open_session n addr port x)) with IQ_FMT_U8.
  change (bool_decide (IQ_FMT_U8 = IQ_FMT_INT16)) with false. cbv zeta. cbv iota. cbn [negb tf].
  rewrite (snprintf_fits 40).
  2:{ rewrite !length_app. vm_compute (length (jq _)). vm_compute (length (txt _)). lia. }
  change (ss_stream_id (open_session n addr port x)) with (stream_name n).
  change (ss_vita_stream_id (open_session n addr port x)) with n.
  change (ss_dest_port (open_session n addr port x)) with (u16 port).
  change (fmt_d 8) with (txt "8"). f_equal. unfold open_value. cbn [print num].
  change (fmt_u 8) with (txt "8").
  generalize (stream_name n), (sampling_mode_signal_type (g_sampling_mode r)), (fmt_u (g_rate_sps r)),
    (fmt_d (g_vita_src_port c)), (fmt_u (u16 port)), (fmt_u (g_samples_per_pkt r)), (fmt_u n),
    (fmt_f 2 (g_u8_zero_point c)). intros. spelt.
Qed.

(** ** The handlers meet the specification *)

Lemma says_word_eq (l : members) (key word : string) : says_word l key word = is_word (jfind (txt key) l) word.
Proof. reflexivity. Qed.

Section Format.
Context {D : Type} {P : Platform D} (js : list Z) (t : list jsmntok_t).

Lemma format_run (i : nat) (f : members) (B : Type) (k : bool -> M D B) w :
  located js t i (JObj f) -> bind (format_matches js t (Z.of_nat i)) k w = k (format_ok f) w.
Proof.
  intros Hl. unfold format_matches, format_ok. rewrite !says_word_eq.
  destruct (run_find_opt js t i f "label" Hl) as (zl & Hzl & Rl).
  destruct (run_find_opt js t i f "encoding" Hl) as (ze & Hze & Re).
  destruct (run_find_opt js t i f "bits_per_component" Hl) as (zb & Hzb & Rb).
  rewrite run_assoc, Rl, run_assoc, Re, run_assoc, Rb, run_assoc, (run_member_word js t _ _ _ _ _ Hzl) by done.
  destruct (is_word _ "u8"); [apply run_ret|]. rewrite (token_of_pos _ _ _ _ Hze), (token_of_pos _ _ _ _ Hzb).
  cbn [orb]. destruct (jfind (txt "encoding") f) as [ve|] eqn:Ee; cbn [andb].
  - destruct (jfind (txt "bits_per_component") f) as [vb|] eqn:Eb.
    + rewrite run_assoc, (run_member_word js t _ _ _ _ _ Hze) by done.
      destruct (is_word (Some ve) "unsigned"); [|apply run_ret]. by rewrite (run_member_word js t _ _ _ _ _ Hzb).
    + rewrite (run_member_word js t _ _ _ _ _ Hze) by done. by rewrite andb_true_r.
  - rewrite (run_member_word js t _ _ _ _ _ Hze) by done. done.
Qed.
End Format.

Section Open.
Context {D : Type} {P : Platform D} (e : Env) (s : nat) (id js : list Z) (t : list jsmntok_t).
Context (Hjs : Z.of_nat (length js) < 2 ^ 64).
Implicit Types w : World D.

(** The world once the channel is claimed. *)
Definition claimed w : World D :=
  w <| w_rx_owner := Some s |> <| w_sessions := alter (fun x => x <| ss_owns_rx := true |>) s (w_sessions w) |>.

Lemma withdrawn_claimed (c : refusal) w : withdrawn s id c (claimed w) = withdrawn s id c w.
Proof.
  unfold withdrawn. rewrite (events_same (Some s) _ _ w (claimed w)).
  - unfold claimed. cbn. by rewrite alter_twice.
  - eapply heard_alter; [reflexivity|by left].
Qed.

Lemma claim_run {B} (k : bool -> M D B) w :
  bind (cp_rx_claim s) k w = if decide (other_owner w s) then k false w else k true (claimed w).
Proof.
  unfold cp_rx_claim. rewrite run_assoc, run_get. pose proof (owned_by_other_spec w s) as E. revert E.
  case_decide as Ho; [rewrite (bool_decide_eq_true_2 _ Ho)|rewrite (bool_decide_eq_false_2 _ Ho)];
    destruct (bool_decide (w_rx_owner w = None)), (bool_decide (w_rx_owner w = Some s)); try done.
Qed.

(** Whoever holds the channel gives it back, and is refused. *)
Lemma refuse_run (code : string) (msg : list Z) w :
  0 < ss_fd (sess w s) -> w_rx_owner w = Some s ->
  refuse s id code msg w = Some (tt, withdrawn s id (code, msg) w).
Proof.
  intros Hfd Ho. unfold refuse, cp_rx_release. rewrite run_assoc, run_get.
  rewrite bool_decide_true by done. cbv zeta. rewrite run_assoc, run_modify, run_assoc, run_session.
  unfold cp_broadcast_event_except.
  rewrite (run_events (Some s) "control_revoked" _
    (JObj [(txt "function", JStr (txt "rx")); (txt "control_state", JStr (txt "free"))]));
    [|reflexivity|vm_compute; lia].
  unfold send_error. rewrite run_send by (unfold sess; cbn; by rewrite (alter_keeps ss_fd)).
  unfold withdrawn. erewrite (events_same (Some s) _ _ w); [reflexivity|].
  eapply heard_alter; [reflexivity|by left].
Qed.

(** Accepting, from the claimed world. *)
Definition accepted (d : list Z * list Z * Z) w : World D :=
  let '(ip, addr, port) := d in
  let n := u32 (w_stream_counter w + 1) in
  let w1 := w <| w_stream_counter := n |>
              <| w_sessions := alter (open_session n addr port) s (w_sessions w) |> in
  let src_ip := if e_sockname e is Some a then inet_ntop a else txt "0.0.0.0" in
  post (events (Some s) "control_revoked"
          (JObj [(txt "function", JStr (txt "rx")); (txt "control_state", JStr (txt "owned_by_other"))]) w)
    (post [frame s (ok_text id (snprintf 1400 (print (open_value (w_conf w) (w_rtl w) n port src_ip ip))))] w1).

Lemma accepted_claimed (d : list Z * list Z * Z) w : accepted d (claimed w) = opened e s id d w.
Proof.
  destruct d as [[ip addr] port]. unfold accepted, opened. cbv zeta.
  rewrite (events_same (Some s) _ _ w (claimed w)); [|eapply heard_alter; [reflexivity|by left]].
  unfold claimed. cbn -[events ok_text print open_value u32 open_session]. by rewrite alter_twice.
Qed.

Lemma alloc_run {B} (k : unit -> M D B) w :
  let n := u32 (w_stream_counter w + 1) in
  bind (alloc_stream_id s) k w =
  k tt (w <| w_stream_counter := n |>
          <| w_sessions := alter (fun x => x <| ss_stream_id := stream_name n |> <| ss_vita_stream_id := n |>) s
                             (w_sessions w) |>).
Proof. reflexivity. Qed.

Lemma opened_session (n : Z) (addr : list Z) (port : Z) w w1 :
  w1 = w <| w_stream_counter := n |>
         <| w_sessions := alter (fun x => x <| ss_stream_id := stream_name n |> <| ss_vita_stream_id := n |>) s
                            (w_sessions w) |> ->
  w1 <| w_sessions := alter (fun x => x <| ss_dest_ip := addr |> <| ss_dest_port := u16 port |>
                         <| ss_iq_fmt := IQ_FMT_U8 |> <| ss_stream_open := true |>
                         <| ss_state := SESSION_STREAM_OPEN |>) s (w_sessions w1) |> =
  w <| w_stream_counter := n |> <| w_sessions := alter (open_session n addr port) s (w_sessions w) |>.
Proof. intros ->. cbn. by rewrite alter_twice. Qed.

Lemma accept_run (ip addr : list Z) (port : Z) w :
  0 < ss_fd (sess w s) -> (length (fmt_f 2 (g_u8_zero_point (w_conf w))) <= 20)%nat ->
  open_accept e s id ip addr port w = Some (tt, accepted (ip, addr, port) w).
Proof.
  intros Hfd Hz. unfold open_accept. rewrite alloc_run, run_session. cbv zeta.
  rewrite (opened_session (u32 (w_stream_counter w + 1)) addr port w _ eq_refl).
  unfold accepted. set (n := u32 (w_stream_counter w + 1)).
  set (w1 := w <| w_stream_counter := n |> <| w_sessions := alter (open_session n addr port) s (w_sessions w) |>).
  rewrite !run_get. assert (sess w1 s = open_session n addr port (sess w s)) as -> by by apply sess_total.
  assert (0 < ss_fd (sess w1 s)) as Hfd1 by by (unfold w1, sess; cbn; rewrite (alter_keeps ss_fd)).
  change (w_conf w1) with (w_conf w). change (w_rtl w1) with (w_rtl w). rewrite open_result_print by done.
  unfold send_ok. rewrite (run_bind _ _ _ _ _ (run_send s _ w1 Hfd1)), run_last. unfold cp_broadcast_event_except.
  rewrite (run_events (Some s) "control_revoked" _
    (JObj [(txt "function", JStr (txt "rx")); (txt "control_state", JStr (txt "owned_by_other"))]));
    [|reflexivity|vm_compute; lia].
  erewrite (events_same (Some s) _ _ w); [reflexivity|]. eapply heard_alter; [reflexivity|by left].
Qed.

(** With the channel claimed: taken back or used. *)
Definition settled (x : refusal + (list Z * list Z * Z)) w : World D :=
  match x with inl c => withdrawn s id c w | inr d => accepted d w end.

Record holder w : Prop := {
  ho_fd : 0 < ss_fd (sess w s);
  ho_own : w_rx_owner w = Some s;
  ho_zero : (length (fmt_f 2 (g_u8_zero_point (w_conf w))) <= 20)%nat
}.

Lemma settle_refuse (code : string) (msg : list Z) w :
  holder w -> refuse s id code msg w = Some (tt, settled (inl (code, msg)) w).
Proof. intros []. by apply refuse_run. Qed.

(** A member that must be an object. *)
Lemma run_object (o : option json) (z : Z) :
  token_of js t o z ->
  exists r, match r with Some x => bool_decide (tk_type x = JSMN_OBJECT) | None => false end =
            (if o is Some (JObj _) then true else false) /\
    forall B (k : option jsmntok_t -> M D B) w,
      bind (if z <? 0 then ret None else let* x := tok t z in ret (Some x)) k w = k r w.
Proof.
  intros Ho. rewrite (token_of_neg _ _ _ _ Ho). destruct o as [v|]; [|by exists None].
  destruct Ho as (j & -> & Hl). destruct (run_tok_any js t j v Hl) as (tk & Hty & R). exists (Some tk).
  split; [rewrite Hty; by destruct v|]. intros B k w. by rewrite run_assoc, R, run_ret.
Qed.

Lemma pton_bracket (c : Z) (x : list Z) : c = 91 \/ c = 123 -> inet_pton (c :: x) = None.
Proof. by intros [-> | ->]. Qed.

Lemma strtoul_bracket (c : Z) (x : list Z) : c = 91 \/ c = 123 -> strtoul (c :: x) = 0.
Proof. by intros [-> | ->]. Qed.

Lemma field_composite (k : nat) (v : json) : scalar v = None -> field k v = [].
Proof. intros E. unfold field. rewrite E. by destruct k. Qed.

Lemma destination_run (i : nat) (vt : members) w :
  located js t i (JObj vt) -> holder w ->
  open_destination e s id js t (Z.of_nat i) w =
  Some (tt, settled (if jfind (txt "destination") vt is Some (JObj d) then destination d
                     else inl (missing "vita.destination required")) w).
Proof.
  intros Hl Hh. unfold open_destination.
  destruct (run_find_opt js t i vt "destination" Hl) as (zd & Hzd & Rd). rewrite Rd. clear Rd.
  destruct (run_object _ _ Hzd) as (r & Er & Rr). rewrite Rr, Er. clear Rr Er.
  destruct (jfind (txt "destination") vt) as [[x|x|x|d]|]; cbn [negb]; try by apply settle_refuse.
  destruct Hzd as (jd & -> & Ld).
  destruct (run_find_opt js t jd d "ip" Ld) as (zi & Hzi & Ri).
  destruct (run_find_opt js t jd d "port" Ld) as (zp & Hzp & Rp). rewrite Ri, Rp. clear Ri Rp.
  rewrite (token_of_neg _ _ _ _ Hzi), (token_of_neg _ _ _ _ Hzp). unfold destination.
  destruct (jfind (txt "ip") d) as [ip|], (jfind (txt "port") d) as [port|]; cbn [orb];
    try by apply settle_refuse.
  destruct Hzi as (ji & -> & Li), Hzp as (jp & -> & Lp).
  destruct (run_field js t ji ip Li Hjs) as (ti & _ & Fi & Ri).
  destruct (run_field js t jp port Lp Hjs) as (tp & _ & Fp & Rp). rewrite Ri, Rp. clear Ri Rp. cbv zeta.
  assert (inet_pton (tok_str js ti 16) = inet_pton (field 15 ip)) as Eip.
  { destruct (Fi 16%nat ltac:(lia)) as [-> | (Hn & c & x & -> & Hc)]; [done|].
    by rewrite (field_composite _ _ Hn), pton_bracket. }
  assert (strtoul (tok_str js tp 8) = strtoul (field 7 port)) as Eport.
  { destruct (Fp 8%nat ltac:(lia)) as [-> | (Hn & c & x & -> & Hc)]; [done|].
    by rewrite (field_composite _ _ Hn), strtoul_bracket. }
  rewrite Eip, Eport. destruct (inet_pton (field 15 ip)) as [addr|] eqn:Ea; [|by apply settle_refuse].
  assert (tok_str js ti 16 = field 15 ip) as ->.
  { destruct (Fi 16%nat ltac:(lia)) as [-> | (Hn & _)]; [done|]. by rewrite (field_composite _ _ Hn) in Ea. }
  pose proof (strtoul_nonneg (field 7 port)). case_decide as Hp.
  - rewrite (proj2 (Z.eqb_neq _ _)), (proj2 (Z.ltb_ge _ _)) by lia. by apply accept_run; apply Hh.
  - destruct (Z.eqb_spec (strtoul (field 7 port)) 0); [by apply settle_refuse|].
    rewrite (proj2 (Z.ltb_lt _ _)) by lia. by apply settle_refuse.
Qed.

Lemma vita_run (i : nat) (vt : members) w :
  located js t i (JObj vt) -> holder w ->
  open_vita e s id js t (Z.of_nat i) w = Some (tt, settled (vita_transport vt) w).
Proof.
  intros Hl Hh. unfold open_vita, vita_transport. rewrite says_word_eq.
  destruct (run_find_opt js t i vt "protocol_version" Hl) as (zv & Hzv & Rv). rewrite Rv. clear Rv.
  destruct (run_find_opt js t i vt "format" Hl) as (zf & Hzf & Rf).
  set (ok := if jfind (txt "protocol_version") vt is Some _
             then is_word (jfind (txt "protocol_version") vt) "VITA-A/1.0" else true).
  assert (forall B (k : bool -> M D B) w',
    bind (if zv <? 0 then ret true else let* x := tok t zv in ret (tok_eq js x (txt "VITA-A/1.0"))) k w' = k ok w') as Rv.
  { intros B k w'. rewrite (token_of_neg _ _ _ _ Hzv). unfold ok.
    destruct (jfind (txt "protocol_version") vt) as [v|]; [|done].
    destruct (run_word (D := D) js t v zv "VITA-A/1.0" Hzv ltac:(done)) as (tk & E & R).
    by rewrite run_assoc, R, run_ret, E. }
  rewrite Rv. clear Rv. destruct ok; cbn [negb]; [|by apply settle_refuse].
  rewrite Rf. clear Rf. destruct (run_object _ _ Hzf) as (r & Er & Rr). rewrite Rr, Er. clear Rr Er.
  assert (forall (k : bool -> M D unit) w',
    bind (if (if jfind (txt "format") vt is Some (JObj _) then true else false) then format_matches js t zf else ret true) k w' =
    k (if jfind (txt "format") vt is Some (JObj f) then format_ok f else true) w') as Rm.
  { intros k w'. destruct (jfind (txt "format") vt) as [[x|x|x|f]|]; try done.
    destruct Hzf as (jf & -> & Lf). by apply format_run. }
  rewrite Rm. clear Rm. destruct (if jfind (txt "format") vt is Some (JObj f) then format_ok f else true); cbn [negb].
  - by apply destination_run.
  - by apply settle_refuse.
Qed.

Lemma transport_run (i : nat) (p : members) w :
  located js t i (JObj p) -> holder w ->
  (let* proto_i := find js t (Z.of_nat i) "protocol" in
   if proto_i <? 0 then refuse s id "missing_parameter" (txt "protocol required")
   else
     let* pt := tok t proto_i in
     if negb (tok_eq js pt (txt "vita49")) then
       refuse s id "unsupported_stream_protocol" (txt "Only vita49 is present in capabilities.rx.transports")
     else
       let* vi := find js t (Z.of_nat i) "vita" in
       let* vt := (if vi <? 0 then ret None else let* x := tok t vi in ret (Some x)) in
       if negb (match vt with Some x => bool_decide (tk_type x = JSMN_OBJECT) | None => false end) then
         cp_rx_release s ;;;
         let* d := find js t (Z.of_nat i) "destination" in
         if 0 <=? d then
           send_error s id "missing_parameter"
             (txt "Transport parameters belong inside a vita object since Release 1.2; see SDR-SLC-CP-1.0 14.2")
         else send_error s id "missing_parameter" (txt "vita transport object required")
       else open_vita e s id js t vi) w = Some (tt, settled (transport p) w).
Proof.
  intros Hl Hh. unfold transport. rewrite says_word_eq.
  destruct (run_find_opt js t i p "protocol" Hl) as (zp & Hzp & Rp). rewrite Rp. clear Rp.
  destruct (run_find_opt js t i p "vita" Hl) as (zv & Hzv & Rv).
  destruct (run_find_opt js t i p "destination" Hl) as (zd & Hzd & Rd).
  rewrite (token_of_neg _ _ _ _ Hzp). destruct (jfind (txt "protocol") p) as [pr|]; [|by apply settle_refuse].
  destruct (run_word (D := D) js t pr zp "vita49" Hzp ltac:(done)) as (tk & E & R). rewrite R, E. clear R.
  destruct (is_word (Some pr) "vita49"); cbn [negb]; [|by apply settle_refuse].
  rewrite Rv. clear Rv. destruct (run_object _ _ Hzv) as (r & Er & Rr). rewrite Rr, Er. clear Rr Er.
  assert (forall what, (cp_rx_release s ;;; send_error s id "missing_parameter" (txt what)) w =
            Some (tt, settled (inl (missing what)) w)) as Hr by (intros; by apply settle_refuse).
  assert ((cp_rx_release s ;;;
           let* d := find js t (Z.of_nat i) "destination" in
           if 0 <=? d then
             send_error s id "missing_parameter"
               (txt "Transport parameters belong inside a vita object since Release 1.2; see SDR-SLC-CP-1.0 14.2")
           else send_error s id "missing_parameter" (txt "vita transport object required")) w =
    Some (tt, settled (inl (missing (if jfind (txt "destination") p is Some _
        then "Transport parameters belong inside a vita object since Release 1.2; see SDR-SLC-CP-1.0 14.2"
        else "vita transport object required"))) w)) as Hn.
  { rewrite <- Hr. unfold bind at 1 3. destruct (cp_rx_release s w) as [[u w1]|]; [|done].
    rewrite Rd, (token_of_pos _ _ _ _ Hzd). by destruct (jfind (txt "destination") p). }
  destruct (jfind (txt "vita") p) as [[x|x|x|vt]|]; cbn [negb]; try exact Hn.
  destruct Hzv as (j & -> & Lv). by apply vita_run.
Qed.

Lemma settled_claimed (x : refusal + (list Z * list Z * Z)) w :
  settled x (claimed w) = match x with inl c => withdrawn s id c w | inr d => opened e s id d w end.
Proof. destruct x; [apply withdrawn_claimed|apply accepted_claimed]. Qed.

Lemma cmd_open_stream_run (l p : members) w :
  located js t 0 (JObj l) -> jfind (txt "params") l = Some (JObj p) -> 0 < ss_fd (sess w s) ->
  (length (fmt_f 2 (g_u8_zero_point (w_conf w))) <= 20)%nat ->
  cmd_open_stream e s id t js w = Some (tt, open_outcome e p s id w).
Proof.
  intros Hl Hp Hfd Hz. unfold cmd_open_stream, open_outcome, open_refusal.
  destruct (require_function_run (D := D) js t l p id s Hl Hp) as (i & Li & R). rewrite R by done. clear R.
  destruct (function_refusal p); [reflexivity|]. cbn [first]. rewrite (proj2 (Z.ltb_ge _ _)) by lia.
  rewrite (channel_run js t i p) by done. destruct (channel_refusal p); [reflexivity|]. cbn [first negb].
  rewrite run_get. destruct (ss_stream_open (sess w s)); [by apply run_error|]. cbn [first].
  rewrite claim_run. unfold owner_refusal. case_decide; cbn [negb]; [by apply run_error|].
  rewrite (transport_run i p (claimed w)), settled_claimed; [done|done|].
  split; [|done|done]. unfold claimed, sess. cbn. by rewrite (alter_keeps ss_fd).
Qed.
End Open.

Lemma open_outcome_close {D} `{Platform D} (e : Env) (p : members) (s : nat) (id : list Z) (w : World D) :
  ss_close_after_reply (sess (open_outcome e p s id w) s) = ss_close_after_reply (sess w s).
Proof.
  unfold open_outcome. destruct (open_refusal p s w); [done|].
  destruct (transport p) as [c|[[ip addr] port]]; by apply (alter_keeps ss_close_after_reply).
Qed.

(** C7: open_stream, whatever the client writes.  The request of a client that
    may use rx is refused, with the code and message of the first reason that
    applies: function or channel as for every rx command, a stream of the session
    that is already open, another client that owns the receiver; or a protocol
    other than vita49, no vita object, another protocol version, a format that is
    not unsigned 8-bit, no destination, one whose ip is not an address or whose
    port is not in 1..65535.  In the second group the receiver was claimed already
    and is given back, so every other client hears that it is free.  Otherwise the
    session owns the receiver, its stream has the next identifier and the
    destination asked for, the client is told both, and every other client hears
    that the receiver is taken; nothing else changes. *)
Theorem open_stream_request {D} `{Platform D} (e : Env) (v : Srv D) (s len : nat) (l p : members) (id : list Z) :
  delivered v s len l -> request l id (txt "open_stream") p ->
  client (sv_world v) s -> unlocked s (sv_world v) ->
  (length (fmt_f 2 (g_u8_zero_point (w_conf (sv_world v)))) <= 20)%nat ->
  served e v s len (open_outcome e p s id (sv_world v)).
Proof.
  intros Hd Hr Hc Hu Hz.
  eapply (request_served e v s len l p id (txt "open_stream") (cmd_open_stream e)); try done.
  - by split; [vm_compute; lia|].
  - intros js t Hl Hjs. apply (cmd_open_stream_run e s id js t Hjs l p); try done; [apply Hr|apply Hc].
  - rewrite open_outcome_close. apply Hc.
Qed.

(** ** Examples *)
Definition open_params : members :=
  [(txt "function", JStr (txt "rx")); (txt "protocol", JStr (txt "vita49"));
   (txt "vita", JObj [(txt "destination", JObj [(txt "ip", JStr (txt "10.0.0.9")); (txt "port", JPrim (txt "5000"))])])].

Lemma open_stream_request_witness :
  exists v', process_message Sample.env 0 (asking_length "open_stream" open_params)
               (asking idle "open_stream" open_params) = Some v' /\
    (let x := sess (sv_world v') 0 in (ss_state x, ss_stream_id x, ss_dest_ip x, ss_dest_port x)) =
    (SESSION_STREAM_OPEN, txt "rx-1", [10; 0; 0; 9], 5000).
Proof.
  pose proof idle_example as Hi.
  destruct (open_stream_request Sample.env (asking idle "open_stream" open_params) 0
    (asking_length "open_stream" open_params) (asking_members "open_stream" open_params) open_params (txt "7"))
    as (v' & E & Hw & _); rewrite ?asking_world;
    [by (apply asking_delivered; [done|vm_compute])|apply asking_request|apply Hi..|].
  exists v'. split; [exact E|]. rewrite Hw, asking_world. unfold idle. rewrite after_eq. vm_compute. reflexivity.
Defined.
