(* ===== verification/Streams.v ===== *)
(** * Stream requests

    start_rx, stop_rx and close_stream, whatever the client writes: the refusals in
    their order, what the daemon does otherwise, and who is told what.  As in Tuning,
    the statements speak of the JSON object that was sent. *)
From Stdlib Require Import SpecFloat.
From S2P Require Import Prelude CLib Jsmn JsonText JsonTok Sha256 Auth Config Rtl Vita World.
From S2P Require Import Session Commands RxCommands Server Quiet Invariants Safety Requests Opening.
#[local] Open Scope Z_scope.

(** ** start_rx, stop_rx and close_stream *)
Section Running.
Context {D : Type} {P : Platform D} (e : Env).
Implicit Types w : World D.

(** The request does not name the session's open stream. *)
Definition named_refusal (x : Session) (p : members) : option refusal :=
  match jfind (txt "stream_id") p with
  | None => Some (missing "stream_id required")
  | Some v =>
      if decide (ss_stream_open x = true /\ field 31 v = ss_stream_id x) then None
      else Some ("stream_not_found"%string, txt "stream_id not found")
  end.

Definition streaming_value (b : bool) : json :=
  JObj [(txt "function", JStr (txt "rx")); (txt "streaming", bool_value b)].

(** The client is told that its stream runs or does not run any more. *)
Definition stream_state (s : nat) (sid : list Z) (b : bool) : World D -> World D :=
  post [frame s (print (event_value (txt "stream_state")
    (JObj [(txt "stream_id", JStr sid); (txt "streaming", bool_value b); (txt "function", JStr (txt "rx"));
           (txt "reason", JStr (txt "client_request"))])))].

(** The sender gets the stream of session [x] with the receiver's settings. *)
Definition sender_start (x : Session) (r : Rtl D) (v : Vita) : Vita :=
  (vita_session_add (g_gain_tenth_db r) (g_rate_sps r) (e_wall_s e) (ss_stream_id x) (ss_vita_stream_id x)
     (ss_dest_ip x) (ss_dest_port x) (ss_iq_fmt x) (sampling_mode_payload_fmt (g_sampling_mode r)) v).2.

(** The reader runs already, or its thread starts. *)
Definition reader_starts (r : Rtl D) : Prop := s_stream_count r = 0 -> e_thread_ok e = true.

#[export] Instance reader_starts_dec (r : Rtl D) : Decision (reader_starts r).
Proof. apply _. Defined.

Definition with_reader w : World D := w <| w_rtl := (rtl_bridge_start (e_thread_ok e) (w_rtl w)).2 |>.

Definition rx_started (s i : nat) (id : list Z) w : World D :=
  let w1 := (with_reader w) <| w_vita := sender_start (sess w s) (w_rtl w) (w_vita w) |>
              <| w_sessions := alter (fun x => x <| ss_vita_token := Z.of_nat i |> <| ss_state := SESSION_STREAMING |>)
                                 s (w_sessions w) |> in
  stream_state s (ss_stream_id (sess w s)) true (reply s id (streaming_value true) w1).

(** The slot was taken, and its Context packet sent, before the thread failed. *)
Definition rx_failed (s i : nat) (id : list Z) w : World D :=
  refused s id ("device_error"%string, txt "Failed to start RTL async read")
    ((with_reader w)
       <| w_vita := vita_session_remove (Z.of_nat i) (sender_start (sess w s) (w_rtl w) (w_vita w)) |>
       <| w_sessions := alter (fun x => x <| ss_vita_token := -1 |>) s (w_sessions w) |>).

Definition start_granted (s : nat) (id : list Z) w : World D :=
  if decide (ss_state (sess w s) = SESSION_STREAMING) then reply s id (streaming_value true) w
  else
    match first_free (vt_sessions (w_vita w)) 0 with
    | None =>
        refused s id ("busy"%string, txt "No free stream slot; retry shortly")
          (w <| w_sessions := alter (fun x => x <| ss_vita_token := -1 |>) s (w_sessions w) |>)
    | Some i => if decide (reader_starts (w_rtl w)) then rx_started s i id w else rx_failed s i id w
    end.

Definition start_outcome (p : members) (s : nat) (id : list Z) w : World D :=
  if named_refusal (sess w s) p is Some c then refused s id c w else start_granted s id w.

(** The stream leaves the sender. *)
Definition dropped (x : Session) : Session :=
  if 0 <=? ss_vita_token x then x <| ss_vita_token := -1 |> else x.

Definition sender_stop (s : nat) w : World D :=
  w <| w_vita := vita_session_remove (ss_vita_token (sess w s)) (w_vita w) |>
    <| w_sessions := alter dropped s (w_sessions w) |>.

Definition reader_stop w : World D := w <| w_rtl := rtl_reset_adc_level (rtl_bridge_stop (w_rtl w)) |>.

Definition stop_granted (s : nat) (id : list Z) w : World D :=
  if decide (ss_state (sess w s) = SESSION_STREAMING) then
    let w1 := sender_stop s (reader_stop w) in
    stream_state s (ss_stream_id (sess w s)) false
      (reply s id (streaming_value false)
         (w1 <| w_sessions := alter (fun x => x <| ss_state := SESSION_STREAM_OPEN |>) s (w_sessions w1) |>))
  else reply s id (streaming_value false) w.

Definition stop_outcome (p : members) (s : nat) (id : list Z) w : World D :=
  if named_refusal (sess w s) p is Some c then refused s id c w else stop_granted s id w.

(** The session is idle and the channel, if it was its own, free. *)
Definition stream_closed (s : nat) w : World D :=
  w <| w_sessions := alter (fun x => x <| ss_stream_open := false |> <| ss_state := SESSION_IDLE |>
                                       <| ss_stream_id := [] |> <| ss_owns_rx := false |>) s (w_sessions w) |>
    <| w_rx_owner := if decide (w_rx_owner w = Some s) then None else w_rx_owner w |>.

Definition close_granted (s : nat) (id : list Z) w : World D :=
  let was := bool_decide (ss_state (sess w s) = SESSION_STREAMING) in
  let w1 := stream_closed s (sender_stop s (if was then reader_stop w else w)) in
  let freed := if decide (w_rx_owner w = Some s)
               then events (Some s) "control_revoked"
                      (JObj [(txt "function", JStr (txt "rx")); (txt "control_state", JStr (txt "free"))]) w
               else [] in
  let w2 := reply s id (JObj [(txt "closed", bool_value true)]) (post freed w1) in
  if was then stream_state s (ss_stream_id (sess w s)) false w2 else w2.

Definition close_outcome (p : members) (s : nat) (id : list Z) w : World D :=
  if named_refusal (sess w s) p is Some c then refused s id c w else close_granted s id w.
End Running.

(** The commands once the stream is known to be the session's. *)
Section Bodies.
Context {D : Type} {P : Platform D}.

Definition start_body (e : Env) (s : nat) (id : list Z) : M D unit :=
  let* x := get (fun w => sess w s) in
  if bool_decide (ss_state x = SESSION_STREAMING) then send_ok s id (streaming_json true)
  else
    let* r := get w_rtl in
    let* token := with_vita (vita_session_add (g_gain_tenth_db r) (g_rate_sps r) (e_wall_s e)
                    (ss_stream_id x) (ss_vita_stream_id x) (ss_dest_ip x) (ss_dest_port x)
                    (ss_iq_fmt x) (sampling_mode_payload_fmt (g_sampling_mode r))) in
    set_sess s (fun x => x <| ss_vita_token := token |>) ;;;
    if token <? 0 then send_error s id "busy" (txt "No free stream slot; retry shortly")
    else
      let* rc := with_rtl (rtl_bridge_start (e_thread_ok e)) in
      if rc <? 0 then
        do_vita (vita_session_remove token) ;;;
        set_sess s (fun x => x <| ss_vita_token := -1 |>) ;;;
        send_error s id "device_error" (txt "Failed to start RTL async read")
      else
        set_sess s (fun x => x <| ss_state := SESSION_STREAMING |>) ;;;
        send_ok s id (streaming_json true) ;;;
        send_event s (txt "stream_state")
          (stream_event (ss_stream_id x) true (txt "client_request")).

Lemma start_eq (e : Env) (s : nat) (id js : list Z) (t : list jsmntok_t) :
  cmd_start_rx e s id t js =
  bind (stream_named s id js t) (fun named => if negb named then ret tt else start_body e s id).
Proof. reflexivity. Qed.

Definition stop_body (s : nat) (id : list Z) : M D unit :=
  let* x := get (fun w => sess w s) in
  if negb (bool_decide (ss_state x = SESSION_STREAMING)) then
    send_ok s id (streaming_json false)
  else
    drop_vita s ;;;
    do_rtl rtl_bridge_stop ;;;
    do_rtl rtl_reset_adc_level ;;;
    set_sess s (fun x => x <| ss_state := SESSION_STREAM_OPEN |>) ;;;
    send_ok s id (streaming_json false) ;;;
    send_event s (txt "stream_state")
      (stream_event (ss_stream_id x) false (txt "client_request")).

Lemma stop_eq (s : nat) (id js : list Z) (t : list jsmntok_t) :
  cmd_stop_rx s id t js =
  bind (stream_named s id js t) (fun named => if negb named then ret tt else stop_body s id).
Proof. reflexivity. Qed.

Definition close_body (s : nat) (id : list Z) : M D unit :=
  drop_vita s ;;;
  let* x := get (fun w => sess w s) in
  let was_streaming := bool_decide (ss_state x = SESSION_STREAMING) in
  (if was_streaming then do_rtl rtl_bridge_stop ;;; do_rtl rtl_reset_adc_level else ret tt) ;;;
  set_sess s (fun x => x <| ss_stream_open := false |> <| ss_state := SESSION_IDLE |>
                         <| ss_stream_id := [] |>) ;;;
  cp_rx_release s ;;;
  send_ok s id (jq "{'closed':true}") ;;;
  if was_streaming
  then send_event s (txt "stream_state")
         (stream_event (snprintf 32 (ss_stream_id x)) false (txt "client_request"))
  else ret tt.

Lemma close_eq (s : nat) (id js : list Z) (t : list jsmntok_t) :
  cmd_close_stream s id t js =
  bind (stream_named s id js t) (fun named => if negb named then ret tt else close_body s id).
Proof. reflexivity. Qed.

End Bodies.

Section RunningHandlers.
Context {D : Type} {P : Platform D} (e : Env) (s : nat) (id js : list Z) (t : list jsmntok_t).
Implicit Types w : World D.

(** The stream is named by a scalar, if at all. *)
Definition names_scalar (p : members) : Prop :=
  forall v, jfind (txt "stream_id") p = Some v -> is_Some (scalar v).

Lemma stream_named_run {B} (l p : members) (k : bool -> M D B) w :
  Z.of_nat (length js) < 2 ^ 64 -> located js t 0 (JObj l) -> jfind (txt "params") l = Some (JObj p) -> names_scalar p -> 0 < ss_fd (sess w s) ->
  bind (stream_named s id js t) k w =
  if named_refusal (sess w s) p is Some c then k false (refused s id c w) else k true w.
Proof.
  intros Hjs Hl Hp Hn Hfd. unfold stream_named, find_params, named_refusal.
  change (find (D := D) js t 0) with (find (D := D) js t (Z.of_nat 0)).
  rewrite run_assoc. run_member Hl Hp as i Li. unfold find_if. rewrite (proj2 (Z.leb_le _ _)) by lia.
  rewrite run_assoc. destruct (run_find_opt js t i p "stream_id" Li) as (z & Hz & R). rewrite R. clear R.
  rewrite (token_of_neg _ _ _ _ Hz). destruct (jfind (txt "stream_id") p) as [v|] eqn:Ev; [|by rewrite run_refuse].
  destruct Hz as (j & -> & Lj). rewrite run_assoc. destruct (run_field js t j v Lj Hjs) as (tk & _ & F & R).
  rewrite R. clear R. cbv zeta. rewrite run_assoc, run_get.
  destruct (F 32%nat ltac:(lia)) as [-> | (E & _)]; [|destruct (Hn v Ev); congruence].
  change (32 - 1)%nat with 31%nat. unfold streq. case_decide as Hd.
  - destruct Hd as [-> Hd]. rewrite bool_decide_true by done. reflexivity.
  - destruct (ss_stream_open (sess w s)); [rewrite bool_decide_false by tauto|]; cbn [negb orb];
      by rewrite run_refuse.
Qed.

Lemma named_short (x : Session) (p : members) : named_refusal x p = None -> (length (ss_stream_id x) <= 31)%nat.
Proof.
  unfold named_refusal. destruct (jfind (txt "stream_id") p) as [v|]; [|done]. case_decide as H; [|done].
  intros _. destruct H as [_ <-]. unfold field. etransitivity; [apply cstr_length|]. rewrite length_take. lia.
Qed.

Lemma stream_state_run {B} (sid : list Z) (b : bool) (k : unit -> M D B) w :
  (length sid <= 31)%nat -> 0 < ss_fd (sess w s) ->
  bind (send_event s (txt "stream_state") (stream_event sid b (txt "client_request"))) k w =
  k tt (stream_state s sid b w).
Proof.
  intros Hl Hfd. unfold send_event, stream_state.
  assert (stream_event sid b (txt "client_request") = print
    (JObj [(txt "stream_id", JStr sid); (txt "streaming", bool_value b); (txt "function", JStr (txt "rx"));
           (txt "reason", JStr (txt "client_request"))])) as ->.
  { unfold stream_event. rewrite snprintf_fits.
    - unfold bool_value, tf. destruct b; spelt.
    - rewrite !length_app. vm_compute (length (jq _)). destruct b; vm_compute (length (txt _)); lia. }
  rewrite event_text_print.
  - by rewrite (run_bind _ _ _ _ _ (run_send s _ w Hfd)).
  - destruct b; cbn; rewrite ?length_app; cbn; rewrite ?length_app; cbn; lia.
Qed.

(** The last message of a handler. *)
Lemma stream_state_last (sid : list Z) (b : bool) w :
  (length sid <= 31)%nat -> 0 < ss_fd (sess w s) ->
  send_event s (txt "stream_state") (stream_event sid b (txt "client_request")) w = Some (tt, stream_state s sid b w).
Proof. intros Hl Hfd. rewrite run_last. by rewrite stream_state_run. Qed.

Lemma streaming_text (b : bool) : streaming_json b = print (streaming_value b).
Proof. by destruct b. Qed.

Lemma streaming_short (b : bool) : (length (streaming_json b) <= 4000)%nat.
Proof. destruct b; vm_compute; lia. Qed.

(** A session whose descriptor nothing touches. *)
Lemma fd_alter (f : Session -> Session) w w' :
  w_sessions w' = alter f s (w_sessions w) -> (forall x, ss_fd (f x) = ss_fd x) -> 0 < ss_fd (sess w s) ->
  0 < ss_fd (sess w' s).
Proof. intros E Hf H. unfold sess. rewrite E. by rewrite (alter_keeps ss_fd). Qed.

Lemma told_run (sid : list Z) (b : bool) w w' :
  w = w' -> (length sid <= 31)%nat -> 0 < ss_fd (sess w' s) ->
  (send_ok s id (streaming_json b) ;;;
   send_event s (txt "stream_state") (stream_event sid b (txt "client_request"))) w =
  Some (tt, stream_state s sid b (reply s id (streaming_value b) w')).
Proof.
  intros -> Hl Hfd. rewrite (run_reply s id _ (streaming_value b)); [|done|apply streaming_text|apply streaming_short].
  by apply stream_state_last.
Qed.

Lemma add_slot (x : Session) (r : Rtl D) (v : Vita) :
  vita_session_add (g_gain_tenth_db r) (g_rate_sps r) (e_wall_s e) (ss_stream_id x) (ss_vita_stream_id x)
    (ss_dest_ip x) (ss_dest_port x) (ss_iq_fmt x) (sampling_mode_payload_fmt (g_sampling_mode r)) v =
  (if first_free (vt_sessions v) 0 is Some i then Z.of_nat i else -1, sender_start e x r v).
Proof. unfold sender_start, vita_session_add. by destruct (first_free _ 0). Qed.

Lemma start_result (r : Rtl D) :
  (rtl_bridge_start (e_thread_ok e) r).1 = if decide (reader_starts e r) then 0 else -1.
Proof.
  case_decide as H; unfold reader_starts in H; unfold rtl_bridge_start; cbn [s_stream_count upd];
    destruct (Z.eqb_spec (s_stream_count r + 1) 1) as [E|E]; try done.
  - by rewrite H by lia.
  - destruct (e_thread_ok e); [|done]. by destruct H.
  - destruct H. lia.
Qed.

Lemma start_body_run w :
  (length (ss_stream_id (sess w s)) <= 31)%nat -> 0 < ss_fd (sess w s) ->
  start_body e s id w = Some (tt, start_granted e s id w).
Proof.
  intros Hs Hfd. unfold start_body, start_granted.
  rewrite run_get.
  case_decide as Hst.
  { rewrite bool_decide_true by done. apply reply_last; [done|apply streaming_text|apply streaming_short]. }
  rewrite bool_decide_false by done. rewrite run_get.
  rewrite (run_vita _ _ _ _ _ (add_slot (sess w s) (w_rtl w) (w_vita w))), run_session.
  destruct (first_free (vt_sessions (w_vita w)) 0) as [i|] eqn:Ef.
  2:{ change (-1 <? 0) with true. cbv iota. rewrite run_error by by apply (fd_alter (fun x => x <| ss_vita_token := -1 |>) w).
      assert (sender_start e (sess w s) (w_rtl w) (w_vita w) = w_vita w) as ->
        by (unfold sender_start, vita_session_add; by rewrite Ef).
      by destruct w. }
  rewrite (proj2 (Z.ltb_ge _ _)) by lia.
  pose proof (start_result (w_rtl w)) as Hrc. destruct (rtl_bridge_start (e_thread_ok e) (w_rtl w)) as [rc r1] eqn:Er.
  rewrite (run_rtl _ rc r1) by exact Er. cbn [fst] in Hrc. subst rc. unfold rx_started, rx_failed, with_reader. rewrite Er.
  case_decide as Hst'; cbv zeta.
  - change (0 <? 0) with false. cbv iota. rewrite run_session.
    apply told_run; [cbn; by rewrite alter_twice|done|]. by eapply fd_alter; [reflexivity| |exact Hfd].
  - change (-1 <? 0) with true. cbv iota. rewrite run_do_vita, run_session.
    rewrite run_error; [|by eapply fd_alter; [cbn; rewrite alter_twice; reflexivity| |exact Hfd]].
    cbn. by rewrite alter_twice.
Qed.

Lemma cmd_start_rx_run (l p : members) w :
  Z.of_nat (length js) < 2 ^ 64 -> located js t 0 (JObj l) -> jfind (txt "params") l = Some (JObj p) -> names_scalar p -> 0 < ss_fd (sess w s) ->
  cmd_start_rx e s id t js w = Some (tt, start_outcome e p s id w).
Proof.
  intros Hjs Hl Hp Hn Hfd. rewrite start_eq, (stream_named_run l p) by done. unfold start_outcome.
  destruct (named_refusal (sess w s) p) as [c|] eqn:En; [reflexivity|]. cbn [negb].
  apply start_body_run; [by eapply named_short|done].
Qed.

(** Leaving the sender. *)
Lemma drop_run {B} (k : unit -> M D B) w : bind (drop_vita s) k w = k tt (sender_stop s w).
Proof.
  unfold drop_vita, sender_stop. rewrite run_assoc, run_get.
  assert (forall x, w_sessions w !! s = Some x -> x = sess w s) as Hx
    by (intros x Hx; symmetry; by apply list_lookup_total_correct).
  destruct (Z.leb_spec 0 (ss_vita_token (sess w s))) as [Ht|Ht].
  - rewrite run_assoc, run_do_vita, run_session.
    rewrite (list_alter_ext dropped (fun x => x <| ss_vita_token := -1 |>) (w_sessions w) (w_sessions w)); [done| |done].
    intros x ->%Hx. unfold dropped. by rewrite (proj2 (Z.leb_le _ _)).
  - rewrite run_ret. f_equal. unfold vita_session_remove. rewrite (proj2 (Z.ltb_lt _ _)) by done. cbn [orb].
    rewrite (list_alter_ext dropped (fun x => x) (w_sessions w) (w_sessions w)); [|intros x ->%Hx|done].
    + rewrite list_alter_id by done. by destruct w.
    + unfold dropped. by rewrite (proj2 (Z.leb_gt _ _)).
Qed.

Lemma stop_body_run w :
  (length (ss_stream_id (sess w s)) <= 31)%nat -> 0 < ss_fd (sess w s) ->
  stop_body s id w = Some (tt, stop_granted s id w).
Proof.
  intros Hs Hfd. unfold stop_body, stop_granted.
  rewrite run_get.
  case_decide as Hst.
  - rewrite bool_decide_true by done. cbn [negb]. rewrite drop_run, run_do_rtl, run_do_rtl, run_session.
    apply told_run; [done|done|]. eapply fd_alter; [cbn; rewrite alter_twice; reflexivity| |exact Hfd].
    intros x. unfold dropped. by destruct (0 <=? _).
  - rewrite bool_decide_false by done. cbn [negb].
    apply reply_last; [done|apply streaming_text|apply streaming_short].
Qed.

Lemma cmd_stop_rx_run (l p : members) w :
  Z.of_nat (length js) < 2 ^ 64 -> located js t 0 (JObj l) -> jfind (txt "params") l = Some (JObj p) -> names_scalar p -> 0 < ss_fd (sess w s) ->
  cmd_stop_rx s id t js w = Some (tt, stop_outcome p s id w).
Proof.
  intros Hjs Hl Hp Hn Hfd. rewrite stop_eq, (stream_named_run l p) by done. unfold stop_outcome.
  destruct (named_refusal (sess w s) p) as [c|] eqn:En; [reflexivity|]. cbn [negb].
  apply stop_body_run; [by eapply named_short|done].
Qed.

Lemma dropped_fd (x : Session) : ss_fd (dropped x) = ss_fd x.
Proof. unfold dropped. by destruct (0 <=? _). Qed.

(** Giving the channel back, if it is the session's. *)
Lemma release_run {B} (k : unit -> M D B) w :
  bind (cp_rx_release s) k w =
  k tt (post (if decide (w_rx_owner w = Some s)
              then events (Some s) "control_revoked"
                     (JObj [(txt "function", JStr (txt "rx")); (txt "control_state", JStr (txt "free"))]) w
              else [])
          (w <| w_rx_owner := if decide (w_rx_owner w = Some s) then None else w_rx_owner w |>
             <| w_sessions := alter (fun x => x <| ss_owns_rx := false |>) s (w_sessions w) |>)).
Proof.
  unfold cp_rx_release. rewrite run_assoc, run_get. cbv zeta. rewrite run_assoc, run_modify, run_assoc, run_session.
  case_decide as Ho.
  - rewrite bool_decide_true by done. unfold cp_broadcast_event_except.
    rewrite (run_events (Some s) "control_revoked" _
      (JObj [(txt "function", JStr (txt "rx")); (txt "control_state", JStr (txt "free"))]));
      [|reflexivity|vm_compute; lia].
    erewrite (events_same (Some s) _ _ w); [reflexivity|]. eapply heard_alter; [reflexivity|by left].
  - rewrite bool_decide_false by done. rewrite run_ret, post_nil. by destruct w.
Qed.

Definition freed w : list tcp :=
  if decide (w_rx_owner w = Some s)
  then events (Some s) "control_revoked"
         (JObj [(txt "function", JStr (txt "rx")); (txt "control_state", JStr (txt "free"))]) w
  else [].

Lemma freed_same w w' : w_rx_owner w' = w_rx_owner w -> heard_alike (Some s) w w' -> freed w' = freed w.
Proof. intros E H. unfold freed. rewrite E. case_decide; [by apply events_same|done]. Qed.

Lemma close_tail {A} (k : M D A) w :
  0 < ss_fd (sess w s) ->
  (set_sess s (fun x => x <| ss_stream_open := false |> <| ss_state := SESSION_IDLE |> <| ss_stream_id := [] |>) ;;;
   cp_rx_release s ;;;
   send_ok s id (jq "{'closed':true}") ;;; k) w =
  k (reply s id (JObj [(txt "closed", bool_value true)]) (post (freed w) (stream_closed s w))).
Proof.
  intros Hfd. rewrite run_session, release_run.
  rewrite (run_reply s id _ (JObj [(txt "closed", bool_value true)])); [|..|reflexivity|vm_compute; lia].
  - f_equal. f_equal. rewrite <- (freed_same w (w <| w_sessions := alter (fun x => x <| ss_stream_open := false |>
      <| ss_state := SESSION_IDLE |> <| ss_stream_id := [] |>) s (w_sessions w) |>));
      [|done|eapply heard_alter; [reflexivity|by left]].
    unfold stream_closed. cbn. rewrite alter_twice. reflexivity.
  - eapply fd_alter; [cbn; rewrite alter_twice; reflexivity|done|done].
Qed.

Lemma close_body_run w :
  (length (ss_stream_id (sess w s)) <= 31)%nat -> 0 < ss_fd (sess w s) ->
  close_body s id w = Some (tt, close_granted s id w).
Proof.
  intros Hs Hfd. unfold close_body, close_granted.
  rewrite drop_run, run_get.
  cbv zeta.
  assert (ss_state (sess (sender_stop s w) s) = ss_state (sess w s)) as ->
    by (apply (alter_keeps ss_state); intros x; unfold dropped; by destruct (0 <=? _)).
  assert (ss_stream_id (sess (sender_stop s w) s) = ss_stream_id (sess w s)) as ->
    by (apply (alter_keeps ss_stream_id); intros x; unfold dropped; by destruct (0 <=? _)).
  assert (forall w', w_rx_owner w' = w_rx_owner w -> w_sessions w' = w_sessions w ->
    freed (sender_stop s w') = freed w) as Hfreed.
  { intros w' E1 E2. apply freed_same; [done|]. eapply heard_alter; [|by left].
    unfold sender_stop. cbn. by rewrite E2. }
  assert (forall w', w_sessions w' = w_sessions w -> 0 < ss_fd (sess (sender_stop s w') s)) as Hlive.
  { intros w' E. eapply fd_alter; [unfold sender_stop; cbn; rewrite E; reflexivity|apply dropped_fd|done]. }
  case_bool_decide as Hst.
  - rewrite run_assoc, run_do_rtl, run_do_rtl.
    change (_ <| w_rtl := rtl_reset_adc_level _ |>) with (sender_stop s (reader_stop w)).
    rewrite close_tail by by apply Hlive. rewrite Hfreed by done. rewrite (snprintf_fits 32) by lia.
    apply stream_state_last; [done|]. eapply fd_alter; [reflexivity|done|]. by apply Hlive.
  - rewrite run_ret, close_tail by by apply Hlive. rewrite Hfreed by done. reflexivity.
Qed.

Lemma cmd_close_stream_run (l p : members) w :
  Z.of_nat (length js) < 2 ^ 64 -> located js t 0 (JObj l) -> jfind (txt "params") l = Some (JObj p) -> names_scalar p -> 0 < ss_fd (sess w s) ->
  cmd_close_stream s id t js w = Some (tt, close_outcome p s id w).
Proof.
  intros Hjs Hl Hp Hn Hfd. rewrite close_eq, (stream_named_run l p) by done. unfold close_outcome.
  destruct (named_refusal (sess w s) p) as [c|] eqn:En; [reflexivity|]. cbn [negb].
  apply close_body_run; [by eapply named_short|done].
Qed.
End RunningHandlers.

(** ** The requests about an open stream *)
Section StreamRequests.
Context {D : Type} {P : Platform D} (e : Env).

Inductive stream_command : list Z -> (members -> nat -> list Z -> World D -> World D) -> Prop :=
  | sc_start : stream_command (txt "start_rx") (start_outcome e)
  | sc_stop : stream_command (txt "stop_rx") stop_outcome
  | sc_close : stream_command (txt "close_stream") close_outcome.

Lemma stream_command_close (cmd : list Z) f (p : members) (s i : nat) (id : list Z) (w : World D) :
  stream_command cmd f -> ss_close_after_reply (sess (f p s id w) i) = ss_close_after_reply (sess w i).
Proof.
  assert (forall g (w' w : World D), w_sessions w' = alter g s (w_sessions w) ->
    (forall x, ss_close_after_reply (g x) = ss_close_after_reply x) ->
    ss_close_after_reply (sess w' i) = ss_close_after_reply (sess w i)) as Hk.
  { intros g w' w0 E Hg. unfold sess. rewrite E. by apply (alter_keeps ss_close_after_reply). }
  intros []; unfold start_outcome, stop_outcome, close_outcome; destruct (named_refusal (sess w s) p); try done;
    unfold start_granted, stop_granted, close_granted; cbv zeta.
  - case_decide; [done|]. destruct (first_free _ 0) as [j|]; [case_decide|];
      (eapply Hk; [reflexivity|done]).
  - case_decide; [|done]. eapply Hk; [cbn; rewrite alter_twice; reflexivity|].
    intros x. unfold dropped. by destruct (0 <=? _).
  - case_bool_decide; (eapply Hk; [cbn; rewrite alter_twice; reflexivity|]);
      intros x; unfold dropped; by destruct (0 <=? _).
Qed.

Lemma start_served (v : Srv D) (s len : nat) (l p : members) (id : list Z) :
  delivered v s len l -> request l id (txt "start_rx") p ->
  client (sv_world v) s -> unlocked s (sv_world v) -> names_scalar p ->
  served e v s len (start_outcome e p s id (sv_world v)).
Proof.
  intros Hd Hr Hc Hu Hn.
  eapply (request_served e v s len l p id _ (cmd_start_rx e)); try done; [by split; [vm_compute; lia|]|..].
  - intros js t Hl Hjs. apply (cmd_start_rx_run e s id js t l p); try done; [apply Hr|apply Hc].
  - rewrite (stream_command_close _ _ p s s id (sv_world v) sc_start). apply Hc.
Qed.

End StreamRequests.

(** ** Examples *)
Definition stream_params : members := [(txt "stream_id", JStr (txt "rx-1"))].

