(* ===== verification/Delivery.v ===== *)
(** * From start_rx to the datagrams

    Which session has which slot of the sender, as an invariant of the server; and
    the way of the samples: while a session streams, whatever else the server does
    in between, what leaves for its destination is the abstract stream of Vita fed
    with the buffers of the USB thread, in order. *)
From Stdlib Require Import SpecFloat.
From S2P Require Import Prelude CLib Jsmn JsonText JsonTok Sha256 Auth Config Rtl Vita World.
From S2P Require Import Session Commands RxCommands Server Quiet Invariants Safety Steady Requests Opening Streams.
#[local] Open Scope Z_scope.

(** ** Slots of the sender *)
Definition actives (v : Vita) : list bool := active <$> vt_sessions v.

Lemma actives_insert (v : Vita) (i : nat) (x y : VitaSession) (out : list udp) :
  vt_sessions v !! i = Some x -> active y = active x ->
  actives (v <| vt_sessions := <[i := y]> (vt_sessions v) |> <| vt_out := out |>) = actives v.
Proof.
  intros Hx Hy. unfold actives. cbn. rewrite list_fmap_insert. apply list_insert_id.
  by rewrite list_lookup_fmap, Hx, Hy.
Qed.

Lemma actives_context (g : Z) (i : nat) (v : Vita) : actives (send_context_locked g i v) = actives v.
Proof.
  unfold send_context_locked. destruct (vt_sessions v !! i) as [x|] eqn:E; [|done]. case_match; [done|].
  cbv zeta. unfold sendto. cbn [vt_sock upd]. case_match; by apply (actives_insert v i x).
Qed.

Lemma fold_actives {A} (f : Vita -> A -> Vita) (l : list A) (v : Vita) :
  (forall a v, actives (f v a) = actives v) -> actives (fold_left f l v) = actives v.
Proof. intros Hf. revert v. induction l as [|a l IH]; intros v; cbn; [done|]. by rewrite IH. Qed.

Lemma actives_context_all (g : Z) (v : Vita) : actives (vita_send_context_all g v) = actives v.
Proof. unfold vita_send_context_all. case_match; [done|]. apply fold_actives. intros. apply actives_context. Qed.

Lemma actives_format (pf : Z) (v : Vita) : actives (vita_update_payload_format pf v) = actives v.
Proof.
  unfold actives, vita_update_payload_format. cbn. rewrite <- list_fmap_compose. apply list_fmap_ext.
  intros i x _. cbn. by destruct (active x) eqn:E; cbn; rewrite ?E.
Qed.

Lemma build_active (n slot : nat) (chunk : list Z) (x : VitaSession) :
  active (build_pkts n slot chunk x).2 = active x.
Proof.
  revert chunk x. induction n as [|n IH]; intros chunk x; cbn [build_pkts]; [done|].
  match goal with |- context [build_pkts n slot ?c ?y] =>
    specialize (IH c y); destruct (build_pkts n slot c y) end. exact IH.
Qed.

Lemma actives_callback (buf : list Z) (v : Vita) : actives (vita_send_callback buf v) = actives v.
Proof.
  unfold vita_send_callback. do 2 (case_match; [done|]). apply fold_actives. intros i w. unfold send_burst.
  destruct (vt_sessions w !! i) as [x|] eqn:E; [|done]. case_match; [done|].
  pose proof (build_active (burst_pkts (length buf)) i buf x) as Ha.
  destruct (build_pkts _ _ _ _) as [pkts x']. by apply (actives_insert w i x).
Qed.

Lemma actives_remove (t : Z) (v : Vita) (i : nat) :
  t <> Z.of_nat i -> actives (vita_session_remove t v) !! i = actives v !! i.
Proof.
  intros Ht. unfold vita_session_remove. destruct (_ || _) eqn:E; [done|]. zbool.
  unfold actives. cbn. rewrite list_fmap_insert. apply list_lookup_insert_ne. lia.
Qed.

Lemma first_free_active (v : Vita) (i : nat) : first_free (vt_sessions v) 0 = Some i -> actives v !! i = Some false.
Proof.
  intros (x & Hx & Ha & _)%first_free_spec. rewrite Nat.sub_0_r in Hx.
  unfold actives. by rewrite list_lookup_fmap, Hx, <- Ha.
Qed.

Lemma actives_add (e : Env) {D} (x : Session) (r : Rtl D) (v : Vita) (i j : nat) :
  first_free (vt_sessions v) 0 = Some i ->
  actives (sender_start e x r v) !! j = if decide (j = i) then Some true else actives v !! j.
Proof.
  intros Hf. pose proof (first_free_active v i Hf) as Hi. unfold sender_start, vita_session_add. rewrite Hf.
  cbn [snd]. rewrite actives_context. unfold actives in *. cbn. rewrite list_lookup_fmap in *.
  destruct (vt_sessions v !! i) as [y|] eqn:Ey; [|done]. case_decide as Hj.
  - subst j. by rewrite list_lookup_alter_eq, Ey.
  - rewrite list_lookup_alter_ne by done. by rewrite list_lookup_fmap.
Qed.

(** ** Which session has which slot *)
Section Tokens.
Context {D : Type} {P : Platform D}.
Implicit Types w : World D.

(** The session has a slot of its own, an open stream, and counts as a reader. *)
Definition seated w (x : Session) : Prop :=
  exists k, ss_vita_token x = Z.of_nat k /\ actives (w_vita w) !! k = Some true /\
    ss_stream_open x = true /\ 1 <= s_stream_count (w_rtl w).

Definition seats_ok w : Prop := forall i, 0 < ss_fd (sess w i) -> ss_vita_token (sess w i) = -1 \/ seated w (sess w i).

(** Nobody else has a slot. *)
Definition lone (s : nat) w : Prop := forall i, i <> s -> 0 < ss_fd (sess w i) -> ss_vita_token (sess w i) = -1.

Lemma sess_out w i : (length (w_sessions w) <= i)%nat -> sess w i = session_zero.
Proof. intros H. unfold sess. rewrite list_lookup_total_alt. by rewrite lookup_ge_None_2. Qed.

Lemma sess_live w i : 0 < ss_fd (sess w i) -> (i < length (w_sessions w))%nat.
Proof.
  intros H. destruct (Nat.lt_ge_cases i (length (w_sessions w))) as [|Hle]; [done|].
  by rewrite sess_out in H.
Qed.

(** What an update of session [s] does to session [i]. *)
Lemma sess_after w w' f s i :
  w_sessions w' = alter f s (w_sessions w) ->
  sess w' i = sess w i /\ (i <> s \/ (length (w_sessions w) <= i)%nat) \/ i = s /\ sess w' i = f (sess w i).
Proof.
  intros E. destruct (decide (i = s)) as [->|Hn].
  - destruct (decide (length (w_sessions w) <= s)%nat) as [Hle|Hlt].
    + left. split; [|by right]. rewrite !sess_out; [done|done|]. rewrite E, length_alter. done.
    + right. split; [done|]. unfold sess. rewrite E. apply list_lookup_total_alter_eq. lia.
  - left. split; [|by left]. unfold sess. rewrite E. by apply list_lookup_total_alter_ne.
Qed.

Lemma seated_frame w w' x x' :
  actives (w_vita w') = actives (w_vita w) -> s_stream_count (w_rtl w') = s_stream_count (w_rtl w) ->
  ss_vita_token x' = ss_vita_token x -> (ss_stream_open x = true -> ss_stream_open x' = true) ->
  seated w x -> seated w' x'.
Proof. intros Ea Ec Et Eo (k & H1 & H2 & H3 & H4). exists k. rewrite Ea, Ec, Et. auto. Qed.

Lemma seats_frame w w' :
  actives (w_vita w') = actives (w_vita w) -> s_stream_count (w_rtl w') = s_stream_count (w_rtl w) ->
  w_sessions w' = w_sessions w -> seats_ok w -> seats_ok w'.
Proof.
  intros Ea Ec Es H i. unfold sess. rewrite Es. intros Hi. destruct (H i Hi) as [?|Hs]; [by left|right].
  by eapply seated_frame.
Qed.

#[export] Instance seats_steady : Steady seats_ok.
Proof.
  split; intros w; try (intros; by eapply seats_frame).
  - intros g. apply seats_frame; [apply actives_context_all|done..].
  - intros pf. apply seats_frame; [apply actives_format|done..].
  - intros r [E _]. by apply seats_frame.
  - intros s f Hf H i. set (w' := w <| w_sessions := alter f s (w_sessions w) |>).
    assert (w_sessions w' = alter f s (w_sessions w)) as E0 by done.
    destruct (sess_after w w' f s i E0) as [[E _]|[-> E]]; rewrite E.
    { intros Hi. destruct (H i Hi) as [?|Hs]; [by left|right]. by eapply seated_frame. }
    destruct (Hf (sess w s)) as (-> & Et & Eo).
    intros Hi. rewrite Et. destruct (H s Hi) as [?|Hs]; [by left|right]. by eapply seated_frame.
Qed.

Lemma lone_frame s w w' : w_sessions w' = w_sessions w -> lone s w -> lone s w'.
Proof. intros E H i. unfold sess. rewrite E. apply H. Qed.

Lemma lone_alter s f w w' : w_sessions w' = alter f s (w_sessions w) -> lone s w -> lone s w'.
Proof.
  intros E H i Hi. destruct (sess_after w w' f s i E) as [[-> _]|[-> _]]; [by apply H|done].
Qed.

(** The one with an open stream is the only one with a slot. *)
Lemma open_lone s w :
  inv None w -> seats_ok w -> 0 < ss_fd (sess w s) -> ss_stream_open (sess w s) = true -> lone s w.
Proof.
  intros (Hl & _ & _ & Hok) Hs Hfd Ho i Hi Hfi. destruct (Hs i Hfi) as [?|(k & _ & _ & Hoi & _)]; [done|].
  assert (forall j, 0 < ss_fd (sess w j) -> ok_at w j (sess w j)) as Hj.
  { intros j Hfj. apply Hok; [|done]. apply list_lookup_lookup_total_lt. by apply sess_live. }
  pose proof (so_open _ _ _ _ _ (Hj i Hfi) Hoi). pose proof (so_open _ _ _ _ _ (Hj s Hfd) Ho). congruence.
Qed.

(** Enough for the invariant: the others have no slot, and this one is all right. *)
Lemma lone_seats s w :
  lone s w -> (0 < ss_fd (sess w s) -> ss_vita_token (sess w s) = -1 \/ seated w (sess w s)) -> seats_ok w.
Proof. intros Hl Hs i Hi. destruct (decide (i = s)) as [->|Hn]; [by apply Hs|left; by apply Hl]. Qed.
End Tokens.

(** ** The stream commands *)
Section StreamCommands.
Context {D : Type} {P : Platform D} (e : Env) (s : nat) (id js : list Z) (t : list jsmntok_t).
Implicit Types w : World D.

Lemma error_out code msg w u w' : send_error s id code msg w = Some (u, w') -> exists o, w' = w <| w_out := o |>.
Proof.
  unfold send_error, send_framed, modify. case_match; intros [= _ <-]; [exists (w_out w); by destruct w|by eexists].
Qed.

(** A stream is taken for the session's only if it is open and its name short. *)
Lemma stream_named_inv w b w' :
  stream_named s id js t w = Some (b, w') ->
  (exists o, w' = w <| w_out := o |>) /\
  (b = true -> w' = w /\ ss_stream_open (sess w s) = true /\ (length (ss_stream_id (sess w s)) <= 31)%nat).
Proof.
  intros H. split.
  { assert (Stable (fun w1 => exists o, w1 = w <| w_out := o |>)) as Hst by (intros w1 o [o' ->]; by exists o).
    refine (q_stream_named _ s id js t w b w' _ H). exists (w_out w). by destruct w. }
  intros ->. revert H. unfold stream_named, find_params, find_if, find, tok, lift, bind, get, ret.
  destruct (tok_find_key js t (Z.to_nat 0) (txt "params")) as [p|]; [|done].
  assert (forall c m, match send_error (D := D) s id c m w with Some (_, w1) => Some (false, w1) | None => None end <>
    Some (true, w')) as Hno by (intros c m; by destruct (send_error s id c m w) as [[? ?]|]).
  destruct (0 <=? p); [|change (-1 <? 0) with true; cbv iota; intros H; by apply Hno in H].
  destruct (tok_find_key js t (Z.to_nat p) (txt "stream_id")) as [si|]; [|done].
  destruct (si <? 0); [intros H; by apply Hno in H|].
  destruct (t !! Z.to_nat si) as [tk|]; [|done].
  destruct (negb _ || negb _) eqn:Eo; [intros H; by apply Hno in H|]. intros [= <-].
  unfold streq in Eo. zbool. split; [done|]. split; [done|].
  rewrite <- H0. unfold tok_str, tok_bytes.
  match goal with |- (length (cstr ?x) <= _)%nat => transitivity (length x); [by apply cstr_length|] end.
  rewrite length_take. case_match; zbool; lia.
Qed.

Lemma stream_command_inv (body : M D unit) w u w' :
  bind (stream_named s id js t) (fun named => if negb named then ret tt else body) w = Some (u, w') ->
  (exists o, w' = w <| w_out := o |>) \/
  ss_stream_open (sess w s) = true /\ (length (ss_stream_id (sess w s)) <= 31)%nat /\ body w = Some (u, w').
Proof.
  unfold bind. destruct (stream_named s id js t w) as [[b w1]|] eqn:E; [|done].
  apply stream_named_inv in E as [Ho Hb]. destruct b; cbn [negb].
  - destruct (Hb eq_refl) as (-> & H1 & H2). intros H. by right.
  - intros [= _ <-]. by left.
Qed.

(** What each of them comes to. *)
Inductive stream_effect (granted : World D) w w' : Prop :=
  | se_said o : w' = w <| w_out := o |> -> stream_effect granted w w'
  | se_done : ss_stream_open (sess w s) = true -> w' = granted -> stream_effect granted w w'.

Lemma start_effect w u w' :
  0 < ss_fd (sess w s) -> cmd_start_rx e s id t js w = Some (u, w') -> stream_effect (start_granted e s id w) w w'.
Proof.
  intros Hfd. rewrite start_eq. intros [[o ->]|(Ho & Hl & H)]%stream_command_inv; [by eapply se_said|].
  apply se_done; [done|]. rewrite start_body_run in H by done. by injection H.
Qed.

Lemma stop_effect w u w' :
  0 < ss_fd (sess w s) -> cmd_stop_rx s id t js w = Some (u, w') -> stream_effect (stop_granted s id w) w w'.
Proof.
  intros Hfd. rewrite stop_eq. intros [[o ->]|(Ho & Hl & H)]%stream_command_inv; [by eapply se_said|].
  apply se_done; [done|]. rewrite stop_body_run in H by done. by injection H.
Qed.

Lemma close_effect w u w' :
  0 < ss_fd (sess w s) -> cmd_close_stream s id t js w = Some (u, w') -> stream_effect (close_granted s id w) w w'.
Proof.
  intros Hfd. rewrite close_eq. intros [[o ->]|(Ho & Hl & H)]%stream_command_inv; [by eapply se_said|].
  apply se_done; [done|]. rewrite close_body_run in H by done. by injection H.
Qed.
End StreamCommands.

Section SeatsKept.
Context {D : Type} {P : Platform D} (e : Env) (s : nat) (id js : list Z) (t : list jsmntok_t).
Implicit Types w : World D.

Lemma sess_own f w w' : w_sessions w' = alter f s (w_sessions w) -> 0 < ss_fd (sess w s) -> sess w' s = f (sess w s).
Proof. intros E H. rewrite <- (sess_total s f w H). unfold sess. by rewrite E. Qed.

(** The session gives up its slot, or has none. *)
Lemma seats_none f w w' :
  lone s w -> w_sessions w' = alter f s (w_sessions w) -> 0 < ss_fd (sess w s) ->
  ss_vita_token (f (sess w s)) = -1 -> seats_ok w'.
Proof.
  intros Hl E Hfd Hf. apply (lone_seats s); [by eapply lone_alter|]. intros _. left. by rewrite (sess_own f w w').
Qed.

Lemma reader_count (r : Rtl D) :
  bridge_ok r -> reader_starts e r -> 1 <= s_stream_count (rtl_bridge_start (e_thread_ok e) r).2.
Proof.
  intros Hb Hr. pose proof (start_spec (e_thread_ok e) r Hb) as H. pose proof (start_result e r) as Hrc.
  rewrite decide_True in Hrc by done. destruct (rtl_bridge_start _ r) as [rc r']. cbn in Hrc |- *. subst rc.
  destruct H as (_ & _ & -> & _), Hb. cbn. lia.
Qed.

Lemma start_seats w : ready s w -> seats_ok w -> ss_stream_open (sess w s) = true -> seats_ok (start_granted e s id w).
Proof.
  intros [Hi Hfd] Hs Ho. pose proof (open_lone s w Hi Hs Hfd Ho) as Hl. unfold start_granted.
  case_decide as Hst; [by apply (steady_out w)|].
  destruct (first_free (vt_sessions (w_vita w)) 0) as [i|] eqn:Ef; [case_decide as Hr|].
  - set (f := fun x => x <| ss_vita_token := Z.of_nat i |> <| ss_state := SESSION_STREAMING |>).
    unfold rx_started, stream_state, reply. do 2 apply steady_out.
    apply (lone_seats s); [by apply (lone_alter s f w)|]. intros _. right. exists i.
    rewrite (sess_own f w) by done. split; [done|]. split; [|split; [done|]].
    + cbn. rewrite (actives_add e _ _ _ i i Ef). by rewrite decide_True.
    + cbn. apply reader_count; [apply Hi|done].
  - unfold rx_failed, refused. apply steady_out.
    by eapply (seats_none (fun x => x <| ss_vita_token := -1 |>) w).
  - unfold refused. apply steady_out. by eapply (seats_none (fun x => x <| ss_vita_token := -1 |>) w).
Qed.

Lemma dropped_token w : 0 < ss_fd (sess w s) -> seats_ok w -> ss_vita_token (dropped (sess w s)) = -1.
Proof.
  intros Hfd Hs. unfold dropped. destruct (Z.leb_spec 0 (ss_vita_token (sess w s))); [done|].
  destruct (Hs s Hfd) as [?|(k & ? & _)]; [done|lia].
Qed.

Lemma stop_seats w : ready s w -> seats_ok w -> ss_stream_open (sess w s) = true -> seats_ok (stop_granted s id w).
Proof.
  intros [Hi Hfd] Hs Ho. pose proof (open_lone s w Hi Hs Hfd Ho) as Hl. unfold stop_granted.
  case_decide; [|by apply (steady_out w)]. cbv zeta. unfold stream_state, reply. do 2 apply steady_out.
  eapply (seats_none (fun x => (dropped x) <| ss_state := SESSION_STREAM_OPEN |>) w); [done|cbn; by rewrite alter_twice|done|].
  by apply dropped_token.
Qed.

Lemma close_seats w : ready s w -> seats_ok w -> ss_stream_open (sess w s) = true -> seats_ok (close_granted s id w).
Proof.
  intros [Hi Hfd] Hs Ho. pose proof (open_lone s w Hi Hs Hfd Ho) as Hl. unfold close_granted. cbv zeta.
  assert (forall w1, w_sessions w1 = w_sessions w -> seats_ok (stream_closed s (sender_stop s w1))) as H.
  { intros w1 E.
    eapply (seats_none (fun x => (dropped x) <| ss_stream_open := false |> <| ss_state := SESSION_IDLE |>
                                   <| ss_stream_id := [] |> <| ss_owns_rx := false |>) w);
      [done|cbn; rewrite E; by rewrite alter_twice|done|by apply dropped_token]. }
  unfold stream_state, reply. case_bool_decide; [do 3 apply steady_out|do 2 apply steady_out]; by apply H.
Qed.
End SeatsKept.

(** ** The end of a session *)
Section Destroy.
Context {D : Type} {P : Platform D} (s : nat).
Implicit Types w : World D.

Definition no_seat w : Prop := ss_vita_token (sess w s) = -1.

Lemma no_seat_frame w w' : w_sessions w' = w_sessions w -> no_seat w -> no_seat w'.
Proof. intros E. unfold no_seat, sess. by rewrite E. Qed.

#[export] Instance no_seat_steady : Steady no_seat.
Proof.
  split; intros w; try (intros; by eapply no_seat_frame).
  intros i f Hf H. unfold no_seat in *. set (w' := w <| w_sessions := alter f i (w_sessions w) |>).
  assert (w_sessions w' = alter f i (w_sessions w)) as E0 by done.
  destruct (sess_after w w' f i s E0) as [[-> _]|[-> ->]]; [done|]. by destruct (Hf (sess w i)) as (_ & -> & _).
Qed.

#[export] Instance lone_steady : Steady (lone (D := D) s).
Proof.
  split; intros w; try (intros; by eapply lone_frame).
  intros i f Hf H j Hj. set (w' := w <| w_sessions := alter f i (w_sessions w) |>).
  assert (w_sessions w' = alter f i (w_sessions w)) as E0 by done.
  destruct (sess_after w w' f i j E0) as [[-> _]|[-> ->]]; [by apply H|].
  destruct (Hf (sess w i)) as (-> & -> & _). by apply H.
Qed.

(** After the session has left the sender. *)
Lemma sender_stop_seats w :
  ready s w -> seats_ok w -> seats_ok (sender_stop s w) /\ no_seat (sender_stop s w) /\
    (ss_stream_open (sess w s) = true -> lone s (sender_stop s w)) /\ sess (sender_stop s w) s = dropped (sess w s).
Proof.
  intros [Hi Hfd] Hs. pose proof (dropped_token s w Hfd Hs) as Ht.
  assert (sess (sender_stop s w) s = dropped (sess w s)) as Ed by by apply sess_own.
  assert (no_seat (sender_stop s w)) as Hn by (unfold no_seat; by rewrite Ed).
  assert (ss_stream_open (sess w s) = true -> lone s (sender_stop s w)) as Hl.
  { intros Ho. eapply lone_alter; [reflexivity|]. by apply open_lone. }
  split; [|by repeat split]. destruct (ss_stream_open (sess w s)) eqn:Ho.
  - apply (lone_seats s); [by apply Hl|]. intros _. by left.
  - destruct (Hs s Hfd) as [E|(k & _ & _ & ? & _)]; [|congruence].
    apply (seats_frame w); [|done| |done].
    + unfold sender_stop, vita_session_remove. cbn. rewrite E. done.
    + unfold sender_stop. cbn. rewrite (list_alter_ext dropped (fun x => x) _ (w_sessions w)); [by apply list_alter_id| |done].
      intros x Hx. unfold dropped. apply list_lookup_total_correct in Hx. fold (sess w s) in Hx. by rewrite <- Hx, E.
Qed.

(** The rest of session_destroy. *)
Definition farewell : M D unit :=
  let* x := get (fun w => sess w s) in
  (if decide (ss_state x = SESSION_STREAMING) then
     do_rtl rtl_bridge_stop ;;;
     do_rtl rtl_reset_adc_level ;;;
     cp_broadcast_event_except s (txt "stream_state")
       (stream_event (ss_stream_id x) false (txt "control_lost"))
   else ret tt) ;;;
  cp_rx_release s ;;;
  let* r := get w_rtl in
  (if g_bias_tee_enabled r && negb (g_bias_tee_persist r)
   then let* _ := with_rtl (rtl_set_bias_tee d_zero) in ret tt
   else ret tt) ;;;
  set_sess s (fun _ => session_zero).

Lemma destroy_run w : session_destroy s w = farewell (sender_stop s w).
Proof. change (session_destroy s) with (drop_vita (D := D) s ;;; farewell). by rewrite drop_run. Qed.

(** Whatever is closed under steady changes survives up to the last step. *)
Lemma farewell_steady (I : World D -> Prop) {HI : Steady I} w u w' :
  I w -> farewell w = Some (u, w') ->
  (ss_state (sess w s) = SESSION_STREAMING -> forall r, I (w <| w_rtl := r |>)) ->
  exists w1, I w1 /\ w' = w1 <| w_sessions := alter (fun _ => session_zero) s (w_sessions w1) |>.
Proof.
  intros Hw E Hst.
  cut (hoare (fun w1 => w1 = w) farewell
    (fun _ w' => exists w1, I w1 /\ w' = w1 <| w_sessions := alter (fun _ => session_zero) s (w_sessions w1) |>));
    [intros H; by eapply H|].
  unfold farewell. apply h_get_bind. intros x. apply (h_then _ I).
  - case_decide as Hx.
    + apply h_seq. eapply (h_then _ I); [|apply q_event_except; apply _].
      intros w1 u1 w2 [-> ->] [= _ <-]. by apply (Hst Hx).
    + eapply h_post; [apply h_ret|]. by intros u1 w1 [[-> _] _].
  - eapply h_stay; [by apply t_release|intros _]. eapply h_stay; [apply s_get|intros r].
    eapply h_stay; [case_match; [|apply s_ret]; eapply h_stay; [|intros _; apply s_ret]|intros _].
    + apply t_rtl; [done|]. intros r'. apply set_bias_tee_reader.
    + intros w1 u1 w2 Hw1 [= _ <-]. by exists w1.
Qed.

Lemma d_destroy : hoare (fun w => ready s w /\ seats_ok w) (session_destroy s) (fun _ => seats_ok).
Proof.
  intros w u w' [Hr Hs] E. rewrite destroy_run in E.
  pose proof (sender_stop_seats w Hr Hs) as (Hs1 & Hn1 & Hl1 & Ed).
  destruct (farewell_steady (fun w => seats_ok w /\ no_seat w) _ _ _ (conj Hs1 Hn1) E)
    as (w1 & [Hs2 _] & ->).
  - rewrite Ed. intros Hst r. assert (ss_stream_open (sess w s) = true) as Ho.
    { assert (ss_state (sess w s) = SESSION_STREAMING) as Hst' by (revert Hst; unfold dropped; by destruct (0 <=? _)).
      assert (s < MAX_SESSIONS)%nat as His by (rewrite <- (proj1 (proj1 Hr)); apply sess_live, Hr).
      by apply (so_state _ _ _ _ _ (ready_ok s w Hr His)); right. }
    split; [|done]. apply (lone_seats s); [by apply Hl1|]. intros _. left. exact Hn1.
  - intros i. set (w2 := w1 <| w_sessions := _ |>).
    assert (w_sessions w2 = alter (fun _ => session_zero) s (w_sessions w1)) as E0 by done.
    destruct (sess_after w1 w2 _ s i E0) as [[-> _]|[-> ->]]; [apply Hs2|cbn; lia].
Qed.
End Destroy.

(** ** The command loop keeps the seats *)
Section Loop.
Context {D : Type} {P : Platform D} (e : Env) (s : nat) (Hs : (s < MAX_SESSIONS)%nat).
Implicit Types w : World D.

(** Every command that is not about an open stream. *)
Lemma dispatch_cases (I : World D -> Prop) `{HI : !Steady I} (R : World D -> World D -> Prop)
    (cmd id : list Z) (t : list jsmntok_t) (js : list Z) w b w' :
  I w -> 0 < ss_fd (sess w s) -> dispatch e s cmd id t js w = Some (b, w') ->
  (forall granted, In granted [start_granted e s id w; stop_granted s id w; close_granted s id w] ->
     ss_stream_open (sess w s) = true -> R w granted) ->
  I w' \/ R w w'.
Proof.
  intros Hw Hfd E HR. unfold dispatch, bind in E.
  destruct (lookup_cmd cmd (s_dispatch e)) as [f|] eqn:Ef.
  2:{ left. destruct (send_error _ _ _ _ w) as [[u w1]|] eqn:E1; [|done]. injection E as _ <-.
      by eapply (q_send_error I). }
  destruct (f s id t js w) as [[u w1]|] eqn:E1; [|done]. injection E as _ <-.
  apply lookup_cmd_In in Ef as (n & Hin & _). cbn [s_dispatch In] in Hin.
  assert (forall granted, In granted [start_granted e s id w; stop_granted s id w; close_granted s id w] ->
    stream_effect s granted w w1 -> I w1 \/ R w w1) as Hse.
  { intros g Hg [o ->|Ho ->]; [left; by apply steady_out|right; by apply HR]. }
  repeat match type of Hin with _ \/ _ => destruct Hin as [Hin|Hin] end; try done;
    apply pair_equal_spec in Hin as [_ <-];
    lazymatch type of E1 with
    | cmd_hello _ _ _ _ _ _ = _ => left; exact (t_hello I e s id js t _ _ _ Hw E1)
    | cmd_authenticate _ _ _ _ _ _ = _ => left; exact (t_authenticate I e s id js t _ _ _ Hw E1)
    | cmd_get_capabilities _ _ _ _ _ = _ => left; exact (t_get_capabilities I s id js t _ _ _ Hw E1)
    | cmd_set_frequency _ _ _ _ _ = _ => left; exact (t_set_frequency I s id js t _ _ _ Hw E1)
    | cmd_set_sample_rate _ _ _ _ _ = _ => left; exact (t_set_sample_rate I s id js t _ _ _ Hw E1)
    | cmd_set_control _ _ _ _ _ = _ => left; exact (t_set_control I s id js t _ _ _ Hw E1)
    | cmd_open_stream _ _ _ _ _ _ = _ => left; exact (t_open_stream I e s id js t _ _ _ Hw E1)
    | cmd_ping _ _ _ _ _ = _ => left; exact (q_ping I s id t js _ _ _ Hw E1)
    | cmd_get_status _ _ _ _ _ _ = _ => left; exact (q_get_status I e s id t js _ _ _ Hw E1)
    | cmd_get_control _ _ _ _ _ = _ => left; exact (q_get_control I s id t js _ _ _ Hw E1)
    | cmd_get_clock_status _ _ _ _ _ _ = _ => left; exact (q_get_clock I e s id t js _ _ _ Hw E1)
    | cmd_start_rx _ _ _ _ _ _ = _ => eapply Hse; [by left|by eapply start_effect]
    | cmd_stop_rx _ _ _ _ _ = _ => eapply Hse; [by right; left|by eapply stop_effect]
    | cmd_close_stream _ _ _ _ _ = _ => eapply Hse; [by right; right; left|by eapply close_effect]
    end.
Qed.

Lemma process_cases (I : World D -> Prop) `{HI : !Steady I} (R : World D -> World D -> Prop)
    (ntok : Z) (t : list jsmntok_t) (js : list Z) w b w' :
  I w -> 0 < ss_fd (sess w s) -> process_request e s ntok t js w = Some (b, w') ->
  (forall id granted, In granted [start_granted e s id w; stop_granted s id w; close_granted s id w] ->
     ss_stream_open (sess w s) = true -> R w granted) ->
  I w' \/ R w w'.
Proof.
  intros Hw Hfd E HR.
  cut (hoare (fun w1 => w1 = w) (process_request e s ntok t js) (fun _ w' => I w' \/ R w w')); [intros H; by eapply H|].
  clear b w' E.
  assert (forall id c m (b : bool), hoare (fun w1 => w1 = w) (send_error s id c m ;;; ret b) (fun _ w' => I w' \/ R w w')) as Hsay.
  { intros id c m b w1 b' w' -> E. left. revert E. unfold bind.
    destruct (send_error s id c m w) as [[u w1]|] eqn:E1; [|done]. intros [= _ <-]. by eapply (q_send_error I). }
  assert (forall b : bool, hoare (fun w1 => w1 = w) (ret b) (fun _ w' => I w' \/ R w w')) as Hret
    by (intros b w1 b' w' -> [= _ <-]; by left).
  assert (forall cmd id, hoare (fun w1 => w1 = w) (gated_dispatch e s cmd id t js) (fun _ w' => I w' \/ R w w')) as Hgate.
  { intros cmd id w1 b w' -> E. unfold gated_dispatch in E. rewrite !run_get in E. unfold bind at 1 in E.
    assert (forall locked w1, (if g_rx_auth (w_conf w) && negb (ss_rx_unlocked (sess w s))
      then cmd_addresses_rx cmd t js else ret false) w = Some (locked, w1) -> w1 = w) as Hp.
    { intros locked w1. clear E. destruct (_ && _); [apply addresses_pure|by intros [= _ <-]]. }
    match type of E with match ?m with _ => _ end = _ => destruct m as [[locked w1]|] eqn:El; [|done] end.
    pose proof (Hp _ _ eq_refl) as ->.
    destruct locked; [by eapply (Hsay id)|].
    eapply (dispatch_cases I R); [done|done|exact E|]. intros g Hg. by apply (HR id). }
  unfold process_request. case_match; [apply Hsay|].
  repeat first [apply Hsay|apply Hret|apply Hgate|eapply h_stay; [apply s_lift|intros ?]|
                eapply h_stay; [apply s_get|intros ?]|case_match].
Qed.
End Loop.

(** ** Every step keeps the seats *)
Section Steps.
Context {D : Type} {P : Platform D}.
Implicit Types w : World D.
Implicit Types v : Srv D.

Lemma process_seats (e : Env) (s len : nat) v v' :
  (s < MAX_SESSIONS)%nat -> ready s (sv_world v) -> seats_ok (sv_world v) ->
  process_message e s len v = Some v' -> seats_ok (sv_world v').
Proof.
  intros Hs Hr Hk. unfold process_message. destruct (jsmn_parse _ _ _ _ _) as [ntok t].
  destruct (process_request _ _ _ _ _ _) as [[stop w]|] eqn:E; [|done].
  assert (seats_ok w) as Hw.
  { destruct (process_cases e s seats_ok (fun _ => seats_ok) _ _ _ _ _ _ Hk (proj2 Hr) E) as [?|?]; [|done..].
    intros id g [<-|[<-|[<-|[]]]]; [by apply start_seats|by apply stop_seats|by apply close_seats]. }
  pose proof (i_process_request e s Hs _ _ _ _ _ _ Hr E) as Hr'.
  destruct stop; [destruct (session_destroy s w) as [[u w2]|] eqn:Ed; [|done]|]; intros [= <-]; [|exact Hw].
  by eapply (d_destroy s).
Qed.

Lemma create_seats (fd : Z) (ip : list Z) :
  hoare (fun w => inv None w /\ seats_ok w) (session_create fd ip) (fun _ => seats_ok).
Proof.
  intros w r w' [Hi Hs]. unfold session_create, bind, get.
  destruct (free_slot _ 0) as [i|]; [|by intros [= _ <-]]. unfold set_sess, modify, ret. intros [= _ <-] j.
  match goal with |- context [sess ?a j] => set (w1 := a) end.
  match goal with w1 := w <| w_sessions := alter ?f i _ |> |- _ =>
    destruct (sess_after w w1 f i j eq_refl) as [[-> _]|[-> ->]] end; [apply Hs|by left].
Qed.

Lemma accept_seats (e : Env) (fd : Z) (ip : list Z) :
  0 < fd -> hoare (fun w => inv None w /\ seats_ok w) (accept_client e fd ip) (fun _ => seats_ok).
Proof.
  intros Hfd. unfold accept_client.
  eapply h_bind with (Q := fun r w => seats_ok w /\ forall i, r = Some i -> ready i w).
  { intros w r w' [Hi Hs] E. split; [by eapply create_seats|]. intros i Hr.
    by apply (i_session_create fd ip Hfd w r w' Hi E). }
  intros [i|]; [case_match|].
  - eapply h_post; [apply h_ret|]. by intros ? w [[? _] _].
  - eapply h_pre; [|apply d_destroy]. intros w [Hs Hr]. split; [by apply Hr|done].
  - eapply h_post; [apply h_ret|]. by intros ? w [[? _] _].
Qed.

(** A buffer of the USB thread goes to the sender if the reader runs. *)
Lemma callback_run (now : Z) (buf : list Z) w u w' :
  rtl_callback now buf w = Some (u, w') ->
  w_sessions w' = w_sessions w /\ reader_same (w_rtl w) (w_rtl w') /\ w_rx_owner w' = w_rx_owner w /\
  w_vita w' = if rtl_running (w_rtl w) then vita_send_callback buf (w_vita w) else w_vita w.
Proof.
  unfold rtl_callback. rewrite run_get. destruct (rtl_running (w_rtl w)) eqn:Er; cbn [negb]; [|by intros [= _ <-]].
  rewrite run_do_rtl. set (w1 := w <| w_rtl := _ |>). unfold bind at 1, with_rtl.
  pose proof (measure_reader now buf (w_rtl w1)) as [E1 E2].
  destruct (measure_adc_level now buf (w_rtl w1)) as [r ev]. set (w2 := w1 <| w_rtl := r |>). unfold bind.
  destruct ((match ev with Some dbfs => cp_on_adc_overload dbfs | None => ret tt end) w2) as [[u2 w3]|] eqn:E3; [|done].
  intros [= _ <-].
  assert (w_sessions w3 = w_sessions w2 /\ w_rtl w3 = w_rtl w2 /\ w_vita w3 = w_vita w2 /\ w_rx_owner w3 = w_rx_owner w2)
    as (S1 & S2 & S3 & S4).
  { destruct ev as [dbfs|]; [|by injection E3 as _ <-].
    set (I := fun w3 => w_sessions w3 = w_sessions w2 /\ w_rtl w3 = w_rtl w2 /\ w_vita w3 = w_vita w2 /\
      w_rx_owner w3 = w_rx_owner w2).
    assert (Stable I) as Hst by (intros w4 o H; exact H). by apply (q_adc_overload I dbfs w2 u2 w3). }
  cbn. rewrite S1, S3, S4, S2. done.
Qed.

Lemma callback_seats (now : Z) (buf : list Z) : stays seats_ok (rtl_callback now buf).
Proof.
  intros w u w' Hs E. apply callback_run in E as (E1 & [E2 _] & _ & E3). apply (seats_frame w); [|done..|done].
  rewrite E3. destruct (rtl_running (w_rtl w)); [apply actives_callback|done].
Qed.

Lemma step_seats v v' :
  step v v' -> inv None (sv_world v) -> seats_ok (sv_world v) -> seats_ok (sv_world v').
Proof.
  intros Hst Hi Hs. destruct Hst as [v e fd ip w' Hfd Hw|v s payload Hp|v e s len v' Hss Hl _ Hp
    |v s w' Hss Hl _ Hw|v now buf w' _ Hw]; cbn.
  - by eapply (accept_seats e fd ip Hfd).
  - exact Hs.
  - by eapply process_seats; [| |exact Hs|exact Hp].
  - by eapply (d_destroy s); [|exact Hw].
  - by eapply callback_seats.
Qed.

Lemma initial_seats (c : Conf) (r : Rtl D) (ctx : bool) : seats_ok (world_initial c r ctx).
Proof.
  intros i Hi. exfalso. revert Hi. unfold sess, world_initial. cbn [w_sessions]. rewrite list_lookup_total_alt.
  destruct (replicate MAX_SESSIONS session_zero !! i) as [x|] eqn:E; [|cbn; lia].
  apply lookup_replicate in E as [-> _]. cbn. lia.
Qed.

Lemma reachable_seats (c : Conf) (r : Rtl D) v : bridge_ok r -> reachable c r v -> seats_ok (sv_world v).
Proof.
  intros Hr (ctx & buf & toks & _ & Hst).
  eapply (rtc_ind_r (fun v => inv None (sv_world v) /\ seats_ok (sv_world v)));
    [|intros y z _ Hyz [Hi Hs]; split; [by eapply step_inv|by eapply step_seats]|exact Hst].
  split; [by apply initial_inv|apply initial_seats].
Qed.
End Steps.

(** ** While a session streams *)

(** The session is connected and has the slot [i]. *)
Definition held {D} (s i : nat) (w : World D) : Prop :=
  0 < ss_fd (sess w s) /\ ss_vita_token (sess w s) = Z.of_nat i.

(** The buffers of a script, and of a run of the sender. *)
Definition usb_buffers (l : list action) : list (list Z) :=
  omap (fun a => match a with AUsb _ buf => Some buf | _ => None end) l.

Definition op_buffers (os : list vop) : list (list Z) :=
  omap (fun o => match o with OBuffer buf => Some buf | _ => None end) os.

(** The sender is fed with a buffer or told of a setting; no stream comes or goes. *)
Definition feeding (o : vop) : Prop := match o with OAdd _ _ _ _ _ _ _ _ _ | ORemove _ => False | _ => True end.

Definition fed {D} (v0 : Vita) (bufs : list (list Z)) (w : World D) : Prop :=
  exists os, w_vita w = fold_left vita_step os v0 /\ op_buffers os = bufs /\ Forall feeding os.

Section Feeding.
Context {D : Type} {P : Platform D} (v0 : Vita) (bufs : list (list Z)) (s i : nat).
Implicit Types w : World D.

Lemma fed_frame w w' : w_vita w' = w_vita w -> fed v0 bufs w -> fed v0 bufs w'.
Proof. intros E (os & H). exists os. by rewrite E. Qed.

Lemma fed_op w w' o :
  feeding o -> w_vita w' = vita_step (w_vita w) o -> fed v0 bufs w -> fed v0 (bufs ++ op_buffers [o]) w'.
Proof.
  intros Ho E (os & Ev & Eb & Hf). exists (os ++ [o]). rewrite fold_left_app, E, Ev.
  split; [done|]. split; [|by apply Forall_app_2; [|constructor]].
  unfold op_buffers in *. by rewrite omap_app, Eb.
Qed.

#[export] Instance fed_steady : Steady (D := D) (fed v0 bufs).
Proof.
  split; intros w; try (intros; by eapply fed_frame).
  - intros g H. rewrite <- (app_nil_r bufs). by apply (fed_op w _ (OContextAll g)).
  - intros pf H. rewrite <- (app_nil_r bufs). by apply (fed_op w _ (OPayloadFormat pf)).
Qed.

#[export] Instance held_steady : Steady (held (D := D) s i).
Proof.
  split; intros w; try (intros; done).
  intros j f Hf [H1 H2]. set (w' := w <| w_sessions := alter f j (w_sessions w) |>).
  assert (w_sessions w' = alter f j (w_sessions w)) as E0 by done. unfold held.
  destruct (sess_after w w' f j s E0) as [[-> _]|[-> ->]]; [done|]. by destruct (Hf (sess w j)) as (-> & -> & _).
Qed.

(** Whoever has a slot has its stream open; nobody else has one open. *)
Lemma held_open w : seats_ok w -> held s i w -> ss_stream_open (sess w s) = true.
Proof. intros Hs [Hf Ht]. destruct (Hs s Hf) as [E|(k & _ & _ & ? & _)]; [lia|done]. Qed.

Lemma held_others w j :
  inv None w -> seats_ok w -> held s i w -> j <> s -> 0 < ss_fd (sess w j) ->
  ss_stream_open (sess w j) = false /\ ss_vita_token (sess w j) = -1 /\ ss_state (sess w j) <> SESSION_STREAMING.
Proof.
  intros Hi Hs Hh Hj Hf. pose proof (held_open w Hs Hh) as Ho. destruct Hh as [Hfs _].
  assert (forall k, 0 < ss_fd (sess w k) -> ok_at w k (sess w k)) as Hok.
  { intros k Hk. apply Hi; [|done]. apply list_lookup_lookup_total_lt. by apply sess_live. }
  assert (ss_stream_open (sess w j) = false) as Hc.
  { destruct (ss_stream_open (sess w j)) eqn:E; [|done].
    pose proof (so_open _ _ _ _ _ (Hok j Hf) E). pose proof (so_open _ _ _ _ _ (Hok s Hfs) Ho). congruence. }
  split; [done|]. split; [by apply (open_lone s w)|]. intros Hst.
  pose proof (so_state _ _ _ _ _ (Hok j Hf) (or_intror Hst)). congruence.
Qed.

(** A session without a slot ends. *)
Lemma destroy_fed w j u w' :
  ss_vita_token (sess w j) = -1 -> ss_state (sess w j) <> SESSION_STREAMING ->
  fed v0 bufs w -> session_destroy j w = Some (u, w') -> fed v0 bufs w'.
Proof.
  intros Ht Hst Hw E. rewrite destroy_run in E.
  assert (fed v0 bufs (sender_stop j w)) as Hw'.
  { apply (fed_frame w); [|done]. unfold sender_stop, vita_session_remove. cbn. by rewrite Ht. }
  destruct (farewell_steady j (fed v0 bufs) _ _ _ Hw' E) as (w1 & Hw1 & ->); [|by apply (fed_frame w1)].
  intros H r. by apply (fed_frame (sender_stop j w)).
Qed.

Lemma destroy_fd w j u w' : session_destroy j w = Some (u, w') -> ss_fd (sess w' j) <= 0.
Proof.
  intros E. rewrite destroy_run in E.
  destruct (farewell_steady j (fun _ => True) (HI := ltac:(by split)) _ _ _ I E) as (w1 & _ & ->); [done|].
  match goal with |- context [sess ?a j] => set (w2 := a) end.
  destruct (decide (length (w_sessions w1) <= j)%nat) as [Hle|Hlt].
  - rewrite sess_out; [done|]. unfold w2. cbn. by rewrite length_alter.
  - unfold sess, w2. cbn. rewrite list_lookup_total_alter_eq by lia. done.
Qed.
End Feeding.

(** One action, before and after which the session has its slot. *)
Section Action.
Context {D : Type} {P : Platform D} (v0 : Vita) (bufs : list (list Z)) (s i : nat).
Implicit Types w : World D.
Implicit Types v : Srv D.

(** The session's own stream commands do nothing, or cost it its slot. *)
Lemma granted_own (e : Env) (id : list Z) w granted :
  inv None w -> seats_ok w -> held s i w -> fed v0 bufs w ->
  In granted [start_granted e s id w; stop_granted s id w; close_granted s id w] ->
  held s i granted -> fed v0 bufs granted.
Proof.
  intros Hi Hs Hh Hw Hin. pose proof Hh as [Hfd Ht]. intros [_ Hh'].
  assert (forall f w', w_sessions w' = alter f s (w_sessions w) ->
    ss_vita_token (sess w' s) = ss_vita_token (f (sess w s))) as Hown.
  { intros f w' E. by rewrite (sess_own s f w w' E Hfd). }
  assert (ss_vita_token (dropped (sess w s)) = -1) as Hd by by apply dropped_token.
  destruct Hin as [<-|[<-|[<-|[]]]].
  - revert Hh'. unfold start_granted. case_decide; [by intros _; apply (fed_frame v0 bufs w)|].
    destruct (first_free (vt_sessions (w_vita w)) 0) as [j|] eqn:Ef; [case_decide|]; intros Hh'; exfalso.
    + assert (j <> i) as Hne.
      { intros ->. apply first_free_active in Ef. destruct (Hs s Hfd) as [?|(k & Hk & Ha & _)]; [lia|].
        assert (k = i) as -> by lia. congruence. }
      erewrite (Hown (fun x => x <| ss_vita_token := Z.of_nat j |> <| ss_state := SESSION_STREAMING |>)) in Hh' by reflexivity.
      cbn in Hh'. lia.
    + erewrite (Hown (fun x => x <| ss_vita_token := -1 |>)) in Hh' by reflexivity. cbn in Hh'. lia.
    + erewrite (Hown (fun x => x <| ss_vita_token := -1 |>)) in Hh' by reflexivity. cbn in Hh'. lia.
  - revert Hh'. unfold stop_granted. case_decide; [|by intros _; apply (fed_frame v0 bufs w)]. intros Hh'. exfalso.
    erewrite (Hown (fun x => (dropped x) <| ss_state := SESSION_STREAM_OPEN |>)) in Hh'
      by (cbn; by rewrite alter_twice). cbn in Hh'. lia.
  - exfalso. revert Hh'. unfold close_granted. cbv zeta.
    case_bool_decide; intros Hh';
      erewrite (Hown (fun x => (dropped x) <| ss_stream_open := false |> <| ss_state := SESSION_IDLE |>
                                 <| ss_stream_id := [] |> <| ss_owns_rx := false |>)) in Hh'
        by (cbn; by rewrite alter_twice); cbn in Hh'; lia.
Qed.

Lemma process_fed (e : Env) (j len : nat) v v' :
  (j < MAX_SESSIONS)%nat -> ready j (sv_world v) -> seats_ok (sv_world v) -> held s i (sv_world v) ->
  fed v0 bufs (sv_world v) -> process_message e j len v = Some v' -> held s i (sv_world v') ->
  fed v0 bufs (sv_world v').
Proof.
  intros Hj Hr Hs Hh Hw. unfold process_message. destruct (jsmn_parse _ _ _ _ _) as [ntok t].
  destruct (process_request _ _ _ _ _ _) as [[stop w]|] eqn:E; [|done]. pose proof Hr as [Hi Hfj].
  pose proof (i_process_request e j Hj _ _ _ _ _ _ Hr E) as [Hi' Hfj'].
  assert (seats_ok w) as Hs'.
  { destruct (process_cases e j seats_ok (fun _ => seats_ok) _ _ _ _ _ _ Hs Hfj E) as [?|?]; [|done..].
    intros id g [<-|[<-|[<-|[]]]]; [by apply start_seats|by apply stop_seats|by apply close_seats]. }
  destruct (decide (j = s)) as [->|Hne].
  - assert (held s i w -> fed v0 bufs w) as Hk.
    { destruct (process_cases e s (fed v0 bufs) (fun _ w' => held s i w' -> fed v0 bufs w') _ _ _ _ _ _ Hw Hfj E)
        as [?|?]; [|done..]. intros id g Hg _. by apply (granted_own e id (sv_world v)). }
    destruct stop; [destruct (session_destroy s w) as [[u w2]|] eqn:Ed; [|done]|]; intros [= <-] Hh'; [|by apply Hk].
    exfalso. apply destroy_fd in Ed. destruct Hh' as [Hh' _]. cbn in Hh'. lia.
  - assert (fed v0 bufs w /\ held s i w) as [Hw' Hh'].
    { destruct (process_cases e j (fun w => fed v0 bufs w /\ held s i w) (fun _ _ => False) _ _ _ _ _ _
        (conj Hw Hh) Hfj E) as [?|?]; [|done..].
      intros id g _ Ho. destruct (held_others s i (sv_world v) j Hi Hs Hh Hne Hfj) as (Hc & _). congruence. }
    destruct stop; [destruct (session_destroy j w) as [[u w2]|] eqn:Ed; [|done]|]; intros [= <-] _; [|exact Hw'].
    destruct (held_others s i w j Hi' Hs' Hh' Hne Hfj') as (_ & Ht & Hst). by eapply (destroy_fed v0 bufs w j).
Qed.

Lemma create_fed (fd : Z) (ip : list Z) w r w1 :
  session_create fd ip w = Some (r, w1) ->
  w_vita w1 = w_vita w /\
  forall j, r = Some j -> ss_vita_token (sess w1 j) = -1 /\ ss_state (sess w1 j) <> SESSION_STREAMING.
Proof.
  unfold session_create. rewrite run_get. destruct (free_slot (w_sessions w) 0) as [j|] eqn:Ef; [|by intros [= <- <-]].
  rewrite run_get, run_session. intros [= <- <-]. split; [done|]. intros k [= <-].
  apply free_slot_spec in Ef as (x & Hx & _). rewrite Nat.sub_0_r in Hx. apply lookup_lt_Some in Hx.
  unfold sess. cbn. by rewrite list_lookup_total_alter_eq.
Qed.

Lemma accept_fed (e : Env) (fd : Z) (ip : list Z) w u w' :
  fed v0 bufs w -> accept_client e fd ip w = Some (u, w') -> fed v0 bufs w'.
Proof.
  intros Hw. unfold accept_client, bind. destruct (session_create fd ip w) as [[r w1]|] eqn:Ec; [|done].
  apply create_fed in Ec as [Ev Hj]. apply (fed_frame v0 bufs w w1) in Hw; [|done].
  destruct r as [j|]; [|by intros [= _ <-]]. destruct (e_thread_ok e); [by intros [= _ <-]|].
  destruct (Hj j eq_refl) as [Ht Hst]. by apply destroy_fed.
Qed.

Lemma act_fed (a : action) v v' :
  inv None (sv_world v) -> seats_ok (sv_world v) -> held s i (sv_world v) -> fed v0 bufs (sv_world v) ->
  act a v = Some v' -> held s i (sv_world v') -> fed v0 (bufs ++ usb_buffers [a]) (sv_world v').
Proof.
  intros Hi Hs Hh Hw H Hh'. destruct a as [e fd ip|j payload|e j|j|now buf]; cbn [act] in H; cbn [usb_buffers omap list_omap];
    rewrite ?app_nil_r.
  - case_match; [|done]. destruct (accept_client _ _ _ _) as [[[] w]|] eqn:E; [|done]. injection H as <-.
    by eapply accept_fed.
  - case_match; [|done]. injection H as <-. exact Hw.
  - destruct (sv_pending v !! j) as [[len|]|]; [|done..]. case_match eqn:Hg; [|done].
    apply in_turn_spec in Hg as [Hj Hl]. by eapply process_fed.
  - case_match eqn:Hg; [|done]. destruct (session_destroy j _) as [[[] w]|] eqn:E; [|done]. injection H as <-.
    apply andb_prop in Hg as [Hg _]. apply in_turn_spec in Hg as [Hj Hl].
    destruct (decide (j = s)) as [->|Hne].
    + exfalso. apply destroy_fd in E. destruct Hh' as [Hh' _]. cbn in Hh'. lia.
    + destruct (held_others s i (sv_world v) j Hi Hs Hh Hne Hl) as (_ & Ht & Hst). by eapply destroy_fed.
  - case_match; [|done]. destruct (rtl_callback _ _ _) as [[[] w]|] eqn:E; [|done]. injection H as <-.
    apply callback_run in E as (_ & _ & _ & Ev).
    assert (rtl_running (w_rtl (sv_world v)) = true) as Hrun.
    { destruct Hi as (_ & [_ ->] & _). destruct Hh as [Hfd Ht]. destruct (Hs s Hfd) as [?|(k & _ & _ & _ & Hc)]; [lia|].
      apply Z.ltb_lt. lia. }
    rewrite Hrun in Ev. by apply (fed_op v0 bufs (sv_world v) _ (OBuffer buf)).
Qed.
End Action.

(** ** The sender is up *)
Definition sender_up (v : Vita) : Prop := length (vt_sessions v) = MAX_VITA_SESSIONS /\ vt_sock v = true.

Lemma up_context (g : Z) (i : nat) (v : Vita) : sender_up v -> sender_up (send_context_locked g i v).
Proof.
  intros [H1 H2]. unfold send_context_locked. destruct (vt_sessions v !! i) as [x|]; [|done]. case_match; [done|].
  cbv zeta. unfold sendto. cbn [vt_sock upd]. rewrite H2. split; [|done]. cbn. by rewrite length_insert.
Qed.

Lemma fold_up {A} (f : Vita -> A -> Vita) (l : list A) (v : Vita) :
  (forall a v, sender_up v -> sender_up (f v a)) -> sender_up v -> sender_up (fold_left f l v).
Proof. intros Hf. revert v. induction l as [|a l IH]; intros v Hv; cbn; [done|]. by apply IH, Hf. Qed.

Lemma up_context_all (g : Z) (v : Vita) : sender_up v -> sender_up (vita_send_context_all g v).
Proof. intros Hv. unfold vita_send_context_all. case_match; [done|]. apply fold_up; [|done]. intros. by apply up_context. Qed.

Lemma up_format (pf : Z) (v : Vita) : sender_up v -> sender_up (vita_update_payload_format pf v).
Proof. intros [H1 H2]. split; [|done]. cbn. by rewrite length_fmap. Qed.

Lemma up_callback (buf : list Z) (v : Vita) : sender_up v -> sender_up (vita_send_callback buf v).
Proof.
  intros Hv. unfold vita_send_callback. do 2 (case_match; [done|]). apply fold_up; [|done].
  intros j w [H1 H2]. unfold send_burst. destruct (vt_sessions w !! j) as [x|]; [|done]. case_match; [done|].
  destruct (build_pkts _ _ _ _). split; [|done]. cbn. by rewrite length_insert.
Qed.

Lemma up_remove (t : Z) (v : Vita) : sender_up v -> sender_up (vita_session_remove t v).
Proof. intros [H1 H2]. unfold vita_session_remove. case_match; [done|]. split; [|done]. cbn. by rewrite length_insert. Qed.

Lemma up_start (e : Env) {D} (x : Session) (r : Rtl D) (v : Vita) : sender_up v -> sender_up (sender_start e x r v).
Proof.
  intros [H1 H2]. unfold sender_start, vita_session_add. destruct (first_free _ 0); [|done]. cbn [snd].
  apply up_context. split; [|done]. cbn. by rewrite length_alter.
Qed.

Section Up.
Context {D : Type} {P : Platform D}.
Implicit Types w : World D.
Implicit Types v : Srv D.

Definition w_up w : Prop := sender_up (w_vita w).

#[export] Instance up_steady : Steady w_up.
Proof. split; intros w; try (intros; done); intros; [by apply up_context_all|by apply up_format]. Qed.

Lemma destroy_up (s : nat) : stays w_up (session_destroy s).
Proof.
  intros w u w' Hw E. rewrite destroy_run in E.
  destruct (farewell_steady s w_up (sender_stop s w) u w') as (w1 & Hw1 & ->); [by apply up_remove|done| |exact Hw1].
  intros _ r. by apply up_remove.
Qed.

Lemma step_up v v' : step v v' -> w_up (sv_world v) -> w_up (sv_world v').
Proof.
  intros Hst Hw. destruct Hst as [v e fd ip w' Hfd Ha|v s payload Hp|v e s len v' Hss Hl _ Hp
    |v s w' Hss Hl _ Hd|v now buf w' _ Hc]; cbn.
  - unfold accept_client, bind in Ha. destruct (session_create fd ip _) as [[r w1]|] eqn:Ec; [|done].
    apply create_fed in Ec as [Ev _]. assert (w_up w1) as Hw1 by (unfold w_up; by rewrite Ev).
    destruct r as [j|]; [|by injection Ha as <-]. destruct (e_thread_ok e); [by injection Ha as <-|].
    by eapply destroy_up.
  - exact Hw.
  - revert Hp. unfold process_message. destruct (jsmn_parse _ _ _ _ _) as [ntok t].
    destruct (process_request _ _ _ _ _ _) as [[stop w]|] eqn:E; [|done].
    assert (w_up w) as Hw1.
    { destruct (process_cases e s w_up (fun _ => w_up) _ _ _ _ _ _ Hw Hl E) as [?|?]; [|done..].
      intros id g [<-|[<-|[<-|[]]]] _; unfold start_granted, stop_granted, close_granted; cbv zeta;
        repeat case_match; try exact Hw; unfold w_up; cbn;
        first [by apply up_start|by apply up_remove, up_start|by apply up_remove]. }
    destruct stop; [destruct (session_destroy s w) as [[u w2]|] eqn:Ed; [|done]|]; intros [= <-]; [|done].
    by eapply destroy_up.
  - by eapply destroy_up.
  - apply callback_run in Hc as (_ & _ & _ & Ev). unfold w_up. rewrite Ev. case_match; [by apply up_callback|done].
Qed.

Lemma reachable_up (c : Conf) (r : Rtl D) v : reachable c r v -> w_up (sv_world v).
Proof.
  intros (ctx & buf & toks & _ & Hst).
  eapply (rtc_ind_r (fun v => w_up (sv_world v))); [|intros y z _ Hyz Hy; by eapply step_up|exact Hst].
  by split.
Qed.

(** A script during which the session [s] has the slot [i]. *)
Inductive streams (s i : nat) : Srv D -> list action -> Srv D -> Prop :=
  | streams_nil v : streams s i v [] v
  | streams_act a l v v1 v2 :
      act a v = Some v1 -> held s i (sv_world v1) -> streams s i v1 l v2 -> streams s i v (a :: l) v2.

Lemma streams_fed (s i : nat) (v0 : Vita) (bufs : list (list Z)) (l : list action) v v' :
  streams s i v l v' -> inv None (sv_world v) -> seats_ok (sv_world v) -> held s i (sv_world v) ->
  fed v0 bufs (sv_world v) -> fed v0 (bufs ++ usb_buffers l) (sv_world v').
Proof.
  intros H. revert bufs. induction H as [v|a l v v1 v2 Ha Hh1 _ IH]; intros bufs Hi Hs Hh Hf.
  { unfold usb_buffers. cbn. by rewrite app_nil_r. }
  pose proof (act_step _ _ _ Ha) as Hst.
  replace (bufs ++ usb_buffers (a :: l)) with ((bufs ++ usb_buffers [a]) ++ usb_buffers l).
  - apply IH; [by eapply step_inv|by eapply step_seats|done|by eapply act_fed].
  - rewrite <- app_assoc. f_equal. unfold usb_buffers. by rewrite <- omap_app.
Qed.
End Up.

(** ** From the request to the datagrams *)
Section Delivery.
Context {D : Type} {P : Platform D} (e : Env).
Implicit Types w : World D.
Implicit Types v : Srv D.

(** The stream a session has opened, with the receiver's settings, in slot [i]. *)
Definition stream_of (i : nat) (x : Session) (r : Rtl D) : stream :=
  mkStream i (ss_vita_stream_id x) (ss_iq_fmt x) (ss_dest_ip x) (ss_dest_port x) (u32 (e_wall_s e)) (g_rate_sps r)
    (sampling_mode_payload_fmt (g_sampling_mode r)) 0 0 None.

(** The sender has a stream, and then it is fed. *)
Lemma sender_fed (x : Session) (r : Rtl D) (v : Vita) (i : nat) (os : list vop) :
  sender_up v -> vt_context_enabled v = true -> first_free (vt_sessions v) 0 = Some i -> Forall feeding os ->
  slot_out i (vt_out (fold_left vita_step os (sender_start e x r v))) =
  slot_out i (vt_out v) ++ spec_run (stream_of i x r) (OContextAll (g_gain_tenth_db r) :: os).
Proof.
  intros [Hl Hk] He Hf Hos. pose proof (add_slot e x r v) as Hadd. rewrite Hf in Hadd.
  destruct (add_sim _ _ _ _ _ _ _ _ _ _ _ _ Hk He Hadd) as [Hsim Hout].
  assert (i < MAX_VITA_SESSIONS)%nat as Hi.
  { apply first_free_spec in Hf as (y & Hy & _). rewrite Nat.sub_0_r in Hy. apply lookup_lt_Some in Hy. lia. }
  assert (Forall (keeps i) os) as Hkeep by (eapply Forall_impl; [exact Hos|]; by intros []).
  rewrite (run_sim i _ _ os Hsim Hi Hkeep), Hout. fold (stream_of i x r). cbn [spec_run spec_step].
  destruct (spec_ctx _ _) as [out s']. cbn [fst snd]. by rewrite app_assoc.
Qed.

(** C6: from the request to the datagrams.  Take any reachable state in which a
    client that may use rx sends a start_rx naming its open stream, a slot of the
    sender is free, and the reader runs or its thread starts.  The daemon starts the
    stream; and from then on, whatever all clients ask, whoever comes and goes, and
    however the threads interleave, as long as the session keeps its slot: the
    datagrams of that slot are those of the abstract stream of Vita, with the
    identifier and the destination the session's stream was opened with and the
    receiver's rate and format, first its Context packet and then what it sends when
    it is fed with exactly the buffers of the USB thread, all of them, in order,
    with changes of gain and format in between. *)
Theorem stream_delivers (c : Conf) (r : Rtl D) v v1 v2 (s len i : nat) (l p : members) (id : list Z)
    (script : list action) :
  bridge_ok r -> reachable c r v ->
  delivered v s len l -> request l id (txt "start_rx") p ->
  client (sv_world v) s -> unlocked s (sv_world v) -> names_scalar p ->
  let w := sv_world v in let x := sess w s in
  named_refusal x p = None -> ss_state x <> SESSION_STREAMING ->
  first_free (vt_sessions (w_vita w)) 0 = Some i -> reader_starts e (w_rtl w) ->
  vt_context_enabled (w_vita w) = true ->
  process_message e s len v = Some v1 -> streams s i v1 script v2 ->
  ss_state (sess (sv_world v1) s) = SESSION_STREAMING /\
  exists os, op_buffers os = usb_buffers script /\ Forall feeding os /\
    slot_out i (vt_out (w_vita (sv_world v2))) =
    slot_out i (vt_out (w_vita w)) ++ spec_run (stream_of i x (w_rtl w)) (OContextAll (g_gain_tenth_db (w_rtl w)) :: os).
Proof.
  intros Hb Hreach Hd Hr Hc Hu Hn w x Hnamed Hst Hfree Hrd Hctx Hp Hscript.
  pose proof (reachable_inv c r v Hb Hreach) as Hi. pose proof (reachable_seats c r v Hb Hreach) as Hs.
  pose proof (reachable_up c r v Hreach) as Hup. pose proof (cl_fd _ _ Hc) as Hfd.
  assert (sv_world v1 = rx_started e s i id w) as Ew.
  { destruct (start_served e v s len l p id Hd Hr Hc Hu Hn) as (v' & E & Hw & _).
    rewrite Hp in E. injection E as <-. rewrite Hw. unfold start_outcome, start_granted. fold w x. rewrite Hnamed.
    by rewrite decide_False, Hfree, decide_True by done. }
  assert (step v v1) as Hstep.
  { eapply (step_process v e s len); [|exact Hfd|apply Hd|exact Hp]. rewrite <- (proj1 Hi). by apply sess_live. }
  assert (sess (sv_world v1) s = x <| ss_vita_token := Z.of_nat i |> <| ss_state := SESSION_STREAMING |>) as Ex
    by (rewrite Ew; by apply (sess_own s (fun x => x <| ss_vita_token := Z.of_nat i |> <| ss_state := SESSION_STREAMING |>) w)).
  split; [by rewrite Ex|].
  destruct (streams_fed s i (sender_start e x (w_rtl w) (w_vita w)) [] script v1 v2 Hscript) as (os & Ev & Eb & Hos).
  - by eapply step_inv.
  - by eapply step_seats.
  - split; rewrite Ex; [exact Hfd|done].
  - exists []. rewrite Ew. split; [done|]. by split.
  - exists os. split; [exact Eb|]. split; [exact Hos|]. rewrite Ev. by apply sender_fed.
Qed.
End Delivery.

(** ** An example *)

(** A script run as long as the session keeps its slot. *)
Fixpoint stream_script {D} `{Platform D} (s i : nat) (l : list action) (v : Srv D) : option (Srv D) :=
  match l with
  | [] => Some v
  | a :: l' =>
      v1 ← act a v;
      if (0 <? ss_fd (sess (sv_world v1) s)) && (ss_vita_token (sess (sv_world v1) s) =? Z.of_nat i)
      then stream_script s i l' v1 else None
  end.

Lemma stream_script_ok {D} `{Platform D} (s i : nat) (l : list action) (v v' : Srv D) :
  stream_script s i l v = Some v' -> streams s i v l v'.
Proof.
  revert v. induction l as [|a l IH]; intros v; cbn [stream_script]; [intros [= ->]; constructor|].
  destruct (act a v) as [v1|] eqn:E; cbn [mbind option_bind]; [|done]. case_match eqn:Hg; [|done]. intros Hr.
  econstructor; [exact E| |by apply IH]. zbool. split; lia.
Qed.

(** Two buffers, between them another client that comes, says hello and goes. *)
Definition busy_script : list action :=
  [AUsb 1000 (replicate 1024 127)] ++ Sample.connect 8 ++ Sample.hello 1 ++ [ADisconnect 1] ++
  [AUsb 2000 (replicate 512 128)].

Lemma stream_delivers_witness :
  exists v1 v2,
    process_message Sample.env 0 (asking_length "start_rx" stream_params) (asking open_idle "start_rx" stream_params) = Some v1 /\
    stream_script 0 0 busy_script v1 = Some v2 /\
    exists os, op_buffers os = [replicate 1024 127; replicate 512 128] /\
      slot_out 0 (vt_out (w_vita (sv_world v2))) =
      slot_out 0 (vt_out (w_vita (sv_world open_idle))) ++
      spec_run (stream_of Sample.env 0 (sess (sv_world open_idle) 0) (w_rtl (sv_world open_idle)))
        (OContextAll (g_gain_tenth_db (w_rtl (sv_world open_idle))) :: os).
Proof.
  pose proof open_idle_example as Hex. set (v := asking open_idle "start_rx" stream_params).
  assert (match process_message Sample.env 0 (asking_length "start_rx" stream_params) v with
          | Some v1 => if stream_script 0 0 busy_script v1 is Some _ then true else false | None => false end = true) as Hrun
    by (unfold v, open_idle; rewrite after_eq; vm_compute; reflexivity).
  destruct (process_message Sample.env 0 (asking_length "start_rx" stream_params) v) as [v1|] eqn:E1; [|discriminate Hrun].
  destruct (stream_script 0 0 busy_script v1) as [v2|] eqn:E2; [|discriminate Hrun]. clear Hrun.
  assert (reachable (Sample.conf false (mkRing [] [] false)) Sample.rtl v) as Hv.
  { apply asking_reachable; [apply after_reachable|exact Hex| |]; unfold open_idle; rewrite ?after_eq; vm_compute; reflexivity. }
  destruct (stream_delivers Sample.env _ _ v v1 v2 0 (asking_length "start_rx" stream_params) 0
    (asking_members "start_rx" stream_params) stream_params (txt "7") busy_script Sample.rtl_ok Hv)
    as (_ & os & Hos & _ & Hout); unfold v; rewrite ?asking_world;
    [by (apply asking_delivered; [done|vm_compute])|apply asking_request|apply Hex|apply Hex| |..|exact E1|by apply stream_script_ok|].
  - intros x [= <-]. by eexists.
  - unfold open_idle. rewrite after_eq. vm_compute. reflexivity.
  - unfold open_idle. rewrite after_eq. vm_compute. discriminate.
  - unfold open_idle. rewrite after_eq. vm_compute. reflexivity.
  - intros _. reflexivity.
  - unfold open_idle. rewrite after_eq. vm_compute. reflexivity.
  - exists v1, v2. split; [done|]. split; [exact E2|]. exists os. split; [exact Hos|].
    unfold v in Hout. rewrite asking_world in Hout. exact Hout.
Defined.
