(* ===== verification/Control.v ===== *)
(** * Controls

    set_control and get_control, whatever the client writes: which value each of the
    five controls takes, the refusals in their order, what a granted setting does to
    the tuner, to the Context packets and, for direct_sampling, to frequency and
    sample rate, and who is told what. *)
From Stdlib Require Import SpecFloat.
From S2P Require Import Prelude CLib Jsmn JsonText JsonTok Sha256 Auth Config Rtl Vita World.
From S2P Require Import Session Commands RxCommands Server Quiet Invariants Safety Doubles Requests Tuning.
#[local] Open Scope Z_scope.

(** Documented behaviour of the library: a tuner has at most 64 steps, from -10 dB to
    50 dB, and after it was set to a gain it reports that gain, one of its steps, or
    0, which stands for an error. *)
Class TunerLaws (D : Type) `{Platform D} : Prop := {
  few_steps (d : D) : (length (rtlsdr_get_tuner_gains d) <= 64)%nat;
  steps_range (d : D) : Forall (fun g => -100 <= g <= 500) (rtlsdr_get_tuner_gains d);
  gain_reported (d : D) (n : Z) :
    let d' := (rtlsdr_set_tuner_gain d n).2 in
    rtlsdr_get_tuner_gain d' = n \/ rtlsdr_get_tuner_gain d' = 0 \/
    rtlsdr_get_tuner_gain d' ∈ rtlsdr_get_tuner_gains d'
}.

Lemma stub_nearest_step (n : Z) : stub_nearest n ∈ stub_gains.
Proof.
  unfold stub_nearest. assert (forall l b, b ∈ stub_gains -> (forall g, g ∈ l -> g ∈ stub_gains) ->
    fold_left (fun best g => if Z.abs (g - n) <? Z.abs (best - n) then g else best) l b ∈ stub_gains) as H.
  { induction l as [|g l IH]; intros b Hb Hl; cbn [fold_left]; [done|]. apply IH.
    - case_match; [apply Hl; constructor|done].
    - intros g' Hg. apply Hl. by constructor. }
  apply H; [|done]. unfold stub_gains. apply list_elem_of_here.
Qed.

#[export] Instance stub_tuner : TunerLaws Stub.
Proof.
  split.
  - intros d. vm_compute. lia.
  - intros d. cbn. unfold stub_gains. repeat constructor; lia.
  - intros d n d'. right. right. exact (stub_nearest_step n).
Qed.

(** ** Values *)

(** A number that is no boolean: its text, of which 63 characters are read. *)
Definition numeric (v : json) : option (list Z) :=
  match v with
  | JPrim x => if decide (x = txt "true" \/ x = txt "false") then None else Some (field 63 v)
  | _ => None
  end.

Definition boolean (v : json) : option bool :=
  match v with
  | JPrim x => if decide (x = txt "true") then Some true else if decide (x = txt "false") then Some false else None
  | _ => None
  end.

Definition mode_named (x : list Z) : option sampling_mode_t :=
  if decide (x = txt "off") then Some SAMPLING_NORMAL
  else if decide (x = txt "i_branch") then Some SAMPLING_DIRECT_I
  else if decide (x = txt "q_branch") then Some SAMPLING_DIRECT_Q
  else None.

(** [n] tenths as a decimal number. *)
Definition tenths (n : Z) : list Z :=
  (if n <? 0 then txt "-" else []) ++ fmt_u (Z.abs n / 10) ++ txt "." ++ fmt_u (Z.abs n mod 10).

Definition volts (on : bool) : list Z := if on then txt "5.0" else txt "0.0".

(** What a granted request sets. *)
Inductive setting :=
  | KeepGain                          (* the AGC has the gain; the request is ignored *)
  | OffSteps                          (* no step of the tuner *)
  | Gain (val : double)
  | Agc (on : bool)
  | BiasTee (on : bool)
  | Ppm (n : Z)
  | SameMode (m : sampling_mode_t)
  | Mode (m : sampling_mode_t).

Definition invalid (what : string) : refusal := ("invalid_parameter"%string, txt what).

Section Specification.
Context {D : Type} {P : Platform D}.
Implicit Types w : World D.

(** The steps of the tuner, read from it once. *)
Definition steps w : list Z :=
  match w_gains w with
  | Some l => l
  | None => if s_dev (w_rtl w) is Some d then rtlsdr_get_tuner_gains d else []
  end.

Definition loaded w : World D :=
  match w_gains w with
  | Some _ => w
  | None =>
      w <| w_gains := Some (steps w) |>
        <| w_gain_default := if steps w is g :: l then tenth (nearest_gain l g) else tenth RTL_DEFAULT_GAIN |>
  end.

(** ** The decision *)
Definition gain_decision (v : json) w : refusal + setting :=
  match numeric v with
  | None => inl (invalid "rf_gain requires a numeric value")
  | Some x =>
      inr (if g_agc_enabled (w_rtl w) then KeepGain
           else if on_gain_list (strtod x) (steps w) then Gain (strtod x) else OffSteps)
  end.

Definition bias_decision (v : json) : refusal + setting :=
  match numeric v with
  | None => inl (invalid "bias_tee is a float in volts (0.0 or 5.0), not a boolean")
  | Some x =>
      if d_eq (strtod x) d_zero then inr (BiasTee false)
      else if d_eq (strtod x) RTL_BIAS_TEE_VOLTS then inr (BiasTee true)
      else inl (invalid "bias_tee accepts only the published allowed_values")
  end.

Definition ppm_decision (v : json) : refusal + setting :=
  match numeric v with
  | None => inl (invalid "ppm_correction requires an integer")
  | Some x =>
      let n := i32 (strtol x) in
      if decide (-100 <= n <= 100) then inr (Ppm n) else inl (invalid "ppm_correction out of range [-100,100]")
  end.

Definition mode_decision (s : nat) (v : json) w : refusal + setting :=
  match v with
  | JStr x =>
      match mode_named x with
      | None => inl (invalid "direct_sampling must be off, i_branch or q_branch")
      | Some m =>
          if decide (m = g_sampling_mode (w_rtl w)) then inr (SameMode m)
          else if ss_stream_open (sess w s)
          then inl ("stream_reconfiguration_required"%string, txt "Close the stream before changing direct_sampling")
          else inr (Mode m)
      end
  | _ => inl (invalid "direct_sampling requires a string from the published values")
  end.

Definition control_decision (s : nat) (p : members) w : refusal + setting :=
  match jfind (txt "name") p, jfind (txt "value") p with
  | Some n, Some v =>
      let named k := bool_decide (field 31 n = txt k) in
      if named "rf_gain" then gain_decision v w
      else if named "agc"
      then if boolean v is Some b then inr (Agc b) else inl (invalid "agc requires true or false")
      else if named "bias_tee" then bias_decision v
      else if named "ppm_correction" then ppm_decision v
      else if named "direct_sampling" then mode_decision s v w
      else inl ("not_supported"%string, txt "Unknown control name")
  | _, _ => inl ("missing_parameter"%string, txt "name and value required")
  end.

(** ** The settings *)
Definition control_value (key name : string) (v : json) : json :=
  JObj [(txt "function", JStr (txt "rx")); (txt "name", JStr (txt name)); (txt key, v)].

(** Everybody who has said hello hears it. *)
Definition tell (event : string) (params : json) w : World D := post (events None event params w) w.

Definition applied (s : nat) (id : list Z) (name : string) (v : json) : World D -> World D :=
  reply s id (control_value "applied_value" name v).

Definition changed (name : string) (v : json) : World D -> World D :=
  tell "control_changed" (control_value "value" name v).

(** A Context packet for every stream. *)
Definition context_sent w : World D :=
  w <| w_vita := vita_send_context_all (g_gain_tenth_db (w_rtl w)) (w_vita w) |>.

Definition with_dev (d : D) w : World D := w <| w_rtl := (w_rtl w) <| s_dev := Some d |> |>.

(** The tuner is put under manual control and set to [n] tenths of a decibel. *)
Definition tuner_set (n : Z) (d : D) : D := (rtlsdr_set_tuner_gain (rtlsdr_set_tuner_gain_mode d 1).2 n).2.

Definition gain_granted (s : nat) (id : list Z) (val : double) w : World D :=
  match s_dev (w_rtl w), d_round_int (d_mul val (d_of_Z 10)) with
  | Some d0, Some n =>
      let d := tuner_set n d0 in let g := rtlsdr_get_tuner_gain d in
      let w1 := (loaded w) <| w_rtl := (w_rtl w) <| s_dev := Some d |> <| g_gain_tenth_db := g |> |>
                  <| w_sessions := alter (fun x => x <| ss_rf_gain_db := tenth g |>) s (w_sessions w) |> in
      changed "rf_gain" (JPrim (tenths g)) (context_sent (applied s id "rf_gain" (JPrim (tenths g)) w1))
  | _, _ => w
  end.

Definition agc_granted (s : nat) (id : list Z) (on : bool) w : World D :=
  changed "agc" (bool_value on) (context_sent (applied s id "agc" (bool_value on)
    (w <| w_rtl := (rtl_set_agc on (w_rtl w)).2 |>))).

Definition bias_granted (s : nat) (id : list Z) (on : bool) w : World D :=
  match s_dev (w_rtl w) with
  | None => w
  | Some d0 =>
      let '(rc, d) := rtlsdr_set_bias_tee d0 (if on then 1 else 0) in
      if decide (rc = 0) then
        let w1 := w <| w_rtl := (w_rtl w) <| s_dev := Some d |> <| g_bias_tee_enabled := on |>
                       <| g_bias_tee_volts := if on then RTL_BIAS_TEE_VOLTS else d_zero |> |> in
        changed "bias_tee" (JPrim (volts on)) (applied s id "bias_tee" (JPrim (volts on)) w1)
      else refused s id ("not_supported"%string, txt "bias_tee not supported by this hardware") (with_dev d w)
  end.

(** A correction the device refuses is answered with the one in force. *)
Definition ppm_granted (s : nat) (id : list Z) (n : Z) w : World D :=
  match s_dev (w_rtl w) with
  | None => w
  | Some d0 =>
      let '(rc, d) := rtlsdr_set_freq_correction d0 n in
      let m := if decide (rc = 0) then n else g_ppm_correction (w_rtl w) in
      let w1 := w <| w_rtl := (w_rtl w) <| s_dev := Some d |> <| g_ppm_correction := m |> |> in
      changed "ppm_correction" (JPrim (fmt_d m)) (applied s id "ppm_correction" (JPrim (fmt_d m)) w1)
  end.

(** The frequency is moved to the nearer end of the range it is out of. *)
Definition frequency_refitted w : World D :=
  let r := w_rtl w in
  if decide (rtl_freq_min r <= g_freq_hz r <= rtl_freq_max r) then w
  else
    let f := if g_freq_hz r <? rtl_freq_min r then rtl_freq_min r else rtl_freq_max r in
    tell "frequency_changed" (JObj [(txt "function", JStr (txt "rx")); (txt "frequency_hz", num f)])
      (w <| w_rtl := (on_dev (fun d => rtlsdr_set_center_freq d f) r) <| g_freq_hz := f |> |>).

(** A sample rate that is not offered is replaced by the preferred one. *)
Definition rate_refitted w : World D :=
  let r := w_rtl w in
  if decide (g_rate_requested_sps r ∈ rtl_rate_list r) then w
  else
    let f := rtl_preferred_rate r in
    match s_dev r with
    | None => w
    | Some d0 =>
        let d := (rtlsdr_set_sample_rate d0 f).2 in
        let a := rtlsdr_get_sample_rate d in
        let w1 := w <| w_rtl := rate_applied f d r |> in
        if decide (a = 0) then w1
        else tell "sample_rate_changed"
               (JObj [(txt "function", JStr (txt "rx")); (txt "sample_rate_sps", num f);
                      (txt "actual_sample_rate_sps", num a)]) w1
    end.

(** Streams are told of the new payload format, and get a Context packet. *)
Definition format_updated w : World D :=
  context_sent (w <| w_vita :=
    vita_update_payload_format (sampling_mode_payload_fmt (g_sampling_mode (w_rtl w))) (w_vita w) |>).

Definition capabilities_changed : json :=
  JObj [(txt "code", JStr (txt "capabilities_changed"));
        (txt "message", JStr (txt "direct_sampling changed; re-read get_capabilities for the current frequency range and sample rates"))].

Definition mode_granted (s : nat) (id : list Z) (m : sampling_mode_t) w : World D :=
  match s_dev (w_rtl w) with
  | None => w
  | Some d0 =>
      let '(rc, d) := rtlsdr_set_direct_sampling d0 (ds_code m) in
      if decide (rc = 0) then
        let w1 := w <| w_rtl := (w_rtl w) <| s_dev := Some d |> <| g_sampling_mode := m |> |> in
        tell "warning" capabilities_changed (format_updated (rate_refitted (frequency_refitted
          (changed "direct_sampling" (JStr (ds_names m)) (applied s id "direct_sampling" (JStr (ds_names m)) w1)))))
      else refused s id ("device_error"%string, txt "direct_sampling change failed") (with_dev d w)
  end.

Definition control_granted (s : nat) (id : list Z) (x : setting) w : World D :=
  match x with
  | KeepGain => applied s id "rf_gain" (JPrim (tenths (g_gain_tenth_db (w_rtl w)))) w
  | OffSteps =>
      refused s id (invalid "rf_gain must be one of the tuner's steps listed in capabilities.rx.controls[rf_gain].allowed_values")
        (loaded w)
  | Gain val => gain_granted s id val w
  | Agc on => agc_granted s id on w
  | BiasTee on => bias_granted s id on w
  | Ppm n => ppm_granted s id n w
  | SameMode m => applied s id "direct_sampling" (JStr (ds_names m)) w
  | Mode m => mode_granted s id m w
  end.

Definition set_outcome (p : members) (s : nat) (id : list Z) w : World D :=
  outcome s id (unless (config_refusal p s w) (control_decision s p w)) (control_granted s id) w.

(** ** get_control *)
Definition control_in_force (name : list Z) (r : Rtl D) : refusal + json :=
  let named k := bool_decide (name = txt k) in
  let value k v := inr (control_value "value" k v) in
  if named "rf_gain" then value "rf_gain"%string (JPrim (tenths (g_gain_tenth_db r)))
  else if named "agc" then value "agc"%string (bool_value (g_agc_enabled r))
  else if named "bias_tee" then value "bias_tee"%string (JPrim (fmt_f 1 (g_bias_tee_volts r)))
  else if named "ppm_correction" then value "ppm_correction"%string (JPrim (fmt_d (g_ppm_correction r)))
  else if named "direct_sampling" then value "direct_sampling"%string (JStr (ds_names (g_sampling_mode r)))
  else inl ("not_supported"%string, txt "Unknown control name").

Definition get_outcome (p : members) (s : nat) (id : list Z) w : World D :=
  outcome s id
    (unless (first (function_refusal p) (channel_refusal p))
       (if jfind (txt "name") p is Some n then control_in_force (field 31 n) (w_rtl w)
        else inl ("missing_parameter"%string, txt "name required")))
    (reply s id) w.
End Specification.

(** ** Numbers to one decimal *)
Lemma range_forall (lo n : Z) (f : Z -> bool) :
  forallb (fun i => f (lo + Z.of_nat i)) (seq 0 (Z.to_nat n)) = true -> forall z, lo <= z < lo + n -> f z = true.
Proof.
  intros H z Hz. rewrite forallb_forall in H. specialize (H (Z.to_nat (z - lo))).
  replace z with (lo + Z.of_nat (Z.to_nat (z - lo))) by lia. apply H. apply in_seq. lia.
Qed.

Lemma tenths_text (n : Z) : -4096 <= n <= 4096 -> fmt_f 1 (tenth n) = tenths n /\ (length (tenths n) <= 8)%nat.
Proof.
  intros Hn. pose proof (range_forall (-4096) 8193
    (fun n => streq (fmt_f 1 (tenth n)) (tenths n) && (length (tenths n) <=? 8)%nat)
    ltac:(vm_compute; reflexivity) n ltac:(lia)) as H.
  apply andb_prop in H as [H1 H2]. apply bool_decide_eq_true in H1. by apply Nat.leb_le in H2.
Qed.

Lemma tenth_below (n : Z) : -100 <= n <= 500 -> below 6 (tenth n).
Proof.
  intros Hn. pose proof (range_forall (-100) 601
    (fun n => match tenth n with
              | S754_zero _ => true
              | S754_finite _ m e => Zdigits2 (Z.pos m) + e <=? 6
              | _ => false
              end) ltac:(vm_compute; reflexivity) n ltac:(lia)) as H.
  cbv beta in H. unfold below. destruct (tenth n); try done. by apply Z.leb_le in H.
Qed.

(** A number that is taken for a step of the tuner converts to tenths. *)
Lemma step_converts (val : double) (l : list Z) :
  canonical val -> Forall (fun g => -100 <= g <= 500) l -> on_gain_list val l = true ->
  exists n, d_round_int (d_mul val (d_of_Z 10)) = Some n /\ -4096 <= n <= 4096.
Proof.
  intros Hv Hl Hon. apply existsb_exists in Hon as (g & Hg & Hlt).
  assert (-100 <= g <= 500) as Hr by (rewrite List.Forall_forall in Hl; by apply Hl).
  pose proof (far_apart val (tenth g) Hv (tenth_below g Hr) Hlt) as Hb.
  assert (exists s m e, d_of_Z 10 = S754_finite s m e /\ Zdigits2 (Z.pos m) + e <= 4) as (s & m & e & E10 & H10)
    by (do 3 eexists; split; [vm_compute; reflexivity|vm_compute; discriminate]).
  pose proof (mul_below val s m e 7 Hb H10 ltac:(lia)) as Hm. rewrite <- E10 in Hm.
  destruct (round_below _ _ Hm ltac:(lia)) as (n & E & Hn). exists n. unfold d_round_int. rewrite E.
  change (2 ^ (7 + 5)) with 4096 in Hn. cbn [mbind option_bind].
  rewrite (proj2 (Z.leb_le _ _)), (proj2 (Z.ltb_lt _ _)) by lia. split; [done|lia].
Qed.

(** ** The handlers meet the specification *)

(** The settings that are reported are such that their texts fit. *)
Record settings_ok {D} (w : World D) : Prop := {
  so_gain : -4096 <= g_gain_tenth_db (w_rtl w) <= 4096;
  so_bias : g_bias_tee_volts (w_rtl w) = d_zero \/ g_bias_tee_volts (w_rtl w) = RTL_BIAS_TEE_VOLTS;
  so_ppm : -100 <= g_ppm_correction (w_rtl w) <= 100;
  so_steps : match w_gains w with Some l => Forall (fun g => -100 <= g <= 500) l | None => True end
}.

Section Messages.
Context {D : Type} {P : Platform D} (s : nat) (id : list Z).
Implicit Types w : World D.

Lemma control_text (key name : string) (v : json) (cap : nat) :
  (length (txt name) <= 20)%nat -> (length (print v) <= 60)%nat -> (150 <= cap)%nat ->
  (length (txt key) <= 20)%nat ->
  snprintf cap (jq "{'function':'rx','name':'" ++ txt name ++ jq "','" ++ txt key ++ jq "':" ++ print v ++ jq "}") =
  print (control_value key name v) /\ (length (print (control_value key name v)) <= 150)%nat.
Proof.
  intros Hn Hv Hc Hk.
  assert (jq "{'function':'rx','name':'" ++ txt name ++ jq "','" ++ txt key ++ jq "':" ++ print v ++ jq "}" =
    print (control_value key name v)) as E.
  { unfold control_value. cbn [print]. generalize (txt name), (txt key), (print v). intros. spelt. }
  assert (length (print (control_value key name v)) <= 140)%nat as Hl.
  { rewrite <- E, !length_app. vm_compute (length (jq _)). lia. }
  split; [|lia]. rewrite E. apply snprintf_fits. lia.
Qed.

Lemma run_applied {B} (name : string) (x : list Z) (v : json) (k : unit -> M D B) w :
  0 < ss_fd (sess w s) -> (length (txt name) <= 20)%nat -> x = print v -> (length x <= 60)%nat ->
  bind (send_ok s id (applied_json name x)) k w = k tt (applied s id name v w).
Proof.
  intros Hfd Hn -> Hv. destruct (control_text "applied_value" name v 160 Hn Hv) as [E Hl]; [lia|vm_compute; lia|].
  unfold applied. apply (run_reply s id _ (control_value "applied_value" name v)); [done|exact E|].
  change (applied_json name (print v)) with (snprintf 160 (jq "{'function':'rx','name':'" ++ txt name ++ jq "','"
    ++ txt "applied_value" ++ jq "':" ++ print v ++ jq "}")). rewrite E. lia.
Qed.

Lemma run_tell {B} (event : string) (text : list Z) (params : json) (k : unit -> M D B) w :
  text = print params -> (length (txt event) + length text <= 460)%nat ->
  bind (cp_broadcast_event (txt event) text) k w = k tt (tell event params w).
Proof. apply run_events. Qed.

Lemma run_changed {B} (name : string) (x : list Z) (v : json) (k : unit -> M D B) w :
  (length (txt name) <= 20)%nat -> x = print v -> (length x <= 60)%nat ->
  bind (cp_broadcast_event (txt "control_changed") (control_event name x)) k w = k tt (changed name v w).
Proof.
  intros Hn -> Hv. destruct (control_text "value" name v 192 Hn Hv) as [E Hl]; [lia|vm_compute; lia|].
  apply run_tell; [exact E|].
  change (control_event name (print v)) with (snprintf 192 (jq "{'function':'rx','name':'" ++ txt name ++ jq "','"
    ++ txt "value" ++ jq "':" ++ print v ++ jq "}")). rewrite E. vm_compute (length (txt _)). lia.
Qed.

Lemma run_context {B} (k : unit -> M D B) w : bind context_all k w = k tt (context_sent w).
Proof. reflexivity. Qed.

(** The last three calls of a setting with a gain, and the last two of another. *)
Lemma applied_changed_run (name : string) (x : list Z) (v : json) w :
  0 < ss_fd (sess w s) -> (length (txt name) <= 20)%nat -> x = print v -> (length x <= 60)%nat ->
  (send_ok s id (applied_json name x) ;;;
   cp_broadcast_event (txt "control_changed") (control_event name x)) w =
  Some (tt, changed name v (applied s id name v w)).
Proof. intros. rewrite (run_applied name x v) by done. rewrite run_last. by rewrite (run_changed name x v). Qed.

Lemma applied_context_run (name : string) (x : list Z) (v : json) w :
  0 < ss_fd (sess w s) -> (length (txt name) <= 20)%nat -> x = print v -> (length x <= 60)%nat ->
  (send_ok s id (applied_json name x) ;;; context_all ;;;
   cp_broadcast_event (txt "control_changed") (control_event name x)) w =
  Some (tt, changed name v (context_sent (applied s id name v w))).
Proof. intros. rewrite (run_applied name x v), run_context by done. rewrite run_last. by rewrite (run_changed name x v). Qed.
End Messages.

(** ** What the handler reads of a value *)
Record reads (js : list Z) (tk : jsmntok_t) (v : json) : Prop := {
  rd_type : tk_type tk = tok_type v;
  rd_text cap : (1 < cap)%nat -> tok_str js tk cap = field (cap - 1) v \/
    scalar v = None /\ exists c x, tok_str js tk cap = c :: x /\ (c = 91 \/ c = 123);
  rd_word word : plain_word word -> tok_eq js tk (txt word) = is_word (Some v) word
}.

Lemma run_reads (js : list Z) (t : list jsmntok_t) (v : json) (z : Z) :
  token_of js t (Some v) z -> Z.of_nat (length js) < 2 ^ 64 ->
  exists tk, reads js tk v /\ forall D B (k : jsmntok_t -> M D B) w, bind (tok t z) k w = k tk w.
Proof.
  intros Hz Hjs. destruct (run_value js t v z Hz Hjs) as (tk & H1 & H2 & H3 & R). exists tk. by split.
Qed.

Section Values.
Context (js : list Z) (tk : jsmntok_t) (v : json) (R : reads js tk v).

Lemma reads_scalar (k : nat) : (0 < k)%nat -> scalar v <> None -> tok_str js tk (S k) = field k v.
Proof.
  intros Hk Hv. destruct (rd_text _ _ _ R (S k)) as [->|[E _]]; [lia| |done]. by replace (S k - 1)%nat with k by lia.
Qed.

(** A name is compared: a composite value is none. *)
Lemma reads_name (word : string) :
  plain_word word -> streq (tok_str js tk 32) (txt word) = bool_decide (field 31 v = txt word).
Proof.
  intros Hw. unfold streq. destruct (rd_text _ _ _ R 32) as [->|(E & c & x & -> & Hc)]; [lia|done|].
  unfold plain_word in Hw. destruct (txt word) as [|d y]; [done|]. rewrite !bool_decide_false; [done| |].
  - unfold field. rewrite E. done.
  - intros [= -> _]. lia.
Qed.

Lemma reads_primitive : bool_decide (tk_type tk = JSMN_PRIMITIVE) = (if v is JPrim _ then true else false).
Proof. rewrite (rd_type _ _ _ R). by destruct v. Qed.

Lemma reads_string : bool_decide (tk_type tk = JSMN_STRING) = (if v is JStr _ then true else false).
Proof. rewrite (rd_type _ _ _ R). by destruct v. Qed.

Lemma reads_true : tok_is_true js tk = bool_decide (boolean v = Some true).
Proof.
  unfold tok_is_true. rewrite reads_primitive, (rd_word _ _ _ R) by done. unfold is_word.
  destruct v as [x|x|l|l]; try done. cbn. apply bool_decide_ext.
  repeat case_decide; split; intros E; simplify_eq; done.
Qed.

Lemma reads_false : tok_is_false js tk = bool_decide (boolean v = Some false).
Proof.
  unfold tok_is_false. rewrite reads_primitive, (rd_word _ _ _ R) by done. unfold is_word.
  destruct v as [x|x|l|l]; try done. cbn. apply bool_decide_ext.
  repeat case_decide; split; intros E; simplify_eq; done.
Qed.

Lemma reads_bool : tok_is_bool js tk = if boolean v is Some _ then true else false.
Proof. unfold tok_is_bool. rewrite reads_true, reads_false. by destruct (boolean v) as [[]|]. Qed.

Lemma reads_number : is_number js tk = if numeric v is Some _ then true else false.
Proof.
  unfold is_number. rewrite reads_primitive, reads_bool. destruct v as [x|x|l|l]; try done. cbn.
  repeat case_decide; tauto.
Qed.

Lemma reads_numeric (x : list Z) : numeric v = Some x -> tok_str js tk 64 = x.
Proof.
  intros H. assert (scalar v <> None /\ x = field 63 v) as [Hs ->].
  { unfold numeric in H. destruct v; try done. case_decide; [done|]. by injection H as <-. }
  by apply reads_scalar; [lia|].
Qed.

Lemma reads_mode : mode_of js tk = mode_named (default [] (scalar v)).
Proof.
  unfold mode_of, mode_named. rewrite !(rd_word _ _ _ R) by done. unfold is_word.
  destruct v as [x|x|l|l]; cbn; repeat case_bool_decide; repeat case_decide; simplify_eq; try done.
Qed.
End Values.

(** ** The five settings *)
Section Settings.
Context {D : Type} {P : Platform D} {T : PlatformLaws D} {W : PlatformTypes D} {U : TunerLaws D}.
Context (s : nat) (id js : list Z) (tk : jsmntok_t) (v : json) (R : reads js tk v).
Implicit Types w : World D.

Lemma loaded_same w : w_rtl (loaded w) = w_rtl w /\ w_sessions (loaded w) = w_sessions w.
Proof. unfold loaded. by case_match. Qed.

Lemma loaded_fd w : ss_fd (sess (loaded w) s) = ss_fd (sess w s).
Proof. unfold sess. by rewrite (proj2 (loaded_same w)). Qed.

Lemma run_load {B} (k : unit -> M D B) w : bind load_gain_table k w = k tt (loaded w).
Proof.
  unfold load_gain_table, loaded, steps. rewrite run_assoc, run_get. destruct (w_gains w); [apply run_ret|].
  rewrite run_assoc, run_get, run_assoc. unfold rtl_get_gain_list. destruct (s_dev (w_rtl w)) as [d|]; [|reflexivity].
  pose proof (few_steps d) as Hf. rewrite (proj2 (Nat.ltb_ge _ _)) by lia.
  unfold lift. unfold bind at 1. by destruct (rtlsdr_get_tuner_gains d).
Qed.

Lemma steps_ok w : settings_ok w -> Forall (fun g => -100 <= g <= 500) (steps w).
Proof.
  intros [_ _ _ H]. unfold steps. destruct (w_gains w); [done|]. destruct (s_dev (w_rtl w)); [|constructor].
  apply steps_range.
Qed.

Lemma gains_loaded w : gains (loaded w) = steps w.
Proof. unfold gains, loaded, steps. destruct (w_gains w) eqn:E; cbn; by rewrite ?E. Qed.

Lemma reported_range (d : D) (n : Z) : -4096 <= n <= 4096 -> -4096 <= rtlsdr_get_tuner_gain (tuner_set n d) <= 4096.
Proof.
  intros Hn. unfold tuner_set. set (d0 := (rtlsdr_set_tuner_gain_mode d 1).2).
  pose proof (gain_reported d0 n) as Hg. cbv zeta in Hg.
  pose proof (steps_range (rtlsdr_set_tuner_gain d0 n).2) as Hs. rewrite Forall_forall in Hs.
  destruct Hg as [E|[E|H]]; [lia..|]. apply Hs in H. lia.
Qed.

Lemma set_gain_device (val : double) (n : Z) (d : D) (r : Rtl D) :
  s_dev r = Some d -> d_round_int (d_mul val (d_of_Z 10)) = Some n ->
  rtl_set_gain val r = Some (tenth (rtlsdr_get_tuner_gain (tuner_set n d)),
    r <| s_dev := Some (tuner_set n d) |> <| g_gain_tenth_db := rtlsdr_get_tuner_gain (tuner_set n d) |>).
Proof.
  intros Ed En. unfold rtl_set_gain, tuner_set. rewrite Ed, En.
  destruct (rtlsdr_set_tuner_gain_mode d 1) as [rc d1]. cbn [snd]. by destruct (rtlsdr_set_tuner_gain d1 n).
Qed.

Lemma set_rf_gain_run w (d : D) :
  0 < ss_fd (sess w s) -> s_dev (w_rtl w) = Some d -> settings_ok w ->
  set_rf_gain s id js tk (tok_str js tk 64) w =
  Some (tt, outcome s id (gain_decision v w) (control_granted s id) w).
Proof.
  intros Hfd Ed Hok. unfold set_rf_gain, gain_decision. rewrite (reads_number js tk v R).
  destruct (numeric v) as [x|] eqn:En; [|by apply run_error]. rewrite (reads_numeric js tk v R x En).
  cbn [negb outcome]. rewrite run_get. destruct (g_agc_enabled (w_rtl w)).
  { destruct (tenths_text _ (so_gain _ Hok)) as [E Hl]. unfold rtl_get_gain. rewrite E, run_last. cbn [control_granted].
    by rewrite (run_applied s id "rf_gain" _ (JPrim (tenths (g_gain_tenth_db (w_rtl w))))) by first [done|vm_compute; lia|lia]. }
  rewrite run_load, run_get, gains_loaded. destruct (on_gain_list (strtod x) (steps w)) eqn:Hon; cbn [negb].
  2:{ apply run_error. by rewrite loaded_fd. }
  destruct (step_converts _ _ (strtod_canonical x) (steps_ok w Hok) Hon) as (n & Hn & Hr).
  rewrite (set_gain_device _ n d (w_rtl w)) by done. destruct (tenths_text _ (reported_range d n Hr)) as [E Hl].
  unfold lift. unfold bind at 1. rewrite run_modify, run_session, E.
  cbn [control_granted]. unfold gain_granted. rewrite Ed, Hn. cbv zeta.
  rewrite (applied_context_run s id "rf_gain" _ (JPrim (tenths (rtlsdr_get_tuner_gain (tuner_set n d))))).
  - cbn [w_sessions upd]. rewrite (proj2 (loaded_same w)). reflexivity.
  - rewrite (sess_keeps ss_fd) by done. unfold sess. cbn. rewrite (proj2 (loaded_same w)). exact Hfd.
  - vm_compute. lia.
  - done.
  - lia.
Qed.
Lemma set_agc_run w :
  0 < ss_fd (sess w s) ->
  set_agc s id js tk w =
  Some (tt, outcome s id (if boolean v is Some b then inr (Agc b) else inl (invalid "agc requires true or false"))
              (control_granted s id) w).
Proof.
  intros Hfd. unfold set_agc. rewrite (reads_bool js tk v R), (reads_true js tk v R).
  destruct (boolean v) as [b|]; [|by apply run_error]. cbn [negb outcome control_granted].
  replace (bool_decide (Some b = Some true)) with b by (by destruct b).
  rewrite (run_rtl _ _ _ _ _ (surjective_pairing (rtl_set_agc b (w_rtl w)))).
  by rewrite (applied_context_run s id "agc" _ (bool_value b)) by first [done|vm_compute; lia|destruct b; vm_compute; lia].
Qed.

Lemma no_volts (x : double) : d_eq x d_zero = true -> d_lt d_zero x = false.
Proof. destruct x as [[]|[]| |[] m e]; done. Qed.

Lemma five_volts (x : double) :
  d_eq x d_zero = false -> d_eq x RTL_BIAS_TEE_VOLTS = true -> d_lt d_zero x = true.
Proof. destruct x as [[]|[]| |[] m e]; done. Qed.

Lemma set_bias_tee_run w (d : D) :
  0 < ss_fd (sess w s) -> s_dev (w_rtl w) = Some d ->
  set_bias_tee s id js tk (tok_str js tk 64) w =
  Some (tt, outcome s id (bias_decision v) (control_granted s id) w).
Proof.
  intros Hfd Ed. unfold set_bias_tee, bias_decision. rewrite (reads_number js tk v R).
  destruct (numeric v) as [x|] eqn:En; [|by apply run_error]. rewrite (reads_numeric js tk v R x En). cbn [negb].
  assert (forall on, d_lt d_zero (strtod x) = on ->
    (let* rc := with_rtl (rtl_set_bias_tee (strtod x)) in
     if negb (rc =? 0) then send_error s id "not_supported" (txt "bias_tee not supported by this hardware")
     else
       let* r := get w_rtl in
       send_ok s id (applied_json "bias_tee" (fmt_f 1 (g_bias_tee_volts r))) ;;;
       cp_broadcast_event (txt "control_changed") (control_event "bias_tee" (fmt_f 1 (g_bias_tee_volts r)))) w =
    Some (tt, bias_granted s id on w)) as Hrun.
  { intros on Hon. unfold bias_granted. rewrite Ed. destruct (rtlsdr_set_bias_tee d (if on then 1 else 0)) as [rc d1] eqn:Eb.
    erewrite run_rtl by (unfold rtl_set_bias_tee; rewrite Ed, Hon, Eb; reflexivity).
    destruct (Z.eqb_spec rc 0) as [->|Hrc]; cbn [negb].
    - rewrite decide_True by done. rewrite run_get. apply (applied_changed_run s id "bias_tee" _ (JPrim (volts on))); [done|vm_compute; lia|..];
        destruct on; vm_compute; (reflexivity || lia).
    - rewrite decide_False by done. by apply run_error. }
  destruct (d_eq (strtod x) d_zero) eqn:E0; cbn [negb andb outcome control_granted].
  - apply Hrun, no_volts, E0.
  - destruct (d_eq (strtod x) RTL_BIAS_TEE_VOLTS) eqn:E5; cbn [negb outcome control_granted]; [|by apply run_error].
    by apply Hrun, five_volts.
Qed.

Lemma set_ppm_run w (d : D) :
  0 < ss_fd (sess w s) -> s_dev (w_rtl w) = Some d -> settings_ok w ->
  set_ppm s id js tk (tok_str js tk 64) w =
  Some (tt, outcome s id (ppm_decision v) (control_granted s id) w).
Proof.
  intros Hfd Ed Hok. unfold set_ppm, ppm_decision. rewrite (reads_number js tk v R).
  destruct (numeric v) as [x|] eqn:En; [|by apply run_error]. rewrite (reads_numeric js tk v R x En). cbn [negb].
  set (n := i32 (strtol x)). case_decide as Hn.
  2:{ destruct (Z.ltb_spec n (-100)); [by apply run_error|]. rewrite (proj2 (Z.ltb_lt 100 n)) by lia. by apply run_error. }
  rewrite !(proj2 (Z.ltb_ge _ _)) by lia. cbn [orb outcome control_granted]. unfold ppm_granted. rewrite Ed.
  destruct (rtlsdr_set_freq_correction d n) as [rc d1] eqn:Eb.
  erewrite run_rtl by (unfold rtl_set_ppm; rewrite Ed, Eb; reflexivity). rewrite run_get.
  set (m := if decide (rc = 0) then n else g_ppm_correction (w_rtl w)).
  assert ((if rc =? 0 then (w_rtl w) <| s_dev := Some d1 |> <| g_ppm_correction := n |> else (w_rtl w) <| s_dev := Some d1 |>) =
          (w_rtl w) <| s_dev := Some d1 |> <| g_ppm_correction := m |>) as ->.
  { unfold m. destruct (Z.eqb_spec rc 0); [by rewrite decide_True by done|]. rewrite decide_False by done.
    by destruct (w_rtl w). }
  assert (-100 <= m <= 100) as Hm by (unfold m; case_decide; [done|apply Hok]).
  apply (applied_changed_run s id "ppm_correction" _ (JPrim (fmt_d m))); try done; [vm_compute; lia|].
  pose proof (fmt_d_length 4 m). cbn. lia.
Qed.

(** The consequences of a change of mode. *)
Lemma refit_target (r : Rtl D) :
  let f := if g_freq_hz r <? rtl_freq_min r then rtl_freq_min r else rtl_freq_max r in
  rtl_freq_min r <= f <= rtl_freq_max r.
Proof. unfold rtl_freq_min, rtl_freq_max. cbv zeta. case_decide; case_match; vm_compute; split; discriminate. Qed.

Lemma frequency_part_run {B} (k : unit -> M D B) w (d : D) :
  s_dev (w_rtl w) = Some d ->
  bind (let r := w_rtl w in
        if (g_freq_hz r <? rtl_freq_min r) || (rtl_freq_max r <? g_freq_hz r) then
          let target := if g_freq_hz r <? rtl_freq_min r then rtl_freq_min r else rtl_freq_max r in
          let* a := with_rtl (rtl_set_frequency target) in
          if a =? 0 then ret tt else cp_broadcast_event (txt "frequency_changed") (freq_event a)
        else ret tt) k w = k tt (frequency_refitted w).
Proof.
  intros Ed. cbv zeta. unfold frequency_refitted. case_decide as Hd.
  { by rewrite !(proj2 (Z.ltb_ge _ _)) by lia. }
  assert ((g_freq_hz (w_rtl w) <? rtl_freq_min (w_rtl w)) || (rtl_freq_max (w_rtl w) <? g_freq_hz (w_rtl w)) = true) as ->.
  { apply orb_true_iff. destruct (Z.ltb_spec (g_freq_hz (w_rtl w)) (rtl_freq_min (w_rtl w))); [by left|right]. apply Z.ltb_lt. lia. }
  pose proof (refit_target (w_rtl w)) as Ht. cbv zeta in Ht. set (f := if _ <? _ then _ else _) in *.
  pose proof (freq_range _ _ Ht) as Hf. rewrite run_assoc, (run_rtl _ _ _ _ _ (set_frequency_device (w_rtl w) d f Ed Hf)).
  assert (0 < f < 2 ^ 64) by (unfold RTL_FREQ_MIN_DIRECT, RTL_FREQ_MAX_NORMAL in Hf; lia).
  rewrite (proj2 (Z.eqb_neq f 0)) by lia. apply run_tell; [unfold freq_event; json_text|].
  etransitivity; [apply Nat.add_le_mono_l, snprintf_le|]. vm_compute (length _). lia.
Qed.

Lemma preferred_u32 (r : Rtl D) : 0 <= rtl_preferred_rate r < 2 ^ 32.
Proof. unfold rtl_preferred_rate. case_decide; vm_compute; split; congruence. Qed.

Lemma rate_part_run {B} (k : unit -> M D B) w (d : D) :
  s_dev (w_rtl w) = Some d ->
  bind (let r := w_rtl w in
        if existsb (fun x => x =? g_rate_requested_sps r) (rtl_rate_list r) then ret tt
        else
          let want := rtl_preferred_rate r in
          let* a := with_rtl (rtl_set_sample_rate want) in
          if a =? 0 then ret tt else cp_broadcast_event (txt "sample_rate_changed") (rate_event want a)) k w =
  k tt (rate_refitted w).
Proof.
  intros Ed. cbv zeta. unfold rate_refitted. rewrite existsb_eqb.
  case_decide as Hin; [by rewrite bool_decide_true|]. rewrite bool_decide_false by done. cbv zeta. rewrite Ed.
  pose proof (preferred_u32 (w_rtl w)) as Hp. set (f := rtl_preferred_rate (w_rtl w)) in *.
  pose proof (rate_u32 (rtlsdr_set_sample_rate d f).2) as Ha. remember ((rtlsdr_set_sample_rate d f).2) as d1 eqn:E1.
  rewrite run_assoc, (run_rtl _ _ _ _ _ (set_rate_device (w_rtl w) d d1 f Ed E1)).
  destruct (Z.eqb_spec (rtlsdr_get_sample_rate d1) 0) as [E|Hne]; [by rewrite decide_True|].
  rewrite decide_False by done. set (a := rtlsdr_get_sample_rate d1) in *.
  apply run_tell; [unfold rate_event; json_text|].
  etransitivity; [apply Nat.add_le_mono_l, snprintf_le|]. vm_compute (length _). lia.
Qed.

Lemma frequency_refitted_dev w : is_Some (s_dev (w_rtl w)) -> is_Some (s_dev (w_rtl (frequency_refitted w))).
Proof.
  intros [d Ed]. unfold frequency_refitted. case_decide; [by exists d|]. cbn. rewrite Ed. by eexists.
Qed.

Lemma mode_change_run {B} (k : unit -> M D B) w :
  is_Some (s_dev (w_rtl w)) ->
  bind apply_mode_change_side_effects k w = k tt (format_updated (rate_refitted (frequency_refitted w))).
Proof.
  intros [d Ed]. unfold apply_mode_change_side_effects.
  destruct (frequency_refitted_dev w ltac:(by exists d)) as [d1 Ed1].
  rewrite run_assoc, run_get, run_assoc. cbv zeta. rewrite (frequency_part_run _ w d Ed), run_assoc, run_get, run_assoc.
  cbv zeta. by rewrite (rate_part_run _ _ d1 Ed1).
Qed.

Lemma mode_named_text (x : list Z) (m : sampling_mode_t) : mode_named x = Some m -> x = ds_names m.
Proof. unfold mode_named. repeat case_decide; intros [= <-]; done. Qed.

Lemma told_fd (name : string) (u : json) w : sess (changed name u (applied s id name u w)) s = sess w s.
Proof. done. Qed.

Lemma ds_names_short (m : sampling_mode_t) : field 63 (JStr (ds_names m)) = ds_names m /\ (length (quote (ds_names m)) <= 60)%nat.
Proof. destruct m; (split; [reflexivity|vm_compute; lia]). Qed.

Lemma mode_granted_run w (d : D) (m : sampling_mode_t) :
  0 < ss_fd (sess w s) -> s_dev (w_rtl w) = Some d ->
  (let* rc := with_rtl (rtl_set_direct_sampling m) in
   if negb (rc =? 0) then send_error s id "device_error" (txt "direct_sampling change failed")
   else
     send_ok s id (applied_json "direct_sampling" (quote (ds_names m))) ;;;
     cp_broadcast_event (txt "control_changed") (control_event "direct_sampling" (quote (ds_names m))) ;;;
     apply_mode_change_side_effects ;;;
     cp_broadcast_event (txt "warning")
       (jq "{'code':'capabilities_changed','message':'direct_sampling changed; re-read get_capabilities for the current frequency range and sample rates'}")) w =
  Some (tt, mode_granted s id m w).
Proof.
  intros Hfd Ed. unfold mode_granted. rewrite Ed.
  destruct (rtlsdr_set_direct_sampling d (ds_code m)) as [rc d1] eqn:Eb.
  erewrite run_rtl by (unfold rtl_set_direct_sampling; rewrite Ed, Eb; reflexivity).
  destruct (Z.eqb_spec rc 0) as [->|Hrc]; cbn [negb]; [|rewrite decide_False by done; by apply run_error].
  rewrite decide_True by done. destruct (ds_names_short m) as [_ Hl].
  rewrite (run_applied s id "direct_sampling" _ (JStr (ds_names m))) by first [done|vm_compute; lia].
  rewrite (run_changed "direct_sampling" _ (JStr (ds_names m))) by first [done|vm_compute; lia].
  rewrite mode_change_run by (by eexists). rewrite run_last.
  by rewrite (run_tell "warning" _ capabilities_changed) by (vm_compute; (reflexivity || lia)).
Qed.

Lemma set_direct_sampling_run w (d : D) :
  0 < ss_fd (sess w s) -> s_dev (w_rtl w) = Some d ->
  set_direct_sampling s id js tk (tok_str js tk 64) w =
  Some (tt, outcome s id (mode_decision s v w) (control_granted s id) w).
Proof.
  intros Hfd Ed. unfold set_direct_sampling. rewrite (reads_string js tk v R), (reads_mode js tk v R).
  assert (forall x, v = JStr x -> tok_str js tk 64 = field 63 v) as Ht.
  { intros x Hv. apply reads_scalar; [done|lia|]. by rewrite Hv. }
  destruct v as [x|x|l|l]; [by apply run_error| |by apply run_error..]. rewrite (Ht x) by done.
  change (default [] (scalar (JStr x))) with x. cbn [negb mode_decision].
  destruct (mode_named x) as [m|] eqn:Em; [|by apply run_error].
  apply mode_named_text in Em as ->. destruct (ds_names_short m) as [-> Hl]. rewrite run_get.
  case_decide as Hm.
  - rewrite bool_decide_true by done. rewrite run_last.
    by rewrite (run_applied s id "direct_sampling" _ (JStr (ds_names m))) by first [done|vm_compute; lia].
  - rewrite bool_decide_false by done. rewrite run_get. destruct (ss_stream_open (sess w s)); [by apply run_error|].
    by apply (mode_granted_run w d).
Qed.
End Settings.

(** ** The requests *)
Section Requests.
Context {D : Type} {P : Platform D} {T : PlatformLaws D} {W : PlatformTypes D} {U : TunerLaws D} (e : Env).
Implicit Types w : World D.

Lemma cmd_set_control_run (js : list Z) (t : list jsmntok_t) (l p : members) (id : list Z) (s : nat) w :
  located js t 0 (JObj l) -> Z.of_nat (length js) < 2 ^ 64 -> jfind (txt "params") l = Some (JObj p) ->
  0 < ss_fd (sess w s) -> is_Some (s_dev (w_rtl w)) -> settings_ok w ->
  cmd_set_control s id t js w = Some (tt, set_outcome p s id w).
Proof.
  intros Hl Hjs Hp Hfd [d Ed] Hok. unfold cmd_set_control, set_outcome.
  destruct (configure_run (D := D) js t l p id s Hl Hp) as (i & Li & R). rewrite R by done. clear R.
  destruct (config_refusal p s w) as [c|]; [reflexivity|]. cbn [unless]. rewrite (proj2 (Z.ltb_ge _ _)) by lia.
  destruct (run_find_opt js t i p "name" Li) as (zn & Hzn & Rn). rewrite Rn. clear Rn.
  destruct (run_find_opt js t i p "value" Li) as (zv & Hzv & Rv). rewrite Rv. clear Rv.
  rewrite (token_of_neg _ _ _ _ Hzn), (token_of_neg _ _ _ _ Hzv). unfold control_decision.
  destruct (jfind (txt "name") p) as [n|]; [|by apply run_error].
  destruct (jfind (txt "value") p) as [v|]; [|by apply run_error]. cbn [orb].
  destruct (run_reads js t n zn Hzn Hjs) as (tn & Tn & ->). destruct (run_reads js t v zv Hzv Hjs) as (tv & Tv & ->).
  cbv zeta. rewrite !(reads_name js tn n Tn) by done.
  repeat case_bool_decide.
  - by apply (set_rf_gain_run s id js tv v Tv w d).
  - by apply (set_agc_run s id js tv v Tv w).
  - by apply (set_bias_tee_run s id js tv v Tv w d).
  - by apply (set_ppm_run s id js tv v Tv w d).
  - by apply (set_direct_sampling_run s id js tv v Tv w d).
  - by apply run_error.
Qed.

Lemma value_text (name : string) (x : list Z) (v : json) :
  (length (txt name) <= 20)%nat -> x = print v -> (length x <= 60)%nat ->
  value_json name x = print (control_value "value" name v) /\ (length (value_json name x) <= 4000)%nat.
Proof.
  intros Hn -> Hv. destruct (control_text "value" name v 160 Hn Hv) as [E Hl]; [lia|vm_compute; lia|].
  change (value_json name (print v)) with (snprintf 160 (jq "{'function':'rx','name':'" ++ txt name ++ jq "','"
    ++ txt "value" ++ jq "':" ++ print v ++ jq "}")). rewrite E. split; [done|lia].
Qed.

Lemma value_reply (name : string) (x : list Z) (v : json) (s : nat) (id : list Z) w :
  0 < ss_fd (sess w s) -> (length (txt name) <= 20)%nat -> x = print v -> (length x <= 60)%nat ->
  send_ok s id (value_json name x) w = Some (tt, reply s id (control_value "value" name v) w).
Proof.
  intros Hfd Hn Hx Hl. destruct (value_text name x v Hn Hx Hl) as [E Hs]. rewrite run_last. by rewrite (run_reply s id _ _ _ w Hfd E Hs).
Qed.

Lemma cmd_get_control_run (js : list Z) (t : list jsmntok_t) (l p : members) (id : list Z) (s : nat) w :
  located js t 0 (JObj l) -> Z.of_nat (length js) < 2 ^ 64 -> jfind (txt "params") l = Some (JObj p) ->
  0 < ss_fd (sess w s) -> settings_ok w ->
  cmd_get_control s id t js w = Some (tt, get_outcome p s id w).
Proof.
  intros Hl Hjs Hp Hfd Hok. unfold cmd_get_control, get_outcome.
  destruct (require_function_run (D := D) js t l p id s Hl Hp) as (i & Li & R). rewrite R by done. clear R.
  destruct (function_refusal p); [reflexivity|]. cbn [first]. rewrite (proj2 (Z.ltb_ge _ _)) by lia.
  rewrite (channel_run js t i p) by done. destruct (channel_refusal p); [reflexivity|]. cbn [unless negb].
  destruct (run_find_opt js t i p "name" Li) as (zn & Hzn & Rn). rewrite Rn. clear Rn.
  rewrite (token_of_neg _ _ _ _ Hzn). destruct (jfind (txt "name") p) as [n|]; [|by apply run_error].
  destruct (run_reads js t n zn Hzn Hjs) as (tn & Tn & ->). cbv zeta. rewrite run_get.
  rewrite !(reads_name js tn n Tn) by done. unfold control_in_force. destruct (tenths_text _ (so_gain _ Hok)) as [Eg Hg].
  repeat case_bool_decide; cbn [outcome]; [..|by apply run_error].
  - unfold rtl_get_gain. rewrite Eg. by apply value_reply; [|vm_compute; lia| |lia].
  - apply value_reply; try done; [vm_compute; lia|]. destruct (g_agc_enabled _); vm_compute; lia.
  - apply value_reply; try done; [vm_compute; lia|]. destruct (so_bias _ Hok) as [-> | ->]; vm_compute; lia.
  - apply value_reply; try done; [vm_compute; lia|]. pose proof (so_ppm _ Hok). pose proof (fmt_d_length 4 (g_ppm_correction (w_rtl w))). lia.
  - apply value_reply; try done; [vm_compute; lia|]. destruct (g_sampling_mode _); vm_compute; lia.
Qed.

(** Of the sessions, only a gain changes anything, and only its record in the session. *)
Lemma refitted_sessions w :
  w_sessions (format_updated (rate_refitted (frequency_refitted w))) = w_sessions w.
Proof.
  unfold format_updated, context_sent, rate_refitted. cbn. cbv zeta.
  transitivity (w_sessions (frequency_refitted w)); [by repeat case_match|].
  unfold frequency_refitted. by case_decide.
Qed.

Lemma tell_sessions (event : string) (params : json) w : w_sessions (tell event params w) = w_sessions w.
Proof. reflexivity. Qed.

Lemma granted_close (s i : nat) (id : list Z) (x : setting) w :
  ss_close_after_reply (sess (control_granted s id x w) i) = ss_close_after_reply (sess w i).
Proof.
  assert (forall w', w_sessions w' = w_sessions w -> ss_close_after_reply (sess w' i) = ss_close_after_reply (sess w i)) as H
    by (intros w' E; unfold sess; by rewrite E).
  destruct x; cbn [control_granted]; try (by apply H).
  - apply H. apply loaded_same.
  - unfold gain_granted. destruct (s_dev (w_rtl w)); [|done]. destruct (d_round_int _); [|done]. cbv zeta.
    by apply (alter_keeps ss_close_after_reply).
  - unfold bias_granted. destruct (s_dev (w_rtl w)); [|done]. destruct (rtlsdr_set_bias_tee _ _). by case_decide.
  - unfold ppm_granted. destruct (s_dev (w_rtl w)); [|done]. by destruct (rtlsdr_set_freq_correction _ _).
  - unfold mode_granted. destruct (s_dev (w_rtl w)); [|done]. destruct (rtlsdr_set_direct_sampling _ _).
    case_decide; [|done]. apply H. by rewrite tell_sessions, refitted_sessions.
Qed.

Inductive control_command : list Z -> (members -> nat -> list Z -> World D -> World D) -> Prop :=
  | cc_set : control_command (txt "set_control") set_outcome
  | cc_get : control_command (txt "get_control") get_outcome.

Lemma control_command_close (cmd : list Z) f (p : members) (s i : nat) (id : list Z) w :
  control_command cmd f -> ss_close_after_reply (sess (f p s id w) i) = ss_close_after_reply (sess w i).
Proof.
  intros []; [|by apply outcome_close]. unfold set_outcome.
  destruct (unless _ _) as [c|x]; [done|]. apply granted_close.
Qed.

End Requests.

(** ** Examples *)
Definition control_params (name : string) (v : json) : members :=
  [(txt "function", JStr (txt "rx")); (txt "name", JStr (txt name)); (txt "value", v)].

