(* ===== verification/Settings.v ===== *)
(** * The settings that are in force

    With a tuner whose steps lie between -10 dB and 50 dB, in every reachable state
    the gain, the bias voltage and the frequency correction are of the size the
    control commands report ([settings_ok]), whatever the clients have asked for. *)
From Stdlib Require Import SpecFloat.
From S2P Require Import Prelude CLib Jsmn JsonText JsonTok Sha256 Auth Config Rtl Vita World.
From S2P Require Import Session Commands RxCommands Server Quiet Invariants Safety Kept Doubles Requests Tuning Control.
#[local] Open Scope Z_scope.

Definition same_settings {D} (r r' : Rtl D) : Prop :=
  g_gain_tenth_db r' = g_gain_tenth_db r /\ g_bias_tee_volts r' = g_bias_tee_volts r /\
  g_ppm_correction r' = g_ppm_correction r.

Section Calls.
Context {D : Type} {P : Platform D}.
Implicit Types r : Rtl D.

Lemma settings_frame (w w' : World D) :
  settings_ok w -> same_settings (w_rtl w) (w_rtl w') -> w_gains w' = w_gains w -> settings_ok w'.
Proof. intros [] (E1 & E2 & E3) E. split; by rewrite ?E1, ?E2, ?E3, ?E. Qed.

Lemma start_settings b r : same_settings r (rtl_bridge_start b r).2.
Proof. unfold rtl_bridge_start. by repeat case_match. Qed.

Lemma stop_settings r : same_settings r (rtl_bridge_stop r).
Proof. unfold rtl_bridge_stop, on_dev. by repeat case_match. Qed.

Lemma set_frequency_settings f r : same_settings r (rtl_set_frequency f r).2.
Proof. unfold rtl_set_frequency. by repeat case_match. Qed.

Lemma set_sample_rate_settings f r : same_settings r (rtl_set_sample_rate f r).2.
Proof. unfold rtl_set_sample_rate. by repeat case_match. Qed.

Lemma set_agc_settings b r : same_settings r (rtl_set_agc b r).2.
Proof. unfold rtl_set_agc. by repeat case_match. Qed.

Lemma set_direct_sampling_settings m r : same_settings r (rtl_set_direct_sampling m r).2.
Proof. unfold rtl_set_direct_sampling. by repeat case_match. Qed.

Lemma measure_settings now buf r : same_settings r (measure_adc_level now buf r).1.
Proof. unfold measure_adc_level. by repeat case_match. Qed.
End Calls.

Section Handlers.
Context {D : Type} {P : Platform D} {U : TunerLaws D} (e : Env) (s : nat).
Context (id js : list Z) (t : list jsmntok_t).
Implicit Types w : World D.

#[export] Instance stable_settings : Stable (settings_ok (D := D)).
Proof. intros w o []. by split. Qed.

Lemma k_modify f :
  (forall w, same_settings (w_rtl w) (w_rtl (f w)) /\ w_gains (f w) = w_gains w) ->
  stays (settings_ok (D := D)) (modify f).
Proof. intros Hf. apply s_modify. intros w Hw. destruct (Hf w) as [H1 H2]. by eapply settings_frame. Qed.

Lemma k_with_rtl {A} (f : Rtl D -> A * Rtl D) :
  (forall r, same_settings r (f r).2) -> stays (settings_ok (D := D)) (with_rtl f).
Proof.
  intros Hf w a w' Hw. unfold with_rtl. specialize (Hf (w_rtl w)).
  destruct (f (w_rtl w)) as [b r]. intros [= _ <-]. by eapply settings_frame.
Qed.

Lemma k_with_vita {A} (f : Vita -> A * Vita) : stays (settings_ok (D := D)) (with_vita f).
Proof.
  intros w a w' Hw. unfold with_vita. destruct (f (w_vita w)). intros [= _ <-]. by eapply settings_frame.
Qed.

#[local] Hint Resolve k_with_vita : quiet.
#[local] Hint Extern 1 (stays settings_ok (modify _)) => apply k_modify; intros; by repeat case_match : quiet.
#[local] Hint Extern 1 (stays settings_ok (set_sess _ _)) => by apply k_modify : quiet.
#[local] Hint Extern 1 (stays settings_ok (do_vita _)) => by apply k_modify : quiet.
#[local] Hint Extern 1 (stays settings_ok (do_rtl rtl_bridge_stop)) =>
  apply k_modify; intros; split; [apply stop_settings|done] : quiet.
#[local] Hint Extern 1 (stays settings_ok (do_rtl rtl_reset_adc_level)) => by apply k_modify : quiet.
#[local] Hint Extern 1 (stays settings_ok (with_rtl _)) =>
  apply k_with_rtl; intros; first [apply start_settings|apply set_agc_settings|apply set_frequency_settings
    |apply set_sample_rate_settings|apply set_direct_sampling_settings] : quiet.

Lemma k_bias x : stays (settings_ok (D := D)) (with_rtl (rtl_set_bias_tee x)).
Proof.
  intros w a w' []. unfold with_rtl, rtl_set_bias_tee. destruct (s_dev (w_rtl w)); [|by intros [= _ <-]].
  destruct (rtlsdr_set_bias_tee _ _) as [rc dv]. intros [= _ <-].
  destruct (rc =? 0); split; try done. destruct (d_lt d_zero x); [by right|by left].
Qed.
#[local] Hint Resolve k_bias : quiet.

(** The steps are read from the tuner. *)
Lemma k_gains : stays (settings_ok (D := D)) load_gain_table.
Proof.
  intros w a w' Hw. pose proof (run_load (U := U) ret w) as E. rewrite <- run_last in E. rewrite E. intros [= _ <-].
  pose proof (steps_ok (U := U) w Hw) as Hs. unfold loaded.
  destruct (w_gains w); [done|]. destruct Hw. by split.
Qed.
#[local] Hint Resolve k_gains : quiet.

Lemma k_context_all : stays (settings_ok (D := D)) context_all.
Proof. unfold context_all. hquiet. Qed.

Lemma k_claim : stays (settings_ok (D := D)) (cp_rx_claim s).
Proof. unfold cp_rx_claim. hquiet. Qed.

Lemma k_release : stays (settings_ok (D := D)) (cp_rx_release s).
Proof. unfold cp_rx_release. hquiet. Qed.

Lemma k_drop_vita : stays (settings_ok (D := D)) (drop_vita s).
Proof. unfold drop_vita. hquiet. Qed.

Lemma k_mode_change : stays (settings_ok (D := D)) apply_mode_change_side_effects.
Proof. unfold apply_mode_change_side_effects. hquiet. Qed.

Lemma k_configure : stays (settings_ok (D := D)) (configure_params s id js t).
Proof. unfold configure_params. hquiet. Qed.
#[local] Hint Resolve k_context_all k_claim k_release k_drop_vita k_mode_change k_configure : quiet.

Lemma k_hello : stays (settings_ok (D := D)) (cmd_hello e s id t js).
Proof. unfold cmd_hello, auth_object. hquiet. Qed.

Lemma k_authenticate : stays (settings_ok (D := D)) (cmd_authenticate e s id t js).
Proof. unfold cmd_authenticate, auth_refused. hquiet. Qed.

Lemma k_get_capabilities : stays (settings_ok (D := D)) (cmd_get_capabilities s id t js).
Proof. unfold cmd_get_capabilities, build_capabilities_json. hquiet. Qed.

Lemma k_open_stream : stays (settings_ok (D := D)) (cmd_open_stream e s id t js).
Proof. unfold cmd_open_stream, open_vita, open_destination, refuse, open_accept, alloc_stream_id. hquiet. Qed.

Lemma k_start_rx : stays (settings_ok (D := D)) (cmd_start_rx e s id t js).
Proof. unfold cmd_start_rx. hquiet. Qed.

Lemma k_stop_rx : stays (settings_ok (D := D)) (cmd_stop_rx s id t js).
Proof. unfold cmd_stop_rx. hquiet. Qed.

Lemma k_close_stream : stays (settings_ok (D := D)) (cmd_close_stream s id t js).
Proof. unfold cmd_close_stream. hquiet. Qed.

Lemma k_session_destroy : stays (settings_ok (D := D)) (session_destroy s).
Proof. unfold session_destroy. hquiet. Qed.

Lemma k_set_frequency : stays (settings_ok (D := D)) (cmd_set_frequency s id t js).
Proof. unfold cmd_set_frequency. hquiet. Qed.

Lemma k_set_sample_rate : stays (settings_ok (D := D)) (cmd_set_sample_rate s id t js).
Proof. unfold cmd_set_sample_rate. hquiet. Qed.

(** ** The three settings themselves *)
Lemma k_set_bias_tee vt v : stays (settings_ok (D := D)) (set_bias_tee s id js vt v).
Proof. unfold set_bias_tee. hquiet. Qed.

Lemma k_set_ppm vt v : stays (settings_ok (D := D)) (set_ppm s id js vt v).
Proof.
  unfold set_ppm. hwalk; [hleaf|]. cbv zeta. hwalk; [hleaf|].
  eapply h_stay; [|intros rc; hquiet]. intros w a w' []. unfold with_rtl, rtl_set_ppm.
  destruct (s_dev (w_rtl w)); [|by intros [= _ <-]]. destruct (rtlsdr_set_freq_correction _ _) as [rc dv]. intros [= _ <-].
  destruct (rc =? 0); split; try done. cbn. zbool. lia.
Qed.

(** A number the tuner is set to has passed for one of its steps. *)
Lemma gain_kept (val : double) (r r' : Rtl D) (x : double) w :
  settings_ok w -> canonical val -> on_gain_list val (steps w) = true -> r = w_rtl w ->
  rtl_set_gain val r = Some (x, r') -> settings_ok (w <| w_rtl := r' |>).
Proof.
  intros Hw Hv Hon ->. destruct (step_converts _ _ Hv (steps_ok (U := U) w Hw) Hon) as (n & Hn & Hr).
  destruct (s_dev (w_rtl w)) as [d|] eqn:Ed.
  - rewrite (set_gain_device _ n d (w_rtl w)) by done. intros [= _ <-]. destruct Hw. split; try done.
    by apply (reported_range (U := U)).
  - unfold rtl_set_gain. rewrite Ed. intros [= _ <-]. by destruct Hw.
Qed.

Lemma k_set_rf_gain vt : stays (settings_ok (D := D)) (set_rf_gain s id js vt (tok_str js vt 64)).
Proof.
  unfold set_rf_gain. hwalk; [hleaf|]. apply h_get_bind. intros r. hwalk; [hforget; hleaf|]. cbv zeta.
  eapply h_bind with (Q := fun _ w => settings_ok w /\ r = w_rtl w /\ steps w = gains w).
  { intros w a w' [Hw ->] E. split; [by eapply k_gains|]. pose proof (run_load (U := U) ret w) as E'.
    rewrite <- run_last, E in E'. injection E' as _ ->. rewrite (proj1 (loaded_same w)), gains_loaded.
    split; [done|]. unfold loaded, steps. destruct (w_gains w) eqn:Eg; cbn; by rewrite ?Eg. }
  intros _. apply h_get_bind. intros gs. hwalk; [hforget; hleaf|].
  eapply h_bind; [apply h_lift|]. intros [x r']. apply (h_then _ (settings_ok (D := D))); [|hquiet].
  apply h_modify. intros w [[(Hw & Hr & Hs) ->] E]. 
  match goal with H : negb (on_gain_list _ _) = false |- _ => apply negb_false_iff in H; rewrite <- Hs in H end.
  by eapply gain_kept; [|apply strtod_canonical|..].
Qed.

Lemma k_set_control : stays (settings_ok (D := D)) (cmd_set_control s id t js).
Proof.
  pose proof k_set_rf_gain. pose proof k_set_bias_tee. pose proof k_set_ppm.
  unfold cmd_set_control, set_agc, set_direct_sampling. hquiet.
Qed.
End Handlers.

(** ** The server *)
Section Server.
Context {D : Type} {P : Platform D} {U : TunerLaws D}.

Lemma k_create (fd : Z) (ip : list Z) : stays (settings_ok (D := D)) (session_create fd ip).
Proof.
  unfold session_create. eapply h_stay; [apply s_get|intros r]. destruct r; [|apply s_ret].
  eapply h_stay; [apply s_get|intros g]. eapply h_stay; [by apply k_modify|intros _; apply s_ret].
Qed.

Lemma k_callback (now : Z) (buf : list Z) : stays (settings_ok (D := D)) (rtl_callback now buf).
Proof.
  unfold rtl_callback. eapply h_stay; [apply s_get|intros r]. case_match; [apply s_ret|].
  eapply h_stay; [by apply k_modify|intros _]. eapply h_stay.
  { apply k_with_rtl. intros r'. pose proof (measure_settings now buf r') as H'.
    by destruct (measure_adc_level now buf r'). }
  intros ev. eapply h_stay; [destruct ev; hleaf|intros _]. by apply k_modify.
Qed.

#[export] Instance k_kept : Kept (settings_ok (D := D)).
Proof.
  split; intros; [apply _|apply k_hello|apply k_authenticate|apply k_get_capabilities|apply k_set_frequency
    |apply k_set_sample_rate|apply k_set_control|apply k_open_stream|apply k_start_rx|apply k_stop_rx
    |apply k_close_stream|apply k_create|apply k_session_destroy|apply k_callback].
Qed.

(** The receiver a server is started with. *)
Definition receiver_ok (r : Rtl D) : Prop :=
  -4096 <= g_gain_tenth_db r <= 4096 /\
  (g_bias_tee_volts r = d_zero \/ g_bias_tee_volts r = RTL_BIAS_TEE_VOLTS) /\
  -100 <= g_ppm_correction r <= 100.

Lemma reachable_settings (c : Conf) (r : Rtl D) (v : Srv D) :
  receiver_ok r -> reachable c r v -> settings_ok (sv_world v).
Proof.
  intros (Hg & Hb & Hp). apply kept_reachable; [apply _|]. intros ctx. by split.
Qed.
End Server.
