(* ===== verification/Versions.v ===== *)
(** * The versions a client offers

    The loop of hello over supported_protocol_versions reads the tokens of an array;
    on the tokens of a JSON array it computes which versions are among its elements. *)
From Stdlib Require Import SpecFloat.
From S2P Require Import Prelude CLib Jsmn JsonText JsonTok Sha256 Auth Config Rtl Vita World.
From S2P Require Import Session Commands RxCommands Server Requests.
#[local] Open Scope Z_scope.

Definition PROTOCOL_RELEASES : list string := ["1.1"; "1.2"; "1.3"]%string.

Definition offers (vs : list json) (version : string) : bool := existsb (fun v => is_word (Some v) version) vs.

Definition offers_release (vs : list json) : bool := existsb (offers vs) PROTOCOL_RELEASES.

(** One element is a release number. *)
Definition release (v : json) : bool := existsb (is_word (Some v)) PROTOCOL_RELEASES.

Section Versions.
Context (js : list Z).

Lemma skip_members (tk : jsmntok_t) (pre ts post : list jsmntok_t) :
  skips 1 (tk :: ts) ->
  skip_loop (length (pre ++ (tk :: ts) ++ post)) (pre ++ (tk :: ts) ++ post) (tk_size tk) (S (length pre)) =
  Some (length pre + length (tk :: ts))%nat.
Proof.
  intros H. specialize (H pre post 0 (S (length pre + length post)) ltac:(lia)).
  rewrite skip_loop_0 in H. rewrite <- H. cbn [length Nat.add app]. rewrite skip_loop_step by lia.
  rewrite !length_app. cbn [length]. rewrite length_app. f_equal; lia.
Qed.

Lemma value_tokens (o : nat) (v : json) (s : list Z) (ts : list jsmntok_t) :
  value_at o v s ts -> exists tk ts', ts = tk :: ts'.
Proof. intros []; by eexists _, _. Qed.

(** The token of a value equals the words the value is. *)
Lemma token_word (t : list jsmntok_t) (i : nat) (v : json) (tk : jsmntok_t) (word : string) :
  located js t i v -> t !! i = Some tk -> plain_word word -> tok_eq js tk (txt word) = is_word (Some v) word.
Proof.
  intros Hl Ht Hw. unfold plain_word, is_word in *. destruct (txt word) as [|c x]; [done|].
  destruct (tok_eq_word js t i v c x Hl (proj1 Hw) (proj2 Hw)) as (tk' & E & H). replace tk with tk' by congruence. exact H.
Qed.

(** It is one word at most. *)
Lemma release_other (v : json) : is_word (Some v) "1.0" = true -> release v = false.
Proof.
  unfold release, is_word. intros H%bool_decide_eq_true. cbn [existsb PROTOCOL_RELEASES].
  rewrite H. vm_compute. reflexivity.
Qed.

(** One version, and then those behind it. *)
Lemma versions_value (o : nat) (v : json) (s : list Z) (ts ts2 pre post : list jsmntok_t) (n : nat) (sup off : bool) :
  value_at o v s ts -> text_at js o s ->
  versions_loop (S n) js (pre ++ (ts ++ ts2) ++ post) (length pre) sup off =
  versions_loop n js ((pre ++ ts) ++ ts2 ++ post) (length (pre ++ ts))
    (sup || is_word (Some v) "1.0") (off || release v).
Proof.
  intros Hv Ht. pose proof (proj1 skips_text _ _ _ _ Hv) as Hs.
  assert (located js (pre ++ ts ++ ts2 ++ post) (length pre) v) as Hl by (by eexists o, s, ts, pre, _).
  destruct (value_tokens _ _ _ _ Hv) as (tk & ts' & ->). cbn [versions_loop].
  rewrite <- !app_assoc in *. cbn [app] in *.
  assert ((pre ++ tk :: ts' ++ ts2 ++ post) !! length pre = Some tk) as Hk by (by rewrite list_lookup_middle).
  rewrite Hk. change PROTO_VERSION with (txt "1.0").
  rewrite !(token_word _ _ v tk _ Hl Hk) by (vm_compute; split; discriminate).
  pose proof (skip_members tk pre ts' (ts2 ++ post) Hs) as E. cbn [app] in E. rewrite E, length_app. f_equal. f_equal.
  pose proof (release_other v) as Hr. unfold release. cbn [existsb PROTOCOL_RELEASES]. rewrite orb_false_r, orb_assoc.
  destruct (is_word (Some v) "1.0"); [|done]. cbn [negb andb]. symmetry. specialize (Hr eq_refl).
  unfold release in Hr. cbn [existsb PROTOCOL_RELEASES] in Hr. by rewrite orb_false_r, orb_assoc in Hr.
Qed.

Lemma versions_tail (o : nat) (l : list json) (s : list Z) (ts : list jsmntok_t) :
  elems_tail o l s ts -> text_at js o s -> forall pre post sup off,
  versions_loop (length l) js (pre ++ ts ++ post) (length pre) sup off =
  Some (sup || offers l "1.0", off || existsb release l).
Proof.
  induction 1 as [o|o v l w1 s w2 rest ts1 ts2 _ _ Hv _ IH]; intros Ht pre post sup off.
  - cbn. by rewrite !orb_false_r.
  - apply text_at_cons in Ht as [_ [_ [Ht1 [_ Ht2]%text_at_app]%text_at_app]%text_at_app].
    cbn [length]. erewrite versions_value by (done). rewrite IH by done.
    unfold offers. cbn [existsb]. by rewrite !orb_assoc.
Qed.

Lemma releases_swap (l : list json) : existsb release l = offers_release l.
Proof.
  unfold offers_release, offers, release. cbn [existsb PROTOCOL_RELEASES]. rewrite orb_false_r.
  induction l as [|v l IH]; [done|]. cbn [existsb]. rewrite IH, orb_false_r. 
  destruct (is_word _ _), (is_word _ _), (is_word _ _), (existsb _ l), (existsb _ l), (existsb _ l); done.
Qed.

Lemma versions_run (t : list jsmntok_t) (i : nat) (l : list json) :
  located js t i (JArr l) -> versions_loop (length l) js t (S i) false false = Some (offers l "1.0", offers_release l).
Proof.
  intros (o & s & ts & pre & post & Hv & Ht & -> & <-). rewrite <- releases_swap.
  inversion Hv as [| |? ? s' ts' He|]; subst.
  change (pre ++ (?x :: ts') ++ post) with (pre ++ [x] ++ ts' ++ post). rewrite (app_assoc pre).
  match goal with |- context [(pre ++ [?x]) ++ _] => replace (S (length pre)) with (length (pre ++ [x]))
    by (rewrite length_app; cbn; lia) end.
  apply text_at_cons in Ht as [_ [Ht _]%text_at_app].
  destruct He as [|? v l w1 s w2 rest ts1 ts2 _ _ Hv1 Hl]; [done|].
  apply text_at_app in Ht as [_ [Ht1 [_ Ht2]%text_at_app]%text_at_app].
  cbn [length]. erewrite versions_value by done. erewrite versions_tail by done. done.
Qed.
End Versions.
