(* ===== verification/Totality.v ===== *)
(** * Requests are defined

    A token index read where there is no token is undefined behaviour.  The handlers
    look members up without asking for the type of params; when that is an object, a
    string or a primitive, every request, whatever its members are, is processed
    without undefined behaviour.  When it is an array, it need not be.

    [safely m Q] says that the computation m succeeds in every world with a result
    in Q; it has a rule for each construct of the monad.  The rules for [find] and
    [tok] ask that the index is that of a value ([there]) which is no array
    ([searchable]); setting a gain asks for the invariant [settings_ok] as well
    ([safe_in]). *)
From Stdlib Require Import SpecFloat.
From S2P Require Import Prelude CLib Doubles Jsmn JsonText JsonTok Sha256 Auth Config Rtl Vita World.
From S2P Require Import Session Commands RxCommands Server Quiet Invariants Safety Kept Requests Tuning Control Settings Versions.
#[local] Open Scope Z_scope.

(** ** Total correctness of handlers *)
Definition safely {D A} (m : M D A) (Q : A -> Prop) : Prop := forall w, exists a w', m w = Some (a, w') /\ Q a.

Definition safe {D A} (m : M D A) : Prop := safely m (fun _ => True).

Section Rules.
Context {D : Type}.

Lemma f_ret {A} (a : A) (Q : A -> Prop) : Q a -> safely (D := D) (ret a) Q.
Proof. intros H w. by exists a, w. Qed.

Lemma f_bind {A B} (m : M D A) (k : A -> M D B) Q R :
  safely m Q -> (forall a, Q a -> safely (k a) R) -> safely (bind m k) R.
Proof.
  intros Hm Hk w. destruct (Hm w) as (a & w1 & E & Ha). destruct (Hk a Ha w1) as (b & w2 & E2 & Hb).
  exists b, w2. unfold bind. by rewrite E.
Qed.

Lemma f_weak {A} (m : M D A) (Q R : A -> Prop) : safely m Q -> (forall a, Q a -> R a) -> safely m R.
Proof. intros Hm H w. destruct (Hm w) as (a & w' & E & Ha). exists a, w'. auto. Qed.

Lemma f_safe {A} (m : M D A) (Q : A -> Prop) : safely m Q -> safe m.
Proof. intros H. by eapply f_weak. Qed.

Lemma f_then {A B} (m : M D A) (k : A -> M D B) R : safe m -> (forall a, safely (k a) R) -> safely (bind m k) R.
Proof. intros Hm Hk. eapply f_bind; [exact Hm|]. auto. Qed.

Lemma f_get {A} (f : World D -> A) : safe (get f).
Proof. intros w. by exists (f w), w. Qed.

Lemma f_modify (f : World D -> World D) : safe (modify f).
Proof. intros w. by exists tt, (f w). Qed.

Lemma f_with_rtl {A} (f : Rtl D -> A * Rtl D) : safe (with_rtl f).
Proof. intros w. unfold with_rtl. destruct (f (w_rtl w)). by eexists _, _. Qed.

Lemma f_with_vita {A} (f : Vita -> A * Vita) : safe (D := D) (with_vita f).
Proof. intros w. unfold with_vita. destruct (f (w_vita w)). by eexists _, _. Qed.

(** With a condition on the world that every part keeps. *)
Definition safe_in {A} (I : World D -> Prop) (m : M D A) : Prop := forall w, I w -> is_Some (m w).

Lemma in_safe {A} (I : World D -> Prop) (m : M D A) : safe m -> safe_in I m.
Proof. intros H w _. destruct (H w) as (a & w' & -> & _). by eexists. Qed.

Lemma in_bind {A B} (I : World D -> Prop) (m : M D A) (k : A -> M D B) Q :
  safely m Q -> stays I m -> (forall a, Q a -> safe_in I (k a)) -> safe_in I (bind m k).
Proof.
  intros Hm Hs Hk w Hw. destruct (Hm w) as (a & w1 & E & Ha). unfold bind. rewrite E. apply Hk; [done|].
  by eapply Hs.
Qed.

Lemma in_then {A B} (I : World D -> Prop) (m : M D A) (k : A -> M D B) :
  safe_in I m -> (forall a, safe (k a)) -> safe_in I (bind m k).
Proof.
  intros Hm Hk w Hw. destruct (Hm w Hw) as [[a w1] E]. unfold bind. rewrite E.
  destruct (Hk a w1) as (b & w2 & -> & _). by eexists.
Qed.
End Rules.

Create HintDb defined discriminated.
#[export] Hint Constants Opaque : defined.
#[export] Hint Resolve f_get f_modify f_with_rtl f_with_vita : defined.

Ltac f_leaf :=
  lazymatch goal with
  | |- safely ?m (fun _ => True) => change (safe m); solve [eauto 3 with defined nocore]
  | |- safe _ => solve [eauto 3 with defined nocore]
  end.

(** Walk through a computation all of whose parts are defined. *)
Ltac f_walk :=
  lazymatch goal with
  | |- safely (bind _ _) _ => eapply f_then; [first [f_leaf|solve [repeat first [f_leaf|f_walk]]]|intros ?]; cbv beta
  | |- safely (match ?x with _ => _ end) _ => destruct x eqn:?
  | |- safe (bind _ _) => unfold safe
  | |- safe (match _ with _ => _ end) => unfold safe
  | |- safe (ret _) => by apply f_ret
  | |- safely (ret _) _ => by apply f_ret
  end.

Ltac f_all := repeat first [f_leaf|f_walk].

Section Sending.
Context {D : Type} {P : Platform D}.

Lemma f_send_framed (s : nat) (json : list Z) : safe (send_framed (D := D) s json).
Proof. apply f_modify. Qed.

Lemma f_send_ok (s : nat) (id r : list Z) : safe (send_ok (D := D) s id r).
Proof. apply f_modify. Qed.

Lemma f_send_error (s : nat) (id : list Z) (c : string) (m : list Z) : safe (send_error (D := D) s id c m).
Proof. apply f_modify. Qed.

Lemma f_send_event (s : nat) (ev ps : list Z) : safe (send_event (D := D) s ev ps).
Proof. apply f_modify. Qed.

Lemma f_broadcast (skip : option nat) (ev ps : list Z) : safe (broadcast (D := D) skip ev ps).
Proof. intros w. rewrite run_announce. by eexists _, _. Qed.

Lemma f_set_sess (s : nat) (f : Session -> Session) : safe (set_sess (D := D) s f).
Proof. apply f_modify. Qed.

Lemma f_do_rtl (f : Rtl D -> Rtl D) : safe (do_rtl f).
Proof. apply f_modify. Qed.

Lemma f_do_vita (f : Vita -> Vita) : safe (do_vita (D := D) f).
Proof. apply f_modify. Qed.
End Sending.

#[export] Hint Resolve f_send_framed f_send_ok f_send_error f_send_event f_broadcast f_set_sess f_do_rtl f_do_vita : defined.

Section Events.
Context {D : Type} {P : Platform D}.

Lemma f_event (ev ps : list Z) : safe (cp_broadcast_event (D := D) ev ps).
Proof. apply f_broadcast. Qed.

Lemma f_event_except (s : nat) (ev ps : list Z) : safe (cp_broadcast_event_except (D := D) s ev ps).
Proof. apply f_broadcast. Qed.
End Events.

#[export] Hint Resolve f_event f_event_except : defined.

(** ** Tokens *)
Section Tokens.
Context {D : Type} (js : list Z) (t : list jsmntok_t).

(** The token of some value, or none. *)
Definition there (z : Z) : Prop := z < 0 \/ exists j v, z = Z.of_nat j /\ located js t j v.

(** The token of a value that is not an array, or none. *)
Definition searchable (z : Z) : Prop :=
  z < 0 \/ exists j v, z = Z.of_nat j /\ located js t j v /\ (forall l, v <> JArr l).

Lemma f_find (z : Z) (key : string) : 0 <= z -> searchable z -> safely (D := D) (find js t z key) there.
Proof.
  intros Hz [H|(j & v & -> & Hl & Hv)]; [lia|]. unfold find. rewrite Nat2Z.id.
  destruct v as [x|x|l|l]; [..|by destruct (Hv l)|].
  1, 2: rewrite (located_find_scalar js t j _ _ Hl) by done; apply f_ret; left; lia.
  pose proof (located_find js t j l (txt key) Hl) as H. destruct (jfind (txt key) l) as [u|].
  - destruct H as (i & -> & Hi). intros w. exists (Z.of_nat i), w. split; [done|]. right. by exists i, u.
  - rewrite H. intros w. exists (-1), w. split; [done|]. left. lia.
Qed.

Lemma f_tok (z : Z) :
  0 <= z -> there z ->
  safely (D := D) (tok t z) (fun tk => exists j v, z = Z.of_nat j /\ located js t j v /\ tk_type tk = tok_type v).
Proof.
  intros Hz [H|(j & v & -> & Hl)]; [lia|]. destruct (located_head _ _ _ _ Hl) as (tk & s & E & Hty & _).
  intros w. exists tk, w. unfold tok. rewrite Nat2Z.id, E. split; [done|]. by exists j, v.
Qed.

Lemma f_token (z : Z) : 0 <= z -> there z -> safe (D := D) (tok t z).
Proof. intros Hz H. eapply f_safe. by apply f_tok. Qed.
End Tokens.

(** ** The handlers *)

(** The next call looks up a member or reads a token. *)
Ltac f_token_step :=
  lazymatch goal with
  | |- safely (bind (find _ _ _ _) _) _ => eapply f_bind; [apply f_find; [zbool; lia|eassumption]|intros ? ?]; cbv beta
  | |- safely (bind (tok _ _) _) _ => eapply f_then; [eapply f_token; [zbool; lia|eassumption]|intros ?]; cbv beta
  | |- safely (find _ _ _ _) _ => apply f_find; [zbool; lia|eassumption]
  | |- safe (tok _ _) => eapply f_token; [zbool; lia|eassumption]
  end.

Ltac f_handler := repeat first [f_leaf | f_token_step | f_walk].

Section Handlers.
Context {D : Type} {P : Platform D} {U : TunerLaws D} (e : Env) (s : nat).
Context (id js : list Z) (t : list jsmntok_t).
Context (Hparams : safely (D := D) (find_params js t) (searchable js t)).

Lemma f_gains : safe load_gain_table.
Proof.
  intros w. exists tt, (loaded w). split; [|done]. rewrite run_last. apply (run_load (U := U) ret).
Qed.
#[local] Hint Resolve f_gains : defined.

Lemma f_require_function : safely (D := D) (require_function s id js t) (searchable js t).
Proof.
  unfold require_function. eapply f_bind; [apply Hparams|]. intros p Hp. cbv beta.
  destruct (p <? 0) eqn:E0; [eapply f_then; [f_all|]; intros; apply f_ret; left; lia|].
  f_token_step. destruct (a <? 0) eqn:E1.
  - f_token_step. eapply f_then; [f_all|]. intros. apply f_ret. left. lia.
  - f_token_step. case_match; [by apply f_ret|]. eapply f_then; [f_all|]. intros. apply f_ret. left. lia.
Qed.

Lemma f_channel_ok (p : Z) : 0 <= p -> searchable js t p -> safe (D := D) (channel_ok s id js t p).
Proof. intros Hz Hp. unfold channel_ok. f_handler. Qed.

Lemma f_may_configure : safe (D := D) (may_configure s id).
Proof. unfold may_configure, cp_rx_owned_by_other. f_all. Qed.

Lemma f_configure_params : safely (D := D) (configure_params s id js t) (searchable js t).
Proof.
  assert (searchable js t (-1)) as Hm by (left; lia).
  unfold configure_params. eapply f_bind; [apply f_require_function|]. intros p Hp. cbv beta.
  destruct (p <? 0) eqn:E0; [by apply f_ret|]. eapply f_then; [apply f_channel_ok; [zbool; lia|done]|]. intros ok. cbv beta.
  destruct ok; [|by apply f_ret]. cbn [negb]. eapply f_then; [apply f_may_configure|]. intros mine. cbv beta.
  destruct mine; by apply f_ret.
Qed.

Lemma f_context_all : safe (D := D) context_all.
Proof. unfold context_all. f_all. Qed.

Lemma f_mode_change : safe (D := D) apply_mode_change_side_effects.
Proof. unfold apply_mode_change_side_effects. f_all. Qed.

Lemma f_claim : safe (D := D) (cp_rx_claim s).
Proof. unfold cp_rx_claim. f_all. Qed.

Lemma f_release : safe (D := D) (cp_rx_release s).
Proof. unfold cp_rx_release. f_all. Qed.

Lemma f_drop_vita : safe (D := D) (drop_vita s).
Proof. unfold drop_vita. f_all. Qed.

Lemma f_auth_object : safe (D := D) (auth_object e s).
Proof. unfold auth_object. f_all. Qed.

Lemma f_auth_refused : safe (D := D) (auth_refused e s id).
Proof. unfold auth_refused. f_all. Qed.

Lemma f_capabilities : safe (D := D) build_capabilities_json.
Proof. unfold build_capabilities_json. f_all. Qed.
#[local] Hint Resolve f_context_all f_mode_change f_claim f_release f_drop_vita f_auth_object f_auth_refused
  f_capabilities : defined.

Lemma f_get_capabilities : safe (D := D) (cmd_get_capabilities s id t js).
Proof. unfold cmd_get_capabilities. f_all. Qed.

Lemma f_ping : safe (D := D) (cmd_ping s id t js).
Proof. unfold cmd_ping. f_all. Qed.

Lemma f_get_status : safe (D := D) (cmd_get_status e s id t js).
Proof. unfold cmd_get_status, cp_rx_control_state. f_all. Qed.

Lemma f_get_clock : safe (D := D) (cmd_get_clock_status e s id t js).
Proof. unfold cmd_get_clock_status. f_all. Qed.

Lemma f_set_frequency : safe (D := D) (cmd_set_frequency s id t js).
Proof. unfold cmd_set_frequency. eapply f_bind; [apply f_configure_params|]. intros p Hp. f_handler. Qed.

Lemma f_set_sample_rate : safe (D := D) (cmd_set_sample_rate s id t js).
Proof. unfold cmd_set_sample_rate. eapply f_bind; [apply f_configure_params|]. intros p Hp. f_handler. Qed.

Lemma f_get_control : safe (D := D) (cmd_get_control s id t js).
Proof.
  unfold cmd_get_control. eapply f_bind; [apply f_require_function|]. intros p Hp. cbv beta.
  destruct (p <? 0) eqn:E0; [by apply f_ret|]. eapply f_then; [apply f_channel_ok; [zbool; lia|done]|]. intros ok. f_handler.
Qed.

Lemma f_find_if (p : Z) (key : string) : searchable js t p -> safely (D := D) (find_if js t p key) (there js t).
Proof.
  intros Hp. unfold find_if. case_match eqn:E; [apply f_find; [zbool; lia|done]|]. apply f_ret. left. lia.
Qed.

Lemma f_stream_named : safe (D := D) (stream_named s id js t).
Proof.
  unfold stream_named. eapply f_bind; [apply Hparams|]. intros p Hp. cbv beta.
  eapply f_bind; [by apply f_find_if|]. intros si Hsi. f_handler.
Qed.
#[local] Hint Resolve f_stream_named : defined.

Lemma f_start_rx : safe (D := D) (cmd_start_rx e s id t js).
Proof. unfold cmd_start_rx. f_all. Qed.

Lemma f_stop_rx : safe (D := D) (cmd_stop_rx s id t js).
Proof. unfold cmd_stop_rx. f_all. Qed.

Lemma f_close_stream : safe (D := D) (cmd_close_stream s id t js).
Proof. unfold cmd_close_stream. f_all. Qed.

Lemma f_authenticate : safe (D := D) (cmd_authenticate e s id t js).
Proof.
  unfold cmd_authenticate. eapply f_then; [f_all|]. intros c. case_match; [f_all|].
  eapply f_bind; [apply Hparams|]. intros p Hp. cbv beta.
  eapply f_bind; [by apply f_find_if|]. intros mi Hmi. cbv beta.
  eapply f_bind; [by apply f_find_if|]. intros ki Hki. cbv beta.
  eapply f_bind; [by apply f_find_if|]. intros ri Hri. cbv beta. cbv zeta.
  destruct ((mi <? 0) || (ri <? 0)) eqn:E0; [f_all|]. zbool. f_token_step. f_token_step.
  eapply f_then; [f_handler|]. intros kid. f_all.
Qed.

(** ** open_stream *)

(** A token that must be that of an object. *)
Lemma f_object (z : Z) :
  there js t z ->
  safely (D := D) (if z <? 0 then ret None else let* x := tok t z in ret (Some x))
    (fun o => forall tk, o = Some tk -> tk_type tk = JSMN_OBJECT -> 0 <= z /\ searchable js t z).
Proof.
  intros Hz. destruct (z <? 0) eqn:E; [by apply f_ret|]. zbool. eapply f_bind; [apply f_tok; [lia|exact Hz]|].
  intros tk (j & v & -> & Hl & Ht). apply f_ret. intros tk' [= <-] Ho. split; [lia|]. right. exists j, v.
  split; [done|]. split; [done|]. intros l ->. cbn in Ht. congruence.
Qed.

Lemma f_refuse (code : string) (msg : list Z) : safe (D := D) (refuse s id code msg).
Proof. unfold refuse. f_all. Qed.

Lemma f_alloc : safe (D := D) (alloc_stream_id s).
Proof. unfold alloc_stream_id. f_all. Qed.

Lemma f_open_accept (ip addr : list Z) (port : Z) : safe (D := D) (open_accept e s id ip addr port).
Proof. pose proof f_alloc. unfold open_accept. f_all. Qed.

(** A field compared with a text, when it is there. *)
Lemma f_field_is (z : Z) (x : list Z) :
  there js t z -> safe (D := D) (if z <? 0 then ret false else let* tk := tok t z in ret (tok_eq js tk x)).
Proof.
  intros Hz. unfold safe. destruct (z <? 0) eqn:E; [by apply f_ret|]. f_token_step. by apply f_ret.
Qed.

Lemma f_format_matches (i : Z) : 0 <= i -> searchable js t i -> safe (D := D) (format_matches js t i).
Proof.
  intros Hz Hi. unfold format_matches, safe.
  eapply f_bind; [by apply f_find|]. intros lbl Hlbl. cbv beta.
  eapply f_bind; [by apply f_find|]. intros enc Henc. cbv beta.
  eapply f_bind; [by apply f_find|]. intros bits Hbits. cbv beta zeta.
  eapply f_then; [by apply f_field_is|]. intros u8. destruct u8; [by apply f_ret|].
  destruct ((0 <=? enc) && (0 <=? bits)); [|by apply f_field_is].
  eapply f_then; [by apply f_field_is|]. intros un. destruct un; [by apply f_field_is|by apply f_ret].
Qed.

Lemma f_open_destination (vi : Z) : 0 <= vi -> searchable js t vi -> safe (D := D) (open_destination e s id js t vi).
Proof.
  intros Hz Hv. unfold open_destination, safe. eapply f_bind; [by apply f_find|]. intros d Hd. cbv beta.
  eapply f_bind; [by apply f_object|]. intros dt Hdt. cbv beta.
  destruct dt as [x|]; [|apply f_refuse]. destruct (bool_decide _) eqn:E; [|apply f_refuse]. cbn [negb]. zbool.
  destruct (Hdt x eq_refl E) as [Hd0 Hds].
  eapply f_bind; [by apply f_find|]. intros ip Hip. cbv beta.
  eapply f_bind; [by apply f_find|]. intros port Hport. cbv beta.
  destruct ((ip <? 0) || (port <? 0)) eqn:E0; [apply f_refuse|]. zbool. do 2 f_token_step. cbv zeta.
  case_match; [|apply f_refuse]. case_match; [apply f_refuse|apply f_open_accept].
Qed.

Lemma f_open_vita (vi : Z) : 0 <= vi -> searchable js t vi -> safe (D := D) (open_vita e s id js t vi).
Proof.
  intros Hz Hv. unfold open_vita, safe. eapply f_bind; [by apply f_find|]. intros pv Hpv. cbv beta.
  eapply f_then; [|intros ok; cbv beta].
  { unfold safe. destruct (pv <? 0) eqn:E; [by apply f_ret|]. f_token_step. by apply f_ret. }
  destruct ok; [|apply f_refuse]. cbn [negb].
  eapply f_bind; [by apply f_find|]. intros f Hf. cbv beta.
  eapply f_bind; [by apply f_object|]. intros ft Hft. cbv beta.
  eapply f_then; [|intros m; cbv beta; destruct m; [by apply f_open_destination|apply f_refuse]].
  unfold safe. destruct ft as [x|]; [|by apply f_ret]. destruct (bool_decide _) eqn:E; [|by apply f_ret]. zbool.
  destruct (Hft x eq_refl E). by apply f_format_matches.
Qed.

Lemma f_open_stream : safe (D := D) (cmd_open_stream e s id t js).
Proof.
  unfold cmd_open_stream, safe. eapply f_bind; [apply f_require_function|]. intros p Hp. cbv beta.
  destruct (p <? 0) eqn:E0; [by apply f_ret|]. zbool.
  eapply f_then; [by apply f_channel_ok|]. intros ok. cbv beta. destruct ok; [|by apply f_ret]. cbn [negb].
  f_walk. case_match; [f_all|]. f_walk. case_match; [f_all|].
  eapply f_bind; [by apply f_find|]. intros pr Hpr. cbv beta. destruct (pr <? 0) eqn:E1; [apply f_refuse|]. f_token_step.
  case_match; [apply f_refuse|]. eapply f_bind; [by apply f_find|]. intros vi Hvi. cbv beta.
  eapply f_bind; [by apply f_object|]. intros vt Hvt. cbv beta.
  destruct vt as [x|]; [destruct (bool_decide _) eqn:E|]; cbn [negb]; [|f_handler..].
  zbool. destruct (Hvt x eq_refl E). by apply f_open_vita.
Qed.

(** ** hello *)
Lemma f_hello : safe (D := D) (cmd_hello e s id t js).
Proof.
  unfold cmd_hello, safe. eapply f_bind; [apply Hparams|]. intros p Hp. cbv beta.
  destruct (p <? 0) eqn:E0; [f_all|]. f_token_step.
  eapply f_bind with (Q := fun o => forall tk, o = Some tk ->
    tk_type tk = JSMN_ARRAY -> is_Some (versions_loop (Z.to_nat (tk_size tk)) js t (S (Z.to_nat a)) false false)).
  { destruct (a <? 0) eqn:E1; [by apply f_ret|]. zbool. destruct H as [H|(j & v & -> & Hl)]; [lia|].
    destruct (located_head _ _ _ _ Hl) as (tk & x & E & Hty & Hsz & _). intros w. exists (Some tk), w.
    unfold tok, bind, lift. rewrite Nat2Z.id, E. split; [done|]. intros tk' [= <-] Ha. rewrite Hsz, Nat2Z.id.
    destruct v; cbn in Hty; try congruence. cbn [tok_size_of]. by rewrite (versions_run js t j). }
  intros vt Hvt. cbv beta. destruct vt as [tk|]; [|f_all].
  destruct (bool_decide _) eqn:E; cbn [negb]; [|f_all]. zbool. destruct (Hvt tk eq_refl E) as [[sup off] Er].
  eapply f_then; [intros w; rewrite Er; by eexists _, w|]. intros [? ?]. cbv beta.
  case_match; [f_all|]. f_token_step.
  eapply f_then; [f_handler|]. intros name. f_handler.
Qed.

(** ** set_control *)

(** The gain that is set is close to one of the tuner's steps, so it converts to an integer. *)
Lemma f_set_rf_gain (tk : jsmntok_t) : safe_in settings_ok (set_rf_gain (D := D) s id js tk (tok_str js tk 64)).
Proof.
  unfold set_rf_gain. case_match; [apply in_safe; f_all|]. intros w Hw. rewrite run_get.
  case_match; [apply (in_safe settings_ok); [f_all|done]|]. cbv zeta. rewrite run_load, run_get, gains_loaded.
  destruct (on_gain_list _ _) eqn:Hon; cbn [negb]; [|apply (in_safe (fun _ => True)); [f_all|done]].
  destruct (step_converts _ _ (strtod_canonical _) (steps_ok w Hw) Hon) as (n & Hn & _).
  assert (exists y, rtl_set_gain (strtod (tok_str js tk 64)) (w_rtl w) = Some y) as [[applied r] E].
  { destruct (s_dev (w_rtl w)) as [d|] eqn:Ed; [by erewrite set_gain_device; eauto|].
    unfold rtl_set_gain. rewrite Ed. by eexists. }
  rewrite E. apply (in_safe (fun _ => True)); [|done]. unfold safe.
  eapply f_then; [intros w'; by eexists _, w'|]. intros [? ?]. f_all.
Qed.

Lemma f_set_control : safe_in settings_ok (cmd_set_control (D := D) s id t js).
Proof.
  unfold cmd_set_control. eapply in_bind; [apply f_configure_params|apply k_configure|]. intros p Hp. cbv beta.
  destruct (p <? 0) eqn:E0; [apply in_safe; by apply f_ret|]. zbool.
  eapply in_bind; [by apply f_find|hleaf|]. intros ni Hni. cbv beta.
  eapply in_bind; [by apply f_find|hleaf|]. intros vi Hvi. cbv beta.
  destruct ((ni <? 0) || (vi <? 0)) eqn:E1; [apply in_safe; f_all|]. zbool.
  eapply in_bind; [by apply f_tok|hleaf|]. intros nt _. eapply in_bind; [by apply f_tok|hleaf|]. intros vt _. cbv zeta.
  case_match; [apply f_set_rf_gain|]. apply in_safe.
  unfold set_agc, set_bias_tee, set_ppm, set_direct_sampling. f_all.
Qed.

(** ** The request *)
Lemma f_destroy : safe (D := D) (session_destroy s).
Proof. unfold session_destroy. f_all. Qed.

Lemma f_addresses_rx (cmd : list Z) : safe (D := D) (cmd_addresses_rx cmd t js).
Proof.
  unfold cmd_addresses_rx. case_match; [by apply f_ret|]. case_match; [by apply f_ret|].
  eapply f_bind; [apply Hparams|]. intros p Hp. f_handler.
Qed.

Lemma f_dispatch (cmd : list Z) : safe_in settings_ok (dispatch (D := D) e s cmd id t js).
Proof.
  unfold dispatch. apply in_then; [|intros ?; apply f_get].
  destruct (lookup_cmd cmd (s_dispatch e)) as [f|] eqn:E; [|apply in_safe, f_send_error].
  apply lookup_cmd_In in E as (n & Hin & _). cbn [s_dispatch In] in Hin.
  repeat match type of Hin with _ \/ _ => destruct Hin as [Hin|Hin] end; try done;
    apply pair_equal_spec in Hin as [_ <-]; first [apply f_set_control|apply in_safe].
  - apply f_hello.
  - apply f_authenticate.
  - apply f_get_capabilities.
  - apply f_set_frequency.
  - apply f_set_sample_rate.
  - apply f_open_stream.
  - apply f_start_rx.
  - apply f_stop_rx.
  - apply f_close_stream.
  - apply f_ping.
  - apply f_get_status.
  - apply f_get_control.
  - apply f_get_clock.
Qed.

Lemma f_gated_dispatch (cmd : list Z) : safe_in settings_ok (gated_dispatch (D := D) e s cmd id t js).
Proof.
  unfold gated_dispatch. eapply in_bind; [apply f_get|hleaf|]. intros c _. eapply in_bind; [apply f_get|hleaf|]. intros x _.
  eapply in_bind with (Q := fun _ => True).
  - case_match; [apply f_addresses_rx|by apply f_ret].
  - case_match; [hleaf|apply s_ret].
  - intros locked _. case_match; [apply in_safe; f_all|apply f_dispatch].
Qed.
End Handlers.

(** ** The server *)
Section Messages.
Context {D : Type} {P : Platform D} {U : TunerLaws D} (e : Env) (s : nat).

Lemma f_process_request (js : list Z) (t : list jsmntok_t) (ntok : Z) (l : members) :
  located js t 0 (JObj l) -> (forall a, jfind (txt "params") l <> Some (JArr a)) ->
  safe_in settings_ok (process_request (D := D) e s ntok t js).
Proof.
  intros Hl Hno.
  assert (searchable js t 0) as H0 by (right; by exists 0%nat, (JObj l)).
  assert (safely (D := D) (find_params js t) (searchable js t)) as Hparams.
  { unfold find_params. pose proof (located_find js t 0 l (txt "params") Hl) as H. 
    destruct (jfind (txt "params") l) as [v|].
    - destruct H as (j & E & Hj). intros w. exists (Z.of_nat j), w. unfold find. change (Z.to_nat 0) with 0%nat. rewrite E.
      split; [done|]. right. exists j, v. split_and!; try done. by intros a ->; apply (Hno a).
    - intros w. exists (-1), w. unfold find. change (Z.to_nat 0) with 0%nat. rewrite H. split; [done|]. by left. }
  assert (there js t 0) as Ht0 by (right; by exists 0%nat, (JObj l)).
  unfold process_request. case_match; [apply in_safe; f_all|].
  eapply in_bind; [by apply f_tok|hleaf|]. intros t0 _. case_match; [apply in_safe; f_all|].
  do 3 (eapply in_bind; [by apply f_find|hleaf|]; intros ? ?; cbv beta).
  case_match; [apply in_safe; f_all|]. zbool.
  eapply in_bind; [by apply f_tok|hleaf|]. intros ty _. case_match; [apply in_safe; by apply f_ret|].
  do 2 (eapply in_bind; [by apply f_tok|hleaf|]; intros ? _; cbv zeta).
  eapply in_bind; [apply f_get|hleaf|]. intros x _.
  case_match; [apply in_safe; f_all|by apply f_gated_dispatch].
Qed.

Lemma process_defined (v : Srv D) (len : nat) (l : members) :
  delivered v s len l -> (forall a, jfind (txt "params") l <> Some (JArr a)) -> settings_ok (sv_world v) ->
  is_Some (process_message e s len v).
Proof.
  intros (_ & Hn & _ & text & junk & ts & Ht & Hb & -> & Hl) Hno Hw. unfold process_message. rewrite Hb.
  rewrite (jsmn_parse_text_core (JObj l) text ts junk) by (done || (rewrite Hn; lia)). cbv iota beta zeta.
  destruct (f_process_request (text ++ junk) (ts ++ drop (length ts) (sv_tokens v !!! s)) (Z.of_nat (length ts)) l
    (located_text _ _ _ _ _ Ht) Hno (sv_world v) Hw) as [[stop w] E]. rewrite E.
  destruct stop; [|by eexists]. destruct (f_destroy s w) as (? & w' & -> & _). by eexists.
Qed.
End Messages.

(** ** When params is an array *)

(** A set_frequency request with [n] zeros in its params. *)
Definition array_request (n : nat) : members :=
  [(txt "type", JStr (txt "request")); (txt "id", JStr (txt "7")); (txt "command", JStr (txt "set_frequency"));
   (txt "params", JArr (replicate n (JPrim (txt "0"))))].

Definition array_text : list Z := print (JObj (array_request 200)).

(** A client that has said hello sends it. *)
Definition array_sent : Srv Stub := store_message 0 array_text idle.

(** Its 209 tokens are parsed, and the search for "function" among the members of
    params, two tokens each, leaves the array of 256. *)
Lemma array_overruns :
  (fst (jsmn_parse jsmn_init (sv_msg_buf array_sent) (length array_text) (sv_tokens array_sent !!! 0%nat) MAX_JSON_TOKENS),
   process_message Sample.env 0 (length array_text) array_sent) = (209, None).
Proof. unfold array_sent, idle. rewrite after_eq. vm_compute. reflexivity. Qed.

Lemma array_delivered : delivered array_sent 0 (length array_text) (array_request 200).
Proof.
  pose proof idle_example as Hi. eapply delivered_store.
  - apply print_text. vm_compute. reflexivity.
  - vm_compute. lia.
  - rewrite (ex_pending _ Hi). lia.
  - apply Hi.
  - apply Hi.
  - pose proof (ex_buffer _ Hi). unfold MAX_MSG_BYTES in *. assert (Z.of_nat (length array_text) < 1000) by (vm_compute; reflexivity). lia.
Qed.

Lemma array_reachable : reachable (Sample.conf false (mkRing [] [] false)) Sample.rtl array_sent.
Proof.
  assert (reachable (Sample.conf false (mkRing [] [] false)) Sample.rtl idle) as (ctx & buf & toks & Hb & Hst)
    by (apply after_reachable; vm_compute; reflexivity).
  exists ctx, buf, toks. split; [exact Hb|]. eapply rtc_r; [exact Hst|].
  apply step_receive; [unfold MAX_SESSIONS; lia|apply (cl_fd _ _ (ex_client _ idle_example))| | |].
  - unfold idle. rewrite after_eq. vm_compute. reflexivity.
  - apply forallb_bytes. vm_compute. reflexivity.
  - vm_compute. split; [reflexivity|discriminate].
Qed.

(** An open_stream request whose vita is not an object and whose members are of
    other types than the daemon expects. *)
Definition odd_params : members :=
  [(txt "function", JStr (txt "rx")); (txt "protocol", JStr (txt "vita49"));
   (txt "vita", JArr [JObj []; JPrim (txt "1")]); (txt "destination", JObj [(txt "ip", JArr [])])].

(** C15: requests are processed without undefined behaviour.  In every reachable
    state, a message that is the text of a JSON object, with any members and any
    white space, is processed: no handler reads outside the token array or converts
    a number that does not fit, whatever the types of the members are, unless params
    is an array.  When it is an array, one message of a
    client that has said hello can send the search for a member past the last token
    of the array: the condition cannot be dropped. *)
Theorem requests_defined :
  (forall (D : Type) (P : Platform D) (U : TunerLaws D) (c : Conf) (r : Rtl D) (v : Srv D) (e : Env) (s len : nat) (l : members),
     receiver_ok r -> reachable c r v -> delivered v s len l ->
     (forall a, jfind (txt "params") l <> Some (JArr a)) ->
     exists v', process_message e s len v = Some v') /\
  (exists (v : Srv Stub) (len : nat),
     reachable (Sample.conf false (mkRing [] [] false)) Sample.rtl v /\ delivered v 0 len (array_request 200) /\
     process_message Sample.env 0 len v = None).
Proof.
  split.
  - intros D P U c r v e s len l Hr Hv Hd Hno. destruct (process_defined e s v len l Hd Hno) as [v' E]; [|by exists v'].
    by eapply reachable_settings.
  - exists array_sent, (length array_text). split; [exact array_reachable|]. split; [exact array_delivered|].
    by injection array_overruns.
Qed.

Lemma requests_defined_witness :
  exists v', process_message Sample.env 0 (asking_length "open_stream" odd_params) (asking idle "open_stream" odd_params) = Some v'.
Proof.
  apply (proj1 requests_defined Stub _ _ (Sample.conf false (mkRing [] [] false)) Sample.rtl _ _ _ _
    (asking_members "open_stream" odd_params)).
  - split; [vm_compute; split; discriminate|]. split; [by left|]. vm_compute. split; discriminate.
  - apply asking_reachable; [apply after_reachable; vm_compute; reflexivity|exact idle_example| |vm_compute; reflexivity].
    unfold idle. rewrite after_eq. vm_compute. reflexivity.
  - apply asking_delivered; [exact idle_example|vm_compute; reflexivity].
  - intros a. vm_compute. discriminate.
Defined.
