(* ===== verification/Traces.v ===== *)
(** * Executions that break a promise of the daemon

    Each as an execution of the server from its start: the message buffer that
    all session threads share, the second hello of a streaming client, the
    request id that comes back escaped twice, numbers taken modulo 2^32, and
    a destination address cut before it is checked. *)
From Stdlib Require Import SpecFloat.
From S2P Require Import Prelude CLib Jsmn JsonText JsonTok Sha256 Auth JsonEscape Config Rtl Vita World.
From S2P Require Import Session Commands RxCommands Server Quiet Invariants Safety.
#[local] Open Scope Z_scope.

Definition ping_message : list Z :=
  jq "{'type':'request','id':'a ping request whose text is as long as the other message, or longer, by its id','command':'ping'}".

(** Client 0 has authenticated, client 1 has not. *)
Definition one_unlocked : Srv Stub :=
  Sample.after (Sample.connect 7 ++ Sample.connect 8 ++ Sample.hello 0 ++ Sample.login 0 (txt "secret")
    ++ Sample.hello 1) (Sample.server true sample_ring).

(** Both messages arrive before thread 0 gets to process its own. *)
Definition interleaved : list action :=
  [AReceive 0 ping_message; AReceive 1 Sample.tune_text; AProcess Sample.env 0].

Definition summary (v : Srv Stub) : bool * list bool * Z :=
  (g_rx_auth (w_conf (sv_world v)), ss_rx_unlocked <$> take 2 (w_sessions (sv_world v)),
   g_freq_hz (w_rtl (sv_world v))).


(** What the reader and the sessions look like. *)
Definition stream_summary (v : Srv Stub) : bool * Z * option nat * bool :=
  let w := sv_world v in
  (rtl_running (w_rtl w), s_stream_count (w_rtl w), w_rx_owner w,
   existsb (fun x => ss_stream_open x || bool_decide (ss_state x = SESSION_STREAMING))
     (w_sessions w)).


(** The texts of the responses to the last message of a script. *)
Definition last_reply (l : list action) (v : Srv Stub) : option (list Z) :=
  v' ← run l v; (fun m => drop 4 (t_bytes m)) <$> last (w_out (sv_world v')).

Definition greeted : Srv Stub :=
  Sample.after (Sample.connect 7 ++ Sample.hello 0) (Sample.server false (mkRing [] [] false)).

(** The request whose id is the string with the one character quotation mark, and
    the id of its answer. *)
Definition id_request : list action :=
  Sample.request 0 (jq "{'type':'request','id':'" ++ [92; 34] ++ jq "','command':'ping'}").
Definition id_answer : list Z :=
  jq "{'type':'response','id':'" ++ [92; 92; 92; 34] ++ jq "','status':'ok','result':{}}".

(** Requests for 4297015296 samples per second, for 4294967301 ppm, and for a
    stream to the text 192.168.100.1001. *)
Definition rate_request : list action := Sample.request 0
  (jq "{'type':'request','id':'2','command':'set_sample_rate','params':{'function':'rx','sample_rate_sps':4297015296}}").
Definition ppm_request : list action := Sample.request 0
  (jq "{'type':'request','id':'3','command':'set_control','params':{'function':'rx','name':'ppm_correction','value':4294967301}}").
Definition no_address : list Z := txt "192.168.100.1001".
Definition stream_request : list action := Sample.request 0
  (jq "{'type':'request','id':'2','command':'open_stream','params':{'function':'rx','protocol':'vita49','vita':{'destination':{'ip':'"
    ++ no_address ++ jq "','port':5000}}}}").

Lemma request_id_reescaped :
  last_reply id_request greeted = Some id_answer /\
  unescape [92; 34] = Some [34] /\ unescape [92; 92; 92; 34] = Some [92; 34].
Proof. split; [vm_compute; reflexivity|]. split; reflexivity. Qed.

Lemma numbers_wrap :
  ((fun v => g_rate_requested_sps (w_rtl (sv_world v))) <$> run rate_request greeted) = Some 2048000 /\
  ((fun v => g_ppm_correction (w_rtl (sv_world v))) <$> run ppm_request greeted) = Some 5.
Proof. split; vm_compute; reflexivity. Qed.

Lemma destination_truncated :
  inet_pton no_address = None /\
  ((fun v => (ss_stream_open (sess (sv_world v) 0), ss_dest_ip (sess (sv_world v) 0))) <$>
     run stream_request greeted) = Some (true, [192; 168; 100; 100]).
Proof. split; vm_compute; reflexivity. Qed.

