(* ===== verification/Gate.v ===== *)
(** * The authentication gate

    With authentication on, a session that has not authenticated can do nothing
    to the receiver, to the streams or to another session, and it becomes
    unlocked only by a correct response to its current nonce, which is consumed. *)
From Stdlib Require Import SpecFloat.
From S2P Require Import Prelude CLib Jsmn JsonText JsonTok Sha256 Auth Config Rtl Vita World.
From S2P Require Import Session Commands RxCommands Server Quiet Invariants Safety.
#[local] Open Scope Z_scope.

Lemma sess_alter_cases {D : Type} (w : World D) (s : nat) (f : Session -> Session) :
  sess (w <| w_sessions := alter f s (w_sessions w) |>) s = f (sess w s) \/
  sess (w <| w_sessions := alter f s (w_sessions w) |>) s = sess w s.
Proof.
  unfold sess. cbn. destruct (w_sessions w !! s) as [x|] eqn:E.
  - left. rewrite (list_lookup_total_correct _ _ _ E). apply list_lookup_total_correct.
    by rewrite list_lookup_alter_eq, E.
  - right. rewrite !list_lookup_total_alt, list_lookup_alter_eq, E. done.
Qed.

Section Gate.
Context {D : Type} {P : Platform D} (e : Env) (s : nat).
Context (w0 : World D).

(** What a locked session must not touch. *)
Definition untouched (w : World D) : Prop :=
  w_rtl w = w_rtl w0 /\ w_vita w = w_vita w0 /\ w_rx_owner w = w_rx_owner w0 /\
  w_stream_counter w = w_stream_counter w0 /\ w_conf w = w_conf w0 /\
  length (w_sessions w) = length (w_sessions w0) /\
  forall i, i <> s -> w_sessions w !! i = w_sessions w0 !! i.

(** ... and the session itself is still locked. *)
Definition still_locked (w : World D) : Prop :=
  untouched w /\ ss_rx_unlocked (sess w s) = false.

#[export] Instance stable_untouched : Stable untouched.
Proof. intros w o H. exact H. Qed.
#[export] Instance stable_still_locked : Stable still_locked.
Proof. intros w o H. exact H. Qed.

Lemma untouched_set f : stays untouched (set_sess s f).
Proof.
  apply s_modify. intros w (H1 & H2 & H3 & H4 & H5 & H6 & H7). repeat (split; [assumption|]).
  split; [cbn; by rewrite length_alter|]. intros i Hi. cbn. rewrite list_lookup_alter_ne by done.
  by apply H7.
Qed.

Lemma locked_set f :
  (forall x, ss_rx_unlocked (f x) = ss_rx_unlocked x) -> stays still_locked (set_sess s f).
Proof.
  intros Hf w a w' [Hu Hl] E. split; [by eapply untouched_set|]. injection E as _ <-.
  destruct (sess_alter_cases w s f) as [-> | ->]; [by rewrite Hf|done].
Qed.

Lemma untouched_gains : stays untouched load_gain_table.
Proof.
  unfold load_gain_table. do 2 hwalk; [hleaf|]. do 2 hwalk. hwalk; apply s_modify; intros w Hu;
    exact Hu.
Qed.

Lemma locked_gains : stays still_locked load_gain_table.
Proof.
  unfold load_gain_table. do 2 hwalk; [hleaf|]. do 2 hwalk. hwalk; apply s_modify; intros w Hu;
    exact Hu.
Qed.

#[local] Hint Resolve untouched_set untouched_gains locked_gains : quiet.
#[local] Hint Extern 1 (stays still_locked (set_sess _ _)) => by apply locked_set : quiet.

Context (id js : list Z) (t : list jsmntok_t).

Lemma g_hello : stays still_locked (cmd_hello e s id t js).
Proof. unfold cmd_hello, auth_object. hquiet. Qed.

Lemma g_capabilities : stays still_locked (cmd_get_capabilities s id t js).
Proof. unfold cmd_get_capabilities, build_capabilities_json. hquiet. Qed.

(** A command that needs the rx function ends at once when the gate let it
    pass without addressing rx. *)
Definition not_rx (cmd : list Z) (w : World D) : Prop :=
  cmd_addresses_rx cmd t js w = Some (false, w).

Lemma g_require (cmd : list Z) :
  streq cmd (txt "set_frequency") || streq cmd (txt "set_sample_rate")
    || streq cmd (txt "set_control") || streq cmd (txt "open_stream") = true ->
  hoare (fun w => still_locked w /\ not_rx cmd w) (require_function s id js t)
    (fun p w => still_locked w /\ p < 0).
Proof.
  intros Hc w p w' [Hl Hn] E. split; [by eapply (q_require_function still_locked)|].
  destruct (Z.ltb_spec p 0) as [|Hp]; [done|].
  destruct (require_function_gate s id js t w w' p cmd Hc E Hp) as [-> Ha].
  unfold not_rx in Hn. congruence.
Qed.

(** What follows a parameter check that fails. *)
Lemma g_fails {A} (Pre : World D -> Prop) (m : M D Z) (a : A) (k : Z -> M D A) :
  hoare Pre m (fun p w => still_locked w /\ p < 0) ->
  hoare Pre (let* p := m in if p <? 0 then ret a else k p) (fun b w => still_locked w /\ b = a).
Proof.
  intros Hm. eapply h_bind; [exact Hm|]. intros p. apply (h_fact _ (p < 0)); [tauto|].
  intros Hp%Z.ltb_lt. rewrite Hp. eapply h_post; [apply h_ret|]. by intros b w [[? _] ?].
Qed.

Lemma g_configure (cmd : list Z) :
  streq cmd (txt "set_frequency") || streq cmd (txt "set_sample_rate")
    || streq cmd (txt "set_control") || streq cmd (txt "open_stream") = true ->
  hoare (fun w => still_locked w /\ not_rx cmd w) (configure_params s id js t)
    (fun p w => still_locked w /\ p < 0).
Proof.
  intros Hc. unfold configure_params. eapply h_post; [apply g_fails; by apply g_require|].
  intros p w [? ->]. done.
Qed.

Lemma g_authenticate : stays untouched (cmd_authenticate e s id t js).
Proof. unfold cmd_authenticate, auth_refused. hquiet. Qed.

(** Every command but authenticate leaves a locked session locked. *)
Lemma g_dispatch (cmd : list Z) :
  cmd <> txt "authenticate" ->
  hoare (fun w => still_locked w /\ not_rx cmd w) (dispatch e s cmd id t js)
    (fun _ => still_locked).
Proof.
  intros Hauth. unfold dispatch. apply (h_then _ still_locked); [|apply s_get].
  destruct (lookup_cmd cmd (s_dispatch e)) as [f|] eqn:E; [|hforget; hleaf].
  apply lookup_cmd_In in E as (n & Hin & En). apply bool_decide_eq_true in En as ->.
  cbn [s_dispatch In] in Hin.
  repeat match type of Hin with _ \/ _ => destruct Hin as [Hin|Hin] end; try done;
    apply pair_equal_spec in Hin as [<- <-]; try done;
    try (hforget; first [apply g_hello|apply g_capabilities|hleaf]);
    try (by apply h_absurd; intros w [_ ?]);
    try (eapply h_post; [apply g_fails; by first [apply g_configure|apply g_require]|by intros u w [? _]]).
Qed.

Lemma dispatch_authenticate : stays untouched (dispatch e s (txt "authenticate") id t js).
Proof. unfold dispatch. eapply h_stay; [apply g_authenticate|intros _; apply s_get]. Qed.

(** The world at the start of the request, but for messages sent. *)
Definition unchanged (w : World D) : Prop := exists o, w = w0 <| w_out := o |>.

#[export] Instance stable_unchanged : Stable unchanged.
Proof. intros w o [o' ->]. by exists o. Qed.

Lemma unchanged_locked w : ss_rx_unlocked (sess w0 s) = false -> unchanged w -> still_locked w.
Proof. intros Hl [o ->]. split; [|exact Hl]. by repeat split. Qed.

(** A locked session's command passes the gate only if it does not address
    rx. *)
Lemma g_gated (cmd : list Z) (R : bool -> World D -> Prop) :
  g_rx_auth (w_conf w0) = true -> ss_rx_unlocked (sess w0 s) = false ->
  hoare (fun w => unchanged w /\ not_rx cmd w) (dispatch e s cmd id t js) R ->
  (forall w, unchanged w -> R false w) ->
  hoare unchanged (gated_dispatch e s cmd id t js) R.
Proof.
  intros Ha Hl Hd HR. unfold gated_dispatch. apply h_get_bind. intros c. apply h_get_bind. intros x.
  eapply h_bind with (Q := fun b w => unchanged w /\ (b = false -> not_rx cmd w)).
  - intros w b w' [[[o ->] ->] ->]. change (sess (w0 <| w_out := o |>) s) with (sess w0 s).
    change (w_conf (w0 <| w_out := o |>)) with (w_conf w0).
    rewrite Ha, Hl. cbn [andb negb]. intros E. pose proof (addresses_pure _ _ _ _ _ _ E) as ->.
    split; [by exists o|]. intros ->. exact E.
  - intros [|].
    + apply (h_pre _ unchanged); [tauto|]. hwalk. eapply h_post; [apply h_ret|].
      intros b w [? ->]. by apply HR.
    + eapply h_pre; [|exact Hd]. intros w [? ?]. auto.
Qed.
End Gate.

Section Request.
Context {D : Type} {P : Platform D} (e : Env) (s : nat) (w0 : World D).
Context (Hauth : g_rx_auth (w_conf w0) = true) (Hlock : ss_rx_unlocked (sess w0 s) = false).

(** The envelope: what holds of every dispatched command of a locked session
    holds of its request. *)
Lemma g_request (ntok : Z) (t : list jsmntok_t) (js : list Z) (R : bool -> World D -> Prop) :
  (forall cmd id, hoare (fun w => unchanged w0 w /\ not_rx js t cmd w) (dispatch e s cmd id t js) R) ->
  (forall w, unchanged w0 w -> R false w) ->
  hoare (unchanged w0) (process_request e s ntok t js) R.
Proof.
  intros Hd HR.
  assert (hoare (unchanged w0) (ret false) R) as Hret.
  { eapply h_post; [apply h_ret|]. intros b w [? ->]. by apply HR. }
  unfold process_request.
  repeat first [exact Hret|apply g_gated; [done|done|apply Hd|exact HR]|hwalk].
Qed.

(** Other commands than authenticate. *)
Lemma g_others (cmd id : list Z) (t : list jsmntok_t) (js : list Z) :
  cmd <> txt "authenticate" ->
  hoare (fun w => unchanged w0 w /\ not_rx js t cmd w) (dispatch e s cmd id t js)
    (fun _ => still_locked s w0).
Proof.
  intros Hc. eapply h_pre; [|by apply g_dispatch]. intros w [Hu Hn].
  split; [by apply unchanged_locked|done].
Qed.
End Request.

Lemma unchanged_start {D : Type} (w : World D) : unchanged w w.
Proof. exists (w_out w). by destruct w. Qed.

(** C2: a locked client is harmless.  With authentication on, whatever a client
    that has not authenticated sends, its request changes neither the receiver
    nor the data streams nor the ownership of the rx channel nor the stream
    counter nor the configuration, nor any other session. *)
Theorem locked_session_inert {D : Type} {P : Platform D} (e : Env) (s : nat) (ntok : Z)
    (t : list jsmntok_t) (js : list Z) (w w' : World D) (stop : bool) :
  g_rx_auth (w_conf w) = true -> ss_rx_unlocked (sess w s) = false ->
  process_request e s ntok t js w = Some (stop, w') ->
  w_rtl w' = w_rtl w /\ w_vita w' = w_vita w /\ w_rx_owner w' = w_rx_owner w /\
  w_stream_counter w' = w_stream_counter w /\ w_conf w' = w_conf w /\
  forall i, i <> s -> w_sessions w' !! i = w_sessions w !! i.
Proof.
  intros Ha Hl E.
  assert (untouched s w w') as (H1 & H2 & H3 & H4 & H5 & _ & H7); [|done].
  refine (g_request e s w Ha Hl ntok t js (fun _ => untouched s w) _ _ w stop w'
    _ E).
  2: { intros v Hv. by apply (unchanged_locked s w v Hl). }
  2: apply unchanged_start.
  intros cmd id. destruct (decide (cmd = txt "authenticate")) as [->|Hc].
  - eapply h_pre; [|apply dispatch_authenticate]. intros v [Hv _].
    by apply (unchanged_locked s w v Hl).
  - eapply h_post; [by apply g_others|]. by intros b v [? _].
Qed.

(** A client connected and greeted, not authenticated. *)
Definition locked_world : World Stub :=
  sv_world (Sample.after (Sample.connect 7 ++ Sample.hello 0) (Sample.server true sample_ring)).

Lemma locked_session_inert_witness :
  match Sample.handled 0 Sample.tune_text locked_world with
  | Some (_, w') => w_rtl w' = w_rtl locked_world /\ w_rx_owner w' = w_rx_owner locked_world
  | None => False
  end.
Proof.
  assert (bool_decide (is_Some (Sample.handled 0 Sample.tune_text locked_world)) = true) as Hs
    by (vm_compute; reflexivity).
  destruct (Sample.handled 0 Sample.tune_text locked_world) as [[stop w']|] eqn:E; [|done].
  rewrite Sample.handled_eq in E.
  destruct (locked_session_inert Sample.env 0 (Sample.parsed Sample.tune_text).1
    (Sample.parsed Sample.tune_text).2 (Sample.tune_text ++ [0]) locked_world w' stop) as (H1 & _ & H3 & _);
    [vm_compute; reflexivity|vm_compute; reflexivity|exact E|]. exact (conj H1 H3).
Defined.

(** ** Unlocking *)
Section Unlock.
Context {D : Type} {P : Platform D} (e : Env) (s : nat) (w0 : World D).

(** The session is unlocked only against a valid response, and the nonce is
    used up. *)
Definition unlock_rule (t : list jsmntok_t) (js : list Z) (w : World D) : Prop :=
  ss_rx_unlocked (sess w s) = true ->
  ss_nonce_valid (sess w0 s) = true /\ ss_nonce_valid (sess w s) = false /\
  exists kid rt, rt ∈ t /\
    auth_verify (e_stack e) (g_keys (w_conf w0)) kid (ss_nonce (sess w0 s)) (tok_str js rt 80) = true.

#[export] Instance stable_unlock_rule t js : Stable (unlock_rule t js).
Proof. intros w o H. exact H. Qed.

Lemma locked_rule t js w : still_locked s w0 w -> unlock_rule t js w.
Proof. intros [_ Hl] Hu. congruence. Qed.

(** Between the parameters and the verdict only the failure window moves. *)
Definition verdict_pending (w : World D) : Prop :=
  still_locked s w0 w /\ ss_nonce (sess w s) = ss_nonce (sess w0 s) /\
  ss_nonce_valid (sess w s) = ss_nonce_valid (sess w0 s).

#[export] Instance stable_verdict_pending : Stable verdict_pending.
Proof. intros w o H. exact H. Qed.

Lemma pending_window f :
  (forall x, ss_rx_unlocked (f x) = ss_rx_unlocked x /\ ss_nonce (f x) = ss_nonce x /\
             ss_nonce_valid (f x) = ss_nonce_valid x) ->
  stays verdict_pending (set_sess s f).
Proof.
  intros Hf w a w' (Hl & Hn & Hv) E. split; [eapply locked_set; [apply Hf|exact Hl|exact E]|].
  injection E as _ <-. destruct (Hf (sess w s)) as (_ & E2 & E3).
  destruct (sess_alter_cases w s f) as [-> | ->]; [by rewrite E2, E3|done].
Qed.

#[local] Hint Extern 1 (stays (still_locked _ _) (set_sess _ _)) => by apply locked_set : quiet.
#[local] Hint Extern 1 (stays verdict_pending (set_sess _ _)) =>
  apply pending_window; intros; by case_match : quiet.

Lemma u_refused id t js : hoare verdict_pending (auth_refused e s id) (fun _ => unlock_rule t js).
Proof.
  eapply h_conseq with (P' := still_locked s w0) (Q' := fun _ => still_locked s w0);
    [|by intros w [? _]|by intros _ w; apply locked_rule].
  unfold auth_refused. hquiet.
Qed.

Lemma u_error {A} t js (m : M D A) :
  stays verdict_pending m -> hoare verdict_pending m (fun _ => unlock_rule t js).
Proof. intros Hm. eapply h_post; [exact Hm|]. intros _ w [? _]. by apply locked_rule. Qed.

Lemma u_accepted t js kid rt id r :
  rt ∈ t ->
  hoare (fun w => verdict_pending w /\ ss_nonce_valid (sess w s) = true /\
           auth_verify (e_stack e) (g_keys (w_conf w)) kid (ss_nonce (sess w s)) (tok_str js rt 80) = true)
    (set_sess s (fun x => x <| ss_rx_unlocked := true |> <| ss_nonce_valid := false |>) ;;;
     send_ok s id r) (fun _ => unlock_rule t js).
Proof.
  intros Hrt. apply (h_then _ (unlock_rule t js)); [|hleaf].
  intros w u w' ((Hl & Hn & Hv) & Hnv & Hok) [= _ <-]. unfold unlock_rule.
  pose proof Hl as [(_ & _ & _ & _ & Hc & _) Hlk]. rewrite Hc, Hn in Hok. rewrite Hnv in Hv.
  match goal with |- context [alter ?f s _] => destruct (sess_alter_cases w s f) as [-> | ->] end;
    intros Hu; [|congruence]. cbn. eauto 10.
Qed.

Lemma tok_elem (t : list jsmntok_t) (i : Z) (Pre : World D -> Prop) :
  hoare Pre (tok t i) (fun x w => Pre w /\ x ∈ t).
Proof.
  intros w x w' Hw E. unfold tok, lift in E. destruct (t !! Z.to_nat i) as [y|] eqn:Ey; [|done].
  injection E as <- <-. split; [done|]. by eapply list_elem_of_lookup_2.
Qed.

Lemma u_authenticate id t js :
  hoare verdict_pending (cmd_authenticate e s id t js) (fun _ => unlock_rule t js).
Proof.
  unfold cmd_authenticate. apply h_get_bind. intros c.
  apply (h_fact _ (c = w_conf w0)); [by intros w [[[(_ & _ & _ & _ & H & _) _] _] ->]|]. intros ->.
  apply (h_pre _ verdict_pending); [tauto|].
  hwalk; [apply u_error; hleaf|]. do 4 hwalk. hwalk; [apply u_error; hleaf|]. hwalk.
  eapply h_bind; [apply tok_elem|]. intros rt. apply (h_fact _ (rt ∈ t)); [tauto|]. intros Hrt.
  apply (h_pre _ verdict_pending); [tauto|]. cbv zeta. hwalk. hwalk. apply h_get_bind. intros x.
  case_match eqn:Ev.
  - eapply h_pre; [|apply u_refused]. tauto.
  - eapply h_pre; [|by apply (u_accepted t js)]. intros w [Hp ->]. split; [exact Hp|].
    zbool. pose proof Hp as [[(_ & _ & _ & _ & Hc & _) _] _]. rewrite Hc. eauto.
Qed.
End Unlock.

(** C3: unlocking needs the key, and a nonce works once.  If a request of a
    locked session leaves it unlocked, then the session had an unused nonce, that
    nonce is now spent, and the message contained a 64-digit response that is the
    HMAC-SHA256 of exactly that nonce under one of the pre-shared keys. *)
Theorem unlock_needs_key {D : Type} {P : Platform D} (e : Env) (s : nat) (ntok : Z)
    (t : list jsmntok_t) (js : list Z) (w w' : World D) (stop : bool) :
  g_rx_auth (w_conf w) = true -> ss_rx_unlocked (sess w s) = false ->
  length (sh_buf (e_stack e)) = 64%nat -> ring_ok (g_keys (w_conf w)) ->
  length (ss_nonce (sess w s)) = AUTH_NONCE_BYTES ->
  process_request e s ntok t js w = Some (stop, w') -> ss_rx_unlocked (sess w' s) = true ->
  ss_nonce_valid (sess w s) = true /\ ss_nonce_valid (sess w' s) = false /\
  exists kid rt, rt ∈ t /\
    valid_response (g_keys (w_conf w)) kid (ss_nonce (sess w s)) (tok_str js rt 80).
Proof.
  intros Ha Hl Hst Hk Hn E Hu.
  assert (unlock_rule e s w t js w') as Hr.
  { refine (g_request e s w Ha Hl ntok t js (fun _ => unlock_rule e s w t js) _ _ w stop w' _ E).
    - intros cmd id. destruct (decide (cmd = txt "authenticate")) as [->|Hc].
      + unfold dispatch. apply (h_then _ (unlock_rule e s w t js)); [|apply s_get].
        eapply h_pre; [|apply u_authenticate]. intros v [Hv _]. split; [|by destruct Hv as [o ->]].
        by apply unchanged_locked.
      + eapply h_post; [by apply g_others|]. intros b v. apply locked_rule.
    - intros v Hv. by apply locked_rule, unchanged_locked.
    - apply unchanged_start. }
  destruct (Hr Hu) as (H1 & H2 & kid & rt & Hrt & Hv). split; [done|]. split; [done|].
  exists kid, rt. split; [done|]. by apply (auth_verify_iff (e_stack e)).
Qed.

Lemma unlock_needs_key_witness :
  match Sample.handled 0 (Sample.login_text (txt "secret")) locked_world with
  | Some (_, w') =>
      ss_rx_unlocked (sess w' 0) = true /\ ss_nonce_valid (sess w' 0) = false /\
      exists kid rt, rt ∈ (Sample.parsed (Sample.login_text (txt "secret"))).2 /\
        valid_response (g_keys (w_conf locked_world)) kid (ss_nonce (sess locked_world 0))
          (tok_str (Sample.login_text (txt "secret") ++ [0]) rt 80)
  | None => False
  end.
Proof.
  assert (match Sample.handled 0 (Sample.login_text (txt "secret")) locked_world with
          | Some (_, w') => ss_rx_unlocked (sess w' 0) | None => false end = true) as Hs
    by (vm_compute; reflexivity).
  destruct (Sample.handled 0 (Sample.login_text (txt "secret")) locked_world) as [[stop w']|] eqn:E;
    [|done].
  rewrite Sample.handled_eq in E.
  destruct (unlock_needs_key Sample.env 0 (Sample.parsed (Sample.login_text (txt "secret"))).1
    (Sample.parsed (Sample.login_text (txt "secret"))).2 (Sample.login_text (txt "secret") ++ [0])
    locked_world w' stop) as (_ & H2 & H3);
    [vm_compute; reflexivity|vm_compute; reflexivity|vm_compute; reflexivity| |vm_compute; reflexivity
    |exact E|exact Hs|].
  - assert (g_keys (w_conf locked_world) = sample_ring) as -> by (vm_compute; reflexivity).
    split; [vm_compute; lia|]. repeat constructor; vm_compute; lia.
  - exact (conj Hs (conj H2 H3)).
Defined.
