(* ===== verification/Answers.v ===== *)
(** * Every request is answered exactly once

    A request gets one response, on the connection it came from, with its id;
    whatever else a handler sends, to this client or to the others, is an event. *)
From Stdlib Require Import SpecFloat.
From S2P Require Import Prelude CLib Jsmn JsonText JsonTok Sha256 Auth Config Rtl Vita World.
From S2P Require Import Session Commands RxCommands Server Quiet Invariants Safety Gate.
#[local] Open Scope Z_scope.

(** ** Responses in the log *)
Definition response_start : list Z := jq "{'type':'response'".

Definition is_response (m : tcp) : Prop :=
  take (length response_start) (drop 4 (t_bytes m)) = response_start.

#[export] Instance is_response_dec m : Decision (is_response m).
Proof. unfold is_response. apply _. Defined.

Definition responses (l : list tcp) : list tcp := filter is_response l.

(** The frame answers the request with this id. *)
Definition answers (id bytes : list Z) : Prop :=
  (jq "{'type':'response','id':'" ++ json_escape id 288 ++ jq "','status':'") `prefix_of` drop 4 bytes.

Lemma take_snprintf (n cap : nat) (a b : list Z) :
  (n <= length a)%nat -> (n < cap)%nat -> take n (snprintf cap (a ++ b)) = take n a.
Proof.
  intros Ha Hc. unfold snprintf. rewrite take_take, Nat.min_l by lia. by apply take_app_le.
Qed.

Lemma prefix_snprintf (cap : nat) (a b : list Z) :
  (length a < cap)%nat -> a `prefix_of` snprintf cap (a ++ b).
Proof.
  intros Hc. unfold snprintf. exists (take (cap - 1 - length a) b).
  rewrite take_app, take_ge by lia. done.
Qed.

Lemma frame_payload (n : Z) (json : list Z) : drop 4 (be32 n ++ json) = json.
Proof. by rewrite drop_app_length' by (by rewrite be32_length). Qed.

Lemma event_no_response s n ev ps : ~ is_response (mkTcp s (be32 n ++ event_text ev ps)).
Proof.
  unfold is_response. cbn [t_bytes]. rewrite frame_payload. unfold event_text.
  rewrite take_snprintf; vm_compute; [congruence|lia|lia].
Qed.

Lemma answers_response s id bytes : answers id bytes -> is_response (mkTcp s bytes).
Proof.
  intros [k E]. unfold is_response. cbn [t_bytes]. rewrite E. vm_compute (jq _). reflexivity.
Qed.

(** ** The state of a request: answered or not *)
Section Answer.
Context {D : Type} {P : Platform D} (s : nat) (id : list Z) (l0 : list tcp).
Implicit Types w : World D.

(** [answered false]: connected, no response since [l0]; [answered true]: the
    one response has been sent. *)
Definition answered (b : bool) (w : World D) : Prop :=
  0 < ss_fd (sess w s) /\
  (if b then exists bytes, responses (w_out w) = responses l0 ++ [mkTcp s bytes] /\ answers id bytes
   else responses (w_out w) = responses l0).

Lemma answered_frame b w w' :
  answered b w -> w_sessions w' = w_sessions w -> w_out w' = w_out w -> answered b w'.
Proof. unfold answered, sess. intros H -> ->. exact H. Qed.

Lemma a_set b f : (forall x, ss_fd (f x) = ss_fd x) -> stays (answered b) (set_sess s f).
Proof.
  intros Hf. apply s_modify. intros w [H1 H2]. split; [|exact H2].
  destruct (sess_alter_cases w s f) as [-> | ->]; [by rewrite Hf|done].
Qed.

Lemma a_modify b f :
  (forall w, w_sessions (f w) = w_sessions w /\ w_out (f w) = w_out w) ->
  stays (answered b) (modify f).
Proof. intros Hf. apply s_modify. intros w Hw. by eapply answered_frame; [|apply Hf..]. Qed.

Lemma a_do_rtl b f : stays (answered b) (do_rtl f).
Proof. by apply a_modify. Qed.

Lemma a_do_vita b f : stays (answered b) (do_vita f).
Proof. by apply a_modify. Qed.

Lemma a_with_rtl {A} b (f : Rtl D -> A * Rtl D) : stays (answered b) (with_rtl f).
Proof.
  intros w a w' Hw. unfold with_rtl. destruct (f (w_rtl w)). intros [= _ <-].
  by eapply answered_frame.
Qed.

Lemma a_with_vita {A} b (f : Vita -> A * Vita) : stays (answered b) (with_vita f).
Proof.
  intros w a w' Hw. unfold with_vita. destruct (f (w_vita w)). intros [= _ <-].
  by eapply answered_frame.
Qed.

Lemma a_event_text b i ev ps : stays (answered b) (send_framed i (event_text ev ps)).
Proof.
  apply s_modify. intros w [H1 H2]. destruct (ss_fd (sess w i) <=? 0); [exact (conj H1 H2)|]. split; [exact H1|]. cbn [w_out upd].
  unfold responses in *. rewrite filter_app, filter_cons_False by apply event_no_response.
  by rewrite filter_nil, app_nil_r.
Qed.

Lemma a_send_event b i ev ps : stays (answered b) (send_event i ev ps).
Proof. apply a_event_text. Qed.

Lemma a_broadcast b skip ev ps : stays (answered b) (broadcast skip ev ps).
Proof.
  unfold broadcast. generalize MAX_SESSIONS, 0%nat. intros n. induction n as [|n IH]; intros i;
    cbn [broadcast_loop]; [apply s_ret|].
  eapply h_stay; [apply s_get|intros h]. eapply h_stay; [|intros _; apply IH].
  destruct h; [apply a_event_text|apply s_ret].
Qed.

(** The response itself. *)
Lemma a_respond json :
  (forall n, answers id (be32 n ++ json)) ->
  hoare (answered false) (send_framed s json) (fun _ => answered true).
Proof.
  intros Hj. apply h_modify. intros w [H1 H2].
  destruct (Z.leb_spec (ss_fd (sess w s)) 0); [lia|]. split; [exact H1|].
  eexists. split; [|apply Hj]. cbn [w_out upd]. unfold responses in *.
  rewrite filter_app, H2, filter_cons_True by (eapply answers_response, Hj). done.
Qed.

Lemma id_prefix_short : (length (jq "{'type':'response','id':'" ++ json_escape id 288 ++ jq "','status':'") < 400)%nat.
Proof.
  destruct (json_escape_spec id 288) as (_ & _ & Hi & _); [lia|].
  rewrite !length_app. vm_compute (length (jq _)). lia.
Qed.

Lemma answers_text cap rest n :
  (400 <= cap)%nat ->
  answers id (be32 n ++ snprintf cap ((jq "{'type':'response','id':'" ++ json_escape id 288
    ++ jq "','status':'") ++ rest)).
Proof.
  intros Hc. unfold answers. rewrite frame_payload. apply prefix_snprintf.
  pose proof id_prefix_short. lia.
Qed.

Lemma a_ok r : hoare (answered false) (send_ok s id r) (fun _ => answered true).
Proof.
  apply a_respond. intros n. unfold ok_text.
  replace (jq "{'type':'response','id':'" ++ _) with
    ((jq "{'type':'response','id':'" ++ json_escape id 288 ++ jq "','status':'")
     ++ jq "ok','result':" ++ r ++ jq "}") by (rewrite <- !app_assoc; reflexivity).
  apply answers_text. unfold MAX_MSG_BYTES. lia.
Qed.

Lemma a_error c m : hoare (answered false) (send_error s id c m) (fun _ => answered true).
Proof.
  apply a_respond. intros n. unfold error_text.
  replace (jq "{'type':'response','id':'" ++ _) with
    ((jq "{'type':'response','id':'" ++ json_escape id 288 ++ jq "','status':'")
     ++ jq "error','error':{'code':'" ++ txt c ++ jq "','message':'" ++ json_escape m 512 ++ jq "'}}")
    by (rewrite <- !app_assoc; reflexivity).
  apply answers_text. lia.
Qed.

Lemma a_auth_failed d :
  hoare (answered false) (send_framed s (auth_failed_text id d)) (fun _ => answered true).
Proof.
  apply a_respond. intros n. unfold auth_failed_text.
  replace (jq "{'type':'response','id':'" ++ _) with
    ((jq "{'type':'response','id':'" ++ json_escape id 288 ++ jq "','status':'")
     ++ jq "error','error':{'code':'auth_failed','message':'authentication was rejected','details':"
     ++ d ++ jq "}}") by (rewrite <- !app_assoc; reflexivity).
  apply answers_text. lia.
Qed.
End Answer.

(** Operations that send no response. *)
Create HintDb calm discriminated.
#[export] Hint Constants Opaque : calm.
#[export] Hint Resolve s_ret s_lift s_get q_find q_find_if q_tok q_find_params q_format_matches
  a_do_rtl a_do_vita a_with_rtl a_with_vita a_send_event a_broadcast : calm.
#[export] Hint Extern 1 (stays _ (set_sess _ _)) =>
  apply a_set; intros; by repeat case_match : calm.
#[export] Hint Extern 1 (stays _ (modify _)) =>
  apply a_modify; intros; by repeat case_match : calm.

Ltac aleaf :=
  lazymatch goal with
  | |- stays _ _ => solve [eauto 3 with calm nocore]
  | |- hoare ?P ?m (fun _ => ?P) => change (stays P m); solve [eauto 3 with calm nocore]
  | |- hoare _ (send_ok _ _ _) _ => apply a_ok
  | |- hoare _ (send_error _ _ _ _) _ => apply a_error
  | |- hoare _ (send_framed _ (auth_failed_text _ _)) _ => apply a_auth_failed
  end.

(** Walk through a handler: calm steps keep the state of the request, a
    response changes it. *)
Ltac awalk :=
  lazymatch goal with
  | |- stays (answered _ _ _ _) (bind _ _) =>
      eapply h_stay; [first [aleaf|solve [repeat first [aleaf|awalk]]]|intros ?]; cbv beta
  | |- hoare _ (bind (send_ok _ _ _) _) _ => eapply h_then; [aleaf|]
  | |- hoare _ (bind (send_error _ _ _ _) _) _ => eapply h_then; [aleaf|]
  | |- hoare _ (bind (send_framed _ (auth_failed_text _ _)) _) _ => eapply h_then; [aleaf|]
  | |- hoare _ (bind _ _) _ =>
      eapply h_stay; [first [aleaf|solve [repeat first [aleaf|awalk]]]|intros ?]; cbv beta
  | |- stays _ (match ?x with _ => _ end) => destruct x eqn:?
  | |- hoare _ (match ?x with _ => _ end) _ => destruct x eqn:?
  end.

Ltac aquiet := repeat first [aleaf | awalk].

Section Helpers.
Context {D : Type} {P : Platform D} (e : Env) (s : nat) (id : list Z) (l0 : list tcp).
Context (js : list Z) (t : list jsmntok_t).

Lemma a_gains b : stays (answered (D := D) s id l0 b) load_gain_table.
Proof. unfold load_gain_table. aquiet. Qed.

Lemma a_claim b : stays (answered (D := D) s id l0 b) (cp_rx_claim s).
Proof. unfold cp_rx_claim. aquiet. Qed.

Lemma a_release b : stays (answered (D := D) s id l0 b) (cp_rx_release s).
Proof. unfold cp_rx_release, cp_broadcast_event_except. aquiet. Qed.

Lemma a_drop_vita b : stays (answered (D := D) s id l0 b) (drop_vita s).
Proof. unfold drop_vita. aquiet. Qed.

Lemma a_alloc b : stays (answered (D := D) s id l0 b) (alloc_stream_id s).
Proof. unfold alloc_stream_id. aquiet. Qed.

Lemma a_context b : stays (answered (D := D) s id l0 b) context_all.
Proof. unfold context_all. aquiet. Qed.

Lemma a_mode_change b : stays (answered (D := D) s id l0 b) apply_mode_change_side_effects.
Proof. unfold apply_mode_change_side_effects, cp_broadcast_event. aquiet. Qed.

Lemma a_auth_object b : stays (answered (D := D) s id l0 b) (auth_object e s).
Proof. unfold auth_object. aquiet. Qed.

Lemma a_capabilities b : stays (answered (D := D) s id l0 b) build_capabilities_json.
Proof. unfold build_capabilities_json. pose proof (a_gains b). aquiet. Qed.
End Helpers.

#[export] Hint Resolve a_gains a_claim a_release a_drop_vita a_alloc a_context a_mode_change
  a_auth_object a_capabilities : calm.

Section Handlers.
Context {D : Type} {P : Platform D} (e : Env) (s : nat) (id : list Z) (l0 : list tcp).
Context (js : list Z) (t : list jsmntok_t).

(** The handler answers the request. *)
Definition answering {A} (m : M D A) : Prop :=
  hoare (answered s id l0 false) m (fun _ => answered s id l0 true).

(** A check answers exactly when it fails. *)
Lemma a_require :
  hoare (answered (D := D) s id l0 false) (require_function s id js t)
    (fun p => answered s id l0 (p <? 0)).
Proof.
  unfold require_function. awalk. awalk.
  { awalk. eapply h_post; [apply h_ret|]. by intros ? w [? ->]. }
  awalk. awalk.
  { awalk. eapply h_then; [destruct (0 <=? _); apply a_error|].
    eapply h_post; [apply h_ret|]. by intros ? w [? ->]. }
  awalk. awalk.
  - eapply h_post; [apply h_ret|]. intros p w [? ->]. by rewrite Heqb.
  - awalk. eapply h_post; [apply h_ret|]. by intros ? w [? ->].
Qed.

Lemma a_channel p :
  hoare (answered (D := D) s id l0 false) (channel_ok s id js t p)
    (fun b => answered s id l0 (negb b)).
Proof.
  unfold channel_ok. awalk. awalk; [|awalk]; (eapply h_post; [apply h_ret|]); by intros ? w [? ->].
Qed.

Lemma a_may_configure :
  hoare (answered (D := D) s id l0 false) (may_configure s id)
    (fun b => answered s id l0 (negb b)).
Proof.
  unfold may_configure, cp_rx_owned_by_other. awalk. awalk; [|awalk];
    (eapply h_post; [apply h_ret|]); by intros ? w [? ->].
Qed.

Lemma a_configure :
  hoare (answered (D := D) s id l0 false) (configure_params s id js t)
    (fun p => answered s id l0 (p <? 0)).
Proof.
  assert (forall p, hoare (answered (D := D) s id l0 (p <? 0)) (ret p)
    (fun p => answered s id l0 (p <? 0))) as Hret.
  { intros p. eapply h_post; [apply h_ret|]. by intros ? w [? ->]. }
  unfold configure_params. eapply h_bind; [apply a_require|]. intros p. cbv beta.
  destruct (p <? 0) eqn:E; [apply (Hret (-1))|].
  eapply h_bind; [apply a_channel|]. intros [|]; cbn [negb]; [|apply (Hret (-1))].
  eapply h_bind; [apply a_may_configure|]. intros [|]; cbn [negb]; [|apply (Hret (-1))].
  pose proof (Hret p) as H. by rewrite E in H.
Qed.

Lemma a_stream_named :
  hoare (answered (D := D) s id l0 false) (stream_named s id js t)
    (fun b => answered s id l0 (negb b)).
Proof.
  unfold stream_named. do 2 awalk. awalk.
  { awalk. eapply h_post; [apply h_ret|]. by intros ? w [? ->]. }
  do 2 awalk. cbv zeta. awalk; [awalk|]; (eapply h_post; [apply h_ret|]); by intros ? w [? ->].
Qed.

(** A handler that starts with a check of the parameters. *)
Lemma a_after_check {A} (m : M D Z) (a : A) (k : Z -> M D A) :
  hoare (answered s id l0 false) m (fun p => answered s id l0 (p <? 0)) ->
  (forall p, answering (k p)) -> answering (let* p := m in if p <? 0 then ret a else k p).
Proof.
  intros Hm Hk. eapply h_bind; [exact Hm|]. intros p. cbv beta.
  destruct (p <? 0); [aleaf|apply Hk].
Qed.

Lemma a_after_test {A} (m : M D bool) (a : A) (k : M D A) :
  hoare (answered s id l0 false) m (fun b => answered s id l0 (negb b)) ->
  answering k -> answering (let* b := m in if negb b then ret a else k).
Proof.
  intros Hm Hk. eapply h_bind; [exact Hm|]. intros b. cbv beta.
  destruct (negb b); [aleaf|apply Hk].
Qed.

Lemma a_hello : answering (cmd_hello e s id t js).
Proof. unfold answering, cmd_hello. aquiet. Qed.

Lemma a_authenticate : answering (cmd_authenticate e s id t js).
Proof. unfold answering, cmd_authenticate, auth_refused. aquiet. Qed.

Lemma a_get_capabilities : answering (cmd_get_capabilities s id t js).
Proof. unfold answering, cmd_get_capabilities. aquiet. Qed.

Lemma a_get_status : answering (cmd_get_status e s id t js).
Proof. unfold answering, cmd_get_status, cp_rx_control_state. aquiet. Qed.

Lemma a_get_clock : answering (cmd_get_clock_status e s id t js).
Proof. unfold answering, cmd_get_clock_status. aquiet. Qed.

Lemma a_set_frequency : answering (cmd_set_frequency s id t js).
Proof.
  apply a_after_check; [apply a_configure|]. intros p. unfold answering, cp_broadcast_event. aquiet.
Qed.

Lemma a_set_sample_rate : answering (cmd_set_sample_rate s id t js).
Proof.
  apply a_after_check; [apply a_configure|]. intros p. unfold answering, cp_broadcast_event. aquiet.
Qed.

Lemma a_set_rf_gain vt v : answering (set_rf_gain s id js vt v).
Proof. unfold answering, set_rf_gain, cp_broadcast_event. aquiet. Qed.

Lemma a_set_agc vt : answering (set_agc s id js vt).
Proof. unfold answering, set_agc, cp_broadcast_event. aquiet. Qed.

Lemma a_set_bias_tee vt v : answering (set_bias_tee s id js vt v).
Proof. unfold answering, set_bias_tee, cp_broadcast_event. aquiet. Qed.

Lemma a_set_ppm vt v : answering (set_ppm s id js vt v).
Proof. unfold answering, set_ppm, cp_broadcast_event. aquiet. Qed.

Lemma a_set_direct_sampling vt v : answering (set_direct_sampling s id js vt v).
Proof. unfold answering, set_direct_sampling, cp_broadcast_event. aquiet. Qed.

Lemma a_set_control : answering (cmd_set_control s id t js).
Proof.
  apply a_after_check; [apply a_configure|]. intros p. unfold answering. do 2 awalk. awalk; [aleaf|].
  do 2 awalk. cbv zeta. repeat awalk; first [apply a_set_rf_gain|apply a_set_agc
    |apply a_set_bias_tee|apply a_set_ppm|apply a_set_direct_sampling|aleaf].
Qed.

Lemma a_get_control : answering (cmd_get_control s id t js).
Proof.
  apply a_after_check; [apply a_require|]. intros p. apply a_after_test; [apply a_channel|].
  unfold answering. aquiet.
Qed.

Lemma a_refuse c m : answering (refuse s id c m).
Proof. unfold answering, refuse. aquiet. Qed.

Lemma a_open_accept ip addr dp : answering (open_accept e s id ip addr dp).
Proof. unfold answering, open_accept, cp_broadcast_event_except. aquiet. Qed.

Ltac aopen :=
  repeat first [aleaf|apply a_refuse|apply a_open_accept|awalk].

Lemma a_open_destination vi : answering (open_destination e s id js t vi).
Proof. unfold answering, open_destination. aopen. Qed.

Lemma a_open_vita vi : answering (open_vita e s id js t vi).
Proof. unfold answering, open_vita. aopen; apply a_open_destination. Qed.

Lemma a_open_stream : answering (cmd_open_stream e s id t js).
Proof.
  apply a_after_check; [apply a_require|]. intros p. apply a_after_test; [apply a_channel|].
  unfold answering. aopen; apply a_open_vita.
Qed.

Lemma a_start_rx : answering (cmd_start_rx e s id t js).
Proof. apply a_after_test; [apply a_stream_named|]. unfold answering. aquiet. Qed.

Lemma a_stop_rx : answering (cmd_stop_rx s id t js).
Proof. apply a_after_test; [apply a_stream_named|]. unfold answering. aquiet. Qed.

Lemma a_close_stream : answering (cmd_close_stream s id t js).
Proof. apply a_after_test; [apply a_stream_named|]. unfold answering. aquiet. Qed.
End Handlers.

(** ** The command loop *)

(** The id a message must be answered with; [None]: it is not a request, and
    is ignored. *)
Definition request_id (ntok : Z) (t : list jsmntok_t) (js : list Z) : option (list Z) :=
  let member k := tok_find_key js t 0 (txt k) in
  if ntok <? 1 then Some (txt "?")
  else if negb (bool_decide (tk_type (t !!! 0%nat) = JSMN_OBJECT)) then Some (txt "?")
  else
    match member "type"%string, member "id"%string, member "command"%string with
    | Some ty, Some i, Some c =>
        if (ty <? 0) || (i <? 0) || (c <? 0) then Some (txt "?")
        else if tok_eq js (t !!! Z.to_nat ty) (txt "request")
        then Some (tok_str js (t !!! Z.to_nat i) 128) else None
    | _, _, _ => None
    end.

Section Loop.
Context {D : Type} {P : Platform D} (e : Env) (s : nat) (l0 : list tcp).
Context (js : list Z) (t : list jsmntok_t).

Lemma a_dispatch (cmd id : list Z) : answering (D := D) s id l0 (dispatch e s cmd id t js).
Proof.
  unfold dispatch. apply (h_then _ (answered s id l0 true)); [|aleaf].
  destruct (lookup_cmd cmd (s_dispatch e)) as [f|] eqn:E; [|apply a_error].
  apply lookup_cmd_In in E as (n & Hin & _). cbn [s_dispatch In] in Hin.
  repeat match type of Hin with _ \/ _ => destruct Hin as [Hin|Hin] end; try done;
    apply pair_equal_spec in Hin as [_ <-];
    lazymatch goal with
    | |- hoare _ (cmd_hello _ _ _ _ _) _ => apply a_hello
    | |- hoare _ (cmd_authenticate _ _ _ _ _) _ => apply a_authenticate
    | |- hoare _ (cmd_get_capabilities _ _ _ _) _ => apply a_get_capabilities
    | |- hoare _ (cmd_get_status _ _ _ _ _) _ => apply a_get_status
    | |- hoare _ (cmd_get_clock_status _ _ _ _ _) _ => apply a_get_clock
    | |- hoare _ (cmd_set_frequency _ _ _ _) _ => apply a_set_frequency
    | |- hoare _ (cmd_set_sample_rate _ _ _ _) _ => apply a_set_sample_rate
    | |- hoare _ (cmd_set_control _ _ _ _) _ => apply a_set_control
    | |- hoare _ (cmd_get_control _ _ _ _) _ => apply a_get_control
    | |- hoare _ (cmd_open_stream _ _ _ _ _) _ => apply a_open_stream
    | |- hoare _ (cmd_start_rx _ _ _ _ _) _ => apply a_start_rx
    | |- hoare _ (cmd_stop_rx _ _ _ _) _ => apply a_stop_rx
    | |- hoare _ (cmd_close_stream _ _ _ _) _ => apply a_close_stream
    | |- hoare _ (cmd_ping _ _ _ _) _ => apply a_ok
    end.
Qed.

Lemma a_gated (cmd id : list Z) : answering (D := D) s id l0 (gated_dispatch e s cmd id t js).
Proof.
  pose proof (a_dispatch cmd id) as Hd.
  assert (stays (answered (D := D) s id l0 false) (cmd_addresses_rx cmd t js)) as Ha
    by (unfold cmd_addresses_rx; aquiet).
  unfold answering, gated_dispatch. do 3 awalk. awalk; [|exact Hd]. awalk. aleaf.
Qed.
End Loop.

Definition outcome (s : nat) (r : option (list Z)) (before after : list tcp) : Prop :=
  match r with
  | Some id => exists bytes, responses after = responses before ++ [mkTcp s bytes] /\ answers id bytes
  | None => responses after = responses before
  end.

(** C4: every request is answered exactly once.  Whatever a connected client
    sends and whatever state the daemon is in, processing the message adds
    exactly one response to everything sent so far, on the connection of that
    client, and it carries the id of the request (escaped; the id is a question
    mark when the envelope is malformed); a well-formed message that is not a
    request gets none.  All other messages sent are events. *)
Theorem one_response {D : Type} {P : Platform D} (e : Env) (s : nat) (ntok : Z)
    (t : list jsmntok_t) (js : list Z) (w w' : World D) (stop : bool) :
  0 < ss_fd (sess w s) -> process_request e s ntok t js w = Some (stop, w') ->
  outcome s (request_id ntok t js) (w_out w) (w_out w').
Proof.
  intros Hfd E.
  assert (forall id (m : M D bool), answering s id (w_out w) m -> m w = Some (stop, w') ->
    outcome s (Some id) (w_out w) (w_out w')) as Hm.
  { intros id m Hm Em. apply (Hm w stop w'); [by split|exact Em]. }
  assert (forall id c msg, answering (D := D) s id (w_out w) (send_error s id c msg ;;; ret false))
    as Herr by (intros; unfold answering; awalk; aleaf).
  unfold process_request, find, tok, lift, bind, get in E. unfold request_id.
  destruct (ntok <? 1); [by eapply Hm; [apply Herr|exact E]|].
  change (Z.to_nat 0) with 0%nat in E.
  destruct (t !! 0%nat) as [t0|] eqn:E0; [|done]. rewrite (list_lookup_total_correct _ _ _ E0).
  destruct (bool_decide (tk_type t0 = JSMN_OBJECT)); cbn [negb] in *;
    [|by eapply Hm; [apply Herr|exact E]].
  destruct (tok_find_key js t 0 (txt "type")) as [ty|]; [|done].
  destruct (tok_find_key js t 0 (txt "id")) as [i|]; [|done].
  destruct (tok_find_key js t 0 (txt "command")) as [c|]; [|done].
  destruct ((ty <? 0) || (i <? 0) || (c <? 0)); [by eapply Hm; [apply Herr|exact E]|].
  destruct (t !! Z.to_nat ty) as [tt_|] eqn:Et; [|done]. rewrite (list_lookup_total_correct _ _ _ Et).
  destruct (tok_eq js tt_ (txt "request")); cbn [negb] in E; [|by injection E as _ <-].
  destruct (t !! Z.to_nat i) as [ti|] eqn:Ei; [|done]. rewrite (list_lookup_total_correct _ _ _ Ei).
  destruct (t !! Z.to_nat c) as [tc|]; [|done]. revert E.
  case_match; intros E; [by eapply Hm; [apply Herr|exact E]|].
  eapply Hm; [apply a_gated|exact E].
Qed.

Lemma one_response_witness :
  match Sample.handled 0 Sample.tune_text locked_world with
  | Some (_, w') => outcome 0 (Some (txt "t")) (w_out locked_world) (w_out w')
  | None => False
  end.
Proof.
  assert (bool_decide (is_Some (Sample.handled 0 Sample.tune_text locked_world)) = true) as Hs
    by (vm_compute; reflexivity).
  destruct (Sample.handled 0 Sample.tune_text locked_world) as [[stop w']|] eqn:E; [|done].
  rewrite Sample.handled_eq in E.
  assert (request_id (Sample.parsed Sample.tune_text).1 (Sample.parsed Sample.tune_text).2
    (Sample.tune_text ++ [0]) = Some (txt "t")) as <- by (vm_compute; reflexivity).
  apply (one_response Sample.env 0 (Sample.parsed Sample.tune_text).1
    (Sample.parsed Sample.tune_text).2 (Sample.tune_text ++ [0]) locked_world w' stop);
    [vm_compute; reflexivity|exact E].
Defined.
