(* ===== verification/Limits.v ===== *)
(** * The receiver stays within its published limits

    get_capabilities publishes a frequency range and a list of sample rates
    that depend on the sampling mode.  With a tuner that reports the frequency it
    was set to, the frequency and the requested rate are within them in every
    reachable state: commands are checked, and a change of mode re-clamps both. *)
From Stdlib Require Import SpecFloat.
From S2P Require Import Prelude CLib Jsmn JsonText JsonTok Sha256 Auth Config Rtl Vita World.
From S2P Require Import Session Commands RxCommands Server Quiet Invariants Safety Kept.
#[local] Open Scope Z_scope.

Definition rate_ok {D} (r : Rtl D) (rate : Z) : bool := existsb (fun x => x =? rate) (rtl_rate_list r).

Definition freq_ok {D} (r : Rtl D) (f : Z) : bool := (rtl_freq_min r <=? f) && (f <=? rtl_freq_max r).

Definition in_limits {D} (r : Rtl D) : Prop :=
  freq_ok r (g_freq_hz r) = true /\ rate_ok r (g_rate_requested_sps r) = true.

Section Rtl.
Context {D : Type} {P : Platform D} {T : PlatformLaws D}.
Implicit Types r : Rtl D.

(** Nothing the limits depend on has changed. *)
Lemma limits_frame r r' :
  in_limits r -> g_freq_hz r' = g_freq_hz r -> g_rate_requested_sps r' = g_rate_requested_sps r ->
  g_sampling_mode r' = g_sampling_mode r -> in_limits r'.
Proof.
  unfold in_limits, freq_ok, rate_ok, rtl_freq_min, rtl_freq_max, rtl_rate_list.
  intros H -> -> ->. exact H.
Qed.

Lemma freq_ok_u32 r f : freq_ok r f = true -> 0 < f /\ u32 f = f /\
  RTL_FREQ_MIN_DIRECT <= f <= RTL_FREQ_MAX_NORMAL.
Proof.
  unfold freq_ok, rtl_freq_min, rtl_freq_max. intros H. zbool.
  assert (RTL_FREQ_MIN_DIRECT <= f <= RTL_FREQ_MAX_NORMAL) as Hf.
  { revert H H0. unfold RTL_FREQ_MIN_NORMAL, RTL_FREQ_MIN_DIRECT, RTL_FREQ_MAX_NORMAL,
      RTL_FREQ_MAX_DIRECT. repeat case_decide; lia. }
  split; [unfold RTL_FREQ_MIN_DIRECT in Hf; lia|]. split; [|exact Hf].
  apply u32_small. unfold RTL_FREQ_MIN_DIRECT, RTL_FREQ_MAX_NORMAL in Hf. lia.
Qed.

(** Setting a frequency within the limits: it becomes the frequency. *)
Lemma set_frequency_limits r f :
  freq_ok r f = true ->
  let r' := (rtl_set_frequency f r).2 in
  g_sampling_mode r' = g_sampling_mode r /\ g_rate_requested_sps r' = g_rate_requested_sps r /\
  (is_Some (s_dev r') <-> is_Some (s_dev r)) /\
  g_freq_hz r' = if s_dev r is Some _ then f else g_freq_hz r.
Proof.
  intros Hf. destruct (freq_ok_u32 r f Hf) as (H0 & Hu & Hr). unfold rtl_set_frequency.
  destruct (s_dev r) as [d|] eqn:Ed; [|cbn; by rewrite Ed]. rewrite Hu.
  pose proof (tunes d f Hr) as Ht. destruct (rtlsdr_set_center_freq d f) as [rc d']. cbn in Ht |- *.
  rewrite Ht. destruct (Z.eqb_spec f 0); [lia|]. done.
Qed.

Lemma set_rate_limits r f :
  let r' := (rtl_set_sample_rate f r).2 in
  g_sampling_mode r' = g_sampling_mode r /\ g_freq_hz r' = g_freq_hz r /\
  (is_Some (s_dev r') <-> is_Some (s_dev r)) /\
  g_rate_requested_sps r' = if s_dev r is Some _ then f else g_rate_requested_sps r.
Proof.
  unfold rtl_set_sample_rate. destruct (s_dev r) as [d|] eqn:Ed; [|cbn; by rewrite Ed].
  destruct (rtlsdr_set_sample_rate d f) as [rc d']. cbn. case_match; done.
Qed.
End Rtl.

(** ** Calls that leave the tuning alone *)
Section Tuning.
Context {D : Type} {P : Platform D}.
Implicit Types r : Rtl D.

Definition same_tuning r r' : Prop :=
  g_freq_hz r' = g_freq_hz r /\ g_rate_requested_sps r' = g_rate_requested_sps r /\
  g_sampling_mode r' = g_sampling_mode r.

Lemma start_tuning b r : same_tuning r (rtl_bridge_start b r).2.
Proof. unfold rtl_bridge_start. by repeat case_match. Qed.

Lemma stop_tuning r : same_tuning r (rtl_bridge_stop r).
Proof. unfold rtl_bridge_stop, on_dev. by repeat case_match. Qed.

Lemma set_agc_tuning b r : same_tuning r (rtl_set_agc b r).2.
Proof. unfold rtl_set_agc. by repeat case_match. Qed.

Lemma set_bias_tee_tuning v r : same_tuning r (rtl_set_bias_tee v r).2.
Proof. unfold rtl_set_bias_tee. by repeat case_match. Qed.

Lemma set_ppm_tuning p r : same_tuning r (rtl_set_ppm p r).2.
Proof. unfold rtl_set_ppm. by repeat case_match. Qed.

Lemma set_gain_tuning g r a r' : rtl_set_gain g r = Some (a, r') -> same_tuning r r'.
Proof. unfold rtl_set_gain. repeat case_match; intros [= <- <-]; done. Qed.

Lemma measure_tuning now buf r : same_tuning r (measure_adc_level now buf r).1.
Proof. unfold measure_adc_level. by repeat case_match. Qed.

Lemma tuning_limits r r' : same_tuning r r' -> in_limits r -> in_limits r'.
Proof. intros (E1 & E2 & E3) H. by eapply limits_frame. Qed.
End Tuning.

Section Handlers.
Context {D : Type} {P : Platform D} {T : PlatformLaws D} (e : Env) (s : nat).
Context (id js : list Z) (t : list jsmntok_t).
Implicit Types w : World D.

Definition limited (w : World D) : Prop := in_limits (w_rtl w).

(** After a change of mode, before it is made good. *)
Definition has_dev (w : World D) : Prop := is_Some (s_dev (w_rtl w)).

#[export] Instance stable_limited : Stable limited.
Proof. intros w o H. exact H. Qed.
#[export] Instance stable_has_dev : Stable has_dev.
Proof. intros w o H. exact H. Qed.

Lemma l_modify f :
  (forall w, same_tuning (w_rtl w) (w_rtl (f w))) -> stays limited (modify f).
Proof. intros Hf. apply s_modify. intros w. by apply tuning_limits. Qed.

Lemma l_with_rtl {A} (f : Rtl D -> A * Rtl D) :
  (forall r, same_tuning r (f r).2) -> stays limited (with_rtl f).
Proof.
  intros Hf w a w' Hw. unfold with_rtl. specialize (Hf (w_rtl w)).
  destruct (f (w_rtl w)) as [b r]. intros [= _ <-]. by eapply tuning_limits.
Qed.

Lemma l_with_vita {A} (f : Vita -> A * Vita) : stays limited (with_vita f).
Proof.
  intros w a w' Hw. unfold with_vita. destruct (f (w_vita w)). intros [= _ <-]. exact Hw.
Qed.

#[local] Hint Resolve l_with_vita : quiet.
#[local] Hint Extern 1 (stays limited (modify _)) =>
  apply l_modify; intros; by repeat case_match : quiet.
#[local] Hint Extern 1 (stays limited (set_sess _ _)) => by apply l_modify : quiet.
#[local] Hint Extern 1 (stays limited (do_vita _)) => by apply l_modify : quiet.
#[local] Hint Extern 1 (stays limited (do_rtl rtl_bridge_stop)) =>
  apply l_modify; intros; apply stop_tuning : quiet.
#[local] Hint Extern 1 (stays limited (do_rtl rtl_reset_adc_level)) => by apply l_modify : quiet.
#[local] Hint Extern 1 (stays limited (with_rtl _)) =>
  apply l_with_rtl; intros; first [apply start_tuning|apply set_agc_tuning
    |apply set_bias_tee_tuning|apply set_ppm_tuning] : quiet.

Lemma l_gains : stays limited load_gain_table.
Proof. unfold load_gain_table. hquiet. Qed.
#[local] Hint Resolve l_gains : quiet.

Lemma l_context_all : stays limited context_all.
Proof. unfold context_all. hquiet. Qed.

Lemma l_claim : stays limited (cp_rx_claim s).
Proof. unfold cp_rx_claim. hquiet. Qed.

Lemma l_release : stays limited (cp_rx_release s).
Proof. unfold cp_rx_release. hquiet. Qed.

Lemma l_drop_vita : stays limited (drop_vita s).
Proof. unfold drop_vita. hquiet. Qed.
#[local] Hint Resolve l_context_all l_claim l_release l_drop_vita : quiet.

Lemma l_hello : stays limited (cmd_hello e s id t js).
Proof. unfold cmd_hello, auth_object. hquiet. Qed.

Lemma l_authenticate : stays limited (cmd_authenticate e s id t js).
Proof. unfold cmd_authenticate, auth_refused. hquiet. Qed.

Lemma l_get_capabilities : stays limited (cmd_get_capabilities s id t js).
Proof. unfold cmd_get_capabilities, build_capabilities_json. hquiet. Qed.

Lemma l_open_stream : stays limited (cmd_open_stream e s id t js).
Proof.
  unfold cmd_open_stream, open_vita, open_destination, refuse, open_accept, alloc_stream_id. hquiet.
Qed.

Lemma l_start_rx : stays limited (cmd_start_rx e s id t js).
Proof. unfold cmd_start_rx. hquiet. Qed.

Lemma l_stop_rx : stays limited (cmd_stop_rx s id t js).
Proof. unfold cmd_stop_rx. hquiet. Qed.

Lemma l_close_stream : stays limited (cmd_close_stream s id t js).
Proof. unfold cmd_close_stream. hquiet. Qed.

Lemma l_session_destroy : stays limited (session_destroy s).
Proof. unfold session_destroy. hquiet. Qed.

(** ** Tuning *)
Lemma freq_ok_mode (r r' : Rtl D) f : g_sampling_mode r' = g_sampling_mode r -> freq_ok r' f = freq_ok r f.
Proof. unfold freq_ok, rtl_freq_min, rtl_freq_max. by intros ->. Qed.

Lemma rate_ok_mode (r r' : Rtl D) f : g_sampling_mode r' = g_sampling_mode r -> rate_ok r' f = rate_ok r f.
Proof. unfold rate_ok, rtl_rate_list. by intros ->. Qed.

Lemma l_tune f :
  hoare (fun w => limited w /\ freq_ok (w_rtl w) f = true) (with_rtl (rtl_set_frequency f))
    (fun _ => limited).
Proof.
  intros w a w' [[H1 H2] Hf]. unfold with_rtl. pose proof (set_frequency_limits (w_rtl w) f Hf) as H.
  destruct (rtl_set_frequency f (w_rtl w)) as [b r]. intros [= _ <-]. cbn in H.
  destruct H as (Em & Er & _ & Ef). split; cbn.
  - rewrite (freq_ok_mode _ _ _ Em), Ef. by case_match.
  - by rewrite (rate_ok_mode _ _ _ Em), Er.
Qed.

Lemma l_rate f :
  hoare (fun w => limited w /\ rate_ok (w_rtl w) f = true) (with_rtl (rtl_set_sample_rate f))
    (fun _ => limited).
Proof.
  intros w a w' [[H1 H2] Hf]. unfold with_rtl. pose proof (set_rate_limits (w_rtl w) f) as H.
  destruct (rtl_set_sample_rate f (w_rtl w)) as [b r]. intros [= _ <-]. cbn in H.
  destruct H as (Em & Ef & _ & Er). split; cbn.
  - by rewrite (freq_ok_mode _ _ _ Em), Ef.
  - rewrite (rate_ok_mode _ _ _ Em), Er. by case_match.
Qed.

Lemma l_configure : stays limited (configure_params s id js t).
Proof. unfold configure_params. hquiet. Qed.
#[local] Hint Resolve l_configure : quiet.

Lemma l_set_frequency : stays limited (cmd_set_frequency s id t js).
Proof.
  unfold cmd_set_frequency. hwalk. hwalk; [hleaf|]. hwalk. hwalk; [hleaf|]. do 2 hwalk.
  hwalk; [hleaf|]. apply h_get_bind. intros r. case_match eqn:Ef; [hforget; hleaf|].
  eapply h_bind with (Q := fun _ => limited); [|intros applied; hquiet].
  eapply h_pre; [|apply l_tune]. intros w [Hw ->]. split; [exact Hw|].
  unfold freq_ok. zbool. apply andb_true_intro. split; apply Z.leb_le; lia.
Qed.

Lemma l_set_sample_rate : stays limited (cmd_set_sample_rate s id t js).
Proof.
  unfold cmd_set_sample_rate. hwalk. hwalk; [hleaf|]. hwalk. hwalk; [hleaf|]. hwalk.
  hwalk; [hleaf|]. hwalk. cbv zeta. apply h_get_bind. intros r. case_match eqn:Ef; [hforget; hleaf|].
  eapply h_bind with (Q := fun _ => limited); [|intros applied; hquiet].
  eapply h_pre; [|apply l_rate]. intros w [Hw ->]. split; [exact Hw|]. unfold rate_ok.
  by apply negb_false_iff in Ef.
Qed.

(** ** A change of mode *)

(** The device is there and the frequency is within the limits. *)
Definition freq_limited (w : World D) : Prop :=
  has_dev w /\ freq_ok (w_rtl w) (g_freq_hz (w_rtl w)) = true.

#[export] Instance stable_freq_limited : Stable freq_limited.
Proof. intros w o H. exact H. Qed.

Lemma m_tune f :
  hoare (fun w => has_dev w /\ freq_ok (w_rtl w) f = true) (with_rtl (rtl_set_frequency f))
    (fun _ => freq_limited).
Proof.
  intros w a w' [Hd Hf]. unfold with_rtl. pose proof (set_frequency_limits (w_rtl w) f Hf) as H.
  destruct (rtl_set_frequency f (w_rtl w)) as [b r]. intros [= _ <-]. cbn in H.
  destruct H as (Em & _ & Ed & Ef). split; [by apply Ed|]. cbn.
  rewrite (freq_ok_mode _ _ _ Em), Ef. destruct Hd as [d ->]. done.
Qed.

Lemma m_rate f :
  hoare (fun w => freq_limited w /\ rate_ok (w_rtl w) f = true) (with_rtl (rtl_set_sample_rate f))
    (fun _ => limited).
Proof.
  intros w a w' [[Hd Hq] Hf]. unfold with_rtl. pose proof (set_rate_limits (w_rtl w) f) as H.
  destruct (rtl_set_sample_rate f (w_rtl w)) as [b r]. intros [= _ <-]. cbn in H.
  destruct H as (Em & Ef & _ & Er). split; cbn.
  - by rewrite (freq_ok_mode _ _ _ Em), Ef.
  - rewrite (rate_ok_mode _ _ _ Em), Er. destruct Hd as [d ->]. done.
Qed.

Lemma bounds_ok (r : Rtl D) : freq_ok r (rtl_freq_min r) = true /\ freq_ok r (rtl_freq_max r) = true.
Proof. unfold freq_ok, rtl_freq_min, rtl_freq_max. by case_decide. Qed.

Lemma preferred_ok (r : Rtl D) : rate_ok r (rtl_preferred_rate r) = true.
Proof. unfold rate_ok, rtl_preferred_rate, rtl_rate_list. by case_decide. Qed.

Lemma m_mode_change : hoare has_dev apply_mode_change_side_effects (fun _ => limited).
Proof.
  unfold apply_mode_change_side_effects. apply h_get_bind. intros r.
  apply (h_then _ freq_limited).
  - case_match eqn:Ec.
    + eapply h_bind with (Q := fun _ => freq_limited); [|intros a; hquiet].
      eapply h_pre; [|apply m_tune]. intros w [Hd ->]. split; [done|]. case_match; apply bounds_ok.
    + eapply h_post; [apply h_ret|]. intros u w [[Hd ->] _]. split; [done|].
      unfold freq_ok. zbool. apply andb_true_intro. split; apply Z.leb_le; lia.
  - apply h_get_bind. intros r'. apply (h_then _ limited); [|hquiet]. case_match eqn:Er.
    + eapply h_post; [apply h_ret|]. intros u w [[[_ Hf] ->] _]. by split.
    + eapply h_bind with (Q := fun _ => limited); [|intros a; hquiet].
      eapply h_pre; [|apply m_rate]. intros w [Hd ->]. split; [done|]. apply preferred_ok.
Qed.

Lemma l_direct_sampling m :
  hoare limited (with_rtl (rtl_set_direct_sampling m))
    (fun rc => if rc =? 0 then has_dev else limited).
Proof.
  intros w rc w' Hw. unfold with_rtl, rtl_set_direct_sampling.
  destruct (s_dev (w_rtl w)) as [d|]; [|by intros [= <- <-]].
  destruct (rtlsdr_set_direct_sampling d (ds_code m)) as [c d']. intros [= <- <-].
  destruct (c =? 0); [by exists d'|]. by eapply limits_frame.
Qed.

Lemma l_set_direct_sampling vt v : stays limited (set_direct_sampling s id js vt v).
Proof.
  unfold set_direct_sampling. hwalk; [hleaf|]. hwalk; [|hleaf]. hwalk. hwalk; [hleaf|]. hwalk.
  hwalk; [hleaf|]. eapply h_bind; [apply l_direct_sampling|]. intros rc. cbv beta.
  destruct (rc =? 0); cbn [negb]; [|hleaf].
  eapply h_then with (P' := has_dev); [hleaf|]. eapply h_then with (P' := has_dev); [hleaf|].
  eapply h_then; [apply m_mode_change|hleaf].
Qed.

Lemma l_set_rf_gain vt v : stays limited (set_rf_gain s id js vt v).
Proof.
  unfold set_rf_gain. hwalk; [hleaf|]. apply h_get_bind. intros r. hwalk; [hforget; hleaf|].
  apply (h_fact _ (in_limits r)); [by intros w [? ->]|]. intros Hr.
  apply (h_pre _ limited); [tauto|]. do 2 hwalk. hwalk; [hleaf|].
  eapply h_bind; [apply h_lift|]. intros [applied r'].
  apply (h_then _ limited); [|hquiet]. apply h_modify. intros w [_ E].
  apply set_gain_tuning in E. by eapply tuning_limits.
Qed.

Lemma l_set_control : stays limited (cmd_set_control s id t js).
Proof.
  pose proof l_set_rf_gain. pose proof l_set_direct_sampling.
  unfold cmd_set_control, set_agc, set_bias_tee, set_ppm. hquiet.
Qed.
End Handlers.

(** ** The server *)
Section Server.
Context {D : Type} {P : Platform D} {T : PlatformLaws D}.

Lemma l_create (fd : Z) (ip : list Z) : stays (limited (D := D)) (session_create fd ip).
Proof.
  unfold session_create. eapply h_stay; [apply s_get|intros r]. destruct r; [|apply s_ret].
  eapply h_stay; [apply s_get|intros g]. eapply h_stay; [by apply l_modify|intros _; apply s_ret].
Qed.

Lemma l_callback (now : Z) (buf : list Z) : stays (limited (D := D)) (rtl_callback now buf).
Proof.
  unfold rtl_callback. eapply h_stay; [apply s_get|intros r]. case_match; [apply s_ret|].
  eapply h_stay; [by apply l_modify|intros _]. eapply h_stay.
  { apply l_with_rtl. intros r'. pose proof (measure_tuning now buf r') as H'.
    by destruct (measure_adc_level now buf r'). }
  intros ev. eapply h_stay; [destruct ev; hleaf|intros _]. by apply l_modify.
Qed.

#[export] Instance l_kept : Kept (limited (D := D)).
Proof.
  split; intros; [apply _|apply l_hello|apply l_authenticate|apply l_get_capabilities|apply l_set_frequency
    |apply l_set_sample_rate|apply l_set_control|apply l_open_stream|apply l_start_rx|apply l_stop_rx
    |apply l_close_stream|apply l_create|apply l_session_destroy|apply l_callback].
Qed.
End Server.

(** C14: the receiver stays within what the capabilities publish.  With a tuner
    that reports the frequency it was set to, in every reachable state the
    frequency lies in the range, and the requested sample rate in the list, that
    get_capabilities publishes for the current sampling mode; in particular a
    change of direct_sampling brings both back into the new limits. *)
Theorem tuning_in_limits {D : Type} {P : Platform D} {T : PlatformLaws D} (c : Conf) (r : Rtl D)
    (v : Srv D) :
  in_limits r -> reachable c r v ->
  let r' := w_rtl (sv_world v) in
  rtl_freq_min r' <= g_freq_hz r' <= rtl_freq_max r' /\ In (g_rate_requested_sps r') (rtl_rate_list r').
Proof.
  intros Hr Hv. cbn zeta. destruct (kept_reachable limited c r v ltac:(intros ctx; exact Hr) Hv) as [Hf Hq].
  unfold freq_ok in Hf. zbool. split; [done|]. unfold rate_ok in Hq.
  apply existsb_exists in Hq as (x & Hx & ->%Z.eqb_eq). done.
Qed.

(** The client tunes to 430 MHz, then selects the I branch, which ends at 30
    MHz. *)
Definition mode_change_script : list action :=
  Sample.connect 7 ++ Sample.hello 0
  ++ Sample.request 0 (jq "{'type':'request','id':'2','command':'set_frequency','params':{'function':'rx','frequency_hz':430000000}}")
  ++ Sample.request 0 (jq "{'type':'request','id':'3','command':'set_sample_rate','params':{'function':'rx','sample_rate_sps':2400000}}")
  ++ Sample.request 0 (jq "{'type':'request','id':'4','command':'set_control','params':{'function':'rx','name':'direct_sampling','value':'i_branch'}}").

Lemma tuning_in_limits_witness :
  let r' := w_rtl (sv_world (Sample.after mode_change_script (Sample.server false (mkRing [] [] false)))) in
  g_sampling_mode r' = SAMPLING_DIRECT_I /\ g_freq_hz r' = 30000000 /\
  g_rate_requested_sps r' = 1024000 /\ In (g_rate_requested_sps r') (rtl_rate_list r').
Proof.
  pose proof (Sample.reached false (mkRing [] [] false) mode_change_script
    ltac:(vm_compute; reflexivity)) as Hv.
  cbn zeta. split; [vm_compute; reflexivity|]. split; [vm_compute; reflexivity|].
  split; [vm_compute; reflexivity|]. revert Hv.
  generalize (Sample.after mode_change_script (Sample.server false (mkRing [] [] false))).
  intros v Hv. refine (proj2 (tuning_in_limits _ _ v _ Hv)). split; vm_compute; reflexivity.
Defined.
