(* ===== verification/Reports.v ===== *)
(** * What the daemon reports

    get_capabilities, get_status, get_clock_status and ping, which any client that
    has said hello may send, authenticated or not.  Their replies are built with
    snprintf in buffers of fixed sizes; in every reachable state they are the complete
    texts of the JSON values here, which tell the state of the receiver. *)
From Stdlib Require Import SpecFloat.
From S2P Require Import Prelude CLib Jsmn JsonText JsonTok Sha256 Auth JsonEscape Config Rtl Vita World.
From S2P Require Import Session Commands RxCommands Server Quiet Invariants Safety Kept Requests Tuning Control Settings Limits.
#[local] Open Scope Z_scope.

(** ** The values *)
Definition fields (l : list (string * json)) : json := JObj ((fun m => (txt m.1, m.2)) <$> l).

Definition word (x : string) : json := JStr (txt x).

Definition null : json := JPrim (txt "null").

(** The step of the tuner that is nearest to 20 dB; the first of two that are. *)
Definition preferred (gs : list Z) : Z :=
  if gs is g :: l then nearest_gain l g else RTL_DEFAULT_GAIN.

Definition five_volts_only : json := JArr [JPrim (txt "0.0"); JPrim (txt "5.0")].

(** The five controls and what they take; [steps] is the array of the gains. *)
Definition controls_value (steps : json) (lo hi pref : Z) : json :=
  JArr [
    fields [("name", word "rf_gain"); ("type", word "float"); ("unit", word "dB"); ("min", JPrim (tenths lo));
            ("max", JPrim (tenths hi)); ("default", JPrim (tenths pref)); ("allowed_values", steps)]%string;
    fields [("name", word "agc"); ("type", word "boolean"); ("default", bool_value false)]%string;
    fields [("name", word "bias_tee"); ("type", word "float"); ("unit", word "V"); ("min", JPrim (txt "0.0"));
            ("max", JPrim (txt "5.0")); ("step", JPrim (txt "5.0")); ("default", JPrim (txt "0.0"));
            ("allowed_values", five_volts_only)]%string;
    fields [("name", word "ppm_correction"); ("type", word "integer"); ("min", JPrim (txt "-100")); ("max", num 100);
            ("step", num 1); ("default", num 0)]%string;
    fields [("name", word "direct_sampling"); ("type", word "enum");
            ("values", JArr [word "off"; word "i_branch"; word "q_branch"]); ("default", word "off")]%string].

Definition steps_array (gs : list Z) : json := JArr (JPrim <$> (tenths <$> gs)).

Definition controls_of (gs : list Z) : json :=
  controls_value (steps_array gs) (default 0 (head gs)) (default 496 (last gs)) (preferred gs).

Definition rates_array {D} (r : Rtl D) : json := JArr (num <$> rtl_rate_list r).

Definition u8_format (c : Conf) : json :=
  fields [("encoding", word "unsigned"); ("bits_per_component", num 8); ("container_bits", num 8);
          ("packing", word "interleaved"); ("byte_order", word "big_endian");
          ("zero_point", JPrim (fmt_f 2 (g_u8_zero_point c))); ("native", bool_value true);
          ("supported", bool_value true); ("label", word "u8")]%string.

Definition capabilities_value {D} (c : Conf) (r : Rtl D) (rates controls : json) (pref : Z) : json :=
  fields [("schema", word "sdrslc.capabilities"); ("schema_version", num 2);
    ("rx", fields [
      ("tier", num 2); ("access", word "exclusive");
      ("auth", JStr (if g_rx_auth c then AUTH_METHOD_PSK else txt "none"));
      ("frequency_ranges_hz", JArr [fields [("min", num (rtl_freq_min r)); ("max", num (rtl_freq_max r))]]);
      ("sample_rates_sps", rates); ("preferred_sample_rate_sps", num (rtl_preferred_rate r));
      ("preferred_gain_db", JPrim (tenths pref));
      ("reference_level_dbm_at_preferred_gain", JPrim (tenths (-100 - pref)));
      ("reference_level_accuracy_db", JPrim (txt "8.0"));
      ("transports", JArr [fields [("protocol", word "vita49"); ("protocol_version", word "VITA-A/1.0");
                                   ("source_port", num (g_vita_src_port c));
                                   ("samples_per_packet", num (g_samples_per_pkt r))]]);
      ("iq_formats", JArr [u8_format c]); ("controls", controls)])]%string.

(** The level of the ADC and the monitors are numbers or null. *)
Definition level_value {D} `{Platform D} (r : Rtl D) : json :=
  match rtl_get_adc_level_dbfs r with Some d => JPrim (snprintf 32 (fmt_f 1 d)) | None => null end.

Definition status_value {D} `{Platform D} (e : Env) (control : list Z) (streaming : bool) (r : Rtl D) : json :=
  let gain := g_gain_tenth_db r in
  fields [("rx", fields [
    ("enabled", bool_value true); ("streaming", bool_value streaming); ("control_state", JStr control);
    ("frequency_hz", num (g_freq_hz r)); ("sample_rate_sps", num (g_rate_requested_sps r));
    ("actual_sample_rate_sps", num (g_rate_sps r)); ("reference_level_dbm", JPrim (tenths (-100 - gain)));
    ("adc_overload", bool_value (g_adc_overload r)); ("adc_level_dbfs", level_value r); ("lo_locked", null);
    ("controls", fields [
      ("rf_gain", JPrim (tenths gain)); ("agc", bool_value (g_agc_enabled r));
      ("bias_tee", JPrim (fmt_f 1 (g_bias_tee_volts r))); ("ppm_correction", JPrim (fmt_d (g_ppm_correction r)));
      ("direct_sampling", JStr (ds_names (g_sampling_mode r)))]);
    ("hardware_monitors", fields [
      ("pa_temperature_celsius", null); ("pa_supply_voltage_v", null); ("pa_drain_current_ma", null);
      ("board_temperature_celsius", JPrim (fmt_nullable (read_board_temperature e)));
      ("supply_voltage_v", JPrim (fmt_nullable (read_supply_voltage e)));
      ("total_current_ma", null)])])]%string.

Definition clock_value (e : Env) : json :=
  fields [("source", word "free_running"); ("synced", bool_value false); ("accuracy_us", null);
    ("utc_time", JStr (utc_now e).1); ("epoch_s", num (e_wall_s e));
    ("ptp", fields [("available", bool_value false)]); ("gps", fields [("available", bool_value false)])]%string.

(** ** The texts *)

(** An array written with strncat, when it fits. *)
Lemma cat_list_rest (cap : nat) (items : list (list Z)) (acc : list Z) :
  Forall (fun x => (length x <= 14)%nat) items ->
  (length acc + length (elems_text (JPrim <$> items)) + 1 < cap)%nat ->
  cat_list cap items false acc = acc ++ elems_text (JPrim <$> items) ++ [93].
Proof.
  intros H. revert acc. induction H as [|x l Hx _ IH]; intros acc Hl; cbn [cat_list fmap list_fmap elems_text] in *.
  - unfold strncat_cap. cbn [length] in Hl. rewrite take_ge; [done|]. vm_compute (length (txt _)). lia.
  - cbn [print] in *. rewrite snprintf_fits by (rewrite length_app; vm_compute (length (txt _)); lia).
    cbn [length] in Hl. rewrite length_app in Hl. vm_compute (txt ",").
    assert (strncat_cap cap acc ([44] ++ x) = acc ++ 44 :: x) as E.
    { unfold strncat_cap. rewrite take_ge; [done|]. cbn [length app]. lia. }
    rewrite E, IH.
    + rewrite <- app_assoc. cbn [app]. by rewrite <- app_assoc.
    + rewrite length_app. cbn [length]. lia.
Qed.

Lemma cat_list_print (cap : nat) (items : list (list Z)) :
  Forall (fun x => (length x <= 14)%nat) items -> (length (print (JArr (JPrim <$> items))) < cap)%nat ->
  cat_list cap items true (txt "[") = print (JArr (JPrim <$> items)).
Proof.
  intros H. destruct items as [|x l]; [intros Hl; cbn in *; unfold strncat_cap; rewrite take_ge; [done|cbn; lia]|].
  change (print (JArr (JPrim <$> x :: l))) with (91 :: (x ++ elems_text (JPrim <$> l)) ++ [93]).
  apply Forall_cons in H as [Hx Hs]. cbn [length cat_list]. rewrite !length_app. cbn [length]. intros Hl.
  rewrite snprintf_fits by (cbn [app]; lia).
  assert (strncat_cap cap (txt "[") ([] ++ x) = 91 :: x) as E.
  { unfold strncat_cap. rewrite take_ge; [done|]. vm_compute (length (txt _)). cbn [app]. lia. }
  rewrite E, cat_list_rest; [|done|cbn [length]; lia]. cbn [app]. by rewrite <- app_assoc.
Qed.

Lemma elems_length (k : nat) (items : list (list Z)) :
  Forall (fun x => (length x <= k)%nat) items -> (length (elems_text (JPrim <$> items)) <= S k * length items)%nat.
Proof.
  induction 1 as [|x l Hx _ IH]; cbn [fmap list_fmap elems_text length print]; [lia|]. rewrite length_app. lia.
Qed.

Lemma array_length (k : nat) (items : list (list Z)) :
  Forall (fun x => (length x <= k)%nat) items -> (length (print (JArr (JPrim <$> items))) <= 2 + S k * length items)%nat.
Proof.
  intros H. destruct items as [|x l]; [cbn; lia|].
  change (print (JArr (JPrim <$> x :: l))) with (91 :: (x ++ elems_text (JPrim <$> l)) ++ [93]).
  apply Forall_cons in H as [Hx Hs]. pose proof (elems_length k l Hs). cbn [length]. rewrite !length_app. cbn [length]. lia.
Qed.

(** A template that spells the text [u]. *)
Lemma snprintf_is (cap k : nat) (t u : list Z) :
  t = u -> (length t <= k)%nat -> (k < cap)%nat -> snprintf cap t = u /\ (length u <= k)%nat.
Proof. intros -> H Hk. split; [apply snprintf_fits; lia|lia]. Qed.

Ltac hide t := generalize dependent t; intros.

Ltac print_fields := unfold fields, five_volts_only, word, null, bool_value, num; cbn [fmap list_fmap fst snd print].

Lemma step_text (g : Z) : -100 <= g <= 500 -> fmt_f 1 (tenth g) = tenths g /\ (length (tenths g) <= 5)%nat.
Proof.
  intros Hg. pose proof (range_forall (-100) 601 (fun n => (length (tenths n) <=? 5)%nat)
    ltac:(vm_compute; reflexivity) g ltac:(lia)) as H. apply Nat.leb_le in H.
  split; [apply tenths_text; lia|done].
Qed.

Lemma reference_text (n : Z) :
  -4096 <= n <= 4096 ->
  fmt_f 1 (rtl_reference_level_dbm (tenth n)) = tenths (-100 - n) /\ (length (tenths (-100 - n)) <= 8)%nat.
Proof.
  intros Hn. pose proof (range_forall (-4096) 8193
    (fun n => streq (fmt_f 1 (rtl_reference_level_dbm (tenth n))) (tenths (-100 - n)) && (length (tenths (-100 - n)) <=? 8)%nat)
    ltac:(vm_compute; reflexivity) n ltac:(lia)) as H.
  apply andb_prop in H as [H1 H2]. apply bool_decide_eq_true in H1. by apply Nat.leb_le in H2.
Qed.

(** The steps of the tuner, as they are read: few, and of a size. *)
Record table_ok (gs : list Z) : Prop := {
  tb_few : (length gs <= 64)%nat;
  tb_range : Forall (fun g => -100 <= g <= 500) gs
}.

Lemma nearest_in (l : list Z) (g : Z) : nearest_gain l g ∈ g :: l.
Proof.
  unfold nearest_gain. revert g. induction l as [|x l IH]; intros g; cbn [fold_left]; [by left|].
  case_match; [specialize (IH x)|specialize (IH g)]; apply elem_of_cons in IH as [-> | IH]; rewrite ?elem_of_cons; auto.
Qed.

(** No step is nearer to 20 dB. *)
Lemma nearest_least (l : list Z) (g x : Z) :
  x ∈ g :: l -> Z.abs (nearest_gain l g - RTL_DEFAULT_GAIN) <= Z.abs (x - RTL_DEFAULT_GAIN).
Proof.
  unfold nearest_gain. revert g x. induction l as [|y l IH]; intros g x Hx; cbn [fold_left].
  - apply list_elem_of_singleton in Hx as ->. lia.
  - case_match eqn:E; zbool.
    + pose proof (IH y y ltac:(by left)). apply elem_of_cons in Hx as [-> | Hx]; [lia|]. by apply IH.
    + pose proof (IH g g ltac:(by left)).
      apply elem_of_cons in Hx as [-> | [-> | Hx]%elem_of_cons]; [lia|lia|]. apply IH. by right.
Qed.

Lemma preferred_range (gs : list Z) : table_ok gs -> -100 <= preferred gs <= 500.
Proof.
  intros [_ H]. destruct gs as [|g l]; [vm_compute; split; discriminate|]. cbn [preferred].
  rewrite Forall_forall in H. apply H, nearest_in.
Qed.

Lemma preferred_nearest (gs : list Z) (x : Z) :
  x ∈ gs -> preferred gs ∈ gs /\ Z.abs (preferred gs - 200) <= Z.abs (x - 200).
Proof.
  intros Hx. destruct gs as [|g l]; [by apply elem_of_nil in Hx|]. cbn [preferred].
  split; [apply nearest_in|]. by apply nearest_least.
Qed.

Lemma steps_array_text (gs : list Z) :
  table_ok gs ->
  cat_list 400 (fmt_f 1 <$> (tenth <$> gs)) true (txt "[") = print (steps_array gs) /\
  (length (print (steps_array gs)) <= 386)%nat.
Proof.
  intros [Hf Hr].
  assert (fmt_f 1 <$> (tenth <$> gs) = tenths <$> gs) as ->.
  { induction Hr as [|g l Hg Hr IH]; [done|]. cbn [fmap list_fmap length] in *. f_equal; [by apply step_text|]. apply IH. lia. }
  assert (Forall (fun x => (length x <= 5)%nat) (tenths <$> gs)) as H.
  { apply Forall_fmap. eapply Forall_impl; [exact Hr|]. intros g Hg. by apply step_text. }
  pose proof (array_length 5 _ H) as Hl. rewrite length_fmap in Hl. split; [|unfold steps_array; lia].
  apply cat_list_print; [eapply Forall_impl; [exact H|]; cbn; lia|lia].
Qed.

Lemma ends_range (gs : list Z) :
  table_ok gs -> -100 <= default 0 (head gs) <= 500 /\ -100 <= default 496 (last gs) <= 500.
Proof.
  intros [_ H]. rewrite Forall_forall in H. split.
  - destruct gs; [done|]. apply H. by left.
  - destruct (last gs) as [x|] eqn:E; [|done]. apply H. by eapply last_Some_elem_of.
Qed.

Lemma controls_text (gs : list Z) :
  table_ok gs ->
  controls_json gs (tenth (preferred gs)) = print (controls_of gs) /\ (length (print (controls_of gs)) <= 1190)%nat.
Proof.
  intros Ht. destruct (steps_array_text gs Ht) as [Es Hs]. destruct (ends_range gs Ht) as [Hlo Hhi].
  destruct (step_text _ (preferred_range gs Ht)) as [Ep Hp].
  destruct (step_text _ Hlo) as [El Hl], (step_text _ Hhi) as [Eh Hh].
  unfold controls_json, controls_of. rewrite Es, Ep.
  assert (fmt_f 1 (match gs with [] => d_zero | g :: _ => tenth g end) = tenths (default 0 (head gs))) as ->
    by (destruct gs; [vm_compute; reflexivity|exact El]).
  assert (fmt_f 1 (match rev gs with [] => d_dec 496 (-1) | g :: _ => tenth g end) = tenths (default 496 (last gs))) as ->.
  { destruct gs as [|g l _] using rev_ind; [vm_compute; reflexivity|].
    rewrite rev_app_distr. rewrite last_snoc in *. exact Eh. }
  change (fmt_f 1 RTL_BIAS_TEE_VOLTS) with (txt "5.0"). cbv zeta.
  generalize dependent (steps_array gs). intros steps Es Hs.
  apply snprintf_is.
  - unfold controls_value, five_volts_only, fields. cbn [fmap list_fmap fst snd print num].
    generalize (tenths (preferred gs)), (tenths (default 0 (head gs))), (tenths (default 496 (last gs))), (print steps).
    intros. spelt.
  - rewrite !length_app. vm_compute (length (jq _)). vm_compute (length (txt _)). lia.
  - lia.
Qed.

(** What the configuration contributes. *)
Record conf_ok (c : Conf) : Prop := {
  co_port : 0 <= g_vita_src_port c < 65536;
  co_zero_point : (length (fmt_f 2 (g_u8_zero_point c)) <= 20)%nat
}.

Lemma fmt_d_num (n : Z) : 0 <= n -> fmt_d n = fmt_u n.
Proof. intros H. unfold fmt_d. by rewrite (proj2 (Z.ltb_ge _ _)). Qed.

Lemma rates_text {D} (r : Rtl D) :
  cat_list 160 (fmt_u <$> rtl_rate_list r) true (txt "[") = print (rates_array r) /\
  (length (print (rates_array r)) <= 160)%nat.
Proof. unfold rates_array, rtl_rate_list. case_decide; (split; [vm_compute; reflexivity|vm_compute; lia]). Qed.

Lemma mode_numbers {D} (r : Rtl D) :
  (length (fmt_u (rtl_freq_min r)) + length (fmt_u (rtl_freq_max r)) + length (fmt_u (rtl_preferred_rate r)) <= 30)%nat.
Proof. unfold rtl_freq_min, rtl_freq_max, rtl_preferred_rate. case_decide; vm_compute; lia. Qed.

Lemma capabilities_text {D} (c : Conf) (r : Rtl D) (gs : list Z) :
  conf_ok c -> table_ok gs -> 0 <= g_samples_per_pkt r < 2 ^ 64 ->
  let v := capabilities_value c r (rates_array r) (controls_of gs) (preferred gs) in
  capabilities_json c r gs (tenth (preferred gs)) = print v /\ (length (print v) <= 2800)%nat.
Proof.
  intros [Hport Hz] Ht Hn. destruct (controls_text gs Ht) as [Ec Hc]. destruct (rates_text r) as [Er Hr].
  destruct (step_text _ (preferred_range gs Ht)) as [Ep Hp]. pose proof (preferred_range gs Ht) as Hpr.
  destruct (reference_text (preferred gs)) as [Ed Hd]; [lia|]. pose proof (mode_numbers r) as Hm.
  pose proof (num_length (g_samples_per_pkt r) Hn) as Hs. pose proof (fmt_u_length 4 (g_vita_src_port c) ltac:(cbn; lia)) as Hv.
  assert (length (if g_rx_auth c then AUTH_METHOD_PSK else txt "none") <= 20)%nat as Ha
    by (destruct (g_rx_auth c); vm_compute; lia).
  cbv zeta. unfold capabilities_json. rewrite Ec, Er, Ep, Ed, (fmt_d_num (g_vita_src_port c)) by lia.
  generalize dependent (controls_of gs). intros controls Ec Hc. generalize dependent (rates_array r). intros rates Er Hr.
  clear Ec Er. apply snprintf_is.
  - change (fmt_d CAP_SCHEMA_VERSION) with (fmt_u 2). change (fmt_d RX_TIER) with (fmt_u 2).
    change (fmt_f 1 RTL_REF_LEVEL_ACCURACY_DB) with (txt "8.0").
    unfold capabilities_value, u8_format. print_fields.
    generalize (fmt_u (rtl_freq_min r)), (fmt_u (rtl_freq_max r)), (fmt_u (rtl_preferred_rate r)),
      (fmt_u (g_vita_src_port c)), (fmt_u (g_samples_per_pkt r)), (fmt_f 2 (g_u8_zero_point c)),
      (tenths (preferred gs)), (tenths (-100 - preferred gs)), (if g_rx_auth c then AUTH_METHOD_PSK else txt "none"),
      (print rates), (print controls). intros. change (fmt_u 2) with (txt "2"). change (fmt_u 8) with (txt "8"). spelt.
  - rewrite !length_app. vm_compute (length (jq _)). vm_compute (length (fmt_d _)).
    vm_compute (length (fmt_f 1 RTL_REF_LEVEL_ACCURACY_DB)). lia.
  - lia.
Qed.

(** What the receiver contributes to the status. *)
Record numbers_ok {D} (r : Rtl D) : Prop := {
  nb_freq : 0 <= g_freq_hz r < 2 ^ 64;
  nb_requested : 0 <= g_rate_requested_sps r < 2 ^ 64;
  nb_rate : 0 <= g_rate_sps r < 2 ^ 64;
  nb_packet : 0 <= g_samples_per_pkt r < 2 ^ 64
}.

Lemma nullable_length (v : option double) : (length (fmt_nullable v) <= 24)%nat.
Proof. unfold fmt_nullable. destruct v; [apply snprintf_le|vm_compute; lia]. Qed.

Lemma level_text {D} `{Platform D} (r : Rtl D) :
  match rtl_get_adc_level_dbfs r with Some d => snprintf 32 (fmt_f 1 d) | None => txt "null" end = print (level_value r) /\
  (length (print (level_value r)) <= 32)%nat.
Proof. unfold level_value. destruct (rtl_get_adc_level_dbfs r); (split; [done|]); [apply snprintf_le|vm_compute; lia]. Qed.

Lemma status_text {D} `{Platform D} (e : Env) (x : Session) (control : list Z) (w : World D) :
  numbers_ok (w_rtl w) -> settings_ok w -> (length control <= 14)%nat ->
  let v := status_value e control (bool_decide (ss_state x = SESSION_STREAMING)) (w_rtl w) in
  status_json e x control (w_rtl w) = print v /\ (length (print v) <= 1000)%nat.
Proof.
  intros [Hf Hq Hr _] Hok Hc. set (r := w_rtl w) in *. pose proof (so_gain _ Hok) as Hg. pose proof (so_ppm _ Hok) as Hp.
  fold r in Hg, Hp. destruct (tenths_text _ Hg) as [Eg Hgl]. destruct (reference_text _ Hg) as [Er Hrl].
  pose proof (num_length _ Hf). pose proof (num_length _ Hq). pose proof (num_length _ Hr).
  destruct (level_text r) as [El Hl]. pose proof (nullable_length (read_board_temperature e)).
  pose proof (nullable_length (read_supply_voltage e)). pose proof (fmt_d_length 2 (g_ppm_correction r) ltac:(cbn; lia)).
  assert (length (fmt_f 1 (g_bias_tee_volts r)) <= 3)%nat
    by (unfold r; destruct (so_bias _ Hok) as [-> | ->]; vm_compute; lia).
  assert (length (ds_names (g_sampling_mode r)) <= 8)%nat by (destruct (g_sampling_mode r); vm_compute; lia).
  assert (forall b, (length (tf b) <= 5)%nat) as Hb by (intros []; vm_compute; lia).
  pose proof (Hb (bool_decide (ss_state x = SESSION_STREAMING))). pose proof (Hb (g_adc_overload r)).
  pose proof (Hb (g_agc_enabled r)). cbv zeta. unfold status_value, status_json, num, bool_value.
  rewrite El, Eg, Er. clear El Eg Er Hb. change (tf true) with (txt "true").
  hide (fmt_u (g_freq_hz r)). hide (fmt_u (g_rate_requested_sps r)). hide (fmt_u (g_rate_sps r)).
  hide (level_value r). hide (tenths (g_gain_tenth_db r)). hide (tenths (-100 - g_gain_tenth_db r)).
  hide (fmt_f 1 (g_bias_tee_volts r)). hide (fmt_d (g_ppm_correction r)). hide (ds_names (g_sampling_mode r)).
  hide (fmt_nullable (read_board_temperature e)). hide (fmt_nullable (read_supply_voltage e)).
  hide (tf (g_adc_overload r)). hide (tf (g_agc_enabled r)). hide (tf (bool_decide (ss_state x = SESSION_STREAMING))).
  print_fields. apply snprintf_is.
  - spelt.
  - rewrite !length_app. vm_compute (length (jq _)). lia.
  - by apply Nat.ltb_lt.
Qed.

Lemma clock_text (e : Env) :
  0 <= e_wall_s e < 2 ^ 63 ->
  let '(iso, epoch) := utc_now e in
  snprintf 256
    (jq "{'source':'free_running','synced':false,'accuracy_us':null,'utc_time':'" ++ iso
     ++ jq "','epoch_s':" ++ fmt_d epoch
     ++ jq ",'ptp':{'available':false},'gps':{'available':false}}") = print (clock_value e) /\
  (length (print (clock_value e)) <= 230)%nat.
Proof.
  intros He. unfold clock_value. assert (length (utc_now e).1 <= 40)%nat as Hi
    by (unfold utc_now; destruct (civil _) as [[? ?] ?]; apply snprintf_le).
  assert ((utc_now e).2 = e_wall_s e) as E by (unfold utc_now; by destruct (civil _) as [[? ?] ?]).
  destruct (utc_now e) as [iso epoch]. cbn [fst snd] in *. subst epoch. rewrite fmt_d_num by lia.
  pose proof (num_length (e_wall_s e) ltac:(lia)) as Hn. unfold num. hide (fmt_u (e_wall_s e)).
  change (bool_value false) with (JPrim (txt "false")). print_fields. apply snprintf_is.
  - spelt.
  - rewrite !length_app. vm_compute (length (jq _)). lia.
  - lia.
Qed.
