(* ===== verification/Inquiry.v ===== *)
(** * Requests for a report

    The invariant under which the reports of Reports.v are complete ([reported]), and
    the requests that ask for them, from the message to the reply. *)
From Stdlib Require Import SpecFloat.
From S2P Require Import Prelude CLib Jsmn JsonText JsonTok Sha256 Auth JsonEscape Config Rtl Vita World.
From S2P Require Import Session Commands RxCommands Server Quiet Invariants Safety Kept Requests Tuning Control Settings Limits Reports.
#[local] Open Scope Z_scope.

(** ** The table of gains and the numbers of the receiver, as an invariant *)
Record reported {D} (w : World D) : Prop := {
  rp_rate : 0 <= g_rate_sps (w_rtl w) < 2 ^ 64;
  rp_packet : 0 <= g_samples_per_pkt (w_rtl w) < 2 ^ 64;
  rp_table : match w_gains w with
             | Some gs => table_ok gs /\ w_gain_default w = tenth (preferred gs)
             | None => True
             end;
  rp_conf : conf_ok (w_conf w)
}.

Definition same_figures {D} (r r' : Rtl D) : Prop :=
  (0 <= g_rate_sps r < 2 ^ 64 -> 0 <= g_rate_sps r' < 2 ^ 64) /\ g_samples_per_pkt r' = g_samples_per_pkt r.

Section Calls.
Context {D : Type} {P : Platform D} {T : PlatformTypes D}.
Implicit Types r : Rtl D.

Ltac figures := by (repeat case_match; split).

Lemma start_figures b r : same_figures r (rtl_bridge_start b r).2.
Proof. unfold rtl_bridge_start. figures. Qed.

Lemma stop_figures r : same_figures r (rtl_bridge_stop r).
Proof. unfold rtl_bridge_stop, on_dev. figures. Qed.

Lemma set_frequency_figures f r : same_figures r (rtl_set_frequency f r).2.
Proof. unfold rtl_set_frequency. figures. Qed.

Lemma set_sample_rate_figures f r : same_figures r (rtl_set_sample_rate f r).2.
Proof.
  unfold rtl_set_sample_rate. destruct (s_dev r); [|done]. destruct (rtlsdr_set_sample_rate _ _) as [? d'].
  cbn. case_match; split; try done. cbn. pose proof (rate_u32 d'). lia.
Qed.

Lemma set_agc_figures b r : same_figures r (rtl_set_agc b r).2.
Proof. unfold rtl_set_agc. figures. Qed.

Lemma set_bias_figures x r : same_figures r (rtl_set_bias_tee x r).2.
Proof. unfold rtl_set_bias_tee. figures. Qed.

Lemma set_ppm_figures n r : same_figures r (rtl_set_ppm n r).2.
Proof. unfold rtl_set_ppm. figures. Qed.

Lemma set_direct_sampling_figures m r : same_figures r (rtl_set_direct_sampling m r).2.
Proof. unfold rtl_set_direct_sampling. figures. Qed.

Lemma set_gain_figures x r : match rtl_set_gain x r with Some (_, r') => same_figures r r' | None => True end.
Proof.
  unfold rtl_set_gain. destruct (s_dev r) as [d|]; [|done]. destruct (d_round_int _) as [n|]; [|done].
  destruct (rtlsdr_set_tuner_gain_mode d 1) as [? d1]. by destruct (rtlsdr_set_tuner_gain d1 n).
Qed.

Lemma measure_figures now buf r : same_figures r (measure_adc_level now buf r).1.
Proof. unfold measure_adc_level. figures. Qed.
End Calls.

Section Kept.
Context {D : Type} {P : Platform D} {T : PlatformTypes D} {U : TunerLaws D}.
Implicit Types w : World D.

#[export] Instance stable_reported : Stable (reported (D := D)).
Proof. intros w o []. by split. Qed.

Lemma reported_frame w w' :
  reported w -> same_figures (w_rtl w) (w_rtl w') -> w_gains w' = w_gains w -> w_gain_default w' = w_gain_default w ->
  w_conf w' = w_conf w -> reported w'.
Proof. intros [Hr Hp Ht Hc] [E1 E2] E3 E4 E5. split; rewrite ?E2, ?E3, ?E4, ?E5; auto. Qed.

Lemma rep_modify f :
  (forall w, same_figures (w_rtl w) (w_rtl (f w)) /\ w_gains (f w) = w_gains w /\ w_gain_default (f w) = w_gain_default w /\
     w_conf (f w) = w_conf w) ->
  stays (reported (D := D)) (modify f).
Proof. intros Hf. apply s_modify. intros w Hw. destruct (Hf w) as (H1 & H2 & H3 & H4). by eapply reported_frame. Qed.

Lemma rep_with_rtl {A} (f : Rtl D -> A * Rtl D) :
  (forall r, same_figures r (f r).2) -> stays (reported (D := D)) (with_rtl f).
Proof.
  intros Hf w a w' Hw. unfold with_rtl. specialize (Hf (w_rtl w)).
  destruct (f (w_rtl w)) as [b r]. intros [= _ <-]. by eapply reported_frame.
Qed.

Lemma rep_with_vita {A} (f : Vita -> A * Vita) : stays (reported (D := D)) (with_vita f).
Proof.
  intros w a w' Hw. unfold with_vita. destruct (f (w_vita w)). intros [= _ <-]. by eapply reported_frame.
Qed.

#[local] Hint Resolve rep_with_vita : quiet.
#[local] Hint Extern 1 (stays reported (modify _)) => apply rep_modify; intros; by repeat case_match : quiet.
#[local] Hint Extern 1 (stays reported (set_sess _ _)) => by apply rep_modify : quiet.
#[local] Hint Extern 1 (stays reported (do_vita _)) => by apply rep_modify : quiet.
#[local] Hint Extern 1 (stays reported (do_rtl rtl_bridge_stop)) =>
  apply rep_modify; intros; split; [apply stop_figures|done] : quiet.
#[local] Hint Extern 1 (stays reported (do_rtl rtl_reset_adc_level)) => by apply rep_modify : quiet.
#[local] Hint Extern 1 (stays reported (with_rtl _)) =>
  apply rep_with_rtl; intros; first [apply start_figures|apply set_agc_figures|apply set_frequency_figures
    |apply set_sample_rate_figures|apply set_direct_sampling_figures|apply set_bias_figures|apply set_ppm_figures] : quiet.

(** The table is read from the tuner once. *)
Lemma loaded_table w : reported w -> table_ok (steps w) /\ w_gain_default (loaded w) = tenth (preferred (steps w)).
Proof.
  intros [_ _ Ht _]. unfold loaded, steps. destruct (w_gains w) as [gs|]; [done|]. cbn.
  destruct (s_dev (w_rtl w)) as [d|]; [|by repeat split; cbn; [lia|constructor]].
  split; [split; [apply few_steps|apply steps_range]|]. unfold preferred. by case_match.
Qed.

Lemma rep_gains : stays (reported (D := D)) load_gain_table.
Proof.
  intros w a w' Hw. pose proof (run_load (U := U) ret w) as E. rewrite <- run_last in E. rewrite E. intros [= _ <-].
  pose proof (loaded_table w Hw) as Ht. pose proof (gains_loaded w) as Eg. destruct Hw as [Hr Hp _ Hc].
  split; rewrite ?(proj1 (loaded_same w)); try done.
  - unfold gains in Eg. destruct (w_gains (loaded w)); [|done]. cbn in Eg. by subst.
  - unfold loaded. by destruct (w_gains w).
Qed.
#[local] Hint Resolve rep_gains : quiet.

Lemma rep_context_all : stays (reported (D := D)) context_all.
Proof. unfold context_all. hquiet. Qed.

Lemma rep_claim s : stays (reported (D := D)) (cp_rx_claim s).
Proof. unfold cp_rx_claim. hquiet. Qed.

Lemma rep_release s : stays (reported (D := D)) (cp_rx_release s).
Proof. unfold cp_rx_release. hquiet. Qed.

Lemma rep_drop_vita s : stays (reported (D := D)) (drop_vita s).
Proof. unfold drop_vita. hquiet. Qed.

Lemma rep_mode_change : stays (reported (D := D)) apply_mode_change_side_effects.
Proof. unfold apply_mode_change_side_effects. hquiet. Qed.
#[local] Hint Resolve rep_context_all rep_claim rep_release rep_drop_vita rep_mode_change : quiet.

Lemma rep_set_rf_gain s id js vt v : stays (reported (D := D)) (set_rf_gain s id js vt v).
Proof.
  unfold set_rf_gain. hwalk; [hleaf|]. apply h_get_bind. intros r. hwalk; [hforget; hleaf|]. cbv zeta.
  eapply h_bind with (Q := fun _ w => reported w /\ r = w_rtl w).
  { intros w a w' [Hw ->] E. split; [by eapply rep_gains|]. pose proof (run_load (U := U) ret w) as E'.
    rewrite <- run_last, E in E'. injection E' as _ ->. by rewrite (proj1 (loaded_same w)). }
  intros _. apply h_get_bind. intros gs. hwalk; [hforget; hleaf|].
  eapply h_bind; [apply h_lift|]. intros [x r']. apply (h_then _ (reported (D := D))); [|hquiet].
  apply h_modify. intros w [[[Hw Hr] ->] E]. pose proof (set_gain_figures (strtod v) r) as Hf. rewrite E in Hf. subst r.
  by eapply reported_frame.
Qed.
#[local] Hint Resolve rep_set_rf_gain : quiet.

Lemma rep_callback (now : Z) (buf : list Z) : stays (reported (D := D)) (rtl_callback now buf).
Proof.
  unfold rtl_callback. eapply h_stay; [apply s_get|intros r]. case_match; [apply s_ret|].
  eapply h_stay; [|intros _; eapply h_stay].
  - apply s_modify. intros w []. by split.
  - apply rep_with_rtl. intros r'. pose proof (measure_figures now buf r') as H'. by destruct (measure_adc_level now buf r').
  - intros ev. eapply h_stay; [destruct ev; hleaf|intros _]. by apply rep_modify.
Qed.

#[export] Instance rep_kept : Kept (reported (D := D)).
Proof.
  split; intros; [apply _|..|apply rep_callback].
  - unfold cmd_hello, auth_object. hquiet.
  - unfold cmd_authenticate, auth_refused. hquiet.
  - unfold cmd_get_capabilities, build_capabilities_json. hquiet.
  - unfold cmd_set_frequency, configure_params. hquiet.
  - unfold cmd_set_sample_rate, configure_params. hquiet.
  - unfold cmd_set_control, configure_params, set_agc, set_bias_tee, set_ppm, set_direct_sampling. hquiet.
  - unfold cmd_open_stream, open_vita, open_destination, refuse, open_accept, alloc_stream_id. hquiet.
  - unfold cmd_start_rx. hquiet.
  - unfold cmd_stop_rx. hquiet.
  - unfold cmd_close_stream. hquiet.
  - unfold session_create. hquiet.
  - unfold session_destroy. hquiet.
Qed.
End Kept.

(** ** The requests *)

(** Who may use the receiver, as session [s] sees it. *)
Definition control_state {D} (s : nat) (w : World D) : list Z :=
  match w_rx_owner w with
  | None => txt "free"
  | Some i => if decide (i = s) then txt "owned_by_me" else txt "owned_by_other"
  end.

Section Requests.
Context {D : Type} {P : Platform D} {T : PlatformTypes D} {U : TunerLaws D} {L : PlatformLaws D} (e : Env).
Implicit Types w : World D.

(** What is reported in reply to a command, and the world then: reading the tuner's
    steps is all that changes. *)
Inductive report (s : nat) w : list Z -> json -> World D -> Prop :=
  | report_capabilities :
      report s w (txt "get_capabilities")
        (fields [("capabilities"%string, capabilities_value (w_conf w) (w_rtl w) (rates_array (w_rtl w))
                                           (controls_of (steps w)) (preferred (steps w)))]) (loaded w)
  | report_status :
      report s w (txt "get_status")
        (status_value e (control_state s w) (bool_decide (ss_state (sess w s) = SESSION_STREAMING)) (w_rtl w)) w
  | report_clock : report s w (txt "get_clock_status") (clock_value e) w
  | report_ping : report s w (txt "ping") (JObj []) w.

(** The state of a server that can report. *)
Record ready w : Prop := {
  rd_reported : reported w;
  rd_settings : settings_ok w;
  rd_limits : in_limits (w_rtl w)
}.

Lemma ready_numbers w : ready w -> numbers_ok (w_rtl w).
Proof.
  intros [[Hr Hp _] _ [Hf Hq]]. destruct (freq_ok_u32 _ _ Hf) as (_ & _ & Hf'). split; [|..|done|done].
  - unfold RTL_FREQ_MIN_DIRECT, RTL_FREQ_MAX_NORMAL in Hf'. lia.
  - unfold rate_ok in Hq. apply existsb_exists in Hq as (x & Hx & ->%Z.eqb_eq). revert Hx.
    generalize (g_rate_requested_sps (w_rtl w)). intros x. unfold rtl_rate_list.
    assert (forall l, forallb (fun y => (0 <=? y) && (y <? 2 ^ 64)) l = true -> In x l -> 0 <= x < 2 ^ 64) as H.
    { intros l Hl Hx. rewrite forallb_forall in Hl. apply Hl in Hx. zbool. lia. }
    case_decide; apply H; vm_compute; reflexivity.
Qed.

Lemma reachable_ready (c : Conf) (r : Rtl D) (v : Srv D) :
  conf_ok c -> receiver_ok r -> in_limits r -> numbers_ok r -> reachable c r v -> ready (sv_world v).
Proof.
  intros Hc Hr Hl Hn Hv. split.
  - revert Hv. apply (kept_reachable reported c r v). intros ctx. split; try apply Hn; done.
  - by eapply reachable_settings.
  - revert Hv. apply (kept_reachable limited c r v). intros ctx. exact Hl.
Qed.

Lemma loaded_conf w : w_conf (loaded w) = w_conf w.
Proof. unfold loaded. by destruct (w_gains w). Qed.

(** The reply to get_capabilities. *)
Lemma wrapped_text (v : json) :
  (length (print v) <= 2800)%nat ->
  snprintf (Z.to_nat 6272) (jq "{'capabilities':" ++ print v ++ jq "}") = print (fields [("capabilities"%string, v)]) /\
  (length (print (fields [("capabilities"%string, v)])) <= 2830)%nat.
Proof.
  intros Hv. apply snprintf_is; [|rewrite !length_app; vm_compute (length (jq _)); lia|lia].
  unfold fields. cbn [fmap list_fmap fst snd print]. hide (print v). spelt.
Qed.

Lemma report_run (s : nat) w (cmd : list Z) (value : json) (w' : World D) :
  report s w cmd value w' -> ready w -> 0 < ss_fd (sess w s) -> 0 <= e_wall_s e < 2 ^ 63 ->
  exists f, lookup_cmd cmd (s_dispatch e) = Some f /\ (forall t js, cmd_addresses_rx (D := D) cmd t js = ret false) /\
    forall id t js, f s id t js w = Some (tt, reply s id value w').
Proof.
  intros Hrep Hw Hfd He. pose proof (ready_numbers w Hw) as Hn. destruct Hw as [Hrep' Hset _]. destruct Hrep.
  - exists cmd_get_capabilities. split; [reflexivity|]. split; [reflexivity|]. intros id t js.
    destruct (loaded_table w Hrep') as [Ht Ed].
    destruct (capabilities_text (w_conf w) (w_rtl w) (steps w) (rp_conf _ Hrep') Ht (nb_packet _ Hn)) as [E Hl].
    unfold cmd_get_capabilities, build_capabilities_json. rewrite run_assoc, run_load, run_get.
    rewrite (proj1 (loaded_same w)), gains_loaded, Ed, (loaded_conf w), E.
    destruct (wrapped_text _ Hl) as [E' Hl']. apply reply_last; [by rewrite loaded_fd|exact E'|]. rewrite E'. lia.
  - exists (cmd_get_status e). split; [reflexivity|]. split; [reflexivity|]. intros id t js.
    assert (length (control_state s w) <= 14)%nat as Hc
      by (unfold control_state; repeat case_match; vm_compute; lia).
    destruct (status_text e (sess w s) (control_state s w) w Hn Hset Hc) as [E Hl].
    unfold cmd_get_status, cp_rx_control_state. rewrite !run_get.
    assert ((if decide (w_rx_owner w = None) then txt "free" else if decide (w_rx_owner w = Some s) then txt "owned_by_me"
             else txt "owned_by_other") = control_state s w) as ->
      by (unfold control_state; destruct (w_rx_owner w) as [i|]; repeat case_decide; congruence).
    rewrite E. apply reply_last; [done|done|lia].
  - exists (cmd_get_clock_status e). split; [reflexivity|]. split; [reflexivity|]. intros id t js.
    unfold cmd_get_clock_status. pose proof (clock_text e He) as Hc. destruct (utc_now e) as [iso epoch].
    destruct Hc as [E Hl]. rewrite E. apply reply_last; [done|done|lia].
  - exists cmd_ping. split; [reflexivity|]. split; [reflexivity|]. intros id t js.
    apply reply_last; [done|reflexivity|vm_compute; lia].
Qed.

Lemma report_short (s : nat) w (cmd : list Z) (value : json) (w' : World D) :
  report s w cmd value w' -> fits_field 64 cmd /\ w_sessions w' = w_sessions w.
Proof. intros []; split; try done; try (by split; [vm_compute; lia|]). apply loaded_same. Qed.

End Requests.

