(* ===== verification/RateLimit.v ===== *)
(** * The limit on failed authentications

    A session tolerates nine failed authentications in a window of a minute; the
    tenth ends the connection.  So in a reachable state no session has ten, and
    none is waiting to be closed. *)
From Stdlib Require Import SpecFloat.
From S2P Require Import Prelude CLib Jsmn JsonText JsonTok Sha256 Auth Config Rtl Vita World.
From S2P Require Import Session Commands RxCommands Server Quiet Invariants Safety.
#[local] Open Scope Z_scope.

(** The session may go on. *)
Definition patient (x : Session) : Prop :=
  0 <= ss_auth_failures x < AUTH_MAX_FAILURES /\ ss_close_after_reply x = false.

Section RateLimit.
Context {D : Type} {P : Platform D} (e : Env) (s : nat).
Context (id js : list Z) (t : list jsmntok_t).
Implicit Types w : World D.

Definition all_patient (w : World D) : Prop := Forall patient (w_sessions w).

(** Only this session may be about to be closed. *)
Definition closing (w : World D) : Prop :=
  forall i x, w_sessions w !! i = Some x -> patient x \/ (i = s /\ ss_close_after_reply x = true).

#[export] Instance stable_all_patient : Stable all_patient.
Proof. intros w o H. exact H. Qed.
#[export] Instance stable_closing : Stable closing.
Proof. intros w o H. exact H. Qed.

Lemma patient_closing w : all_patient w -> closing w.
Proof. intros H i x Hx. left. by eapply Forall_lookup_1 in Hx. Qed.

Lemma p_set i f :
  (forall x, patient x -> patient (f x)) -> stays all_patient (set_sess i f).
Proof.
  intros Hf. apply s_modify. intros w Hw. apply Forall_alter; [exact Hw|]. intros x _. apply Hf.
Qed.

Lemma p_modify f : (forall w, w_sessions (f w) = w_sessions w) -> stays all_patient (modify f).
Proof. intros Hf. apply s_modify. intros w Hw. unfold all_patient. by rewrite Hf. Qed.

Lemma p_with_rtl {A} (f : Rtl D -> A * Rtl D) : stays all_patient (with_rtl f).
Proof.
  intros w a w' Hw. unfold with_rtl. destruct (f (w_rtl w)). intros [= _ <-]. exact Hw.
Qed.

Lemma p_with_vita {A} (f : Vita -> A * Vita) : stays all_patient (with_vita f).
Proof.
  intros w a w' Hw. unfold with_vita. destruct (f (w_vita w)). intros [= _ <-]. exact Hw.
Qed.

#[local] Hint Resolve p_with_rtl p_with_vita : quiet.
#[local] Hint Extern 1 (stays all_patient (set_sess _ _)) =>
  apply p_set; intros ? [? ?]; by repeat case_match : quiet.
#[local] Hint Extern 1 (stays all_patient (modify _)) =>
  apply p_modify; intros; by repeat case_match : quiet.
#[local] Hint Extern 1 (stays all_patient (do_rtl _)) => by apply p_modify : quiet.
#[local] Hint Extern 1 (stays all_patient (do_vita _)) => by apply p_modify : quiet.

Lemma p_gains : stays all_patient load_gain_table.
Proof. unfold load_gain_table. hquiet. Qed.

Lemma p_release : stays all_patient (cp_rx_release s).
Proof. unfold cp_rx_release. hquiet. Qed.

Lemma p_drop_vita : stays all_patient (drop_vita s).
Proof. unfold drop_vita. hquiet. Qed.
#[local] Hint Resolve p_gains p_release p_drop_vita : quiet.

Lemma p_hello : stays all_patient (cmd_hello e s id t js).
Proof. unfold cmd_hello, auth_object. hquiet. Qed.

Lemma p_get_capabilities : stays all_patient (cmd_get_capabilities s id t js).
Proof. unfold cmd_get_capabilities, build_capabilities_json. hquiet. Qed.

Lemma p_set_frequency : stays all_patient (cmd_set_frequency s id t js).
Proof. unfold cmd_set_frequency, configure_params. hquiet. Qed.

Lemma p_set_sample_rate : stays all_patient (cmd_set_sample_rate s id t js).
Proof. unfold cmd_set_sample_rate, configure_params. hquiet. Qed.

Lemma p_mode_change : stays all_patient apply_mode_change_side_effects.
Proof. unfold apply_mode_change_side_effects. hquiet. Qed.
#[local] Hint Resolve p_mode_change : quiet.

Lemma p_set_control : stays all_patient (cmd_set_control s id t js).
Proof.
  unfold cmd_set_control, configure_params, set_rf_gain, set_agc, set_bias_tee, set_ppm,
    set_direct_sampling, context_all. hquiet.
Qed.

Lemma p_open_stream : stays all_patient (cmd_open_stream e s id t js).
Proof.
  unfold cmd_open_stream, open_vita, open_destination, refuse, open_accept, alloc_stream_id,
    cp_rx_claim. hquiet.
Qed.

Lemma p_start_rx : stays all_patient (cmd_start_rx e s id t js).
Proof. unfold cmd_start_rx. hquiet. Qed.

Lemma p_stop_rx : stays all_patient (cmd_stop_rx s id t js).
Proof. unfold cmd_stop_rx. hquiet. Qed.

Lemma p_close_stream : stays all_patient (cmd_close_stream s id t js).
Proof. unfold cmd_close_stream. hquiet. Qed.

(** ** A failure *)

(** This session may have used up its last attempt. *)
Definition counted (w : World D) : Prop :=
  forall i x, w_sessions w !! i = Some x ->
    patient x \/ (i = s /\ 0 <= ss_auth_failures x <= AUTH_MAX_FAILURES /\
                  ss_close_after_reply x = false).

#[export] Instance stable_counted : Stable counted.
Proof. intros w o H. exact H. Qed.

Lemma alter_all (Q R : nat -> Session -> Prop) f (l : list Session) :
  (forall i x, l !! i = Some x -> Q i x) -> (forall i x, i <> s -> Q i x -> R i x) ->
  (forall x, Q s x -> R s (f x)) -> forall i x, alter f s l !! i = Some x -> R i x.
Proof.
  intros Hl Ho Hf i x Hx. apply list_lookup_alter_Some in Hx as [(-> & y & Hy & ->)|[Hi Hx]].
  - by apply Hf, Hl.
  - apply Ho; [congruence|]. by apply Hl.
Qed.

Lemma p_count :
  hoare all_patient (set_sess s (fun x => x <| ss_auth_failures := u32 (ss_auth_failures x + 1) |>))
    (fun _ => counted).
Proof.
  apply h_modify. intros w Hw. unfold counted. cbn.
  apply (alter_all (fun _ x => patient x)).
  - intros i x Hx. by eapply Forall_lookup_1 in Hx.
  - auto.
  - intros x [H1 H2]. right. split; [done|]. cbn. unfold AUTH_MAX_FAILURES in *.
    rewrite u32_small by lia. split; [lia|done].
Qed.

Lemma p_nonce a b c :
  stays counted (set_sess s (fun x => x <| ss_nonce := a |> <| ss_nonce_hex := b |>
                                        <| ss_nonce_valid := c |>)).
Proof.
  apply s_modify. intros w Hw. unfold counted. cbn.
  by apply (alter_all (fun i x => patient x \/ (i = s /\ 0 <= ss_auth_failures x <= AUTH_MAX_FAILURES /\
                  ss_close_after_reply x = false))).
Qed.

Lemma p_refused : hoare all_patient (auth_refused e s id) (fun _ => closing).
Proof.
  unfold auth_refused. eapply h_then; [apply p_count|]. eapply h_stay; [apply s_get|intros x].
  destruct (auth_make_nonce _ _ _) as [[ok raw] hex].
  eapply h_stay; [apply p_nonce|intros _]. eapply h_stay; [hleaf|intros _].
  apply h_get_bind. intros y. destruct (Z.leb_spec AUTH_MAX_FAILURES (ss_auth_failures y)).
  - eapply h_pre with (P' := counted); [tauto|]. apply h_modify. intros w Hw. unfold closing. cbn.
    eapply (alter_all _ _ _ _ Hw); [tauto|]. intros x' _. by right.
  - eapply h_post; [apply h_ret|]. intros u w [[Hw ->] _] i x' Hx. left.
    destruct (Hw i x' Hx) as [Hp|(-> & Hf & Hc)]; [done|]. split; [|done].
    unfold sess in *. rewrite (list_lookup_total_correct _ _ _ Hx) in *. lia.
Qed.

Lemma p_authenticate : hoare all_patient (cmd_authenticate e s id t js) (fun _ => closing).
Proof.
  assert (forall A (m : M D A), stays all_patient m -> hoare all_patient m (fun _ => closing)) as Hk.
  { intros A m Hm. eapply h_post; [exact Hm|]. intros a w. apply patient_closing. }
  unfold cmd_authenticate. hwalk. hwalk; [apply Hk; hleaf|]. do 4 hwalk. hwalk; [apply Hk; hleaf|].
  do 3 hwalk. cbv zeta. hwalk. hwalk. hwalk; [apply p_refused|]. apply Hk. hquiet.
Qed.

(** ** Closing *)
Definition others_patient (w : World D) : Prop :=
  forall i x, w_sessions w !! i = Some x -> i <> s -> patient x.

#[export] Instance stable_others : Stable others_patient.
Proof. intros w o H. exact H. Qed.

Lemma o_set f : stays others_patient (set_sess s f).
Proof.
  apply s_modify. intros w Hw. unfold others_patient. cbn.
  apply (alter_all (fun i x => i <> s -> patient x) (fun i x => i <> s -> patient x));
    [exact Hw|done|done].
Qed.

Lemma o_modify f : (forall w, w_sessions (f w) = w_sessions w) -> stays others_patient (modify f).
Proof. intros Hf. apply s_modify. intros w Hw. unfold others_patient. by rewrite Hf. Qed.

Lemma o_with_rtl {A} (f : Rtl D -> A * Rtl D) : stays others_patient (with_rtl f).
Proof.
  intros w a w' Hw. unfold with_rtl. destruct (f (w_rtl w)). intros [= _ <-]. exact Hw.
Qed.

#[local] Hint Resolve o_set o_with_rtl : quiet.
#[local] Hint Extern 1 (stays others_patient (modify _)) =>
  apply o_modify; intros; by repeat case_match : quiet.
#[local] Hint Extern 1 (stays others_patient (do_rtl _)) => by apply o_modify : quiet.
#[local] Hint Extern 1 (stays others_patient (do_vita _)) => by apply o_modify : quiet.

Lemma o_drop_vita : stays others_patient (drop_vita s).
Proof. unfold drop_vita. hquiet. Qed.

Lemma o_release : stays others_patient (cp_rx_release s).
Proof. unfold cp_rx_release. hquiet. Qed.
#[local] Hint Resolve o_drop_vita o_release : quiet.

Lemma p_session_destroy : hoare others_patient (session_destroy s) (fun _ => all_patient).
Proof.
  unfold session_destroy. do 6 hwalk.
  apply h_modify. intros w Hw. apply Forall_lookup. cbn.
  apply (alter_all (fun i x => i <> s -> patient x) (fun _ x => patient x)); [exact Hw|auto|].
  intros x _. by vm_compute.
Qed.
End RateLimit.

(** ** The server *)
Section Server.
Context {D : Type} {P : Platform D}.
Implicit Types w : World D.

(** After a dispatched command, the session goes on or the loop ends. *)
Definition verdict (s : nat) (stop : bool) (w : World D) : Prop :=
  if stop then others_patient s w else all_patient w.

Lemma closing_verdict s w : closing s w -> verdict s (ss_close_after_reply (sess w s)) w.
Proof.
  intros Hw. unfold verdict. destruct (ss_close_after_reply (sess w s)) eqn:E.
  - intros i x Hx Hi. by destruct (Hw i x Hx) as [?|[? _]].
  - apply Forall_lookup. intros i x Hx. destruct (Hw i x Hx) as [?|[-> Hc]]; [done|].
    unfold sess in E. rewrite (list_lookup_total_correct _ _ _ Hx) in E. congruence.
Qed.

Lemma p_dispatch (e : Env) (s : nat) (cmd id : list Z) (t : list jsmntok_t) (js : list Z) :
  hoare all_patient (dispatch e s cmd id t js) (verdict s).
Proof.
  unfold dispatch. apply (h_then _ (closing s)).
  - assert (forall (m : M D unit), stays all_patient m -> hoare all_patient m (fun _ => closing s)) as Hk.
    { intros m Hm. eapply h_post; [exact Hm|]. intros a w. apply patient_closing. }
    destruct (lookup_cmd cmd (s_dispatch e)) as [f|] eqn:E; [|apply Hk; hleaf].
    apply lookup_cmd_In in E as (n & Hin & _). cbn [s_dispatch In] in Hin.
    repeat match type of Hin with _ \/ _ => destruct Hin as [Hin|Hin] end; try done;
      apply pair_equal_spec in Hin as [_ <-];
      lazymatch goal with
      | |- hoare _ (cmd_authenticate _ _ _ _ _) _ => apply p_authenticate
      | |- hoare _ (cmd_hello _ _ _ _ _) _ => apply Hk, p_hello
      | |- hoare _ (cmd_get_capabilities _ _ _ _) _ => apply Hk, p_get_capabilities
      | |- hoare _ (cmd_set_frequency _ _ _ _) _ => apply Hk, p_set_frequency
      | |- hoare _ (cmd_set_sample_rate _ _ _ _) _ => apply Hk, p_set_sample_rate
      | |- hoare _ (cmd_set_control _ _ _ _) _ => apply Hk, p_set_control
      | |- hoare _ (cmd_open_stream _ _ _ _ _) _ => apply Hk, p_open_stream
      | |- hoare _ (cmd_start_rx _ _ _ _ _) _ => apply Hk, p_start_rx
      | |- hoare _ (cmd_stop_rx _ _ _ _) _ => apply Hk, p_stop_rx
      | |- hoare _ (cmd_close_stream _ _ _ _) _ => apply Hk, p_close_stream
      | |- _ => apply Hk; hleaf
      end.
  - eapply h_post; [apply h_get|]. intros b w [Hw ->]. by apply closing_verdict.
Qed.

Lemma p_process_request (e : Env) (s : nat) (ntok : Z) (t : list jsmntok_t) (js : list Z) :
  hoare all_patient (process_request e s ntok t js) (verdict s).
Proof.
  assert (hoare all_patient (ret false) (verdict s)) as Hret.
  { eapply h_post; [apply h_ret|]. by intros b w [? ->]. }
  unfold process_request, gated_dispatch.
  repeat first [exact Hret|apply p_dispatch|hwalk].
Qed.

Lemma p_process_message (e : Env) (s len : nat) (v v' : Srv D) :
  all_patient (sv_world v) -> process_message e s len v = Some v' -> all_patient (sv_world v').
Proof.
  intros Hw. unfold process_message. destruct (jsmn_parse _ _ _ _ _) as [ntok t].
  destruct (process_request _ _ _ _ _ _) as [[stop w]|] eqn:E; [|done].
  apply p_process_request in E; [|done].
  destruct stop; [destruct (session_destroy s w) as [[? w2]|] eqn:Ed; [|done]|];
    intros [= <-]; cbn; [|exact E]. by eapply p_session_destroy.
Qed.

Lemma patient_others s w : all_patient w -> others_patient s w.
Proof. intros H i x Hx _. by eapply Forall_lookup_1 in Hx. Qed.

Lemma p_accept (e : Env) (fd : Z) (ip : list Z) : stays (all_patient (D := D)) (accept_client e fd ip).
Proof.
  unfold accept_client, session_create. eapply h_stay.
  - eapply h_stay; [apply s_get|intros r]. destruct r; [|apply s_ret].
    eapply h_stay; [apply s_get|intros g].
    eapply h_stay; [apply p_set; by intros|intros _; apply s_ret].
  - intros r. destruct r as [i|]; [|apply s_ret]. case_match; [apply s_ret|].
    eapply h_pre; [apply (patient_others i)|apply p_session_destroy].
Qed.

Lemma p_callback (now : Z) (buf : list Z) : stays (all_patient (D := D)) (rtl_callback now buf).
Proof.
  unfold rtl_callback. eapply h_stay; [apply s_get|intros r]. case_match; [apply s_ret|].
  eapply h_stay; [by apply p_modify|intros _]. eapply h_stay; [apply p_with_rtl|intros ev].
  eapply h_stay; [destruct ev; hleaf|intros _]. by apply p_modify.
Qed.

Lemma p_step (v v' : Srv D) : step v v' -> all_patient (sv_world v) -> all_patient (sv_world v').
Proof.
  intros Hst Hi. destruct Hst as [v e fd ip w' _ Hw|v s payload|v e s len v' _ _ _ Hp
    |v s w' _ _ _ Hw|v now buf w' _ Hw]; cbn.
  - by eapply p_accept.
  - exact Hi.
  - by eapply p_process_message.
  - eapply p_session_destroy; [|exact Hw]. by apply patient_others.
  - by eapply p_callback.
Qed.
End Server.

Lemma reachable_patient {D : Type} {P : Platform D} (c : Conf) (r : Rtl D) (v : Srv D) :
  reachable c r v -> all_patient (sv_world v).
Proof.
  intros (ctx & buf & toks & _ & Hst).
  eapply (rtc_ind_r (fun v => all_patient (sv_world v))); [|intros ? ? _; by apply p_step|exact Hst].
  apply Forall_replicate. by vm_compute.
Qed.


(** Wrong keys: nine attempts leave the session, the tenth ends it. *)
Definition guesses (n : nat) : list action :=
  Sample.connect 7 ++ Sample.hello 0 ++ mjoin (replicate n (Sample.login 0 (txt "wrong"))).

