(* ===== verification/Handshake.v ===== *)
(** * Getting in: hello and authenticate

    What a client offers and presents, as functions of the JSON object it sends, and
    what the daemon makes of it: the greeting with a fresh nonce, and the unlocking
    of the receiver by a response that proves possession of a key. *)
From Stdlib Require Import SpecFloat.
From S2P Require Import Prelude CLib Jsmn JsonText JsonTok Sha256 Auth JsonEscape Config Rtl Vita World.
From S2P Require Import Session Commands RxCommands Server Quiet Invariants Safety Kept Requests Tuning Control Versions Totality Reports Inquiry RateLimit.
#[local] Open Scope Z_scope.

(** ** hello *)
Definition versions_needed : refusal :=
  ("missing_parameter"%string,
   jq "hello requires supported_protocol_versions, an array of version strings such as ['1.0']").

Definition hello_refusal (p : members) : option refusal :=
  match jfind (txt "supported_protocol_versions") p with
  | Some (JArr vs) =>
      if offers vs "1.0" then None
      else Some ("unsupported_protocol_version"%string,
        if offers_release vs
        then jq "No common protocol version: this device speaks '1.0'. Release numbers (1.1, 1.2, 1.3) are document revisions, not protocol versions (SDR-SLC-CP-1.0 10.1)"
        else jq "No common protocol version; this device speaks '1.0'")
  | _ => Some versions_needed
  end.

Definition client_name (p : members) : list Z :=
  if jfind (txt "client_name") p is Some v then field 47 v else txt "(unnamed)".

(** The session has a new nonce, if the system had one to give. *)
Definition renewed (e : Env) (x : Session) : Session :=
  let '(ok, raw, hex) := auth_make_nonce (e_random e) (ss_nonce x) (ss_nonce_hex x) in
  x <| ss_nonce := raw |> <| ss_nonce_hex := if ok then hex else [] |> <| ss_nonce_valid := ok |>.

Definition greeted_session (e : Env) (c : Conf) (name : list Z) (x : Session) : Session :=
  let y := x <| ss_client_name := name |> <| ss_state := SESSION_IDLE |> in
  if g_rx_auth c then renewed e y else y.

Definition hello_value (c : Conf) (nonce : list Z) : json :=
  JObj ([(txt "protocol_name", JStr PROTO_NAME); (txt "selected_protocol_version", JStr PROTO_VERSION);
         (txt "device_name", JStr (g_device_name c)); (txt "manufacturer", JStr MANUFACTURER);
         (txt "model", JStr MODEL_NAME); (txt "hardware_revision", JStr HW_REVISION);
         (txt "firmware_version", JStr SLC_FW_STRING)] ++
        (if g_rx_auth c
         then [(txt "auth", JObj [(txt "methods", JArr [JStr AUTH_METHOD_PSK]); (txt "nonce", JStr nonce)])] else [])).

(** The session [s] after a change. *)
Definition with_session {D} (s : nat) (f : Session -> Session) (w : World D) : World D :=
  w <| w_sessions := alter f s (w_sessions w) |>.

Section Hello.
Context {D : Type} {P : Platform D} (e : Env) (s : nat) (id : list Z).
Implicit Types w : World D.

Definition hello_outcome (p : members) w : World D :=
  match hello_refusal p with
  | Some c => refused s id c w
  | None =>
      let w' := with_session s (greeted_session e (w_conf w) (client_name p)) w in
      reply s id (hello_value (w_conf w) (ss_nonce_hex (sess w' s))) w'
  end.

Lemma run_with_session {B} (f : Session -> Session) (k : unit -> M D B) w :
  bind (set_sess s f) k w = k tt (with_session s f w).
Proof. reflexivity. Qed.

Lemma with_session_sess (f : Session -> Session) w : 0 < ss_fd (sess w s) -> sess (with_session s f w) s = f (sess w s).
Proof. apply sess_total. Qed.

Lemma fill_length (calls : list rnd) (n got : nat) (raw : list Z) :
  (n <= length raw)%nat -> length (fill_random calls n got raw).2 = length raw.
Proof.
  revert got raw. induction calls as [|c calls IH]; intros got raw Hn; cbn [fill_random].
  - by case_match.
  - case_match eqn:E; [done|]. apply Nat.leb_gt in E. destruct c as [| |l]; [by apply IH|done|].
    rewrite IH; rewrite write_at_length; rewrite ?length_take; try done; lia.
Qed.

Lemma nonce_length (x : Session) :
  length (ss_nonce x) = AUTH_NONCE_BYTES ->
  length (ss_nonce (renewed e x)) = AUTH_NONCE_BYTES /\ (length (ss_nonce_hex (renewed e x)) <= 32)%nat.
Proof.
  intros Hn. unfold renewed, auth_make_nonce. pose proof (fill_length (e_random e) AUTH_NONCE_BYTES 0 (ss_nonce x)) as H.
  destruct (fill_random _ _ _ _) as [ok raw]. cbn [snd] in H. cbn. rewrite H by (rewrite Hn; done). split; [done|].
  destruct ok; [|cbn; lia]. rewrite auth_hex_length, H, Hn by (rewrite Hn; done). cbn. lia.
Qed.

Lemma renewed_hex (x : Session) :
  ss_nonce_hex (renewed e x) =
  let '(ok, raw, hex) := auth_make_nonce (e_random e) (ss_nonce x) (ss_nonce_hex x) in if ok then hex else [].
Proof. unfold renewed. by destruct (auth_make_nonce _ _ _) as [[ok raw] hex]. Qed.

Lemma with_session_ext (f g : Session -> Session) w :
  f (sess w s) = g (sess w s) -> with_session s f w = with_session s g w.
Proof.
  intros H. unfold with_session. assert (alter f s (w_sessions w) = alter g s (w_sessions w)) as ->; [|done].
  apply list_alter_ext; [|done]. intros x Hx. unfold sess in H. by rewrite list_lookup_total_alt, Hx in H.
Qed.

(** The nonce is made from what the session holds. *)
Lemma renewed_at w :
  let '(ok, raw, hex) := auth_make_nonce (e_random e) (ss_nonce (sess w s)) (ss_nonce_hex (sess w s)) in
  with_session s (renewed e) w =
  with_session s (fun x => x <| ss_nonce := raw |> <| ss_nonce_hex := if ok then hex else [] |> <| ss_nonce_valid := ok |>) w.
Proof.
  destruct (auth_make_nonce _ _ _) as [[ok raw] hex] eqn:E. apply with_session_ext. unfold renewed. by rewrite E.
Qed.

Lemma auth_object_run {B} (k : list Z -> M D B) w :
  0 < ss_fd (sess w s) -> length (ss_nonce (sess w s)) = AUTH_NONCE_BYTES -> g_rx_auth (w_conf w) = true ->
  bind (auth_object e s) k w =
  k (jq ",'auth':{'methods':['" ++ AUTH_METHOD_PSK ++ jq "'],'nonce':'" ++ ss_nonce_hex (renewed e (sess w s)) ++ jq "'}")
    (with_session s (renewed e) w).
Proof.
  intros Hfd Hn Ha. unfold auth_object. rewrite run_assoc, run_get, Ha, run_assoc, run_get.
  destruct (nonce_length _ Hn) as [_ Hl]. pose proof (renewed_at w) as Hr. pose proof (renewed_hex (sess w s)) as Hx.
  destruct (auth_make_nonce _ _ _) as [[ok raw] hex]. cbv zeta. rewrite run_assoc, run_session, run_ret, Hr.
  rewrite Hx in *. rewrite snprintf_fits; [done|].
  rewrite !length_app. vm_compute (length (jq _)). vm_compute (length AUTH_METHOD_PSK). lia.
Qed.

Lemma hello_text (c : Conf) (nonce : list Z) :
  (length (g_device_name c) <= 64)%nat -> (length nonce <= 32 \/ g_rx_auth c = false)%nat ->
  let auth := if g_rx_auth c then jq ",'auth':{'methods':['" ++ AUTH_METHOD_PSK ++ jq "'],'nonce':'" ++ nonce ++ jq "'}" else [] in
  snprintf 800
    (jq "{'protocol_name':'" ++ PROTO_NAME ++ jq "','selected_protocol_version':'"
     ++ PROTO_VERSION ++ jq "','device_name':'" ++ g_device_name c
     ++ jq "','manufacturer':'" ++ MANUFACTURER ++ jq "','model':'" ++ MODEL_NAME
     ++ jq "','hardware_revision':'" ++ HW_REVISION ++ jq "','firmware_version':'"
     ++ SLC_FW_STRING ++ jq "'" ++ auth ++ jq "}") = print (hello_value c nonce) /\
  (length (print (hello_value c nonce)) <= 600)%nat.
Proof.
  intros Hd Hn auth. apply snprintf_is; [| |lia].
  - unfold hello_value, auth. vm_compute AUTH_METHOD_PSK. vm_compute PROTO_NAME. vm_compute PROTO_VERSION. vm_compute MANUFACTURER.
    vm_compute MODEL_NAME. vm_compute HW_REVISION. vm_compute SLC_FW_STRING.
    destruct (g_rx_auth c); cbn [app]; generalize (g_device_name c); intros name; spelt.
  - unfold auth. destruct (g_rx_auth c); [destruct Hn; [|done]|]; rewrite !length_app; vm_compute (length (jq _)); vm_compute (length PROTO_NAME);
      vm_compute (length PROTO_VERSION); vm_compute (length MANUFACTURER); vm_compute (length MODEL_NAME);
      vm_compute (length HW_REVISION); vm_compute (length SLC_FW_STRING); try vm_compute (length AUTH_METHOD_PSK);
      cbn [length]; lia.
Qed.

Definition named_plainly (p : members) (key : string) : Prop :=
  match jfind (txt key) p with Some v => scalar v <> None | None => True end.

(** A field of a scalar member, or what is there for want of it. *)
Lemma run_text {B} (js : list Z) (t : list jsmntok_t) (o : option json) (z : Z) (cap : nat) (none : list Z)
    (k : list Z -> M D B) w :
  token_of js t o z -> Z.of_nat (length js) < 2 ^ 64 -> (1 < cap)%nat ->
  match o with Some v => scalar v <> None | None => True end ->
  bind (if 0 <=? z then let* x := tok t z in ret (tok_str js x cap) else ret none) k w =
  k (if o is Some v then field (cap - 1) v else none) w.
Proof.
  intros Ho Hjs Hc Hp. rewrite (token_of_pos _ _ _ _ Ho). destruct o as [v|]; [|apply run_ret].
  destruct (run_value js t v z Ho Hjs) as (tk & _ & Hf & _ & R). rewrite run_assoc, R, run_ret.
  by destruct (Hf cap Hc) as [-> | [H _]].
Qed.

Lemma renewed_fd (x : Session) : ss_fd (renewed e x) = ss_fd x.
Proof. unfold renewed. by destruct (auth_make_nonce _ _ _) as [[? ?] ?]. Qed.

(** The session is named, and gets a nonce if it will need one. *)
Lemma greeting_run {B} (name : list Z) (k : list Z -> M D B) w :
  0 < ss_fd (sess w s) -> length (ss_nonce (sess w s)) = AUTH_NONCE_BYTES ->
  let w2 := with_session s (greeted_session e (w_conf w) name) w in
  bind (auth_object e s) k (with_session s (fun x => x <| ss_client_name := name |> <| ss_state := SESSION_IDLE |>) w) =
  k (if g_rx_auth (w_conf w)
     then jq ",'auth':{'methods':['" ++ AUTH_METHOD_PSK ++ jq "'],'nonce':'" ++ ss_nonce_hex (sess w2 s) ++ jq "'}" else []) w2.
Proof.
  intros Hfd Hn w2. set (w1 := with_session s _ w).
  assert (sess w1 s = (sess w s) <| ss_client_name := name |> <| ss_state := SESSION_IDLE |>) as E1 by by apply with_session_sess.
  destruct (g_rx_auth (w_conf w)) eqn:Ha.
  - rewrite auth_object_run; [|by rewrite E1..|done].
    assert (with_session s (renewed e) w1 = w2) as E2.
    { unfold w2, w1, with_session. cbn. rewrite alter_twice. unfold greeted_session. by rewrite Ha. }
    rewrite <- E2, with_session_sess by (by rewrite E1). done.
  - unfold auth_object. rewrite run_assoc, run_get. change (w_conf w1) with (w_conf w). rewrite Ha, run_ret.
    unfold w2, greeted_session. by rewrite Ha.
Qed.

Lemma cmd_hello_run (js : list Z) (t : list jsmntok_t) (l p : members) w :
  located js t 0 (JObj l) -> Z.of_nat (length js) < 2 ^ 64 -> jfind (txt "params") l = Some (JObj p) ->
  0 < ss_fd (sess w s) -> length (ss_nonce (sess w s)) = AUTH_NONCE_BYTES -> named_plainly p "client_name" ->
  (length (g_device_name (w_conf w)) <= 64)%nat ->
  cmd_hello e s id t js w = Some (tt, hello_outcome p w).
Proof.
  intros Hl Hjs Hp Hfd Hn Hc Hd. unfold cmd_hello, find_params, hello_outcome, hello_refusal.
  change (find (D := D) js t 0) with (find (D := D) js t (Z.of_nat 0)).
  run_member Hl Hp as jp Lp. rewrite (proj2 (Z.ltb_ge _ _)) by lia.
  destruct (run_find_opt js t jp p "supported_protocol_versions" Lp) as (zv & Hzv & R). rewrite R. clear R.
  rewrite (token_of_neg _ _ _ _ Hzv).
  destruct (jfind (txt "supported_protocol_versions") p) as [v|]; [|rewrite run_ret; by apply run_error].
  destruct Hzv as (jv & -> & Lv). destruct (located_head _ _ _ _ Lv) as (tv & xv & Ev & Ty & Sz & _).
  rewrite run_assoc. unfold tok at 1. rewrite Nat2Z.id, Ev.
  rewrite (run_bind (lift (Some tv)) _ w w tv), run_ret by done. rewrite Ty.
  destruct v as [x|x|vs|x]; try (by apply run_error). rewrite bool_decide_true by done. cbn [negb].
  rewrite Sz, Nat2Z.id. cbn [tok_size_of]. rewrite (versions_run js t jv vs Lv).
  rewrite (run_bind (lift (Some _)) _ w w (offers vs "1.0", offers_release vs)) by done.
  destruct (offers vs "1.0"); cbn [negb]; [|by apply run_error].
  destruct (run_find_opt js t jp p "client_name" Lp) as (zn & Hzn & R). rewrite R. clear R.
  rewrite (run_text js t _ zn 48 _ _ w Hzn Hjs) by (done || lia).
  change (if jfind (txt "client_name") p is Some v then field (48 - 1) v else txt "(unnamed)") with (client_name p).
  rewrite run_with_session, greeting_run by done. rewrite run_get.
  set (w2 := with_session s (greeted_session e (w_conf w) (client_name p)) w).
  assert (0 < ss_fd (sess w2 s) /\ (length (ss_nonce_hex (sess w2 s)) <= 32 \/ g_rx_auth (w_conf w) = false)%nat) as [Hfd2 Hh].
  { unfold w2. rewrite with_session_sess by done. unfold greeted_session. destruct (g_rx_auth (w_conf w)); [|by split; [|right]].
    rewrite renewed_fd. split; [done|]. left. by apply nonce_length. }
  destruct (hello_text (w_conf w) (ss_nonce_hex (sess w2 s)) Hd Hh) as [E Hlen].
  apply reply_last; [done|exact E|]. change (w_conf w2) with (w_conf w). rewrite E. lia.
Qed.
End Hello.

(** ** authenticate *)

(** The method, the response and the key id of a request. *)
Definition presented (p : members) : option (list Z * list Z * list Z) :=
  match jfind (txt "method") p, jfind (txt "response") p with
  | Some m, Some r =>
      Some (field 47 m, field 79 r, if jfind (txt "key_id") p is Some k then field (AUTH_KEY_ID_MAX - 1) k else txt "default")
  | _, _ => None
  end.

Definition response_needed : refusal :=
  ("missing_parameter"%string, jq "authenticate requires 'method' and 'response'; 'key_id' defaults to 'default'").

(** The response is the HMAC of the session's unused nonce under the key of that id. *)
Definition proves (c : Conf) (x : Session) (y : list Z * list Z * list Z) : Prop :=
  let '(method, response, kid) := y in
  ss_nonce_valid x = true /\ method = AUTH_METHOD_PSK /\ valid_response (g_keys c) kid (ss_nonce x) response.

(** The count of failures starts anew after a minute. *)
Definition in_window (e : Env) (x : Session) : Session :=
  if AUTH_WINDOW_NS <? u64 (u64 (e_mono_ns e) - ss_auth_window_ns x)
  then x <| ss_auth_window_ns := u64 (e_mono_ns e) |> <| ss_auth_failures := 0 |> else x.

Definition unlocked_session (x : Session) : Session := x <| ss_rx_unlocked := true |> <| ss_nonce_valid := false |>.

(** One more failure and a new nonce; after ten, the end. *)
Definition rejected_session (e : Env) (x : Session) : Session :=
  let n := u32 (ss_auth_failures x + 1) in
  let '(ok, raw, hex) := auth_make_nonce (e_random e) (ss_nonce x) (ss_nonce_hex x) in
  x <| ss_auth_failures := n |> <| ss_nonce := raw |> <| ss_nonce_hex := hex |> <| ss_nonce_valid := ok |>
    <| ss_close_after_reply := if AUTH_MAX_FAILURES <=? n then true else ss_close_after_reply x |>.

Definition authenticated_value (functions : list json) : json :=
  JObj [(txt "authenticated", JPrim (txt "true")); (txt "functions", JArr functions)].

Definition rejected_value (id : list Z) (x : Session) : json :=
  JObj [(txt "type", JStr (txt "response")); (txt "id", JStr (json_escape id 288)); (txt "status", JStr (txt "error"));
        (txt "error", JObj [(txt "code", JStr (txt "auth_failed")); (txt "message", JStr (txt "authentication was rejected"));
                            (txt "details", if ss_nonce_valid x then JObj [(txt "nonce", JStr (ss_nonce_hex x))] else JObj [])])].

Section Authenticate.
Context {D : Type} {P : Platform D} (e : Env) (s : nat) (id : list Z).
Implicit Types w : World D.

(** [ok]: the client has proved that it has a key. *)
Definition authenticate_outcome (p : members) (ok : bool) w : World D :=
  if negb (g_rx_auth (w_conf w)) then reply s id (authenticated_value []) w
  else
    match presented p with
    | None => refused s id response_needed w
    | Some _ =>
        let w1 := with_session s (in_window e) w in
        if ok then reply s id (authenticated_value [JStr (txt "rx")]) (with_session s unlocked_session w1)
        else
          let w2 := with_session s (rejected_session e) w1 in
          post [frame s (print (rejected_value id (sess w2 s)))] w2
    end.

Lemma rejected_text (x : Session) :
  (ss_nonce_valid x = true -> (length (ss_nonce_hex x) <= 32)%nat) ->
  auth_failed_text id (if ss_nonce_valid x then snprintf 96 (jq "{'nonce':'" ++ ss_nonce_hex x ++ jq "'}") else txt "{}") =
  print (rejected_value id x).
Proof.
  intros Hx. destruct (json_escape_spec id 288) as (_ & _ & Hi & _); [lia|].
  unfold auth_failed_text, rejected_value. generalize dependent (json_escape id 288). intros i Hi.
  destruct (ss_nonce_valid x); [specialize (Hx eq_refl); generalize dependent (ss_nonce_hex x); intros n Hn|].
  - rewrite (snprintf_fits 96) by (rewrite !length_app; vm_compute (length (jq _)); lia).
    rewrite snprintf_fits; [cbn [print]; spelt|]. rewrite !length_app. vm_compute (length (jq _)). lia.
  - rewrite snprintf_fits; [cbn [print]; spelt|]. rewrite !length_app. vm_compute (length (jq _)). vm_compute (length (txt _)). lia.
Qed.

Lemma in_window_keeps (x : Session) :
  ss_fd (in_window e x) = ss_fd x /\ ss_nonce (in_window e x) = ss_nonce x /\ ss_nonce_valid (in_window e x) = ss_nonce_valid x.
Proof. unfold in_window. by case_match. Qed.

Lemma rejected_fd (x : Session) : ss_fd (rejected_session e x) = ss_fd x.
Proof. unfold rejected_session. by destruct (auth_make_nonce _ _ _) as [[? ?] ?]. Qed.

Lemma rejected_nonce (x : Session) :
  length (ss_nonce x) = AUTH_NONCE_BYTES -> ss_nonce_valid (rejected_session e x) = true ->
  (length (ss_nonce_hex (rejected_session e x)) <= 32)%nat.
Proof.
  intros Hn. unfold rejected_session, auth_make_nonce.
  pose proof (fill_length (e_random e) AUTH_NONCE_BYTES 0 (ss_nonce x)) as H.
  destruct (fill_random _ _ _ _) as [ok raw]. cbn. intros ->. rewrite auth_hex_length. cbn [snd] in H.
  rewrite H, Hn by (rewrite Hn; done). cbn. lia.
Qed.

Lemma with_session_twice (f g : Session -> Session) w :
  with_session s f (with_session s g w) = with_session s (fun x => f (g x)) w.
Proof. unfold with_session. cbn. by rewrite alter_twice. Qed.

Lemma auth_refused_run w :
  0 < ss_fd (sess w s) -> length (ss_nonce (sess w s)) = AUTH_NONCE_BYTES ->
  let w2 := with_session s (rejected_session e) w in
  auth_refused e s id w = Some (tt, post [frame s (print (rejected_value id (sess w2 s)))] w2).
Proof.
  intros Hfd Hn w2. assert (sess w2 s = rejected_session e (sess w s)) as E2 by by apply with_session_sess.
  rewrite E2. pose proof (rejected_text (rejected_session e (sess w s)) (rejected_nonce _ Hn)) as Ht.
  unfold auth_refused. rewrite run_with_session, run_get, with_session_sess by done. cbn [ss_nonce ss_nonce_hex upd].
  assert (w2 = let '(ok, raw, hex) := auth_make_nonce (e_random e) (ss_nonce (sess w s)) (ss_nonce_hex (sess w s)) in
    with_session s (fun _ => rejected_session e (sess w s)) w) as Ew by (destruct (auth_make_nonce _ _ _) as [[? ?] ?]; by apply with_session_ext).
  revert Ht Ew. unfold rejected_session.
  destruct (auth_make_nonce _ _ _) as [[ok raw] hex]. intros Ht ->. cbn [ss_nonce_valid ss_nonce_hex upd] in Ht.
  cbv zeta. rewrite run_with_session, with_session_twice. set (w3 := with_session s _ w).
  assert (sess w3 s = (sess w s) <| ss_auth_failures := u32 (ss_auth_failures (sess w s) + 1) |> <| ss_nonce := raw |>
    <| ss_nonce_hex := hex |> <| ss_nonce_valid := ok |>) as E3 by (unfold w3; by rewrite with_session_sess).
  assert (0 < ss_fd (sess w3 s)) as Hfd3 by by rewrite E3.
  rewrite Ht, (run_bind _ _ _ _ _ (run_send s _ w3 Hfd3)), run_get.
  change (sess (post _ w3) s) with (sess w3 s). rewrite E3. cbn [ss_auth_failures upd].
  destruct (AUTH_MAX_FAILURES <=? u32 (ss_auth_failures (sess w s) + 1)).
  - change (set_sess s (fun x => x <| ss_close_after_reply := true |>) (post ?l w3))
      with (Some (tt, post l (with_session s (fun x => x <| ss_close_after_reply := true |>) w3))).
    do 3 f_equal. unfold w3. rewrite with_session_twice. by apply with_session_ext.
  - unfold ret. do 3 f_equal. by apply with_session_ext.
Qed.

(** The check of the daemon. *)
Definition accepts (c : Conf) (x : Session) (y : list Z * list Z * list Z) : bool :=
  let '(method, response, kid) := y in
  ss_nonce_valid x && streq method AUTH_METHOD_PSK && (0 <? length (keys (g_keys c)))%nat
  && auth_verify (e_stack e) (g_keys c) kid (ss_nonce x) response.

Lemma accepts_proves (c : Conf) (x : Session) (y : list Z * list Z * list Z) :
  length (sh_buf (e_stack e)) = 64%nat -> ring_ok (g_keys c) -> length (ss_nonce x) = AUTH_NONCE_BYTES ->
  accepts c x y = true <-> proves c x y.
Proof.
  intros Hst Hk Hn. destruct y as [[m r] k]. unfold accepts, proves.
  rewrite !andb_true_iff, (auth_verify_iff (e_stack e) Hst (g_keys c) k (ss_nonce x) r Hk Hn).
  unfold streq. rewrite bool_decide_eq_true, Nat.ltb_lt. split; [tauto|]. intros (H1 & H2 & H3). split_and!; try done.
  destruct H3 as (_ & y & Hy & _). destruct (keys (g_keys c)); [by apply elem_of_nil in Hy|cbn; lia].
Qed.

Lemma run_find_if (js : list Z) (t : list jsmntok_t) (i : nat) (p : members) (key : string) :
  located js t i (JObj p) ->
  exists z, token_of js t (jfind (txt key) p) z /\
    forall B (k : Z -> M D B) w, bind (find_if js t (Z.of_nat i) key) k w = k z w.
Proof.
  intros Li. destruct (run_find_opt js t i p key Li) as (z & Hz & R). exists z. split; [exact Hz|].
  intros B k w. unfold find_if. rewrite (proj2 (Z.leb_le _ _)) by lia. apply R.
Qed.

Lemma cmd_authenticate_run (js : list Z) (t : list jsmntok_t) (l p : members) w :
  located js t 0 (JObj l) -> Z.of_nat (length js) < 2 ^ 64 -> jfind (txt "params") l = Some (JObj p) ->
  0 < ss_fd (sess w s) -> length (ss_nonce (sess w s)) = AUTH_NONCE_BYTES ->
  named_plainly p "method" -> named_plainly p "response" -> named_plainly p "key_id" ->
  cmd_authenticate e s id t js w =
  Some (tt, authenticate_outcome p (if presented p is Some y then accepts (w_conf w) (sess w s) y else false) w).
Proof.
  intros Hl Hjs Hp Hfd Hn Pm Pr Pk. unfold cmd_authenticate, authenticate_outcome. rewrite run_get.
  destruct (g_rx_auth (w_conf w)); cbn [negb]; [|apply reply_last; [done|vm_compute; reflexivity|vm_compute; lia]].
  unfold find_params. change (find (D := D) js t 0) with (find (D := D) js t (Z.of_nat 0)).
  run_member Hl Hp as jp Lp. unfold presented, named_plainly in *.
  destruct (run_find_if js t jp p "method" Lp) as (zm & Hm & ->).
  destruct (run_find_if js t jp p "key_id" Lp) as (zk & Hzk & ->).
  destruct (run_find_if js t jp p "response" Lp) as (zr & Hr & ->).
  rewrite (token_of_neg _ _ _ _ Hm), (token_of_neg _ _ _ _ Hr).
  destruct (jfind (txt "method") p) as [m|]; [|by apply run_error].
  destruct (jfind (txt "response") p) as [r|]; [|by apply run_error]. cbn [orb].
  destruct (run_value js t m zm Hm Hjs) as (tm & _ & Fm & _ & ->).
  destruct (run_value js t r zr Hr Hjs) as (tr & _ & Fr & _ & ->). cbv zeta.
  destruct (Fm 48%nat ltac:(lia)) as [-> | [H _]]; [|done]. destruct (Fr 80%nat ltac:(lia)) as [-> | [H _]]; [|done].
  rewrite (run_text js t _ zk AUTH_KEY_ID_MAX _ _ w Hzk Hjs) by (done || (vm_compute; lia)).
  change (set_sess s (fun x => if AUTH_WINDOW_NS <? u64 (u64 (e_mono_ns e) - ss_auth_window_ns x)
    then x <| ss_auth_window_ns := u64 (e_mono_ns e) |> <| ss_auth_failures := 0 |> else x)) with (set_sess (D := D) s (in_window e)).
  rewrite run_with_session, run_get, with_session_sess by done.
  destruct (in_window_keeps (sess w s)) as (Ef & En & Ev). rewrite En, Ev. unfold accepts.
  change (48 - 1)%nat with 47%nat. change (80 - 1)%nat with 79%nat.
  match goal with |- context [negb ?b] => destruct b end; cbn [negb].
  - rewrite run_with_session. change (fun x => x <| ss_rx_unlocked := true |> <| ss_nonce_valid := false |>) with unlocked_session.
    apply reply_last; [|vm_compute; reflexivity|vm_compute; lia].
    rewrite !with_session_sess; [change (0 < ss_fd (in_window e (sess w s))); by rewrite Ef|done|by rewrite with_session_sess, Ef].
  - apply auth_refused_run; rewrite with_session_sess by done; [by rewrite Ef|by rewrite En].
Qed.
End Authenticate.

(** ** Every session has room for a nonce *)
Definition nonces_ok {D} (w : World D) : Prop := Forall (fun x => length (ss_nonce x) = AUTH_NONCE_BYTES) (w_sessions w).

Section Nonces.
Context {D : Type} {P : Platform D} (e : Env) (s : nat).
Implicit Types w : World D.

#[export] Instance stable_nonces : Stable (nonces_ok (D := D)).
Proof. intros w o H. exact H. Qed.

Lemma nonces_sess w i : nonces_ok w -> length (ss_nonce (sess w i)) = AUTH_NONCE_BYTES.
Proof.
  intros H. unfold sess. rewrite list_lookup_total_alt. destruct (w_sessions w !! i) as [x|] eqn:E; [|done].
  by apply (Forall_lookup_1 _ _ _ _ H E).
Qed.

Lemma n_set i f : (forall x, length (ss_nonce x) = AUTH_NONCE_BYTES -> length (ss_nonce (f x)) = AUTH_NONCE_BYTES) ->
  stays (nonces_ok (D := D)) (set_sess i f).
Proof. intros Hf. apply s_modify. intros w Hw. apply Forall_alter; [exact Hw|]. intros x _. apply Hf. Qed.

Lemma n_modify f : (forall w, w_sessions (f w) = w_sessions w) -> stays (nonces_ok (D := D)) (modify f).
Proof. intros Hf. apply s_modify. intros w Hw. unfold nonces_ok. by rewrite Hf. Qed.

Lemma n_with_rtl {A} (f : Rtl D -> A * Rtl D) : stays (nonces_ok (D := D)) (with_rtl f).
Proof. intros w a w' Hw. unfold with_rtl. destruct (f (w_rtl w)). intros [= _ <-]. exact Hw. Qed.

Lemma n_with_vita {A} (f : Vita -> A * Vita) : stays (nonces_ok (D := D)) (with_vita f).
Proof. intros w a w' Hw. unfold with_vita. destruct (f (w_vita w)). intros [= _ <-]. exact Hw. Qed.

#[local] Hint Resolve n_with_rtl n_with_vita : quiet.
#[local] Hint Extern 1 (stays nonces_ok (set_sess _ _)) => apply n_set; intros; by repeat case_match : quiet.
#[local] Hint Extern 1 (stays nonces_ok (modify _)) => apply n_modify; intros; by repeat case_match : quiet.
#[local] Hint Extern 1 (stays nonces_ok (do_rtl _)) => by apply n_modify : quiet.
#[local] Hint Extern 1 (stays nonces_ok (do_vita _)) => by apply n_modify : quiet.

(** A nonce is written over the one that is there. *)
Lemma made_length (x : Session) (ok : bool) (raw hex : list Z) :
  length (ss_nonce x) = AUTH_NONCE_BYTES -> auth_make_nonce (e_random e) (ss_nonce x) (ss_nonce_hex x) = (ok, raw, hex) ->
  length raw = AUTH_NONCE_BYTES.
Proof.
  intros Hn. unfold auth_make_nonce. pose proof (fill_length (e_random e) AUTH_NONCE_BYTES 0 (ss_nonce x)) as H.
  destruct (fill_random _ _ _ _) as [ok' raw']. cbn [snd] in H. intros [= _ <- _]. rewrite H; [done|]. by rewrite Hn.
Qed.

Lemma n_made {B} (x : Session) (f : bool -> list Z -> list Z -> Session -> Session) (k : bool -> list Z -> list Z -> M D B) :
  (forall ok raw hex y, ss_nonce (f ok raw hex y) = raw) ->
  (forall ok raw hex, stays (nonces_ok (D := D)) (k ok raw hex)) ->
  hoare (fun w => nonces_ok w /\ x = sess w s)
    (let '(ok, raw, hex) := auth_make_nonce (e_random e) (ss_nonce x) (ss_nonce_hex x) in
     set_sess s (f ok raw hex) ;;; k ok raw hex) (fun _ => nonces_ok).
Proof.
  intros Hf Hk. destruct (auth_make_nonce _ _ _) as [[ok raw] hex] eqn:E.
  apply (h_then _ (nonces_ok (D := D))); [|apply Hk]. apply h_modify. intros w [Hw ->].
  apply Forall_alter; [exact Hw|]. intros y _ _. rewrite Hf. eapply made_length; [by apply nonces_sess|exact E].
Qed.

Lemma n_auth_object : stays (nonces_ok (D := D)) (auth_object e s).
Proof.
  unfold auth_object. eapply h_stay; [apply s_get|intros c]. case_match; [|apply s_ret]. apply h_get_bind. intros x.
  apply (n_made x (fun ok raw hex y => y <| ss_nonce := raw |> <| ss_nonce_hex := if ok then hex else [] |> <| ss_nonce_valid := ok |>)
    (fun ok _ hex => ret (snprintf 160 (jq ",'auth':{'methods':['" ++ AUTH_METHOD_PSK ++ jq "'],'nonce':'"
                       ++ (if ok then hex else []) ++ jq "'}")))); [done|intros; apply s_ret].
Qed.

Lemma n_auth_refused (id : list Z) : stays (nonces_ok (D := D)) (auth_refused e s id).
Proof.
  unfold auth_refused. eapply h_stay; [hleaf|intros _]. apply h_get_bind. intros x.
  apply (n_made x (fun ok raw hex y => y <| ss_nonce := raw |> <| ss_nonce_hex := hex |> <| ss_nonce_valid := ok |>)
    (fun ok _ hex =>
       let details := if ok : bool then snprintf 96 (jq "{'nonce':'" ++ hex ++ jq "'}") else txt "{}" in
       send_framed s (auth_failed_text id details) ;;;
       let* x := get (fun w => sess w s) in
       if AUTH_MAX_FAILURES <=? ss_auth_failures x
       then set_sess s (fun x => x <| ss_close_after_reply := true |>) else ret tt)); [done|]. intros. cbv zeta. hquiet.
Qed.

Lemma n_gains : stays (nonces_ok (D := D)) load_gain_table.
Proof. unfold load_gain_table. hquiet. Qed.

Lemma n_context_all : stays (nonces_ok (D := D)) context_all.
Proof. unfold context_all. hquiet. Qed.

Lemma n_claim : stays (nonces_ok (D := D)) (cp_rx_claim s).
Proof. unfold cp_rx_claim. hquiet. Qed.

Lemma n_release : stays (nonces_ok (D := D)) (cp_rx_release s).
Proof. unfold cp_rx_release. hquiet. Qed.

Lemma n_drop_vita : stays (nonces_ok (D := D)) (drop_vita s).
Proof. unfold drop_vita. hquiet. Qed.

Lemma n_mode_change : stays (nonces_ok (D := D)) apply_mode_change_side_effects.
Proof. unfold apply_mode_change_side_effects. hquiet. Qed.
End Nonces.

#[local] Hint Resolve n_auth_object n_auth_refused n_gains n_context_all n_claim n_release n_drop_vita n_mode_change
  n_with_rtl n_with_vita : quiet.
#[local] Hint Extern 1 (stays nonces_ok (set_sess _ _)) => apply n_set; intros; by repeat case_match : quiet.
#[local] Hint Extern 1 (stays nonces_ok (modify _)) => apply n_modify; intros; by repeat case_match : quiet.
#[local] Hint Extern 1 (stays nonces_ok (do_rtl _)) => by apply n_modify : quiet.
#[local] Hint Extern 1 (stays nonces_ok (do_vita _)) => by apply n_modify : quiet.

Section Reachable.
Context {D : Type} {P : Platform D}.

Lemma n_create (fd : Z) (ip : list Z) : stays (nonces_ok (D := D)) (session_create fd ip).
Proof.
  unfold session_create. eapply h_stay; [apply s_get|intros r]. destruct r; [|apply s_ret].
  eapply h_stay; [apply s_get|intros g]. eapply h_stay; [by apply n_set|intros _; apply s_ret].
Qed.

Lemma n_callback (now : Z) (buf : list Z) : stays (nonces_ok (D := D)) (rtl_callback now buf).
Proof. unfold rtl_callback. hquiet. Qed.

#[export] Instance n_kept : Kept (nonces_ok (D := D)).
Proof.
  split; intros; [apply _|..|apply n_create| |apply n_callback].
  - unfold cmd_hello. hquiet.
  - unfold cmd_authenticate. hquiet.
  - unfold cmd_get_capabilities, build_capabilities_json. hquiet.
  - unfold cmd_set_frequency, configure_params. hquiet.
  - unfold cmd_set_sample_rate, configure_params. hquiet.
  - unfold cmd_set_control, configure_params, set_rf_gain, set_agc, set_bias_tee, set_ppm, set_direct_sampling. hquiet.
  - unfold cmd_open_stream, open_vita, open_destination, refuse, open_accept, alloc_stream_id. hquiet.
  - unfold cmd_start_rx. hquiet.
  - unfold cmd_stop_rx. hquiet.
  - unfold cmd_close_stream. hquiet.
  - unfold session_destroy. hquiet.
Qed.

Lemma reachable_nonces (c : Conf) (r : Rtl D) (v : Srv D) : reachable c r v -> nonces_ok (sv_world v).
Proof. apply (kept_reachable nonces_ok). intros ctx. by apply Forall_replicate. Qed.

(** Of a reachable state: no session is about to be closed. *)
Lemma reachable_open (c : Conf) (r : Rtl D) (v : Srv D) (s : nat) :
  reachable c r v -> ss_close_after_reply (sess (sv_world v) s) = false.
Proof.
  intros Hv. unfold sess. rewrite list_lookup_total_alt. destruct (w_sessions (sv_world v) !! s) as [x|] eqn:E; [|done].
  by apply (Forall_lookup_1 _ _ _ _ (reachable_patient c r v Hv) E).
Qed.
End Reachable.

(** ** The requests *)
Section Requests.
Context {D : Type} {P : Platform D} {U : TunerLaws D} (e : Env).

(** The world [w] after a request, and what becomes of a session that is to be closed. *)
Definition concluded (v : Srv D) (s len : nat) (w : World D) : Prop :=
  exists v', process_message e s len v = Some v' /\ sv_pending v' = <[s := None]> (sv_pending v) /\
    if ss_close_after_reply (sess w s) then session_destroy s w = Some (tt, sv_world v') else sv_world v' = w.

Lemma delivered_concluded (v : Srv D) (s len : nat) (l : members) :
  delivered v s len l ->
  exists ntok t, message (sv_msg_buf v) t ntok l /\
    forall w, process_request e s ntok t (sv_msg_buf v) (sv_world v) = Some (ss_close_after_reply (sess w s), w) ->
      concluded v s len w.
Proof.
  intros (_ & Hn & _ & text & junk & ts & Ht & Hb & -> & Hl). unfold concluded, process_message. rewrite Hb.
  exists (Z.of_nat (length ts)), (ts ++ drop (length ts) (sv_tokens v !!! s)).
  split; [split; [pose proof (text_tokens _ _ _ Ht); lia|by apply located_text]|].
  intros w E. rewrite (jsmn_parse_text_core (JObj l) text ts junk) by (done || (rewrite Hn; lia)).
  cbv iota beta zeta. rewrite E. destruct (ss_close_after_reply (sess w s)); [|by eexists].
  destruct (f_destroy s w) as ([] & w' & Ed & _). rewrite Ed. by eexists.
Qed.

(** A request that needs no authentication, run by a handler of which [w] is the result. *)
Lemma ungated_concluded (v : Srv D) (s len : nat) (l p : members) (id cmd : list Z) (f : cmd_fn) (w : World D) :
  delivered v s len l -> request l id cmd p -> fits_field 64 cmd -> greeted (sv_world v) s \/ cmd = txt "hello" ->
  (forall t js, cmd_addresses_rx (D := D) cmd t js = ret false) -> lookup_cmd cmd (s_dispatch e) = Some f ->
  (forall js t, located js t 0 (JObj l) -> Z.of_nat (length js) < 2 ^ 64 -> f s id t js (sv_world v) = Some (tt, w)) ->
  concluded v s len w.
Proof.
  intros Hd Hq Hf Hg Ha Ek Hrun. destruct (delivered_concluded v s len l Hd) as (ntok & t & Hm & Hp). apply Hp.
  rewrite (envelope_any e _ t ntok l p id cmd s _ Hm Hq Hf Hg), ungated by apply Ha.
  apply (dispatch_run e s cmd id t _ _ _ f Ek). apply Hrun; [apply Hm|].
  destruct Hd as (_ & _ & -> & _). unfold MAX_MSG_BYTES. lia.
Qed.

Lemma greeted_close (c : Conf) (name : list Z) (x : Session) :
  ss_close_after_reply (greeted_session e c name x) = ss_close_after_reply x.
Proof. unfold greeted_session, renewed. case_match; [|done]. by destruct (auth_make_nonce _ _ _) as [[? ?] ?]. Qed.


(** C13: authenticate.  In every reachable state of a device that requires
    authentication: a request without method or response is refused; one whose
    response is the HMAC-SHA256 of the session's unused nonce under the key with the
    given id (or "default") unlocks the session and uses the nonce up; any other
    counts as a failure of the current minute, is answered with auth_failed and the
    new nonce, and the tenth failure ends the session.  A device that does not
    require it says so. *)
Theorem authenticate_request (c : Conf) (r : Rtl D) (v : Srv D) (s len : nat) (l p : members) (id : list Z) :
  reachable c r v -> delivered v s len l -> request l id (txt "authenticate") p ->
  0 < ss_fd (sess (sv_world v) s) -> greeted (sv_world v) s ->
  length (sh_buf (e_stack e)) = 64%nat -> ring_ok (g_keys (w_conf (sv_world v))) ->
  named_plainly p "method" -> named_plainly p "response" -> named_plainly p "key_id" ->
  exists ok,
    (ok = true <->
     match presented p with Some y => proves (w_conf (sv_world v)) (sess (sv_world v) s) y | None => False end) /\
    concluded v s len (authenticate_outcome e s id p ok (sv_world v)).
Proof.
  intros Hv Hd Hq Hfd Hg Hst Hk Pm Pr Pk. pose proof (nonces_sess _ s (reachable_nonces c r v Hv)) as Hn.
  exists (if presented p is Some y then accepts e (w_conf (sv_world v)) (sess (sv_world v) s) y else false). split.
  - destruct (presented p) as [y|]; [by apply accepts_proves|done].
  - apply (ungated_concluded v s len l p id (txt "authenticate") (cmd_authenticate e)); try done;
      [by split; [vm_compute; lia|]|by left|].
    intros js t Hl Hjs. apply (cmd_authenticate_run e s id js t l p); try done. apply Hq.
Qed.
End Requests.

(** ** Examples *)
Definition hello_params : members :=
  [(txt "supported_protocol_versions", JArr [JStr (txt "2.0"); JObj []; JStr (txt "1.0")]);
   (txt "client_name", JStr (txt "sdr"))].


(** A device that requires authentication, and a client that has said hello. *)
Definition locked_aux : { v : Srv Stub | v = Sample.after (Sample.connect 7 ++ Sample.hello 0) (Sample.server true sample_ring) }.
Proof. by eexists. Qed.

Definition locked : Srv Stub := proj1_sig locked_aux.

Lemma locked_eq : locked = Sample.after (Sample.connect 7 ++ Sample.hello 0) (Sample.server true sample_ring).
Proof. exact (proj2_sig locked_aux). Qed.

(** Its answer, under the key "secret" whose id is "default". *)
Definition key_params : members :=
  [(txt "method", JStr AUTH_METHOD_PSK);
   (txt "response", JStr (auth_hex (HMAC (txt "secret") (replicate 16 1))))].

Definition key_sent : Srv Stub := receives 0 (txt "9") (txt "authenticate") key_params locked.

Lemma key_sent_reachable : reachable (Sample.conf true sample_ring) Sample.rtl key_sent.
Proof.
  assert (reachable (Sample.conf true sample_ring) Sample.rtl locked) as (ctx & buf & toks & Hb & Hst)
    by (rewrite locked_eq; apply Sample.reached; vm_compute; reflexivity).
  exists ctx, buf, toks. split; [exact Hb|]. eapply rtc_r; [exact Hst|]. unfold key_sent, receives.
  apply step_receive; [unfold MAX_SESSIONS; lia|unfold live; rewrite locked_eq; vm_compute; reflexivity|rewrite locked_eq; vm_compute; reflexivity| |].
  - apply forallb_bytes. vm_compute. reflexivity.
  - vm_compute. split; [reflexivity|discriminate].
Qed.

Lemma key_sent_delivered :
  delivered key_sent 0 (request_length (txt "9") (txt "authenticate") key_params) (plain_request (txt "9") (txt "authenticate") key_params).
Proof.
  apply delivered_plain; [vm_compute; reflexivity|vm_compute; lia|..]; rewrite locked_eq.
  - vm_compute. lia.
  - vm_compute. reflexivity.
  - vm_compute. reflexivity.
  - apply Nat.ltb_lt. vm_compute. reflexivity.
Qed.

Lemma authenticate_request_witness :
  exists v', process_message Sample.env 0 (request_length (txt "9") (txt "authenticate") key_params) key_sent = Some v' /\
    ss_rx_unlocked (sess (sv_world v') 0) = true.
Proof.
  destruct (authenticate_request Sample.env (Sample.conf true sample_ring) Sample.rtl key_sent 0
    (request_length (txt "9") (txt "authenticate") key_params) (plain_request (txt "9") (txt "authenticate") key_params)
    key_params (txt "9")) as (ok & Hok & v' & E & _ & Hw).
  - exact key_sent_reachable.
  - exact key_sent_delivered.
  - apply plain_request_ok. split; [vm_compute; lia|reflexivity].
  - unfold key_sent, receives. rewrite locked_eq. vm_compute. reflexivity.
  - unfold key_sent, receives, greeted. rewrite locked_eq. vm_compute. discriminate.
  - reflexivity.
  - unfold key_sent, receives. rewrite locked_eq. split; [vm_compute; lia|]. vm_compute. repeat constructor; lia.
  - vm_compute. discriminate.
  - vm_compute. discriminate.
  - vm_compute. exact I.
  - assert (ok = true) as ->.
    { apply Hok. unfold key_sent, receives. rewrite locked_eq. vm_compute (presented _). split; [vm_compute; reflexivity|].
      split; [reflexivity|]. split; [vm_compute; reflexivity|]. eexists. split; [vm_compute; left|]. split; vm_compute; reflexivity. }
    exists v'. split; [exact E|]. revert Hw. unfold key_sent, receives. rewrite locked_eq.
    assert (ss_close_after_reply (sess (authenticate_outcome Sample.env 0 (txt "9") key_params true
      (sv_world (store_message 0 (print (JObj (plain_request (txt "9") (txt "authenticate") key_params)))
        (Sample.after (Sample.connect 7 ++ Sample.hello 0) (Sample.server true sample_ring))))) 0) = false) as ->
      by (vm_compute; reflexivity).
    intros ->. vm_compute. reflexivity.
Defined.
