(* ===== verification/Reader.v ===== *)
(** * The read thread: rtl_async_thread and the calls that start and stop it

    rtl_bridge_start and rtl_bridge_stop at the granularity of their accesses to
    the shared globals, any number of session threads calling them, and the read
    threads they create, each inside rtlsdr_read_async of the fake librtlsdr
    (test/rtlsdr_stub.c), whose loop and sample generator are translated here.
    A thread is a program counter; one step executes one access, of any thread (a
    callback, and the reset at a start, are one step each: neither touches the
    reference count or the flag).  pow() is a parameter.

    [bridge_atomic]: under s_start_mutex the calls are atomic, so the handlers may
    use the one-step definitions of Rtl.v.  [reader_stops]: what a stop leaves of
    the read thread, and when it returns at all.  rtl_bridge_force_stop takes no
    mutex; main calls it last, and it is modelled in Rtl.v only. *)
From Stdlib Require Import SpecFloat.
From S2P Require Import Prelude CLib Jsmn JsonText JsonTok Sha256 Auth Config Rtl Vita World.
From S2P Require Import Session Commands RxCommands Server Quiet Invariants.
#[local] Open Scope Z_scope.

(** ** The clock *)
Record timespec := mkTimespec { tv_sec : Z; tv_nsec : Z }.

Definition now_ms (ts : timespec) : Z :=
  u64 (u64 (u64 (tv_sec ts) * 1000) + u64 (tv_nsec ts ÷ 1000000)).

(** ** What a callback does to the receiver *)
Definition callback_rtl {D} {P : Platform D} (now : Z) (buf : list Z) (r : Rtl D) : Rtl D :=
  if negb (rtl_running r) then r
  else (measure_adc_level now buf
          (r <| s_cb_count := u64 (s_cb_count r + 1) |>
             <| g_samples_per_pkt := Z.of_nat VITA_SAMPLES_PER_PKT |>)).1.

(** ** The sample generator of the fake library *)
Section Generator.
Context (libm_pow : double -> double -> double).

Definition stub_amp (gain : Z) : double :=
  d_div (d_mul (d_of_Z 6)
    (libm_pow (d_of_Z 10) (d_div (d_div (d_of_Z gain) (d_of_Z 10)) (d_of_Z 20)))) (d_of_Z 10).
End Generator.

Definition stub_seed (seed : Z) : Z := u32 (u32 (seed * 1103515245) + 12345).

(** One octet; [None] where the conversion is undefined. *)
Definition stub_sample (amp : double) (seed : Z) : option Z :=
  let n := d_sub (d_div (d_of_Z (Z.land (Z.shiftr seed 16) 32767)) (d_of_Z 16384)) (d_of_Z 1) in
  let v := d_add (d_dec 1274 (-1)) (d_mul n amp) in
  let v := if d_lt v d_zero then d_zero else v in
  let v := if d_lt (d_of_Z 255) v then d_of_Z 255 else v in
  d_trunc v.

Fixpoint stub_fill (n : nat) (amp : double) (seed : Z) : option (list Z * Z) :=
  match n with
  | O => Some ([], seed)
  | S n' =>
      let seed := stub_seed seed in
      v ← stub_sample amp seed;
      '(l, seed) ← stub_fill n' amp seed;
      Some (v :: l, seed)
  end.

(** The first octets at the gain the stub starts with. *)
Example stub_fill_first : stub_fill 8 (d_of_Z 6) 12345 = Some ([129; 125; 129; 122; 127; 127; 128; 125], 2941955441).
Proof. vm_compute. reflexivity. Qed.

#[local] Arguments stub_fill : simpl never.

(** [if (buf_len == 0) buf_len = 262144] *)
Definition stub_buf_len (buf_len : nat) : nat := if decide (buf_len = 0%nat) then Z.to_nat 262144 else buf_len.

(** The argument of usleep. *)
Definition stub_pause (rate : Z) (buf_len : Z) : Z :=
  let rate := if rate =? 0 then 2048000 else rate in
  let us := u64 (buf_len / 2 * 1000000) / rate in
  u32 (if us =? 0 then 1 else us).

(** ** The threads *)

(** A read thread: created; at the test of its loop; with a filled buffer;
    asleep; returned; joined. *)
Inductive reader_pc :=
  | RCreated
  | RTest (seed : Z) (amp : double)
  | RCall (buf : list Z) (seed : Z) (amp : double)
  | RPause (us : Z) (seed : Z) (amp : double)
  | RDone
  | RJoined.

(** A session thread: outside of the bridge, or at a line of a call. *)
Inductive call_pc :=
  | CIdle
  | CStartLock | CStartAdd | CStartReset | CStartRun | CStartCreate | CStartNoRun | CStartUndo
  | CStartUnlock (rc : Z)
  | CStopLock | CStopSub | CStopFix | CStopTest (count : Z) | CStopClear | CStopCancel
  | CStopUnlock (join : bool)
  | CStopJoin | CStopWait (tid : nat).

#[export] Instance call_pc_dec : EqDecision call_pc.
Proof. solve_decision. Defined.

Inductive bridge_op := OpStart (thread_ok : bool) | OpStop.

Record Bridge := mkBridge {
  b_rtl : Rtl Stub;
  b_mutex : option nat;                  (* s_start_mutex *)
  b_tid : nat;                           (* s_async_tid *)
  b_calls : list call_pc;                (* the session threads *)
  b_readers : list reader_pc;            (* the read threads, by pthread_t *)
  b_done : list (bridge_op * Z)          (* finished critical sections, with results *)
}.

#[export] Instance eta_bridge : Eta Bridge := fun b =>
  mkBridge (b_rtl b) (b_mutex b) (b_tid b) (b_calls b) (b_readers b) (b_done b).

Definition goto (i : nat) (p : call_pc) (b : Bridge) : Bridge :=
  b <| b_calls := <[i := p]> (b_calls b) |>.

Definition on_rtl (f : Rtl Stub -> Rtl Stub) (b : Bridge) : Bridge := b <| b_rtl := f (b_rtl b) |>.

Definition lock (i : nat) (p : call_pc) (b : Bridge) : option Bridge :=
  if decide (b_mutex b = None) then Some (goto i p (b <| b_mutex := Some i |>)) else None.

Definition unlock (i : nat) (p : call_pc) (o : bridge_op) (rc : Z) (b : Bridge) : Bridge :=
  goto i p (b <| b_mutex := None |> <| b_done := b_done b ++ [(o, rc)] |>).

(** A call of rtl_bridge_start or rtl_bridge_stop. *)
Definition call (i : nat) (start : bool) (b : Bridge) : option Bridge :=
  if decide (b_calls b !! i = Some CIdle)
  then Some (goto i (if start then CStartLock else CStopLock) b) else None.

(** The next access of session thread [i]; [None] where it waits or is outside.
    [thread_ok]: the result of pthread_create. *)
Definition control (i : nat) (thread_ok : bool) (b : Bridge) : option Bridge :=
  p ← b_calls b !! i;
  let r := b_rtl b in
  match p with
  | CIdle => None
  | CStartLock => lock i CStartAdd b
  | CStartAdd =>
      let count := s_stream_count r + 1 in
      Some (goto i (if count =? 1 then CStartReset else CStartUnlock 0)
              (on_rtl (fun r => r <| s_stream_count := count |>) b))
  | CStartReset =>
      Some (goto i CStartRun (on_rtl (fun r => on_dev rtlsdr_reset_buffer (rtl_reset_adc_level
        (r <| s_ring_write := 0 |> <| s_ring_read := 0 |> <| s_cb_count := 0 |>))) b))
  | CStartRun => Some (goto i CStartCreate (on_rtl (fun r => r <| rtl_running := true |>) b))
  | CStartCreate =>
      Some (if thread_ok
            then goto i (CStartUnlock 0) (b <| b_tid := length (b_readers b) |>
                                            <| b_readers := b_readers b ++ [RCreated] |>)
            else goto i CStartNoRun b)
  | CStartNoRun => Some (goto i CStartUndo (on_rtl (fun r => r <| rtl_running := false |>) b))
  | CStartUndo =>
      Some (goto i (CStartUnlock (-1))
              (on_rtl (fun r => r <| s_stream_count := s_stream_count r - 1 |>) b))
  | CStartUnlock rc => Some (unlock i CIdle (OpStart (rc =? 0)) rc b)
  | CStopLock => lock i CStopSub b
  | CStopSub =>
      let count := s_stream_count r - 1 in
      Some (goto i (if count <? 0 then CStopFix else CStopTest count)
              (on_rtl (fun r => r <| s_stream_count := count |>) b))
  | CStopFix => Some (goto i (CStopTest 0) (on_rtl (fun r => r <| s_stream_count := 0 |>) b))
  | CStopTest count =>
      Some (goto i (if (count =? 0) && rtl_running r then CStopClear else CStopUnlock false) b)
  | CStopClear => Some (goto i CStopCancel (on_rtl (fun r => r <| rtl_running := false |>) b))
  | CStopCancel => Some (goto i (CStopUnlock true) (on_rtl (on_dev rtlsdr_cancel_async) b))
  | CStopUnlock join => Some (unlock i (if join then CStopJoin else CIdle) OpStop 0 b)
  | CStopJoin => Some (goto i (CStopWait (b_tid b)) b)
  | CStopWait t =>
      match b_readers b !! t with
      | Some RDone => Some (goto i CIdle (b <| b_readers := <[t := RJoined]> (b_readers b) |>))
      | _ => None
      end
  end.

(** The next access of read thread [k], inside of rtlsdr_read_async. *)
Section Reader.
Context (libm_pow : double -> double -> double).

Definition rtlsdr_read_async (buf_len : nat) (k : nat) (alloc_ok : bool) (ts : timespec) (b : Bridge) : option Bridge :=
  let buf_len := stub_buf_len buf_len in
  p ← b_readers b !! k;
  d ← s_dev (b_rtl b);
  let become p := b <| b_readers := <[k := p]> (b_readers b) |> in
  match p with
  | RCreated =>
      Some (if alloc_ok
            then on_rtl (fun r => r <| s_dev := Some (d <| st_async := 1 |>) |>)
                   (become (RTest 12345 (stub_amp libm_pow (st_gain d))))
            else become RDone)
  | RTest seed amp =>
      if st_async d =? 0 then Some (become RDone)
      else '(buf, seed) ← stub_fill buf_len amp seed; Some (become (RCall buf seed amp))
  | RCall buf seed amp =>
      Some (on_rtl (callback_rtl (now_ms ts) buf)
              (become (RPause (stub_pause (st_rate d) (Z.of_nat buf_len)) seed amp)))
  | RPause us seed amp => Some (become (RTest seed amp))
  | RDone | RJoined => None
  end.

(** The read thread. *)
Definition rtl_async_thread (k : nat) (alloc_ok : bool) (ts : timespec) (b : Bridge) : option Bridge :=
  rtlsdr_read_async RTL_ASYNC_BUF_LEN k alloc_ok ts b.

(** One step of a thread that is inside of the bridge, or of a read thread. *)
Inductive internal : Bridge -> Bridge -> Prop :=
  | internal_control i ok b b' : control i ok b = Some b' -> internal b b'
  | internal_reader k ok ts b b' : rtl_async_thread k ok ts b = Some b' -> internal b b'.

(** With calls at any time. *)
Inductive bstep : Bridge -> Bridge -> Prop :=
  | bstep_internal b b' : internal b b' -> bstep b b'
  | bstep_call i start b b' : call i start b = Some b' -> bstep b b'.

(** With calls one after the other: only the owner of the rx channel calls the
    bridge ([rx_exclusive]), and an owner's handlers run one after the other. *)
Definition outside (b : Bridge) : Prop := Forall (eq CIdle) (b_calls b).

Inductive serial_step : Bridge -> Bridge -> Prop :=
  | serial_internal b b' : internal b b' -> serial_step b b'
  | serial_call i start b b' : outside b -> call i start b = Some b' -> serial_step b b'.
End Reader.

(** The bridge after rtl_bridge_init, with [n] session threads. *)
Definition bridge_initial (r : Rtl Stub) (n : nat) : Bridge :=
  mkBridge r None 0 (replicate n CIdle) [] [].

(** ** The specification: the calls, one by one, as in Rtl.v *)
Definition apply_op (o : bridge_op) (r : Rtl Stub) : Z * Rtl Stub :=
  match o with OpStart ok => rtl_bridge_start ok r | OpStop => (0, rtl_bridge_stop r) end.

(** [replays l r r']: the calls [l] from [r], with the results they gave, end in
    [r']. *)
Inductive replays : list (bridge_op * Z) -> Rtl Stub -> Rtl Stub -> Prop :=
  | replays_nil r : replays [] r r
  | replays_snoc l o rc r r1 r2 :
      replays l r r1 -> apply_op o r1 = (rc, r2) -> replays (l ++ [(o, rc)]) r r2.

(** ** The invariant of the critical sections *)

(** The lines at which a thread holds s_start_mutex. *)
Definition inside (p : call_pc) : bool :=
  match p with
  | CIdle | CStartLock | CStopLock | CStopJoin | CStopWait _ => false
  | _ => true
  end.

Definition mutex_ok (m : option nat) (calls : list call_pc) : Prop :=
  (forall i p, calls !! i = Some p -> (inside p = true <-> m = Some i)) /\
  (forall i, m = Some i -> is_Some (calls !! i)).

(** The count and the flag when the holder is at line [p], where the critical
    section found the count [c]. *)
Definition at_line (c : Z) (p : call_pc) (c' : Z) (run : bool) : Prop :=
  match p with
  | CStartAdd | CStopSub => c' = c /\ run = (0 <? c)
  | CStartReset | CStartRun => c = 0 /\ c' = 1 /\ run = false
  | CStartCreate | CStartNoRun => c = 0 /\ c' = 1 /\ run = true
  | CStartUndo => c = 0 /\ c' = 1 /\ run = false
  | CStartUnlock rc => rc = 0 /\ c' = c + 1 /\ run = true \/ rc = -1 /\ c = 0 /\ c' = 0 /\ run = false
  | CStopFix => c = 0 /\ c' = -1 /\ run = false
  | CStopTest k => k = c' /\ c' = Z.max 0 (c - 1) /\ run = (0 <? c)
  | CStopClear => c = 1 /\ c' = 0 /\ run = true
  | CStopCancel => c = 1 /\ c' = 0 /\ run = false
  | CStopUnlock join => c' = Z.max 0 (c - 1) /\ run = (0 <? c') /\ join = (c =? 1)
  | _ => False
  end.

Definition view (r : Rtl Stub) : Z * bool := (s_stream_count r, rtl_running r).

Definition atomic_inv (r0 : Rtl Stub) (b : Bridge) : Prop :=
  mutex_ok (b_mutex b) (b_calls b) /\
  exists r, replays (b_done b) r0 r /\ bridge_ok r /\
    match b_mutex b with
    | None => view (b_rtl b) = view r
    | Some i => exists p, b_calls b !! i = Some p /\
        at_line (s_stream_count r) p (s_stream_count (b_rtl b)) (rtl_running (b_rtl b))
    end.

Lemma mutex_ok_move (m : option nat) (calls : list call_pc) (i : nat) (p p' : call_pc) :
  mutex_ok m calls -> calls !! i = Some p ->
  (inside p = false -> inside p' = true -> m = None) ->
  mutex_ok (if inside p' then Some i else if inside p then None else m) (<[i := p']> calls).
Proof.
  intros [H1 H2] Hi Hin. split.
  - intros j q. destruct (decide (j = i)) as [->|Hne].
    + rewrite list_lookup_insert_eq by (by eapply lookup_lt_Some). intros [= <-].
      specialize (H1 i p Hi). destruct (inside p'), (inside p); intuition congruence.
    + rewrite list_lookup_insert_ne by done. intros Hq. specialize (H1 j q Hq) as Hj.
      specialize (H1 i p Hi). destruct (inside p'), (inside p), (inside q); intuition congruence.
  - intros j Hj. destruct (decide (j = i)) as [->|Hne].
    + rewrite list_lookup_insert_eq by (by eapply lookup_lt_Some). done.
    + rewrite list_lookup_insert_ne by done. apply H2. specialize (H1 i p Hi).
      destruct (inside p'), (inside p); intuition congruence.
Qed.

(** Moving on inside of the critical section. *)
Lemma atomic_move (r0 : Rtl Stub) (b : Bridge) (i : nat) (p p' : call_pc) (b' : Bridge) :
  atomic_inv r0 b -> b_calls b !! i = Some p -> inside p = true -> inside p' = true ->
  b_mutex b' = b_mutex b -> b_calls b' = <[i := p']> (b_calls b) -> b_done b' = b_done b ->
  (forall c, 0 <= c -> at_line c p (s_stream_count (b_rtl b)) (rtl_running (b_rtl b)) ->
     at_line c p' (s_stream_count (b_rtl b')) (rtl_running (b_rtl b'))) ->
  atomic_inv r0 b'.
Proof.
  intros (Hm & r & Hr & Hb & H) Hi Hp Hp' E1 E2 E3 Hl. unfold atomic_inv. rewrite E1, E2, E3.
  pose proof (proj1 (proj1 Hm i p Hi) Hp) as Em. rewrite Em in *. split.
  - pose proof (mutex_ok_move _ _ i p p' Hm Hi) as H'. rewrite Hp, Hp' in H'. by apply H'.
  - exists r. split; [done|]. split; [done|]. exists p'. destruct H as (q & Hq & H). simplify_eq.
    rewrite list_lookup_insert_eq by (by eapply lookup_lt_Some). split; [done|]. apply Hl; [apply Hb|done].
Qed.

(** Taking the mutex, and giving it back. *)
Lemma atomic_lock (r0 : Rtl Stub) (b b' : Bridge) (i : nat) (p p' : call_pc) :
  atomic_inv r0 b -> b_calls b !! i = Some p -> inside p = false -> inside p' = true ->
  (forall c run, run = (0 <? c) -> at_line c p' c run) ->
  lock i p' b = Some b' -> atomic_inv r0 b'.
Proof.
  intros (Hm & r & Hr & Hb & H) Hi Hp Hp' Hl. unfold lock. destruct (decide (b_mutex b = None)) as [E|]; [|done].
  intros [= <-]. cbn. rewrite E in *. injection H as E1 E2. split; cbn.
  - pose proof (mutex_ok_move _ _ i p p' Hm Hi) as H'. rewrite Hp' in H'. by apply H'.
  - exists r. split; [done|]. split; [done|]. exists p'. cbn.
    rewrite list_lookup_insert_eq by (by eapply lookup_lt_Some). split; [done|].
    rewrite E1, E2. apply Hl, Hb.
Qed.

Lemma atomic_unlock (r0 : Rtl Stub) (b : Bridge) (i : nat) (p p' : call_pc) (o : bridge_op) (rc : Z) :
  atomic_inv r0 b -> b_calls b !! i = Some p -> inside p = true -> inside p' = false ->
  (forall r, bridge_ok r -> at_line (s_stream_count r) p (s_stream_count (b_rtl b)) (rtl_running (b_rtl b)) ->
     exists r', apply_op o r = (rc, r') /\ bridge_ok r' /\ view (b_rtl b) = view r') ->
  atomic_inv r0 (unlock i p' o rc b).
Proof.
  intros (Hm & r & Hr & Hb & H) Hi Hp Hp' Hl. unfold unlock.
  pose proof (proj1 (proj1 Hm i p Hi) Hp) as Em. rewrite Em in *. destruct H as (q & Hq & H). assert (q = p) as -> by congruence.
  split; cbn.
  - pose proof (mutex_ok_move _ _ i p p' Hm Hi) as H'. rewrite Hp, Hp' in H'. by apply H'.
  - destruct (Hl r Hb H) as (r' & Ha & Hb' & Hv). exists r'. split; [by eapply replays_snoc|]. by split.
Qed.

(** Moving on outside of the critical section. *)
Lemma atomic_outside (r0 : Rtl Stub) (b b' : Bridge) (i : nat) (p p' : call_pc) :
  atomic_inv r0 b -> b_calls b !! i = Some p -> inside p = false -> inside p' = false ->
  b_mutex b' = b_mutex b -> b_calls b' = <[i := p']> (b_calls b) -> b_done b' = b_done b ->
  view (b_rtl b') = view (b_rtl b) -> atomic_inv r0 b'.
Proof.
  intros (Hm & r & Hr & Hb & H) Hi Hp Hp' E1 E2 E3 E4. unfold atomic_inv. rewrite E1, E2, E3. split.
  - pose proof (mutex_ok_move _ _ i p p' Hm Hi) as H'. rewrite Hp, Hp' in H'. by apply H'.
  - exists r. split; [done|]. split; [done|]. rewrite E4. destruct (b_mutex b) as [j|] eqn:Ej; [|done].
    destruct H as (q & Hq & H). exists q. injection E4 as -> ->. split; [|done].
    rewrite list_lookup_insert_ne; [done|]. intros ->. simplify_eq.
    apply (proj1 Hm j) in Hq. by destruct q.
Qed.

(** A read thread changes neither the count nor the flag. *)
Lemma callback_view (now : Z) (buf : list Z) (r : Rtl Stub) : view (callback_rtl now buf r) = view r.
Proof.
  unfold callback_rtl. destruct (negb _); [done|].
  pose proof (measure_reader now buf (r <| s_cb_count := u64 (s_cb_count r + 1) |>
    <| g_samples_per_pkt := Z.of_nat VITA_SAMPLES_PER_PKT |>)) as H.
  unfold reader_same in H. unfold view. cbn in H. intuition congruence.
Qed.

Section Atomic.
Context (libm_pow : double -> double -> double).

Lemma atomic_reader (r0 : Rtl Stub) (b b' : Bridge) (k : nat) (ok : bool) (ts : timespec) :
  atomic_inv r0 b -> rtl_async_thread libm_pow k ok ts b = Some b' -> atomic_inv r0 b'.
Proof.
  intros (Hm & r & Hr & Hb & H) Hs.
  assert (b_mutex b' = b_mutex b /\ b_calls b' = b_calls b /\ b_done b' = b_done b /\
    view (b_rtl b') = view (b_rtl b)) as (E1 & E2 & E3 & E4).
  { unfold rtl_async_thread, rtlsdr_read_async in Hs. destruct (b_readers b !! k) as [p|]; [|done]. cbn in Hs.
    destruct (s_dev (b_rtl b)) as [d|]; [|done]. cbn in Hs. destruct p as [|seed amp|buf seed amp|us seed amp| |]; try done.
    - destruct ok; by injection Hs as <-.
    - destruct (st_async d =? 0); [by injection Hs as <-|].
      destruct (stub_fill _ _ _) as [[l s]|]; [|done]. by injection Hs as <-.
    - injection Hs as <-. repeat split. apply callback_view.
    - by injection Hs as <-. }
  unfold atomic_inv. rewrite E1, E2, E3. split; [done|]. exists r. split; [done|]. split; [done|].
  injection E4 as E4 E5. unfold view. by rewrite E4, E5.
Qed.

Lemma atomic_call (r0 : Rtl Stub) (b b' : Bridge) (i : nat) (start : bool) :
  atomic_inv r0 b -> call i start b = Some b' -> atomic_inv r0 b'.
Proof.
  intros H. unfold call. destruct (decide _) as [Hi|]; [|done]. intros [= <-].
  eapply (atomic_outside r0 b _ i CIdle (if start then CStartLock else CStopLock)); try done. by destruct start.
Qed.

(** What the whole critical section did is the one-step definition. *)
Lemma start_lines (r : Rtl Stub) (rc c' : Z) (run : bool) :
  bridge_ok r -> at_line (s_stream_count r) (CStartUnlock rc) c' run ->
  exists r', rtl_bridge_start (rc =? 0) r = (rc, r') /\ bridge_ok r' /\ (c', run) = view r'.
Proof.
  intros Hb. pose proof (start_spec (rc =? 0) r Hb) as H. revert H. unfold rtl_bridge_start, view.
  destruct Hb as [Hc Hr]. cbn [at_line s_stream_count upd].
  destruct (Z.eqb_spec (s_stream_count r + 1) 1) as [E|E]; (intros H [(-> & -> & ->)|(-> & E' & -> & ->)]; [|try lia]);
    cbn [Z.eqb] in *; eexists; split; try done; (split; [apply H|]); cbn; f_equal; try lia.
  rewrite Hr. symmetry. apply Z.ltb_lt. lia.
Qed.

Lemma stop_lines (r : Rtl Stub) (join : bool) (c' : Z) (run : bool) :
  bridge_ok r -> at_line (s_stream_count r) (CStopUnlock join) c' run ->
  bridge_ok (rtl_bridge_stop r) /\ (c', run) = view (rtl_bridge_stop r).
Proof.
  intros Hb (-> & -> & _). destruct (stop_spec r Hb) as [H E]. split; [done|].
  unfold view. rewrite E. f_equal. destruct H as [_ ->]. by rewrite E.
Qed.

(** The case of a line that keeps the mutex, and goes on to line [p]. *)
#[local] Ltac move_to p :=
  intros [= <-]; eapply (atomic_move _ _ _ _ p); [eassumption|eassumption|done|done|done|done|done|];
  cbn; intros; repeat match goal with
    | H : context [0 <? ?c] |- _ => destruct (Z.ltb_spec 0 c)
    | |- context [0 <? ?c] => destruct (Z.ltb_spec 0 c)
    | |- context [?c =? 1] => destruct (Z.eqb_spec c 1)
    end; intuition (lia || congruence).

Lemma atomic_control (r0 : Rtl Stub) (b b' : Bridge) (i : nat) (ok : bool) :
  atomic_inv r0 b -> control i ok b = Some b' -> atomic_inv r0 b'.
Proof.
  intros H. unfold control. destruct (b_calls b !! i) as [p|] eqn:Hi; [|done]. cbn [mbind option_bind].
  destruct p as [| | | | | | | |rc| | | |count| | |join| |t]; try done.
  - eapply (atomic_lock _ _ _ _ _ CStartAdd); try done.
  - destruct (Z.eqb_spec (s_stream_count (b_rtl b) + 1) 1); [move_to CStartReset|move_to (CStartUnlock 0)].
  - move_to CStartRun.
  - move_to CStartCreate.
  - destruct ok; [move_to (CStartUnlock 0)|move_to CStartNoRun].
  - move_to CStartUndo.
  - move_to (CStartUnlock (-1)).
  - intros [= <-]. eapply (atomic_unlock _ _ _ (CStartUnlock rc)); try done.
    intros r Hb Hl. destruct (start_lines r rc _ _ Hb Hl) as (r' & E & Hr & Hv). by exists r'.
  - eapply (atomic_lock _ _ _ _ _ CStopSub); try done.
  - destruct (Z.ltb_spec (s_stream_count (b_rtl b) - 1) 0); [move_to CStopFix|move_to (CStopTest (s_stream_count (b_rtl b) - 1))].
  - move_to (CStopTest 0).
  - destruct (Z.eqb_spec count 0), (rtl_running (b_rtl b)) eqn:Er; cbn [andb];
      [move_to CStopClear|move_to (CStopUnlock false)..].
  - move_to CStopCancel.
  - move_to (CStopUnlock true).
  - intros [= <-]. eapply (atomic_unlock _ _ _ (CStopUnlock join)); try done; [by destruct join|].
    intros r Hb Hl. destruct (stop_lines r join _ _ Hb Hl). by eexists.
  - intros [= <-]. by eapply (atomic_outside _ _ _ i CStopJoin (CStopWait _)).
  - destruct (b_readers b !! t) as [[]|]; try done. intros [= <-].
    by eapply (atomic_outside _ _ _ i (CStopWait t) CIdle).
Qed.

Lemma atomic_internal (r0 : Rtl Stub) (b b' : Bridge) :
  atomic_inv r0 b -> internal libm_pow b b' -> atomic_inv r0 b'.
Proof. intros H Hs. destruct Hs; [by eapply atomic_control|by eapply atomic_reader]. Qed.

Lemma atomic_step (r0 : Rtl Stub) (b b' : Bridge) :
  atomic_inv r0 b -> bstep libm_pow b b' -> atomic_inv r0 b'.
Proof. intros H Hs. destruct Hs; [by eapply atomic_internal|by eapply atomic_call]. Qed.
End Atomic.

(** The callback of Server.v does the same to the receiver. *)
Lemma callback_agrees {D : Type} {P : Platform D} (now : Z) (buf : list Z) (w w' : World D) :
  rtl_callback now buf w = Some (tt, w') -> w_rtl w' = callback_rtl now buf (w_rtl w).
Proof.
  assert (forall r, Stable (fun w : World D => w_rtl w = r)) as Hst by by intros r w0 o Hw.
  unfold rtl_callback, callback_rtl, bind, get. destruct (negb (rtl_running (w_rtl w))); [by intros [= <-]|].
  unfold do_rtl, with_rtl, do_vita, modify. cbn [w_rtl upd].
  match goal with |- context [measure_adc_level now buf ?r] => destruct (measure_adc_level now buf r) as [r' ev] end.
  match goal with |- context [match ev with Some _ => _ | None => _ end ?w1] =>
    assert (stays (fun w : World D => w_rtl w = r') (match ev with Some x => cp_on_adc_overload x | None => ret tt end)) as H
      by (destruct ev; [apply q_adc_overload; apply _|apply s_ret]);
    specialize (H w1) end.
  destruct (match ev with Some x => cp_on_adc_overload x | None => ret tt end _) as [[a w2]|]; [|done].
  intros [= <-]. cbn. by apply (H a w2).
Qed.

(** ** One call at a time *)

(** All read threads are gone; or the last one, s_async_tid, is not yet joined. *)
Definition no_reader (b : Bridge) : Prop := Forall (eq RJoined) (b_readers b).

Definition one_reader (b : Bridge) (x : reader_pc) : Prop :=
  exists l, b_readers b = l ++ [x] /\ Forall (eq RJoined) l /\ x <> RJoined /\ b_tid b = length l.

Definition readers_by_flag (b : Bridge) : Prop :=
  if rtl_running (b_rtl b) then exists x, one_reader b x else no_reader b.

Definition phase (p : call_pc) (b : Bridge) : Prop :=
  match p with
  | CStartReset | CStartRun | CStartCreate | CStartNoRun | CStartUndo => no_reader b
  | CStopClear | CStopCancel | CStopUnlock true => exists x, one_reader b x
  | CStopJoin => rtl_running (b_rtl b) = false /\ exists x, one_reader b x
  | CStopWait t => rtl_running (b_rtl b) = false /\ t = b_tid b /\ exists x, one_reader b x
  | _ => readers_by_flag b
  end.

(** Thread [i] is at line [p]; the others are outside of the bridge. *)
Definition alone (b : Bridge) (i : nat) (p : call_pc) : Prop :=
  b_calls b !! i = Some p /\ forall j q, b_calls b !! j = Some q -> j <> i -> q = CIdle.

Definition serial_inv (b : Bridge) : Prop :=
  (exists d, s_dev (b_rtl b) = Some d) /\ exists i p, alone b i p /\ phase p b.

Lemma outside_alone (b : Bridge) (i : nat) : outside b -> (i < length (b_calls b))%nat -> alone b i CIdle.
Proof.
  intros H Hi. apply lookup_lt_is_Some in Hi as [p Hp]. unfold outside in H. rewrite Forall_lookup in H.
  split; [by rewrite Hp, (H _ _ Hp)|]. intros j q Hq _. symmetry. by apply (H j).
Qed.

Lemma alone_outside (b : Bridge) (i : nat) : alone b i CIdle -> outside b.
Proof.
  intros [Hi H]. apply Forall_lookup. intros j q Hq. destruct (decide (j = i)) as [->|Hne]; [congruence|].
  symmetry. by apply (H j).
Qed.

Lemma alone_move (b b' : Bridge) (i : nat) (p p' : call_pc) :
  alone b i p -> b_calls b' = <[i := p']> (b_calls b) -> alone b' i p'.
Proof.
  intros [Hi H] E. unfold alone. rewrite E. split; [apply list_lookup_insert_eq; by eapply lookup_lt_Some|].
  intros j q Hq Hne. rewrite list_lookup_insert_ne in Hq by done. by apply (H j).
Qed.

(** The thread that takes the next step is the one inside. *)
Lemma control_alone (b b' : Bridge) (i j : nat) (p : call_pc) (ok : bool) :
  alone b i p -> control j ok b = Some b' -> j = i.
Proof.
  intros [Hi H] Hs. destruct (decide (j = i)); [done|]. unfold control in Hs.
  destruct (b_calls b !! j) as [q|] eqn:Hq; [|done]. by rewrite (H j q Hq) in Hs.
Qed.

Lemma outside_control (b b' : Bridge) (j : nat) (ok : bool) : outside b -> control j ok b <> Some b'.
Proof.
  unfold control. intros H. destruct (b_calls b !! j) as [q|] eqn:Hq; [|done].
  unfold outside in H. rewrite Forall_lookup in H. by rewrite <- (H j q Hq).
Qed.

Lemma one_reader_lookup (b : Bridge) (x : reader_pc) : one_reader b x -> b_readers b !! b_tid b = Some x.
Proof.
  intros (l & E & _ & _ & Ht). rewrite E, Ht. by rewrite lookup_app_r, Nat.sub_diag by lia.
Qed.

Lemma one_reader_only (b : Bridge) (x y : reader_pc) (k : nat) :
  one_reader b x -> b_readers b !! k = Some y -> y <> RJoined -> k = b_tid b /\ y = x.
Proof.
  intros (l & E & Hl & _ & Ht) Hk Hy. rewrite E, Ht in *. destruct (decide (k < length l)%nat) as [H|H].
  - rewrite lookup_app_l in Hk by done. rewrite Forall_lookup in Hl. by apply Hl in Hk.
  - rewrite lookup_app_r in Hk by lia. apply list_lookup_singleton_Some in Hk as [? ->]. split; [lia|done].
Qed.

Lemma one_reader_become (b b' : Bridge) (x y : reader_pc) :
  one_reader b x -> b_readers b' = <[b_tid b := y]> (b_readers b) -> b_tid b' = b_tid b -> y <> RJoined ->
  one_reader b' y.
Proof.
  intros (l & E & Hl & _ & Ht) E' Et Hy. exists l. rewrite E', Et, E, Ht. split; [|done].
  by rewrite insert_app_r_alt, Nat.sub_diag by lia.
Qed.

Lemma one_reader_joined (b b' : Bridge) (x : reader_pc) :
  one_reader b x -> b_readers b' = <[b_tid b := RJoined]> (b_readers b) -> no_reader b'.
Proof.
  intros (l & E & Hl & _ & Ht) E'. unfold no_reader. rewrite E', E, Ht, insert_app_r_alt, Nat.sub_diag by lia.
  by apply Forall_app_2; [|apply Forall_cons_2; [|apply Forall_nil_2]].
Qed.

(** What a step of a read thread does. *)
Definition reader_next (x y : reader_pc) (d d' : Stub) : Prop :=
  match x with
  | RCreated => y = RDone \/ (exists seed amp, y = RTest seed amp) /\ st_async d' = 1
  | RTest _ _ => d' = d /\ if st_async d =? 0 then y = RDone else exists buf seed amp, y = RCall buf seed amp
  | RCall _ _ _ => d' = d /\ exists us seed amp, y = RPause us seed amp
  | RPause _ _ _ => d' = d /\ exists seed amp, y = RTest seed amp
  | RDone | RJoined => False
  end.

Lemma callback_dev (now : Z) (buf : list Z) (r : Rtl Stub) : s_dev (callback_rtl now buf r) = s_dev r.
Proof.
  unfold callback_rtl. destruct (negb _); [done|]. unfold measure_adc_level. by repeat case_match.
Qed.

Lemma reader_next_live (x y : reader_pc) (d d' : Stub) : reader_next x y d d' -> x <> RJoined /\ x <> RDone /\ y <> RJoined.
Proof.
  destruct x; cbn; [intros [->|[(? & ? & ->) _]]|intros [_ H]; destruct (_ =? 0); [subst|destruct H as (? & ? & ? & ->)]
    |intros (_ & ? & ? & ? & ->)|intros (_ & ? & ? & ->)|done..]; done.
Qed.

Section Serial.
Context (libm_pow : double -> double -> double).

Lemma reader_spec (b b' : Bridge) (k : nat) (ok : bool) (ts : timespec) :
  rtl_async_thread libm_pow k ok ts b = Some b' ->
  b_calls b' = b_calls b /\ b_tid b' = b_tid b /\ view (b_rtl b') = view (b_rtl b) /\
  exists x y d d', b_readers b !! k = Some x /\ b_readers b' = <[k := y]> (b_readers b) /\
    s_dev (b_rtl b) = Some d /\ s_dev (b_rtl b') = Some d' /\ reader_next x y d d'.
Proof.
  unfold rtl_async_thread, rtlsdr_read_async. destruct (b_readers b !! k) as [x|] eqn:Ex; [|done]. cbn.
  destruct (s_dev (b_rtl b)) as [d|] eqn:Ed; [|done]. cbn.
  destruct x as [|seed amp|buf seed amp|us seed amp| |]; try done.
  - destruct ok; intros [= <-]; repeat (split; [done|]).
    + eexists RCreated, _, d, (d <| st_async := 1 |>). repeat (split; [done|]). right. eauto.
    + eexists RCreated, _, d, d. repeat (split; [done|]). by left.
  - destruct (st_async d =? 0) eqn:E.
    + intros [= <-]. repeat (split; [done|]). eexists (RTest seed amp), _, d, d. repeat (split; [done|]). cbn. by rewrite E.
    + destruct (stub_fill _ _ _) as [[l s]|]; [|done]. intros [= <-]. repeat (split; [done|]). eexists (RTest seed amp), _, d, d.
      repeat (split; [done|]). cbn. rewrite E. eauto.
  - intros [= <-]. split; [done|]. split; [done|]. split; [apply callback_view|]. eexists (RCall buf seed amp), _, d, d.
    repeat (split; [done|]). cbn. rewrite callback_dev. split; [exact Ed|]. eauto.
  - intros [= <-]. repeat (split; [done|]). eexists (RPause us seed amp), _, d, d. repeat (split; [done|]). cbn. eauto.
Qed.

(** With one call at a time, a read thread that moves is the last one. *)
Lemma reader_one (b b' : Bridge) (k : nat) (ok : bool) (ts : timespec) (x : reader_pc) :
  one_reader b x -> rtl_async_thread libm_pow k ok ts b = Some b' ->
  k = b_tid b /\ exists y d d', one_reader b' y /\ s_dev (b_rtl b) = Some d /\ s_dev (b_rtl b') = Some d' /\
    reader_next x y d d'.
Proof.
  intros Hx Hs. apply reader_spec in Hs as (_ & Et & _ & x' & y & d & d' & Ek & Er & Ed & Ed' & Hn).
  pose proof (reader_next_live _ _ _ _ Hn) as (H1 & _ & H3).
  destruct (one_reader_only _ _ _ _ Hx Ek H1) as [-> ->]. split; [done|]. exists y, d, d'.
  split; [by eapply one_reader_become|done].
Qed.

Lemma reader_none (b b' : Bridge) (k : nat) (ok : bool) (ts : timespec) :
  no_reader b -> rtl_async_thread libm_pow k ok ts b <> Some b'.
Proof.
  intros H Hs. apply reader_spec in Hs as (_ & _ & _ & x & y & d & d' & Ek & _ & _ & _ & Hn).
  apply reader_next_live in Hn as [Hn _]. unfold no_reader in H. rewrite Forall_lookup in H. by apply H in Ek.
Qed.

Lemma flag_reader (b b' : Bridge) (k : nat) (ok : bool) (ts : timespec) :
  rtl_async_thread libm_pow k ok ts b = Some b' -> readers_by_flag b -> readers_by_flag b'.
Proof.
  intros Hs H. pose proof (reader_spec _ _ _ _ _ Hs) as (_ & _ & Hv & _). injection Hv as _ Hv.
  unfold readers_by_flag in *. rewrite Hv. destruct (rtl_running (b_rtl b)).
  - destruct H as [x Hx]. destruct (reader_one _ _ _ _ _ _ Hx Hs) as (_ & y & ? & ? & Hy & _). by exists y.
  - by apply (reader_none _ b' k ok ts) in H.
Qed.

Lemma phase_reader (b b' : Bridge) (k : nat) (ok : bool) (ts : timespec) (p : call_pc) :
  rtl_async_thread libm_pow k ok ts b = Some b' -> phase p b -> phase p b'.
Proof.
  intros Hs. assert ((exists x, one_reader b x) -> exists x, one_reader b' x) as Hone.
  { intros [x Hx]. destruct (reader_one _ _ _ _ _ _ Hx Hs) as (_ & y & ? & ? & Hy & _). by exists y. }
  assert (no_reader b -> no_reader b') as Hno by (intros H; by apply (reader_none _ b' k ok ts) in H).
  pose proof (flag_reader _ _ _ _ _ Hs) as Hf.
  pose proof (reader_spec _ _ _ _ _ Hs) as (_ & Et & Hv & _). injection Hv as _ Hv.
  destruct p as [| | | | | | | | | | | | | | |[]| |]; cbn; rewrite ?Hv, ?Et; tauto.
Qed.

Lemma holder_line (r0 : Rtl Stub) (b : Bridge) (i : nat) (p : call_pc) :
  atomic_inv r0 b -> b_calls b !! i = Some p -> inside p = true ->
  exists c, 0 <= c /\ at_line c p (s_stream_count (b_rtl b)) (rtl_running (b_rtl b)).
Proof.
  intros (Hm & r & _ & [Hc _] & H) Hi Hp. apply (proj1 Hm i p Hi) in Hp. rewrite Hp in H.
  destruct H as (q & Hq & H). assert (q = p) as -> by congruence. eauto.
Qed.

(** The case of a step to line [p] that leaves the read threads alone. *)
Ltac to_line p := intros [= <-]; exists p; split; [reflexivity|].

Lemma phase_control (r0 : Rtl Stub) (b b' : Bridge) (i : nat) (ok : bool) (p : call_pc) :
  atomic_inv r0 b -> b_calls b !! i = Some p -> phase p b -> control i ok b = Some b' ->
  exists p', b_calls b' = <[i := p']> (b_calls b) /\ phase p' b'.
Proof.
  intros H Hi Hph. assert (inside p = true -> exists c, 0 <= c /\
    at_line c p (s_stream_count (b_rtl b)) (rtl_running (b_rtl b))) as Hl by by apply (holder_line r0 b i).
  unfold control. rewrite Hi. cbn [mbind option_bind]. unfold readers_by_flag in *.
  destruct p as [| | | | | | | |rc| | | |count| | |join| |t]; try done;
    try (specialize (Hl eq_refl) as (c & Hc & Hl); cbn in Hl); cbn [phase] in Hph; unfold readers_by_flag in Hph.
  - unfold lock. destruct (decide _); [|done]. by to_line CStartAdd.
  - destruct Hl as [Hl Hr]. rewrite Hr in Hph. destruct (Z.eqb_spec (s_stream_count (b_rtl b) + 1) 1).
    + to_line CStartReset. cbn. by destruct (Z.ltb_spec 0 c); [lia|].
    + to_line (CStartUnlock 0). cbn. unfold readers_by_flag. cbn. by rewrite Hr.
  - by to_line CStartRun.
  - by to_line CStartCreate.
  - destruct ok; [to_line (CStartUnlock 0)|by to_line CStartNoRun]. cbn. unfold readers_by_flag. cbn.
    destruct Hl as (_ & _ & ->). exists RCreated, (b_readers b). done.
  - by to_line CStartUndo.
  - to_line (CStartUnlock (-1)). cbn. unfold readers_by_flag. cbn. by destruct Hl as (_ & _ & ->).
  - by to_line CIdle.
  - unfold lock. destruct (decide _); [|done]. by to_line CStopSub.
  - destruct (Z.ltb_spec (s_stream_count (b_rtl b) - 1) 0); [by to_line CStopFix|by to_line (CStopTest (s_stream_count (b_rtl b) - 1))].
  - by to_line (CStopTest 0).
  - destruct (count =? 0), (rtl_running (b_rtl b)) eqn:Er; cbn [andb];
      [to_line CStopClear|to_line (CStopUnlock false)..]; cbn; unfold readers_by_flag; cbn; by rewrite ?Er.
  - by to_line CStopCancel.
  - by to_line (CStopUnlock true).
  - destruct join; [to_line CStopJoin|by to_line CIdle]. cbn. split; [|done].
    destruct Hl as (E & -> & Hj). symmetry in Hj. apply Z.eqb_eq in Hj. apply Z.ltb_ge. lia.
  - to_line (CStopWait (b_tid b)). cbn. tauto.
  - destruct (b_readers b !! t) as [x|] eqn:Et; [|done]. destruct x; try done. to_line CIdle.
    destruct Hph as (Hr & -> & x & Hx). cbn. unfold readers_by_flag. cbn. rewrite Hr.
    by eapply (one_reader_joined b).
Qed.

Lemma control_dev (b b' : Bridge) (i : nat) (ok : bool) (d : Stub) :
  s_dev (b_rtl b) = Some d -> control i ok b = Some b' -> exists d', s_dev (b_rtl b') = Some d'.
Proof.
  intros Hd. unfold control, lock. destruct (b_calls b !! i) as [p|]; [|done]. cbn [mbind option_bind].
  destruct p; repeat case_match; try done; intros [= <-]; cbn; rewrite ?Hd; cbn; eauto.
Qed.

Lemma serial_step_inv (r0 : Rtl Stub) (b b' : Bridge) :
  atomic_inv r0 b /\ serial_inv b -> serial_step libm_pow b b' -> atomic_inv r0 b' /\ serial_inv b'.
Proof.
  intros [Ha ((d & Hd) & i & p & Hal & Hph)] Hs. split.
  { destruct Hs as [? ? Hs|j start ? ? _ Hs]; [by eapply atomic_internal|by eapply atomic_call]. }
  destruct Hs as [? ? Hs|j start ? ? Hout Hs]; [destruct Hs as [j ok ? ? Hs|k ok ts ? ? Hs]|].
  - assert (j = i) as -> by by eapply control_alone.
    split; [by eapply control_dev|]. destruct (phase_control r0 _ _ i ok p Ha (proj1 Hal) Hph Hs) as (p' & E & Hp').
    exists i, p'. split; [by eapply alone_move|done].
  - pose proof (reader_spec _ _ _ _ _ Hs) as (E & _ & _ & ? & ? & ? & d' & _ & _ & _ & Hd' & _).
    split; [by exists d'|]. exists i, p. split; [|by eapply phase_reader]. unfold alone. by rewrite E.
  - unfold call in Hs. destruct (decide _) as [Hj|]; [|done]. injection Hs as <-. split; [by exists d|].
    assert (p = CIdle) as ->.
    { unfold outside in Hout. rewrite Forall_lookup in Hout. symmetry. by apply (Hout i), Hal. }
    exists j, (if start then CStartLock else CStopLock). split; [|by destruct start].
    eapply alone_move; [apply (outside_alone _ j Hout)|done]. by eapply lookup_lt_Some.
Qed.

(** ** Waiting for the read thread *)
Definition waiting (i : nat) (x : reader_pc) (b : Bridge) : Prop :=
  alone b i (CStopWait (b_tid b)) /\ rtl_running (b_rtl b) = false /\ one_reader b x.

Lemma waiting_step (i : nat) (x : reader_pc) (b b' : Bridge) :
  waiting i x b -> internal libm_pow b b' ->
  x = RDone /\ outside b' /\ no_reader b' \/
  exists y d d', waiting i y b' /\ s_dev (b_rtl b) = Some d /\ s_dev (b_rtl b') = Some d' /\ reader_next x y d d'.
Proof.
  intros (Hal & Hr & Hx) Hs. destruct Hs as [j ok ? ? Hs|k ok ts ? ? Hs].
  - left. assert (j = i) as -> by by eapply control_alone. unfold control in Hs.
    rewrite (proj1 Hal) in Hs. cbn in Hs. rewrite (one_reader_lookup b x Hx) in Hs.
    destruct x; try done. injection Hs as <-. split; [done|]. split.
    + eapply (alone_outside _ i), alone_move; [exact Hal|done].
    + by eapply (one_reader_joined b).
  - right. destruct (reader_one _ _ _ _ _ _ Hx Hs) as (_ & y & d & d' & Hy & Hd & Hd' & Hn).
    pose proof (reader_spec _ _ _ _ _ Hs) as (Ec & Et & Hv & _). injection Hv as _ Hv.
    exists y, d, d'. split; [|done]. split; [|by rewrite Hv]. unfold alone. by rewrite Ec, Et.
Qed.

(** The steps left to a read thread whose device is cancelled. *)
Definition steps_left (x : reader_pc) : nat :=
  match x with RCall _ _ _ => 3 | RPause _ _ _ => 2 | RTest _ _ => 1 | _ => 0 end.

Definition cancelled (b : Bridge) : Prop := exists d, s_dev (b_rtl b) = Some d /\ st_async d = 0.

Lemma cancelled_step (i : nat) (x : reader_pc) (b b' : Bridge) :
  waiting i x b -> cancelled b -> x <> RCreated -> internal libm_pow b b' ->
  x = RDone /\ outside b' /\ no_reader b' \/
  exists y, waiting i y b' /\ cancelled b' /\ y <> RCreated /\ (steps_left y < steps_left x)%nat.
Proof.
  intros Hw (d & Hd & Ha) Hx Hs. destruct (waiting_step i x b b' Hw Hs) as [H|(y & d1 & d' & Hw' & Hd1 & Hd' & Hn)];
    [by left|right]. simplify_eq. exists y. split; [done|].
  destruct x; cbn in Hn; try done; destruct Hn as [-> Hn]; [rewrite Ha in Hn; cbn in Hn; subst y| |];
    try (destruct Hn as (? & ? & ? & ->)); try (destruct Hn as (? & ? & ->));
    (split; [by exists d|]); (split; [done|]); cbn; lia.
Qed.

Lemma outside_stuck (b b' : Bridge) : outside b -> no_reader b -> ~ internal libm_pow b b'.
Proof.
  intros Ho Hn Hs. destruct Hs as [j ok ? ? Hs|k ok ts ? ? Hs].
  - by apply (outside_control b b' j ok) in Ho.
  - by apply (reader_none b b' k ok ts) in Hn.
Qed.

(** A cancelled reader ends, and the stop returns. *)
Lemma cancelled_ends (i : nat) (x : reader_pc) (b : Bridge) :
  waiting i x b -> cancelled b -> x <> RCreated -> sn (internal libm_pow) b.
Proof.
  remember (steps_left x) as n eqn:En. revert x b En.
  induction n as [n IH] using (well_founded_induction Nat.lt_wf_0). intros x b -> Hw Hc Hx.
  constructor. intros b' Hs. destruct (cancelled_step i x b b' Hw Hc Hx Hs) as [(_ & Ho & Hn)|(y & Hw' & Hc' & Hy & Hlt)].
  - constructor. intros b2 Hs2. by destruct (outside_stuck b' b2 Ho Hn).
  - by apply (IH _ Hlt y b').
Qed.

Lemma cancelled_runs (i : nat) (x : reader_pc) (b b' : Bridge) :
  waiting i x b -> cancelled b -> x <> RCreated -> rtc (internal libm_pow) b b' ->
  outside b' /\ no_reader b' \/ exists y, waiting i y b' /\ cancelled b' /\ y <> RCreated.
Proof.
  intros Hw Hc Hx Hr. revert x Hw Hc Hx. induction Hr as [b|b b1 b' Hs Hr IH]; intros x Hw Hc Hx; [eauto|].
  destruct (cancelled_step i x b b1 Hw Hc Hx Hs) as [(_ & Ho & Hn)|(y & Hw' & Hc' & Hy & _)]; [|by eapply IH].
  apply rtc_inv in Hr as [<-|(b2 & Hs2 & _)]; [by left|]. by destruct (outside_stuck b1 b2 Ho Hn).
Qed.

(** A reader that is not cancelled goes on, and the stop waits for it. *)
Lemma uncancelled_runs (i : nat) (x : reader_pc) (b b' : Bridge) (d : Stub) :
  waiting i x b -> s_dev (b_rtl b) = Some d -> st_async d <> 0 -> x <> RCreated -> x <> RDone ->
  rtc (internal libm_pow) b b' -> exists y, waiting i y b' /\ y <> RDone.
Proof.
  intros Hw Hd Ha Hx Hx' Hr. revert x Hw Hd Hx Hx'. induction Hr as [b|b b1 b' Hs Hr IH]; intros x Hw Hd Hx Hx'; [eauto|].
  destruct (waiting_step i x b b1 Hw Hs) as [(? & _)|(y & d1 & d' & Hw' & Hd1 & Hd' & Hn)]; [done|]. simplify_eq.
  assert (d' = d /\ y <> RCreated /\ y <> RDone) as (-> & Hy & Hy').
  { destruct x; cbn in Hn; try done; destruct Hn as [-> Hn]; [rewrite (proj2 (Z.eqb_neq _ _) Ha) in Hn| |];
      try (destruct Hn as (? & ? & ? & ->)); try (destruct Hn as (? & ? & ->)); done. }
  by eapply IH.
Qed.

Lemma waiting_at (b : Bridge) (i t : nat) :
  serial_inv b -> b_calls b !! i = Some (CStopWait t) ->
  t = b_tid b /\ exists x, waiting i x b /\ b_readers b !! t = Some x.
Proof.
  intros (_ & j & p & [Hj Ho] & Hph) Hi. destruct (decide (i = j)) as [->|Hne]; [|by specialize (Ho i _ Hi Hne)].
  assert (p = CStopWait t) as -> by congruence. destruct Hph as (Hr & -> & x & Hx). split; [done|].
  exists x. split; [by repeat split|]. by apply one_reader_lookup.
Qed.

(** The thread that waits for a reader that has returned goes on, and a reader
    that has not returned can move. *)
Lemma waiting_progress (i : nat) (x : reader_pc) (b : Bridge) :
  waiting i x b -> cancelled b -> x <> RCreated -> exists b', internal libm_pow b b'.
Proof.
  intros ([Hi _] & _ & Hx) (d & Hd & Ha) Hn. pose proof (one_reader_lookup b x Hx) as Hk.
  destruct x as [|seed amp|buf seed amp|us seed amp| |]; [done| | | | |by destruct Hx as (_ & _ & _ & ? & _)].
  1-3: eexists; apply (internal_reader _ (b_tid b) true (mkTimespec 0 0)); unfold rtl_async_thread, rtlsdr_read_async; rewrite Hk, Hd; cbn [mbind option_bind];
    rewrite ?Ha; reflexivity.
  eexists. apply (internal_control _ i true). unfold control. rewrite Hi. cbn [mbind option_bind]. by rewrite Hk.
Qed.

(** A reader that has not entered the library when it is cancelled misses it. *)
Lemma lost_cancel (i : nat) (b : Bridge) (d : Stub) :
  waiting i RCreated b -> s_dev (b_rtl b) = Some d ->
  exists b', internal libm_pow b b' /\
    forall b2, rtc (internal libm_pow) b' b2 -> exists y, waiting i y b2 /\ y <> RDone.
Proof.
  intros Hw Hd. destruct Hw as (Hal & Hr & Hx). pose proof (one_reader_lookup b _ Hx) as Hk.
  assert (exists b', rtl_async_thread libm_pow (b_tid b) true (mkTimespec 0 0) b = Some b' /\
    b_readers b' = <[b_tid b := RTest 12345 (stub_amp libm_pow (st_gain d))]> (b_readers b) /\
    b_tid b' = b_tid b /\ b_calls b' = b_calls b /\ rtl_running (b_rtl b') = rtl_running (b_rtl b) /\
    s_dev (b_rtl b') = Some (d <| st_async := 1 |>)) as (b' & Hs & Er & Et & Ec & Ef & Ed).
  { unfold rtl_async_thread, rtlsdr_read_async. rewrite Hk, Hd. cbn [mbind option_bind]. eexists. by split. }
  exists b'. split; [by eapply internal_reader|]. intros b2 Hb2.
  eapply (uncancelled_runs i (RTest 12345 (stub_amp libm_pow (st_gain d))) b'); [|exact Ed|done..|exact Hb2].
  split; [unfold alone; by rewrite Ec, Et|]. split; [by rewrite Ef|]. by eapply one_reader_become.
Qed.
End Serial.

(** ** Correctness *)
Lemma initial_atomic (r0 : Rtl Stub) (n : nat) : bridge_ok r0 -> atomic_inv r0 (bridge_initial r0 n).
Proof.
  intros H. split; [split|].
  - intros i p Hp. apply lookup_replicate in Hp as [-> _]. by split.
  - done.
  - exists r0. split; [constructor|]. by split.
Qed.

(** C19: the calls of the bridge are atomic.  Any number of session threads call
    rtl_bridge_start and rtl_bridge_stop at any time, and their accesses and those
    of the read threads interleave in any way.  Then at most one thread is between
    the lock and the unlock of s_start_mutex, that thread is never blocked, and
    whenever the mutex is free the reference count and the running flag are what the
    calls finished so far give one after the other, in the order of their unlocks,
    each with the result its caller got. *)
Theorem bridge_atomic (libm_pow : double -> double -> double) (r0 : Rtl Stub) (n : nat) (b : Bridge) :
  bridge_ok r0 -> rtc (bstep libm_pow) (bridge_initial r0 n) b ->
  (forall i j p q, b_calls b !! i = Some p -> b_calls b !! j = Some q ->
     inside p = true -> inside q = true -> i = j) /\
  (forall i, b_mutex b = Some i -> exists b', control i true b = Some b') /\
  exists r, replays (b_done b) r0 r /\ bridge_ok r /\
    (b_mutex b = None -> s_stream_count (b_rtl b) = s_stream_count r /\ rtl_running (b_rtl b) = rtl_running r).
Proof.
  intros Hb Hr. assert (atomic_inv r0 b) as ([Hm1 Hm2] & r & Hre & Hok & H).
  { eapply (rtc_ind_r (atomic_inv r0)); [by apply initial_atomic| |exact Hr]. intros ? ? _ Hs Hi. by eapply atomic_step. }
  split; [|split].
  - intros i j p q Hi Hj Hp Hq. apply (Hm1 i p Hi) in Hp. apply (Hm1 j q Hj) in Hq. congruence.
  - intros i Hi. rewrite Hi in H. destruct H as (p & Hp & _). pose proof (proj2 (Hm1 i p Hp) Hi) as Hin.
    unfold control. rewrite Hp. cbn [mbind option_bind]. destruct p; try done; eauto.
  - exists r. split; [done|]. split; [done|]. intros E. rewrite E in H. by injection H.
Qed.

Fixpoint run_calls (k : nat) (b : Bridge) : option Bridge :=
  match k with O => Some b | S k' => b' ← control 0 true b; run_calls k' b' end.

Lemma run_calls_serial (libm_pow : double -> double -> double) (k : nat) (b b' : Bridge) :
  run_calls k b = Some b' -> rtc (serial_step libm_pow) b b'.
Proof.
  revert b. induction k as [|k IH]; intros b; cbn [run_calls]; [by intros [= ->]|].
  destruct (control 0 true b) as [b1|] eqn:E; [|done]. intros H. eapply rtc_l; [|by apply IH].
  apply serial_internal. by eapply internal_control.
Qed.

(** A stop that comes before the new read thread has run. *)
Lemma early_stop (libm_pow : double -> double -> double) (r0 : Rtl Stub) (d : Stub) (n : nat) :
  view r0 = (0, false) -> s_dev r0 = Some d ->
  exists b, rtc (serial_step libm_pow) (bridge_initial r0 (S n)) b /\ waiting 0 RCreated b /\ b_tid b = 0%nat.
Proof.
  destruct r0. unfold view. cbn. intros [= -> ->] ->.
  eexists. split.
  - eapply rtc_l; [eapply (serial_call _ 0 true)|].
    + apply Forall_replicate. done.
    + vm_compute. reflexivity.
    + etransitivity; [apply (run_calls_serial _ 6); vm_compute; reflexivity|].
      eapply rtc_l; [eapply (serial_call _ 0 false)|].
      * cbn. apply Forall_cons_2; [done|]. apply Forall_replicate. done.
      * vm_compute. reflexivity.
      * apply (run_calls_serial _ 7). vm_compute. reflexivity.
  - cbn. split; [split; [split; [done|]|]|done].
    + intros [|j] q Hq; [done|]. cbn in Hq. by apply lookup_replicate in Hq as [-> _].
    + split; [done|]. by exists [].
Qed.

Definition alive (x : reader_pc) : Prop := x <> RDone /\ x <> RJoined.

#[export] Instance alive_dec (x : reader_pc) : Decision (alive x).
Proof. destruct x; by (left; split; done) || (right; intros [? ?]; done). Defined.

Lemma none_alive (l : list reader_pc) : Forall (eq RJoined) l -> filter alive l = [].
Proof.
  induction 1 as [|x l <- _ IH]; [done|]. rewrite filter_cons_False; [exact IH|]. by intros [_ ?].
Qed.

Lemma one_alive (b : Bridge) (x : reader_pc) : one_reader b x -> (length (filter alive (b_readers b)) <= 1)%nat.
Proof.
  intros (l & -> & Hl & _). rewrite filter_app, length_app, (none_alive l Hl).
  unfold filter, list_filter. cbn. case_decide; cbn; lia.
Qed.

Lemma serial_readers (r0 : Rtl Stub) (b : Bridge) :
  atomic_inv r0 b -> serial_inv b -> no_reader b \/ exists x, one_reader b x.
Proof.
  intros _ (_ & i & p & _ & H). destruct p as [| | | | | | | | | | | | | | |[]| |]; cbn in H; unfold readers_by_flag in H;
    try destruct (rtl_running (b_rtl b)); tauto.
Qed.

Lemma serial_reachable (libm_pow : double -> double -> double) (r0 : Rtl Stub) (n : nat) (b : Bridge) :
  bridge_ok r0 -> rtl_running r0 = false -> (exists d, s_dev r0 = Some d) -> (0 < n)%nat ->
  rtc (serial_step libm_pow) (bridge_initial r0 n) b -> atomic_inv r0 b /\ serial_inv b.
Proof.
  intros Hb Hf Hd Hn Hr. eapply (rtc_ind_r (fun b => atomic_inv r0 b /\ serial_inv b));
    [|intros ? ? _ Hs Hi; by eapply serial_step_inv|exact Hr].
  split; [by apply initial_atomic|]. split; [done|]. exists 0%nat, CIdle. split.
  - apply outside_alone; [by apply Forall_replicate|]. cbn. by rewrite length_replicate.
  - cbn. unfold readers_by_flag. cbn. rewrite Hf. by apply Forall_nil_2.
Qed.

(** C20: what a stop leaves, and whether it returns.  With the calls one after the
    other, however the accesses of the caller and of the read threads interleave:
    at most one read thread is ever alive, and when no call is under way and the
    running flag is off every one has returned and been joined, so no callback comes
    after a stop.  A stop that waits for a reader inside the library's loop returns:
    every continuation is finite and ends with the call over and the reader joined.
    But a stop that comes before the new reader has entered the library (which can
    happen, in the order the last clause shows) can wait for ever: the reader then
    sets the flag that the stop has cleared, and no continuation ends the wait. *)
Theorem reader_stops (libm_pow : double -> double -> double) (r0 : Rtl Stub) (n : nat) (b : Bridge) :
  view r0 = (0, false) -> (exists d, s_dev r0 = Some d) -> (0 < n)%nat ->
  rtc (serial_step libm_pow) (bridge_initial r0 n) b ->
  (length (filter alive (b_readers b)) <= 1)%nat /\
  (outside b -> rtl_running (b_rtl b) = false -> Forall (eq RJoined) (b_readers b)) /\
  (forall i t, b_calls b !! i = Some (CStopWait t) ->
     (cancelled b -> b_readers b !! t <> Some RCreated ->
        sn (internal libm_pow) b /\
        forall b', rtc (internal libm_pow) b b' -> nf (internal libm_pow) b' ->
          outside b' /\ Forall (eq RJoined) (b_readers b')) /\
     (b_readers b !! t = Some RCreated ->
        exists b1, internal libm_pow b b1 /\
          forall b2, rtc (internal libm_pow) b1 b2 -> exists t', b_calls b2 !! i = Some (CStopWait t'))) /\
  (exists b0, rtc (serial_step libm_pow) (bridge_initial r0 n) b0 /\
     b_calls b0 !! 0%nat = Some (CStopWait 0) /\ b_readers b0 !! 0%nat = Some RCreated).
Proof.
  intros Hv [d0 Hd] Hn Hr.
  assert (bridge_ok r0 /\ rtl_running r0 = false) as [Hb Hf].
  { injection Hv as Hc Hf. split; [|done]. unfold bridge_ok. rewrite Hc, Hf. done. }
  destruct (serial_reachable libm_pow r0 n b Hb Hf (ex_intro _ _ Hd) Hn Hr) as [Ha Hs].
  split; [|split; [|split]].
  - destruct (serial_readers r0 b Ha Hs) as [H|[x Hx]]; [rewrite none_alive by done; cbn; lia|by eapply one_alive].
  - intros Ho Hrun. destruct Hs as (_ & i & p & [Hi _] & Hph). unfold outside in Ho. rewrite Forall_lookup in Ho.
    rewrite <- (Ho i p Hi) in Hph. cbn in Hph. unfold readers_by_flag in Hph. by rewrite Hrun in Hph.
  - intros i t Hi. destruct (waiting_at b i t Hs Hi) as (-> & x & Hw & Hx). split.
    + intros Hc Hnc. assert (x <> RCreated) as Hne by congruence. split; [by eapply cancelled_ends|].
      intros b' Hr' Hnf. destruct (cancelled_runs libm_pow i x b b' Hw Hc Hne Hr') as [?|(y & Hw' & Hc' & Hy)]; [done|].
      destruct Hnf. red. by eapply waiting_progress.
    + intros Hc. assert (x = RCreated) as -> by congruence. destruct Hs as ([d Hd'] & _).
      destruct (lost_cancel libm_pow i b d Hw Hd') as (b1 & Hb1 & H). exists b1. split; [done|].
      intros b2 Hb2. destruct (H b2 Hb2) as (y & [[Hy _] _] & _). eauto.
  - destruct n as [|n]; [lia|]. destruct (early_stop libm_pow r0 d0 n Hv Hd) as (b0 & Hb0 & ([Hi _] & _ & Hx) & Ht).
    exists b0. split; [done|]. rewrite <- Ht at 2 3. split; [done|]. by apply one_reader_lookup.
Qed.

(** ** Examples *)
Definition opened : Rtl Stub := rtl_initial <| s_dev := Some stub_initial |>.

(** The thread that moves, and whether it makes a call. *)
Fixpoint schedule (l : list (nat * option bool)) (b : Bridge) : option Bridge :=
  match l with
  | [] => Some b
  | (i, c) :: l => b' ← match c with Some start => call i start b | None => control i true b end; schedule l b'
  end.

Lemma schedule_steps (libm_pow : double -> double -> double) (l : list (nat * option bool)) (b b' : Bridge) :
  schedule l b = Some b' -> rtc (bstep libm_pow) b b'.
Proof.
  revert b. induction l as [|[i c] l IH]; intros b; cbn [schedule]; [by intros [= ->]|].
  destruct (match c with Some start => call i start b | None => control i true b end) as [b1|] eqn:E; [|done].
  cbn [mbind option_bind]. intros H. eapply rtc_l; [|by apply IH].
  destruct c; [by eapply bstep_call|]. apply bstep_internal. by eapply internal_control.
Qed.

(** Two threads start; the second waits for the mutex until the first is done. *)
Definition two_starts : list (nat * option bool) :=
  [(0%nat, Some true); (1%nat, Some true)] ++ replicate 6 (0%nat, None) ++ replicate 3 (1%nat, None).

Lemma bridge_atomic_witness :
  bridge_ok opened /\ exists b r, schedule two_starts (bridge_initial opened 2) = Some b /\
    b_done b = [(OpStart true, 0); (OpStart true, 0)] /\ replays (b_done b) opened r /\ s_stream_count r = 2.
Proof.
  assert (bridge_ok opened) as Hb by (vm_compute; split; [discriminate|reflexivity]). split; [exact Hb|].
  assert ((fun b => (b_done b, b_mutex b, s_stream_count (b_rtl b))) <$> schedule two_starts (bridge_initial opened 2) =
    Some ([(OpStart true, 0); (OpStart true, 0)], None, 2)) as E' by (vm_compute; reflexivity).
  destruct (schedule two_starts (bridge_initial opened 2)) as [b|] eqn:E; [|discriminate E'].
  destruct (bridge_atomic (fun x _ => x) opened 2 b Hb (schedule_steps _ _ _ _ E)) as (_ & _ & r & Hr & _ & H).
  injection E' as E1 E2 E3. exists b, r. split; [reflexivity|]. split; [exact E1|]. split; [exact Hr|].
  destruct (H E2) as [H1 _]. by rewrite <- H1.
Defined.

Lemma reader_stops_witness :
  exists b0 b1, rtc (serial_step (fun x _ => x)) (bridge_initial opened 1) b0 /\ internal (fun x _ => x) b0 b1 /\
    forall b2, rtc (internal (fun x _ => x)) b1 b2 -> exists t', b_calls b2 !! 0%nat = Some (CStopWait t').
Proof.
  assert (view opened = (0, false)) as Hv by reflexivity.
  assert (exists d, s_dev opened = Some d) as Hd by (exists stub_initial; reflexivity).
  destruct (reader_stops (fun x _ => x) opened 1 (bridge_initial opened 1) Hv Hd ltac:(lia) (rtc_refl _ _))
    as (_ & _ & _ & b0 & Hr & Hi & Hk).
  destruct (reader_stops (fun x _ => x) opened 1 b0 Hv Hd ltac:(lia) Hr) as (_ & _ & H & _).
  destruct (proj2 (H 0%nat 0%nat Hi) Hk) as (b1 & Hb1 & Hall). exists b0, b1. auto.
Defined.
