(* ===== verification/Dns.v ===== *)
(** * mDNS messages: the packet builder of common/mdns_builtin.c

    The DNS message the built-in responder sends, written octet by octet into
    a fixed array, and the reading of such a message that RFC 1035 prescribes
    (labels, compression pointers, resource records).  [send_records_decodes]
    relates the two: what is sent decodes to the records of the service. *)
From S2P Require Import Prelude CLib Jsmn JsonText.
#[local] Open Scope Z_scope.

Definition MDNS_PORT : Z := 5353.
Definition MDNS_TTL : Z := 120.
Definition SLC_SERVICE_TYPE : list Z := txt "_sdr-slc._tcp".
Definition DNS_TYPE_A : Z := 1.
Definition DNS_TYPE_PTR : Z := 12.
Definition DNS_TYPE_TXT : Z := 16.
Definition DNS_TYPE_SRV : Z := 33.
Definition DNS_TYPE_ANY : Z := 255.
Definition DNS_CLASS_IN : Z := 1.
Definition DNS_CACHE_FLUSH : Z := 32768.

(** Which records a response carries. *)
Definition R_PTR : Z := 1.
Definition R_SRV : Z := 2.
Definition R_TXT : Z := 4.
Definition R_A : Z := 8.
Definition R_ALL : Z := 15.

(** ** The module's variables *)
Record responder := mkResponder {
  s_sock : Z;
  s_running : bool;
  s_published : bool;
  s_instance : list Z;          (* char[64] *)
  s_iface : list Z;             (* char[32] *)
  s_ip : Z;                     (* uint32_t, network order on a little-endian host *)
  s_port : Z;
  s_txt : list (list Z)         (* the first s_ntxt of char[8][160] *)
}.

#[export] Instance eta_responder : Eta responder := fun r =>
  mkResponder (s_sock r) (s_running r) (s_published r) (s_instance r) (s_iface r) (s_ip r)
    (s_port r) (s_txt r).

(** ** The packet builder *)
Definition DNS_SIZE : nat := Z.to_nat 1024.

Record DNS := mkDNS { d_buf : list Z; d_pos : nat; d_overflow : bool }.

#[export] Instance eta_DNS : Eta DNS := fun r => mkDNS (d_buf r) (d_pos r) (d_overflow r).

Definition dns_init : DNS := mkDNS (replicate DNS_SIZE 0) 12 false.

Definition dns_put8 (v : Z) (d : DNS) : DNS :=
  if (d_pos d <? DNS_SIZE)%nat
  then d <| d_buf := <[d_pos d := u8 v]> (d_buf d) |> <| d_pos := S (d_pos d) |>
  else d <| d_overflow := true |>.

Definition dns_put16 (v : Z) (d : DNS) : DNS :=
  dns_put8 (Z.land v 255) (dns_put8 (Z.shiftr v 8) d).

Definition dns_put32 (v : Z) (d : DNS) : DNS :=
  dns_put16 (Z.land v 65535) (dns_put16 (Z.shiftr v 16) d).

Fixpoint dns_put_octets (l : list Z) (d : DNS) : DNS :=
  match l with
  | [] => d
  | c :: l' => dns_put_octets l' (dns_put8 c d)
  end.

(** [strchr(p, '.')]: what stands before the dot and what stands behind it. *)
Fixpoint strchr_dot (p : list Z) : option (list Z * list Z) :=
  match p with
  | [] => None
  | c :: p' =>
      if c =? 46 then Some ([], p')
      else match strchr_dot p' with
           | Some (l, rest) => Some (c :: l, rest)
           | None => None
           end
  end.

(** The loop of dns_name; every turn consumes at least the dot. *)
Fixpoint dns_labels (fuel : nat) (p : list Z) (d : DNS) : DNS :=
  match fuel with
  | O => d
  | S f =>
      match strchr_dot p with
      | None => d
      | Some (l, rest) => dns_labels f rest (dns_put_octets l (dns_put8 (Z.of_nat (length l)) d))
      end
  end.

Definition dns_name (name : list Z) (d : DNS) : nat * DNS :=
  (d_pos d, dns_put8 0 (dns_labels (length name) name d)).

Definition dns_ptr (off : nat) (d : DNS) : DNS :=
  dns_put8 (Z.land (Z.of_nat off) 255)
    (dns_put8 (Z.lor 192 (Z.shiftr (Z.of_nat off) 8)) d).

(** [None] where the length would be stored outside the array. *)
Definition dns_patch_rdlen (rdlen_pos : nat) (d : DNS) : option DNS :=
  let rdlen := Z.of_nat (d_pos d) - Z.of_nat rdlen_pos - 2 in
  if (rdlen_pos + 1 <? DNS_SIZE)%nat
  then Some (d <| d_buf := <[(rdlen_pos + 1)%nat := u8 (Z.land rdlen 255)]>
                             (<[rdlen_pos := u8 (Z.shiftr rdlen 8)]> (d_buf d)) |>)
  else None.

(** [name_off] is [None] for the source's -1. *)
Definition dns_rr (name_off : option nat) (name : list Z) (type cls ttl : Z) (d : DNS) : nat * DNS :=
  let d := match name_off with
           | Some off => dns_ptr off d
           | None => snd (dns_name name d)
           end in
  let d := dns_put32 ttl (dns_put16 cls (dns_put16 type d)) in
  (d_pos d, dns_put16 0 d).

(** ** A response *)
Definition svc_type : list Z := snprintf 32 (SLC_SERVICE_TYPE ++ txt ".local.").
Definition inst_fqdn (s : responder) : list Z :=
  snprintf 96 (s_instance s ++ txt "." ++ SLC_SERVICE_TYPE ++ txt ".local.").
Definition host_fqdn (s : responder) : list Z := snprintf 80 (s_instance s ++ txt ".local.").

(** The local variables of send_records. *)
Record reply := mkReply {
  r_dns : DNS; r_an : Z; r_inst : option nat; r_host : option nat
}.

Definition has (which r : Z) : bool := negb (Z.land which r =? 0).

Definition put_ptr (s : responder) (ttl : Z) (r : reply) : option reply :=
  let '(rdp, d) := dns_rr None svc_type DNS_TYPE_PTR DNS_CLASS_IN ttl (r_dns r) in
  let '(off, d) := dns_name (inst_fqdn s) d in
  d ← dns_patch_rdlen rdp d;
  Some (mkReply d (r_an r + 1) (Some off) (r_host r)).

(** [if (inst_off < 0) inst_off = name_at]. *)
Definition or_here (off : option nat) (r : reply) : option nat :=
  match off with Some o => Some o | None => Some (d_pos (r_dns r)) end.

Definition put_srv (s : responder) (ttl : Z) (r : reply) : option reply :=
  let '(rdp, d) := dns_rr (r_inst r) (inst_fqdn s) DNS_TYPE_SRV
                     (Z.lor DNS_CLASS_IN DNS_CACHE_FLUSH) ttl (r_dns r) in
  let d := dns_put16 (s_port s) (dns_put16 0 (dns_put16 0 d)) in
  let '(off, d) := dns_name (host_fqdn s) d in
  d ← dns_patch_rdlen rdp d;
  Some (mkReply d (r_an r + 1) (or_here (r_inst r) r) (Some off)).

Definition put_txt_string (d : DNS) (t : list Z) : DNS :=
  dns_put_octets t (dns_put8 (Z.of_nat (length t)) d).

Definition put_txt (s : responder) (ttl : Z) (r : reply) : option reply :=
  let '(rdp, d) := dns_rr (r_inst r) (inst_fqdn s) DNS_TYPE_TXT
                     (Z.lor DNS_CLASS_IN DNS_CACHE_FLUSH) ttl (r_dns r) in
  let d := fold_left put_txt_string (s_txt s) d in
  d ← dns_patch_rdlen rdp d;
  Some (mkReply d (r_an r + 1) (or_here (r_inst r) r) (r_host r)).

Definition put_a (s : responder) (ttl : Z) (r : reply) : option reply :=
  let '(rdp, d) := dns_rr (r_host r) (host_fqdn s) DNS_TYPE_A
                     (Z.lor DNS_CLASS_IN DNS_CACHE_FLUSH) ttl (r_dns r) in
  let d := dns_put8 (Z.shiftr (s_ip s) 24) (dns_put8 (Z.shiftr (s_ip s) 16)
             (dns_put8 (Z.shiftr (s_ip s) 8) (dns_put8 (s_ip s) d))) in
  d ← dns_patch_rdlen rdp d;
  Some (mkReply d (r_an r + 1) (r_inst r) (r_host r)).

Definition put_if (b : bool) (f : reply -> option reply) (r : reply) : option reply :=
  if b then f r else Some r.

(** [None]: undefined behaviour.  [Some None]: nothing is sent.
    [Some (Some p)]: the datagram [p] goes to 224.0.0.251, port 5353. *)
Definition send_records (s : responder) (which ttl : Z) : option (option (list Z)) :=
  if s_sock s <? 0 then Some None
  else
    r ← put_if (has which R_PTR) (put_ptr s ttl) (mkReply dns_init 0 None None);
    r ← put_if (has which R_SRV) (put_srv s ttl) r;
    r ← put_if (has which R_TXT) (put_txt s ttl) r;
    r ← put_if (has which R_A) (put_a s ttl) r;
    let b := <[7%nat := u8 (r_an r)]> (<[6%nat := u8 (Z.shiftr (r_an r) 8)]>
               (<[3%nat := 0]> (<[2%nat := 132]> (d_buf (r_dns r))))) in
    if d_overflow (r_dns r) then Some None
    else Some (Some (take (d_pos (r_dns r)) b)).

(** ** Reading a message (RFC 1035)

    [name_at pkt o ls e]: the name that starts at offset [o] has the labels
    [ls], and what follows it in place starts at [e].  A compression pointer
    leads to an earlier offset. *)
Inductive name_at (pkt : list Z) : nat -> list (list Z) -> nat -> Prop :=
  | na_root o : text_at pkt o [0] -> name_at pkt o [] (S o)
  | na_label o l ls e :
      (0 < length l <= 63)%nat -> text_at pkt o (Z.of_nat (length l) :: l) ->
      name_at pkt (o + S (length l)) ls e -> name_at pkt o (l :: ls) e
  | na_pointer o t ls e :
      (t < o)%nat -> text_at pkt o [192 + Z.of_nat t / 256; Z.of_nat t mod 256] ->
      name_at pkt t ls e -> name_at pkt o ls (o + 2).

Inductive rdata :=
  | RPtr (n : list (list Z))
  | RSrv (priority weight port : Z) (n : list (list Z))
  | RTxt (l : list (list Z))
  | RA (ip : list Z).

Record record := mkRecord {
  rr_name : list (list Z); rr_class : Z; rr_ttl : Z; rr_data : rdata
}.

Definition rr_type (d : rdata) : Z :=
  match d with
  | RPtr _ => DNS_TYPE_PTR | RSrv _ _ _ _ => DNS_TYPE_SRV
  | RTxt _ => DNS_TYPE_TXT | RA _ => DNS_TYPE_A
  end.

(** [data_at pkt o d e]: the data from [o] up to [e] are [d]. *)
Inductive data_at (pkt : list Z) (o : nat) : rdata -> nat -> Prop :=
  | da_ptr n e : name_at pkt o n e -> data_at pkt o (RPtr n) e
  | da_srv p w q n e :
      text_at pkt o (be16 p ++ be16 w ++ be16 q) -> name_at pkt (o + 6) n e ->
      data_at pkt o (RSrv p w q n) e
  | da_txt l s :
      s = mjoin ((fun t => Z.of_nat (length t) :: t) <$> l) ->
      Forall (fun t => (length t <= 255)%nat) l -> text_at pkt o s ->
      data_at pkt o (RTxt l) (o + length s)
  | da_a ip : length ip = 4%nat -> text_at pkt o ip -> data_at pkt o (RA ip) (o + 4).

(** A record: owner, type, class, time to live, length of the data, data. *)
Inductive record_at (pkt : list Z) (o : nat) (r : record) (e : nat) : Prop :=
  | ra_intro o1 :
      name_at pkt o (rr_name r) o1 ->
      text_at pkt o1 (be16 (rr_type (rr_data r)) ++ be16 (rr_class r) ++ be32 (rr_ttl r) ++
                      be16 (Z.of_nat (e - (o1 + 10)))) ->
      (o1 + 10 <= e)%nat -> data_at pkt (o1 + 10) (rr_data r) e ->
      record_at pkt o r e.

Inductive records_at (pkt : list Z) : nat -> list record -> nat -> Prop :=
  | rs_nil o : records_at pkt o [] o
  | rs_snoc o rs r m e : records_at pkt o rs m -> record_at pkt m r e -> records_at pkt o (rs ++ [r]) e.

(** An authoritative mDNS response that carries [rs] and nothing else. *)
Definition response (pkt : list Z) (rs : list record) : Prop :=
  text_at pkt 0 (be16 0 ++ be16 33792 ++ be16 0 ++ be16 (Z.of_nat (length rs)) ++ be16 0 ++ be16 0) /\
  records_at pkt 12 rs (length pkt).

(** ** The records of the service *)
Definition svc_labels : list (list Z) := [txt "_sdr-slc"; txt "_tcp"; txt "local"].

Section Service.
Context (s : responder) (ttl : Z).

Definition inst_labels : list (list Z) := s_instance s :: svc_labels.
Definition host_labels : list (list Z) := [s_instance s; txt "local"].
Definition ip_octets : list Z :=
  [u8 (s_ip s); u8 (Z.shiftr (s_ip s) 8); u8 (Z.shiftr (s_ip s) 16); u8 (Z.shiftr (s_ip s) 24)].

Definition ptr_record := mkRecord svc_labels DNS_CLASS_IN ttl (RPtr inst_labels).
Definition srv_record := mkRecord inst_labels 32769 ttl (RSrv 0 0 (s_port s) host_labels).
Definition txt_record := mkRecord inst_labels 32769 ttl (RTxt (s_txt s)).
Definition a_record := mkRecord host_labels 32769 ttl (RA ip_octets).

Definition service_records (which : Z) : list record :=
  (if has which R_PTR then [ptr_record] else []) ++ (if has which R_SRV then [srv_record] else []) ++
  (if has which R_TXT then [txt_record] else []) ++ (if has which R_A then [a_record] else []).
End Service.

(** What the responder is started with: a one-label instance name, and texts
    that leave room for the rest of the message. *)
Definition txt_size (s : responder) : nat := length (mjoin ((fun t => Z.of_nat (length t) :: t) <$> s_txt s)).

Definition service_ok (s : responder) : Prop :=
  0 <= s_sock s /\ bytes_ok (s_instance s) /\ (0 < length (s_instance s) <= 63)%nat /\
  (46 ∉ s_instance s) /\
  Forall (fun t => bytes_ok t /\ (length t < 160)%nat) (s_txt s) /\ (txt_size s <= 500)%nat.

Lemma bytes_check (l : list Z) : forallb (fun b => (0 <=? b) && (b <? 256)) l = true -> bytes_ok l.
Proof.
  rewrite forallb_forall. intros H. apply Forall_forall. intros b Hb. apply list_elem_of_In, H in Hb.
  zbool. unfold is_byte. lia.
Qed.

(** ** Appending to the array

    [content d l]: the octets written so far, none of them lost. *)
Definition content (d : DNS) (l : list Z) : Prop :=
  length (d_buf d) = DNS_SIZE /\ d_pos d = length l /\ take (d_pos d) (d_buf d) = l /\
  d_overflow d = false.

Definition appends (f : DNS -> DNS) (l : list Z) : Prop :=
  forall d k, content d k -> (length k + length l <= DNS_SIZE)%nat -> content (f d) (k ++ l).

Lemma appends_put8 (v : Z) : appends (dns_put8 v) [u8 v].
Proof.
  intros d k (Hl & Hp & Ht & Ho) Hs. cbn [length] in Hs. unfold dns_put8.
  rewrite (proj2 (Nat.ltb_lt _ _)) by lia. unfold content. cbn.
  rewrite length_insert, length_app. cbn [length].
  repeat split; try done; [lia|]. rewrite <- Ht.
  rewrite (take_S_r _ _ (u8 v)) by (apply list_lookup_insert_eq; lia).
  by rewrite take_insert_ge by lia.
Qed.

Lemma appends_then (f g : DNS -> DNS) (l k : list Z) :
  appends f l -> appends g k -> appends (fun d => g (f d)) (l ++ k).
Proof.
  intros Hf Hg d x Hd Hs. rewrite length_app in Hs. rewrite app_assoc.
  apply Hg; [apply Hf; [done|lia]|]. rewrite length_app. lia.
Qed.

Lemma appends_id : appends (fun d => d) [].
Proof. intros d k Hd _. by rewrite app_nil_r. Qed.

Lemma u8_land (v : Z) : u8 (Z.land v 255) = u8 v.
Proof.
  unfold u8. change 255 with (Z.ones 8). rewrite Z.land_ones by lia. apply Z.mod_mod. lia.
Qed.

Lemma appends_put16 (v : Z) : appends (dns_put16 v) (be16 v).
Proof.
  unfold be16. rewrite <- (u8_land v).
  apply (appends_then (dns_put8 (Z.shiftr v 8)) (dns_put8 (Z.land v 255)) [_] [_]);
    apply appends_put8.
Qed.

Lemma be16_land (v : Z) : be16 (Z.land v 65535) = be16 v.
Proof.
  unfold be16, u8. change 65535 with (Z.ones 16). f_equal; [|f_equal].
  - rewrite <- !Z.land_ones, Z.shiftr_land by lia.
    change (Z.shiftr (Z.ones 16) 8) with (Z.ones 8). rewrite <- Z.land_assoc, Z.land_diag. done.
  - rewrite <- !Z.land_ones, <- Z.land_assoc by lia. done.
Qed.

Lemma appends_put32 (v : Z) : appends (dns_put32 v) (be32 v).
Proof.
  assert (be32 v = be16 (Z.shiftr v 16) ++ be16 (Z.land v 65535)) as ->.
  { rewrite be16_land. unfold be32, be16. by rewrite Z.shiftr_shiftr by lia. }
  apply (appends_then (dns_put16 (Z.shiftr v 16)) (dns_put16 (Z.land v 65535)));
    apply appends_put16.
Qed.

Lemma appends_octets (l : list Z) : bytes_ok l -> appends (dns_put_octets l) l.
Proof.
  induction 1 as [|c l Hc _ IH]; [exact appends_id|].
  pose proof (appends_then _ _ _ _ (appends_put8 c) IH) as H. by rewrite u8_small in H.
Qed.

#[local] Hint Resolve appends_put8 appends_put16 appends_put32 appends_octets : slc.

(** ** Names *)
Definition dotted (ls : list (list Z)) : list Z := mjoin ((fun l => l ++ [46]) <$> ls).

Definition strings (ls : list (list Z)) : list Z := mjoin ((fun l => Z.of_nat (length l) :: l) <$> ls).

Definition wire (ls : list (list Z)) : list Z := strings ls ++ [0].

Definition label_ok (l : list Z) : Prop := bytes_ok l /\ (0 < length l <= 63)%nat /\ (46 ∉ l).

Lemma strings_cons (l : list Z) (ls : list (list Z)) :
  strings (l :: ls) = (Z.of_nat (length l) :: l) ++ strings ls.
Proof. reflexivity. Qed.

Lemma strchr_dot_app (l rest : list Z) : (46 ∉ l) -> strchr_dot (l ++ 46 :: rest) = Some (l, rest).
Proof.
  induction l as [|c l IH]; intros H; [done|]. apply not_elem_of_cons in H as [Hc Hl].
  cbn [app strchr_dot]. destruct (Z.eqb_spec c 46); [congruence|]. by rewrite IH.
Qed.

Lemma appends_string (l : list Z) :
  bytes_ok l -> (length l <= 255)%nat ->
  appends (fun d => dns_put_octets l (dns_put8 (Z.of_nat (length l)) d)) (Z.of_nat (length l) :: l).
Proof.
  intros Hb Hl. pose proof (appends_then _ _ _ _ (appends_put8 (Z.of_nat (length l))) (appends_octets l Hb)) as H.
  rewrite u8_small in H by (unfold is_byte; lia). exact H.
Qed.

Lemma appends_labels (ls : list (list Z)) (fuel : nat) :
  Forall label_ok ls -> (length ls <= fuel)%nat ->
  appends (dns_labels fuel (dotted ls)) (strings ls).
Proof.
  intros H. revert fuel. induction H as [|l ls (Hb & Hl & Hd) _ IH]; intros [|f] Hf; cbn in Hf; try lia;
    [apply appends_id..|].
  change (dotted (l :: ls)) with ((l ++ [46]) ++ dotted ls). rewrite <- app_assoc.
  cbn [app dns_labels]. rewrite strchr_dot_app by done. rewrite strings_cons.
  apply (appends_then (fun d => dns_put_octets l (dns_put8 _ d)));
    [apply appends_string; [done|lia]|apply IH; lia].
Qed.

Lemma dotted_length (ls : list (list Z)) : (length ls <= length (dotted ls))%nat.
Proof.
  induction ls as [|l ls IH]; [done|]. change (dotted (l :: ls)) with ((l ++ [46]) ++ dotted ls).
  rewrite !length_app. cbn. lia.
Qed.

Lemma appends_name (ls : list (list Z)) :
  Forall label_ok ls -> appends (fun d => snd (dns_name (dotted ls) d)) (wire ls).
Proof.
  intros H. apply (appends_then (dns_labels _ (dotted ls)) (dns_put8 0) (strings ls) [0]).
  - apply appends_labels; [done|apply dotted_length].
  - apply appends_put8.
Qed.

Lemma name_at_wire (pkt : list Z) (ls : list (list Z)) (o : nat) :
  Forall label_ok ls -> text_at pkt o (wire ls) -> name_at pkt o ls (o + length (wire ls)).
Proof.
  intros H. revert o. induction H as [|l ls (Hb & Hl & Hd) _ IH]; intros o Ht.
  - cbn. rewrite Nat.add_1_r. by apply na_root.
  - unfold wire in *. rewrite strings_cons, <- app_assoc in *. apply text_at_app in Ht as [Ht1 Ht2].
    rewrite (length_app (_ :: _)), Nat.add_assoc. apply na_label; [done..|]. by apply IH.
Qed.

(** ** Records *)
Definition pointer (o : nat) : list Z := [192 + Z.of_nat o / 256; Z.of_nat o mod 256].

Lemma appends_ptr (o : nat) : (o < DNS_SIZE)%nat -> appends (dns_ptr o) (pointer o).
Proof.
  intros Ho. assert (DNS_SIZE = Z.to_nat 1024) as E by reflexivity. rewrite E in Ho.
  assert (0 <= Z.of_nat o / 256 < 4) as Hq
    by (split; [apply Z.div_pos; lia|apply Z.div_lt_upper_bound; lia]).
  assert (pointer o = [u8 (Z.lor 192 (Z.shiftr (Z.of_nat o) 8))] ++ [u8 (Z.land (Z.of_nat o) 255)]) as ->.
  { change 192 with (Z.shiftl 3 6). rewrite Z.shiftr_div_pow2 by lia.
    change 255 with (Z.ones 8). rewrite Z.land_ones by lia. change (2 ^ 8) with 256.
    rewrite lor_shiftl_add by (change (2 ^ 6) with 64; lia). change (3 * 2 ^ 6) with 192.
    pose proof (Z.mod_pos_bound (Z.of_nat o) 256).
    by rewrite !u8_small by (unfold is_byte; lia). }
  apply (appends_then (dns_put8 _) (dns_put8 _)); apply appends_put8.
Qed.

(** The owner of a record as written: a pointer or the name in full. *)
Definition owner (off : option nat) (ls : list (list Z)) : list Z :=
  match off with Some o => pointer o | None => wire ls end.

Definition off_ok (off : option nat) : Prop :=
  match off with Some o => (o < DNS_SIZE)%nat | None => True end.

Definition rr_head (off : option nat) (ls : list (list Z)) (type cls ttl : Z) : list Z :=
  owner off ls ++ be16 type ++ be16 cls ++ be32 ttl.

Lemma appends_head (off : option nat) (ls : list (list Z)) (type cls ttl : Z) :
  Forall label_ok ls -> off_ok off ->
  appends (fun d => dns_put32 ttl (dns_put16 cls (dns_put16 type
    (match off with Some o => dns_ptr o d | None => snd (dns_name (dotted ls) d) end))))
    (rr_head off ls type cls ttl).
Proof.
  intros Hl Ho. unfold rr_head.
  apply (appends_then _ (fun d => dns_put32 ttl (dns_put16 cls (dns_put16 type d)))).
  - destruct off; [by apply appends_ptr|by apply appends_name].
  - apply (appends_then (dns_put16 type) (fun d => dns_put32 ttl (dns_put16 cls d)));
      [apply appends_put16|].
    apply (appends_then (dns_put16 cls) (dns_put32 ttl)); [apply appends_put16|apply appends_put32].
Qed.

Lemma patch_content (d : DNS) (k x : list Z) (a b : Z) :
  content d (k ++ [a; b] ++ x) -> (length k + 2 + length x <= DNS_SIZE)%nat ->
  exists d', dns_patch_rdlen (length k) d = Some d' /\ content d' (k ++ be16 (Z.of_nat (length x)) ++ x) /\
    d_pos d' = d_pos d.
Proof.
  intros (Hl & Hp & Ht & Ho) Hs. unfold dns_patch_rdlen. rewrite (proj2 (Nat.ltb_lt _ _)) by lia.
  eexists. split; [done|]. split; [|done]. rewrite !length_app in Hp. cbn [length] in Hp.
  unfold content. cbn [d_buf d_pos d_overflow upd]. cbn.
  rewrite !length_insert, !length_app, Hp. cbn [length].
  split; [done|]. split; [lia|]. split; [|done].
  rewrite Hp in Ht.
  replace (Z.of_nat (length k + (2 + length x)) - Z.of_nat (length k) - 2)
    with (Z.of_nat (length x)) by lia.
  rewrite !take_insert_lt by lia. change (length [a; b] + length x)%nat with (2 + length x)%nat in *.
  rewrite Ht. rewrite insert_app_r_alt, insert_app_r_alt by lia.
  rewrite Nat.sub_diag. replace (length k + 1 - length k)%nat with 1%nat by lia. cbn.
  by rewrite u8_land.
Qed.

(** One record: its head, its data written by [f], its length patched. *)
Lemma put_record (off : option nat) (ls : list (list Z)) (type cls ttl : Z) (f : DNS -> DNS)
    (d : DNS) (k x : list Z) :
  Forall label_ok ls -> off_ok off -> appends f x -> content d k ->
  (length k + length (rr_head off ls type cls ttl) + 2 + length x <= DNS_SIZE)%nat ->
  let '(rdp, d1) := dns_rr off (dotted ls) type cls ttl d in
  content d1 (k ++ rr_head off ls type cls ttl ++ [0; 0]) /\
  exists d', dns_patch_rdlen rdp (f d1) = Some d' /\
    content d' (k ++ rr_head off ls type cls ttl ++ be16 (Z.of_nat (length x)) ++ x).
Proof.
  intros Hl Ho Hf Hd Hs. unfold dns_rr.
  pose proof (appends_head off ls type cls ttl Hl Ho d k Hd) as H1. cbn beta in H1.
  set (d1 := dns_put32 _ _) in *. assert (content d1 (k ++ rr_head off ls type cls ttl)) as H2
    by (apply H1; lia).
  pose proof (appends_put16 0 d1 _ H2) as H3. rewrite length_app in H3. cbn [be16 length] in H3.
  change (be16 0) with [0; 0] in H3. rewrite <- app_assoc in H3. cbn [length] in H3.
  specialize (H3 ltac:(lia)). split; [done|].
  pose proof (Hf _ _ H3) as H4. rewrite !length_app in H4. cbn [length] in H4. specialize (H4 ltac:(lia)).
  rewrite app_assoc, <- app_assoc in H4.
  destruct (patch_content _ (k ++ rr_head off ls type cls ttl) x 0 0 H4) as (d' & E & Hc & _);
    [rewrite length_app; lia|].
  exists d'. destruct H2 as (_ & Hp & _). rewrite Hp. by rewrite <- app_assoc in Hc.
Qed.

(** ** The message as it grows

    [known off ls b]: an offset already handed out leads to the name [ls] in
    every packet that has [b] behind its header. *)
Definition known (off : option nat) (ls : list (list Z)) (b : list Z) : Prop :=
  match off with
  | None => True
  | Some o => (o < 12 + length b)%nat /\ forall pkt, text_at pkt 12 b -> exists e, name_at pkt o ls e
  end.

Lemma known_app (off : option nat) (ls : list (list Z)) (b y : list Z) :
  known off ls b -> known off ls (b ++ y).
Proof.
  destruct off as [o|]; [|done]. intros [Ho H]. split; [rewrite length_app; lia|].
  intros pkt Ht. apply text_at_app in Ht as [Ht _]. by apply H.
Qed.

(** A name written in full behind [y]. *)
Lemma known_here (ls : list (list Z)) (y z : list Z) :
  Forall label_ok ls -> known (Some (12 + length y)%nat) ls (y ++ wire ls ++ z).
Proof.
  intros Hl. split.
  - rewrite !length_app. unfold wire. rewrite length_app. cbn. lia.
  - intros pkt Ht. apply text_at_app in Ht as [_ Ht]. apply text_at_app in Ht as [Ht _].
    eexists. by apply name_at_wire.
Qed.

Definition record_bytes (off : option nat) (r : record) (x : list Z) : list Z :=
  rr_head off (rr_name r) (rr_type (rr_data r)) (rr_class r) (rr_ttl r) ++
  be16 (Z.of_nat (length x)) ++ x.

(** [x] reads as [d] wherever it stands. *)
Definition data_bytes (d : rdata) (x : list Z) : Prop :=
  forall pkt o, text_at pkt o x -> data_at pkt o d (o + length x).

Lemma owner_at (off : option nat) (ls : list (list Z)) (b pkt : list Z) :
  Forall label_ok ls -> known off ls b -> text_at pkt 12 (b ++ owner off ls) ->
  name_at pkt (12 + length b) ls (12 + length b + length (owner off ls)).
Proof.
  intros Hl Hk Ht. apply text_at_app in Ht as [Hb Ho]. destruct off as [o|]; cbn [owner] in *.
  - destruct Hk as [Hlt Hk]. destruct (Hk pkt Hb) as [e He]. by eapply na_pointer.
  - by apply name_at_wire.
Qed.

Lemma record_bytes_at (off : option nat) (r : record) (x b pkt : list Z) :
  Forall label_ok (rr_name r) -> known off (rr_name r) b -> data_bytes (rr_data r) x ->
  text_at pkt 12 (b ++ record_bytes off r x) ->
  record_at pkt (12 + length b) r (12 + length (b ++ record_bytes off r x)).
Proof.
  intros Hl Hk Hx Ht. unfold record_bytes, rr_head in *.
  rewrite <- !app_assoc in Ht. rewrite (app_assoc b) in Ht.
  apply text_at_app in Ht as [Hn Ht]. pose proof (owner_at _ _ _ _ Hl Hk Hn) as Hname.
  set (h := be16 (rr_type (rr_data r)) ++ be16 (rr_class r) ++ be32 (rr_ttl r) ++
    be16 (Z.of_nat (length x))).
  replace (be16 (rr_type (rr_data r)) ++ be16 (rr_class r) ++ be32 (rr_ttl r) ++
    be16 (Z.of_nat (length x)) ++ x) with (h ++ x) in Ht by (unfold h; by rewrite <- !app_assoc).
  apply text_at_app in Ht as [Hh Hd]. rewrite length_app in Hh, Hd.
  change (length h) with 10%nat in Hd. apply Hx in Hd. rewrite !length_app.
  change (length (be16 (rr_type (rr_data r)))) with 2%nat. change (length (be16 (rr_class r))) with 2%nat.
  change (length (be32 (rr_ttl r))) with 4%nat. change (length (be16 (Z.of_nat (length x)))) with 2%nat.
  eapply ra_intro; [exact Hname| |lia|].
  - replace (12 + (length b + (length (owner off (rr_name r)) + (2 + (2 + 4)) + (2 + length x))) -
      (12 + length b + length (owner off (rr_name r)) + 10))%nat with (length x) by lia.
    by rewrite <- Nat.add_assoc.
  - replace (12 + (length b + (length (owner off (rr_name r)) + (2 + (2 + 4)) + (2 + length x))))%nat
      with (12 + (length b + length (owner off (rr_name r))) + 10 + length x)%nat by lia.
    by rewrite <- (Nat.add_assoc 12 (length b)).
Qed.

Section Message.
Context (s : responder) (ttl : Z).

Definition invariant (n : nat) (rs : list record) (r : reply) : Prop :=
  exists b, content (r_dns r) (replicate 12 0 ++ b) /\ (12 + length b <= n)%nat /\
    r_an r = Z.of_nat (length rs) /\
    (forall pkt, text_at pkt 12 b -> records_at pkt 12 rs (12 + length b)) /\
    known (r_inst r) (inst_labels s) b /\ known (r_host r) (host_labels s) b.

(** A record added to the message. *)
Lemma add_record (b : list Z) (rs : list record) (d : DNS) (off : option nat) (rec : record) (x : list Z)
    (f : DNS -> DNS) :
  content d (replicate 12 0 ++ b) ->
  (forall pkt, text_at pkt 12 b -> records_at pkt 12 rs (12 + length b)) ->
  Forall label_ok (rr_name rec) -> known off (rr_name rec) b -> appends f x -> data_bytes (rr_data rec) x ->
  (12 + length b + length (record_bytes off rec x) <= DNS_SIZE)%nat ->
  let '(rdp, d1) := dns_rr off (dotted (rr_name rec)) (rr_type (rr_data rec)) (rr_class rec) (rr_ttl rec) d in
  content d1 (replicate 12 0 ++ b ++ rr_head off (rr_name rec) (rr_type (rr_data rec)) (rr_class rec)
    (rr_ttl rec) ++ [0; 0]) /\
  exists d', dns_patch_rdlen rdp (f d1) = Some d' /\
    content d' (replicate 12 0 ++ b ++ record_bytes off rec x) /\
    forall pkt, text_at pkt 12 (b ++ record_bytes off rec x) ->
      records_at pkt 12 (rs ++ [rec]) (12 + length (b ++ record_bytes off rec x)).
Proof.
  intros Hd Hrs Hl Hk Hf Hx Hs.
  assert (length (record_bytes off rec x) = length (rr_head off (rr_name rec) (rr_type (rr_data rec))
    (rr_class rec) (rr_ttl rec)) + 2 + length x)%nat as Hlen
    by (unfold record_bytes; rewrite !length_app; cbn; lia).
  assert (off_ok off) as Hoff by (destruct off; cbn in *; lia).
  pose proof (put_record off (rr_name rec) (rr_type (rr_data rec)) (rr_class rec) (rr_ttl rec) f d
    (replicate 12 0 ++ b) x Hl Hoff Hf Hd) as H.
  rewrite length_app, length_replicate in H. specialize (H ltac:(lia)).
  destruct (dns_rr _ _ _ _ _ d) as [rdp d1]. destruct H as [Hp (d' & E & Hc)].
  split; [by rewrite <- app_assoc in Hp|]. exists d'. split; [done|]. split; [by rewrite <- app_assoc in Hc|].
  intros pkt Ht. eapply rs_snoc; [apply Hrs; by apply text_at_app in Ht as [? _]|].
  by apply record_bytes_at.
Qed.

Context (Hs : service_ok s).

Lemma svc_labels_ok : Forall label_ok svc_labels.
Proof.
  repeat apply Forall_cons_2; [..|apply Forall_nil_2];
    (split; [apply txt_bytes|split; [cbn; lia|apply (bool_decide_unpack _); vm_compute; done]]).
Qed.

Lemma inst_labels_ok : Forall label_ok (inst_labels s).
Proof. constructor; [|exact svc_labels_ok]. split; [apply Hs|split; apply Hs]. Qed.

Lemma host_labels_ok : Forall label_ok (host_labels s).
Proof.
  pose proof svc_labels_ok as H. repeat (apply Forall_cons in H as [? H]).
  apply Forall_cons_2; [split; [apply Hs|split; apply Hs]|]. by apply Forall_cons_2; [|apply Forall_nil_2].
Qed.

Lemma inst_fqdn_eq : inst_fqdn s = dotted (inst_labels s).
Proof.
  destruct Hs as (_ & _ & Hl & _). unfold inst_fqdn, snprintf. rewrite take_ge.
  - change (dotted (inst_labels s)) with ((s_instance s ++ [46]) ++ dotted svc_labels).
    by rewrite <- app_assoc.
  - rewrite length_app. change (length (txt "." ++ SLC_SERVICE_TYPE ++ txt ".local.")) with 21%nat. lia.
Qed.

Lemma host_fqdn_eq : host_fqdn s = dotted (host_labels s).
Proof.
  destruct Hs as (_ & _ & Hl & _). unfold host_fqdn, snprintf. rewrite take_ge.
  - change (dotted (host_labels s)) with ((s_instance s ++ [46]) ++ dotted [txt "local"]).
    by rewrite <- app_assoc.
  - rewrite length_app. change (length (txt ".local.")) with 7%nat. lia.
Qed.

Lemma wire_sizes :
  (length (wire (inst_labels s)) <= 86 /\ length (wire (host_labels s)) <= 71)%nat.
Proof.
  destruct Hs as (_ & _ & Hl & _).
  unfold wire, inst_labels, host_labels. rewrite !strings_cons, !length_app. cbn. lia.
Qed.

Lemma owner_size (off : option nat) (ls : list (list Z)) : (length (owner off ls) <= Nat.max 2 (length (wire ls)))%nat.
Proof. destruct off; cbn; lia. Qed.

Lemma record_length (off : option nat) (rec : record) (x : list Z) :
  length (record_bytes off rec x) = (length (rr_head off (rr_name rec) (rr_type (rr_data rec))
    (rr_class rec) (rr_ttl rec)) + 2 + length x)%nat.
Proof. unfold record_bytes. rewrite !length_app. cbn. lia. Qed.

Lemma record_size (off : option nat) (rec : record) (x : list Z) :
  (length (record_bytes off rec x) <= Nat.max 2 (length (wire (rr_name rec))) + 10 + length x)%nat.
Proof.
  pose proof (owner_size off (rr_name rec)). unfold record_bytes, rr_head. rewrite !length_app. cbn. lia.
Qed.

(** ** The data of the four records *)
Lemma data_ptr (ls : list (list Z)) : Forall label_ok ls -> data_bytes (RPtr ls) (wire ls).
Proof. intros Hl pkt o Ht. by apply da_ptr, name_at_wire. Qed.

Lemma data_srv (p : Z) (ls : list (list Z)) :
  Forall label_ok ls -> data_bytes (RSrv 0 0 p ls) ((be16 0 ++ be16 0 ++ be16 p) ++ wire ls).
Proof.
  intros Hl pkt o Ht. apply text_at_app in Ht as [H1 H2]. rewrite length_app, Nat.add_assoc.
  apply da_srv; [done|]. by apply name_at_wire.
Qed.

Lemma data_txt (l : list (list Z)) :
  Forall (fun t => (length t <= 255)%nat) l -> data_bytes (RTxt l) (strings l).
Proof. intros Hl pkt o Ht. by apply da_txt. Qed.

Lemma data_a (ip : list Z) : length ip = 4%nat -> data_bytes (RA ip) ip.
Proof. intros Hl pkt o Ht. rewrite Hl. by apply da_a. Qed.

Lemma appends_ports (p : Z) :
  appends (fun d => dns_put16 p (dns_put16 0 (dns_put16 0 d))) (be16 0 ++ be16 0 ++ be16 p).
Proof.
  apply (appends_then (dns_put16 0) (fun d => dns_put16 p (dns_put16 0 d))); [apply appends_put16|].
  apply (appends_then (dns_put16 0) (dns_put16 p)); apply appends_put16.
Qed.

Lemma appends_srv (p : Z) (ls : list (list Z)) :
  Forall label_ok ls ->
  appends (fun d => snd (dns_name (dotted ls) (dns_put16 p (dns_put16 0 (dns_put16 0 d)))))
    ((be16 0 ++ be16 0 ++ be16 p) ++ wire ls).
Proof.
  intros Hl. apply (appends_then (fun d => dns_put16 p (dns_put16 0 (dns_put16 0 d)))
    (fun d => snd (dns_name (dotted ls) d))); [apply appends_ports|by apply appends_name].
Qed.

Lemma appends_strings (l : list (list Z)) :
  Forall (fun t => bytes_ok t /\ (length t <= 255)%nat) l ->
  appends (fun d => fold_left put_txt_string l d) (strings l).
Proof.
  induction 1 as [|t l [Hb Hl] _ IH]; [exact appends_id|]. rewrite strings_cons. cbn [fold_left].
  apply (appends_then (fun d => put_txt_string d t) (fun d => fold_left put_txt_string l d)); [|done].
  by apply appends_string.
Qed.

Lemma appends_ip :
  appends (fun d => dns_put8 (Z.shiftr (s_ip s) 24) (dns_put8 (Z.shiftr (s_ip s) 16)
    (dns_put8 (Z.shiftr (s_ip s) 8) (dns_put8 (s_ip s) d)))) (ip_octets s).
Proof.
  set (o k := Z.shiftr (s_ip s) k).
  apply (appends_then (dns_put8 (s_ip s)) (fun d => dns_put8 (o 24) (dns_put8 (o 16) (dns_put8 (o 8) d))) [_]);
    [apply appends_put8|].
  apply (appends_then (dns_put8 (o 8)) (fun d => dns_put8 (o 24) (dns_put8 (o 16) d)) [_]);
    [apply appends_put8|].
  apply (appends_then (dns_put8 (o 16)) (dns_put8 (o 24)) [_] [_]); apply appends_put8.
Qed.

(** ** The four parts of send_records *)
Lemma invariant_init : invariant 12 [] (mkReply dns_init 0 None None).
Proof.
  exists []. cbn [length r_dns r_an r_inst r_host]. split; [by rewrite app_nil_r|].
  split; [lia|]. split; [done|]. split; [|done]. intros pkt _. apply rs_nil.
Qed.

Lemma invariant_weaken (n m : nat) (rs : list record) (r : reply) :
  invariant n rs r -> (n <= m)%nat -> invariant m rs r.
Proof. intros (b & Hc & Hl & H) Hn. exists b. split; [done|]. split; [lia|done]. Qed.

Lemma put_ptr_ok (r : reply) :
  invariant 12 [] r ->
  exists r', put_ptr s ttl r = Some r' /\ invariant (12 + 21 + 10 + 86) [ptr_record s ttl] r'.
Proof.
  intros (b & Hc & Hl & Han & Hrs & Hi & Hh). pose proof wire_sizes as [Hw _].
  pose proof (record_size None (ptr_record s ttl) (wire (inst_labels s))) as Hsz.
  change (length (wire (rr_name (ptr_record s ttl)))) with 21%nat in Hsz.
  pose proof (add_record b [] (r_dns r) None (ptr_record s ttl) (wire (inst_labels s))
    (fun d => snd (dns_name (dotted (inst_labels s)) d)) Hc Hrs svc_labels_ok I
    (appends_name _ inst_labels_ok) (data_ptr _ inst_labels_ok)) as H.
  specialize (H ltac:(unfold DNS_SIZE; lia)).
  unfold put_ptr. rewrite inst_fqdn_eq. change svc_type with (dotted (rr_name (ptr_record s ttl))).
  change DNS_TYPE_PTR with (rr_type (rr_data (ptr_record s ttl))).
  change DNS_CLASS_IN with (rr_class (ptr_record s ttl)).
  change ttl with (rr_ttl (ptr_record s ttl)) at 2.
  destruct (dns_rr _ _ _ _ _ _) as [rdp d1]. destruct H as (Hp & d' & E & Hc' & Hrs').
  unfold dns_name in *. cbn [snd] in E. rewrite E. cbn. eexists. split; [done|].
  exists (b ++ record_bytes None (ptr_record s ttl) (wire (inst_labels s))).
  split; [done|]. rewrite Han. split; [rewrite length_app; lia|]. split; [done|].
  split; [done|]. split; [|by apply known_app].
  destruct Hp as (_ & Hp & _). unfold record_bytes. set (h := rr_head _ _ _ _ _) in *.
  pose proof (known_here (inst_labels s) (b ++ h ++ be16 (Z.of_nat (length (wire (inst_labels s))))) []
    inst_labels_ok) as Hk.
  rewrite app_nil_r, <- !app_assoc in Hk.
  rewrite Hp, length_app, length_replicate. rewrite !length_app in Hk |- *. exact Hk.
Qed.

(** The offset of a record's owner, handed out when it is written in full. *)
Lemma known_owner (r : reply) (ls : list (list Z)) (b : list Z) (rec : record) (x : list Z) :
  Forall label_ok ls -> rr_name rec = ls -> known (r_inst r) ls b ->
  content (r_dns r) (replicate 12 0 ++ b) ->
  known (or_here (r_inst r) r) ls (b ++ record_bytes (r_inst r) rec x).
Proof.
  intros Hl Hn Hk (_ & Hp & _). rewrite length_app, length_replicate in Hp. unfold or_here.
  destruct (r_inst r) as [o|] eqn:Eo; [by apply (known_app (Some o))|].
  rewrite Hp. unfold record_bytes, rr_head. cbn [owner]. rewrite Hn, <- app_assoc. by apply known_here.
Qed.

Lemma put_srv_ok (n : nat) (rs : list record) (r : reply) :
  invariant n rs r -> (n + 173 <= DNS_SIZE)%nat ->
  exists r', put_srv s ttl r = Some r' /\ invariant (n + 173) (rs ++ [srv_record s ttl]) r'.
Proof.
  intros (b & Hc & Hl & Han & Hrs & Hi & Hh) Hn. pose proof wire_sizes as [Hw Hw2].
  set (x := (be16 0 ++ be16 0 ++ be16 (s_port s)) ++ wire (host_labels s)).
  assert (length x = 6 + length (wire (host_labels s)))%nat as Hx by (unfold x; by rewrite length_app).
  pose proof (record_size (r_inst r) (srv_record s ttl) x) as Hsz. cbn [rr_name srv_record] in Hsz.
  pose proof (add_record b rs (r_dns r) (r_inst r) (srv_record s ttl) x _ Hc Hrs inst_labels_ok Hi
    (appends_srv (s_port s) _ host_labels_ok) (data_srv _ _ host_labels_ok)) as H.
  specialize (H ltac:(lia)).
  unfold put_srv. rewrite inst_fqdn_eq, host_fqdn_eq. cbn [rr_name rr_class rr_ttl rr_data rr_type srv_record] in H.
  change (Z.lor DNS_CLASS_IN DNS_CACHE_FLUSH) with 32769.
  destruct (dns_rr _ _ _ _ _ _) as [rdp d1]. destruct H as (Hp & d' & E & Hc' & Hrs').
  unfold dns_name in *. cbn [snd] in E. rewrite E. cbn [mbind option_bind]. eexists. split; [done|].
  exists (b ++ record_bytes (r_inst r) (srv_record s ttl) x). cbn [r_dns r_an r_inst r_host].
  split; [done|]. rewrite Han, !length_app. split; [lia|]. split; [cbn; lia|].
  split; [by rewrite <- length_app|]. split; [by apply known_owner; try apply inst_labels_ok|].
  set (h := rr_head (r_inst r) (inst_labels s) DNS_TYPE_SRV 32769 ttl).
  pose proof (known_here (host_labels s) (b ++ h ++ be16 (Z.of_nat (length x)) ++
    (be16 0 ++ be16 0 ++ be16 (s_port s))) [] host_labels_ok) as Hk.
  rewrite app_nil_r, <- !app_assoc in Hk.
  assert (d_pos (dns_put16 (s_port s) (dns_put16 0 (dns_put16 0 d1))) =
    12 + length (b ++ h ++ be16 (Z.of_nat (length x)) ++ (be16 0 ++ be16 0 ++ be16 (s_port s))))%nat as ->.
  { pose proof (appends_ports (s_port s) _ _ Hp) as Hq. fold h in Hq. rewrite !length_app in Hq.
    rewrite length_replicate in Hq. cbn [length] in Hq.
    destruct Hq as (_ & Hq & _); [|by rewrite Hq, !length_app, length_replicate; cbn; lia].
    rewrite record_length in Hsz. change (rr_head _ _ _ _ _) with h in Hsz. cbn [be16 length]. lia. }
  unfold record_bytes, x at 2. by rewrite <- !app_assoc.
Qed.

Lemma put_txt_ok (n : nat) (rs : list record) (r : reply) :
  invariant n rs r -> (n + 596 <= DNS_SIZE)%nat ->
  exists r', put_txt s ttl r = Some r' /\ invariant (n + 596) (rs ++ [txt_record s ttl]) r'.
Proof.
  intros (b & Hc & Hl & Han & Hrs & Hi & Hh) Hn. pose proof wire_sizes as [Hw _].
  assert (length (strings (s_txt s)) <= 500)%nat as Hx by apply Hs.
  assert (Forall (fun t => bytes_ok t /\ (length t <= 255)%nat) (s_txt s)) as Ht
    by (eapply Forall_impl; [apply Hs|]; cbn; intros t [? ?]; split; [done|lia]).
  pose proof (record_size (r_inst r) (txt_record s ttl) (strings (s_txt s))) as Hsz. cbn [rr_name txt_record] in Hsz.
  pose proof (add_record b rs (r_dns r) (r_inst r) (txt_record s ttl) (strings (s_txt s)) _ Hc Hrs inst_labels_ok Hi
    (appends_strings _ Ht) (data_txt _ ltac:(eapply Forall_impl; [exact Ht|]; by intros ? [])) ltac:(lia)) as H.
  unfold put_txt. rewrite inst_fqdn_eq. cbn [rr_name rr_class rr_ttl rr_data rr_type txt_record] in H.
  change (Z.lor DNS_CLASS_IN DNS_CACHE_FLUSH) with 32769.
  destruct (dns_rr _ _ _ _ _ _) as [rdp d1]. destruct H as (_ & d' & E & Hc' & Hrs').
  rewrite E. cbn [mbind option_bind]. eexists. split; [done|].
  exists (b ++ record_bytes (r_inst r) (txt_record s ttl) (strings (s_txt s))). cbn [r_dns r_an r_inst r_host].
  split; [done|]. rewrite Han, !length_app. split; [lia|]. split; [cbn; lia|].
  split; [by rewrite <- length_app|]. split; [by apply known_owner; try apply inst_labels_ok|by apply known_app].
Qed.

Lemma put_a_ok (n : nat) (rs : list record) (r : reply) :
  invariant n rs r -> (n + 85 <= DNS_SIZE)%nat ->
  exists r', put_a s ttl r = Some r' /\ invariant (n + 85) (rs ++ [a_record s ttl]) r'.
Proof.
  intros (b & Hc & Hl & Han & Hrs & Hi & Hh) Hn. pose proof wire_sizes as [_ Hw].
  pose proof (record_size (r_host r) (a_record s ttl) (ip_octets s)) as Hsz. cbn [rr_name a_record] in Hsz.
  change (length (ip_octets s)) with 4%nat in Hsz.
  pose proof (add_record b rs (r_dns r) (r_host r) (a_record s ttl) (ip_octets s) _ Hc Hrs host_labels_ok Hh
    appends_ip (data_a (ip_octets s) eq_refl) ltac:(lia)) as H.
  unfold put_a. rewrite host_fqdn_eq. cbn [rr_name rr_class rr_ttl rr_data rr_type a_record] in H.
  change (Z.lor DNS_CLASS_IN DNS_CACHE_FLUSH) with 32769.
  destruct (dns_rr _ _ _ _ _ _) as [rdp d1]. destruct H as (_ & d' & E & Hc' & Hrs').
  rewrite E. cbn [mbind option_bind]. eexists. split; [done|].
  exists (b ++ record_bytes (r_host r) (a_record s ttl) (ip_octets s)). cbn [r_dns r_an r_inst r_host].
  split; [done|]. rewrite Han, !length_app. split; [lia|]. split; [cbn; lia|].
  split; [by rewrite <- length_app|]. split; by apply known_app.
Qed.

(** A part that may be left out. *)
Lemma put_if_ok (c : bool) (f : reply -> option reply) (n k : nat) (rs : list record) (x : record) (r : reply) :
  invariant n rs r ->
  (invariant n rs r -> exists r', f r = Some r' /\ invariant (n + k) (rs ++ [x]) r') ->
  exists r', put_if c f r = Some r' /\ invariant (n + k) (rs ++ if c then [x] else []) r'.
Proof.
  intros Hr Hf. destruct c; cbn [put_if]; [by apply Hf|].
  exists r. rewrite app_nil_r. split; [done|]. eapply invariant_weaken; [done|lia].
Qed.

(** The header goes in front of the finished records. *)
Lemma header_content (d : DNS) (b : list Z) (an : Z) :
  content d (replicate 12 0 ++ b) ->
  take (d_pos d) (<[7%nat := u8 an]> (<[6%nat := u8 (Z.shiftr an 8)]>
    (<[3%nat := 0]> (<[2%nat := 132]> (d_buf d))))) =
  (be16 0 ++ be16 33792 ++ be16 0 ++ be16 an ++ be16 0 ++ be16 0) ++ b.
Proof.
  intros (Hl & Hp & Ht & _). rewrite length_app, length_replicate in Hp.
  rewrite !take_insert_lt, Ht by lia. reflexivity.
Qed.

Lemma send_records_core (which : Z) :
  exists pkt, send_records s which ttl = Some (Some pkt) /\ response pkt (service_records s ttl which) /\
    (length pkt <= 1024)%nat.
Proof.
  assert (DNS_SIZE = Z.to_nat 1024) as Esz by reflexivity.
  unfold send_records. rewrite (proj2 (Z.ltb_ge _ _)) by apply Hs.
  destruct (put_if_ok (has which R_PTR) (put_ptr s ttl) 12 117 [] (ptr_record s ttl)
    (mkReply dns_init 0 None None) invariant_init (put_ptr_ok _)) as (r1 & -> & H1). cbn [mbind option_bind].
  destruct (put_if_ok (has which R_SRV) (put_srv s ttl) _ _ _ _ r1 H1
    (fun H => put_srv_ok _ _ _ H ltac:(lia))) as (r2 & -> & H2). cbn [mbind option_bind].
  destruct (put_if_ok (has which R_TXT) (put_txt s ttl) _ _ _ _ r2 H2
    (fun H => put_txt_ok _ _ _ H ltac:(lia))) as (r3 & -> & H3). cbn [mbind option_bind].
  destruct (put_if_ok (has which R_A) (put_a s ttl) _ _ _ _ r3 H3
    (fun H => put_a_ok _ _ _ H ltac:(lia))) as (r4 & -> & H4). cbn [mbind option_bind].
  rewrite <- !app_assoc in H4. cbn [app] in H4. fold (service_records s ttl which) in H4.
  destruct H4 as (b & Hc & Hl & Han & Hrs & _). pose proof Hc as (_ & _ & _ & ->).
  rewrite (header_content _ _ _ Hc). eexists. split; [done|]. rewrite Han.
  set (h := be16 0 ++ _). split; [split|rewrite length_app; change (length h) with 12%nat; lia].
  - apply (text_at_prefix h b).
  - rewrite length_app. change (length h) with 12%nat. apply Hrs.
    pose proof (text_at_prefix (h ++ b) []) as Ht. rewrite app_nil_r in Ht.
    by apply text_at_app in Ht as [_ Ht].
Qed.
End Message.

(** ** A name has one reading *)
Lemma text_at_head (pkt : list Z) (o : nat) (c : Z) (l : list Z) :
  text_at pkt o (c :: l) -> pkt !! o = Some c.
Proof. intros H. by apply text_at_cons in H as [? _]. Qed.

Lemma text_at_unique (pkt : list Z) (o : nat) (l k : list Z) :
  text_at pkt o l -> text_at pkt o k -> length l = length k -> l = k.
Proof.
  intros Hl Hk E. apply list_eq_same_length with (length l); [done|done|].
  intros i x y _ Hx Hy. apply Hl in Hx. apply Hk in Hy. congruence.
Qed.

Lemma name_at_unique (pkt : list Z) (o e e' : nat) (ls ls' : list (list Z)) :
  name_at pkt o ls e -> name_at pkt o ls' e' -> ls = ls' /\ e = e'.
Proof.
  intros H. revert ls' e'. induction H as [o Ht|o l ls e Hl Ht _ IH|o t ls e Ho Ht _ IH]; intros ls' e' H';
    inversion H' as [o' Ht'|o' l' ls1 e1 Hl' Ht' H1|o' t' ls1 e1 Ho' Ht' H1]; subst;
    pose proof (text_at_head _ _ _ _ Ht) as E; pose proof (text_at_head _ _ _ _ Ht') as E';
    rewrite E in E'; apply (f_equal (default 0)) in E'; unfold default, from_option, id in E'; try done; try lia;
    try (match goal with _ : text_at _ _ [192 + Z.of_nat ?t / 256; _] |- _ =>
           pose proof (Z.div_pos (Z.of_nat t) 256) end; lia).
  - assert (length l = length l') as Hlen by lia.
    pose proof (text_at_unique _ _ _ _ Ht Ht' ltac:(cbn; lia)) as [= _ <-].
    destruct (IH _ _ H1) as [-> ->]. done.
  - pose proof (text_at_unique _ _ _ _ Ht Ht' eq_refl) as [= E1 E2].
    assert (t = t') as <-.
    { apply Nat2Z.inj. rewrite (Z.div_mod (Z.of_nat t) 256), (Z.div_mod (Z.of_nat t') 256) by lia. lia. }
    destruct (IH _ _ H1) as [-> _]. done.
Qed.

(** ** Correctness *)

(** C22: the announcement decodes.  For a running responder with a one-label
    instance name, every selection of records is written without leaving the
    array and without overflow, and the datagram reads, by the rules of RFC
    1035, as an authoritative response with exactly the selected records of the
    service and the given time to live: the pointer from the service type to
    the instance, its host and port, its texts, and the host's address. *)
Theorem send_records_decodes (s : responder) (ttl which : Z) :
  service_ok s ->
  exists pkt, send_records s which ttl = Some (Some pkt) /\ response pkt (service_records s ttl which) /\
    (length pkt <= 1024)%nat.
Proof.
  intros Hs. exact (send_records_core s ttl Hs which).
Qed.

Definition sample_responder : responder :=
  mkResponder 5 true true (txt "SLC-6107C0") (txt "eth0") (192 + 168 * 256 + 1 * 65536 + 20 * 16777216) 4950
    [txt "name=SLC-6107C0"; txt "proto=sdr-slc"; txt "functions=rx"].

Lemma sample_responder_ok : service_ok sample_responder.
Proof.
  split; [done|]. split; [apply txt_bytes|]. split; [cbn; lia|].
  split; [apply (bool_decide_unpack _); vm_compute; done|].
  split; [|vm_compute; lia].
  repeat apply Forall_cons_2; [..|apply Forall_nil_2]; (split; [apply txt_bytes|cbn; lia]).
Qed.

Lemma send_records_decodes_witness :
  service_ok sample_responder /\
  exists pkt, send_records sample_responder R_ALL MDNS_TTL = Some (Some pkt) /\
    response pkt (service_records sample_responder MDNS_TTL R_ALL) /\
    length (service_records sample_responder MDNS_TTL R_ALL) = 4%nat.
Proof.
  split; [exact sample_responder_ok|].
  destruct (send_records_decodes sample_responder MDNS_TTL R_ALL sample_responder_ok) as (pkt & E & Hr & _).
  exists pkt. exact (conj E (conj Hr eq_refl)).
Defined.
