(* ===== verification/DnsQuery.v ===== *)
(** * mDNS queries: the reading side of common/mdns_builtin.c

    The name reader, the choice of records for a query, and the loop of the
    responder thread.  Reads are from the receive array, stores into the
    caller's name array; either outside its array is undefined ([None]).  The
    reader is proved total on every datagram, and right on well-formed ones;
    a query for the service is proved to be answered with its records. *)
From S2P Require Import Prelude CLib Jsmn JsonText Dns.
#[local] Open Scope Z_scope.

(** [l] octets at [p]. *)
Definition load (p l : nat) (buf : list Z) : option (list Z) :=
  if (p + l <=? length buf)%nat then Some (take l (drop p buf)) else None.

(** ** dns_read_name

    [n] octets of the name are in [out]; [jumped] is [jumped_to >= 0]; [pos]
    is the caller's position.  The result is the return value, the caller's
    position and the array. *)
Section ReadName.
Context (buf : list Z) (len : nat).

Definition read_done (p n : nat) (jumped : bool) (pos : nat) (out : list Z) :=
  out ← store n [0] out; Some (true, if jumped then pos else p, out).

(** [if (n) out[n++] = '.'] *)
Definition put_dot (n : nat) (out : list Z) : option (nat * list Z) :=
  if (0 <? n)%nat then out ← store n [46] out; Some (S n, out) else Some (n, out).

Fixpoint read_name_loop (guard : nat) (p n : nat) (jumped : bool) (pos : nat) (out : list Z)
    : option (bool * nat * list Z) :=
  match guard with
  | O => read_done p n jumped pos out
  | S g =>
      if (len <=? p)%nat then Some (false, pos, out)
      else
        l ← buf !! p;
        let p := S p in
        if l =? 0 then read_done p n jumped pos out
        else if Z.land l 192 =? 192 then
          if (len <=? p)%nat then Some (false, pos, out)
          else
            b ← buf !! p;
            let p := S p in
            let target := Z.to_nat (Z.lor (Z.shiftl (Z.land l 63) 8) b) in
            read_name_loop g target n true (if jumped then pos else p) out
        else
          let l := Z.to_nat l in
          if (len <? p + l)%nat then Some (false, pos, out)
          else if (length out <? n + l + 2)%nat then Some (false, pos, out)
          else
            '(n, out) ← put_dot n out;
            label ← load p l buf;
            out ← store n label out;
            read_name_loop g (p + l) (n + l) jumped pos out
  end.

Definition dns_read_name (pos : nat) (out : list Z) : option (bool * nat * list Z) :=
  read_name_loop 64 pos 0 false pos out.
End ReadName.

(** ** records_for_query *)
Definition strcaseeq (a b : list Z) : bool := bool_decide (lower <$> a = lower <$> b).

Definition svc_name : list Z := snprintf 64 (SLC_SERVICE_TYPE ++ txt ".local").
Definition inst_name (s : responder) : list Z :=
  snprintf 128 (s_instance s ++ txt "." ++ SLC_SERVICE_TYPE ++ txt ".local").
Definition host_name (s : responder) : list Z := snprintf 96 (s_instance s ++ txt ".local").
Definition meta_name : list Z := txt "_services._dns-sd._udp.local".

(** The records one question asks for. *)
Definition question_records (s : responder) (name : list Z) (qtype : Z) : Z :=
  let any := qtype =? DNS_TYPE_ANY in
  if strcaseeq name svc_name && (any || (qtype =? DNS_TYPE_PTR)) then R_ALL
  else if strcaseeq name meta_name && (any || (qtype =? DNS_TYPE_PTR)) then R_ALL
  else if strcaseeq name (inst_name s) then
    Z.lor (if any || (qtype =? DNS_TYPE_SRV) then Z.lor R_SRV R_A else 0)
          (if any || (qtype =? DNS_TYPE_TXT) then R_TXT else 0)
  else if strcaseeq name (host_name s) && (any || (qtype =? DNS_TYPE_A)) then R_A
  else 0.

(** The questions' loop; [name] is an array of 256 octets the compiler leaves
    uninitialised, [junk] its contents. *)
Fixpoint query_loop (s : responder) (buf : list Z) (len : nat) (junk : list Z) (q pos : nat) (which : Z)
    : option Z :=
  match q with
  | O => Some which
  | S q' =>
      '(ok, pos, name) ← dns_read_name buf len pos junk;
      if negb ok then Some which
      else if (len <? pos + 4)%nat then Some which
      else
        b0 ← buf !! pos; b1 ← buf !! S pos;
        let qtype := u16 (Z.lor (Z.shiftl b0 8) b1) in
        query_loop s buf len junk q' (pos + 4)
          (Z.lor which (question_records s (cstr name) qtype))
  end.

Definition records_for_query (s : responder) (buf : list Z) (len : nat) (junk : list Z) : option Z :=
  if (len <? 12)%nat then Some 0
  else
    b2 ← buf !! 2%nat;
    if negb (Z.land b2 128 =? 0) then Some 0
    else
      b4 ← buf !! 4%nat; b5 ← buf !! 5%nat;
      let qd := Z.lor (Z.shiftl b4 8) b5 in
      if qd =? 0 then Some 0 else query_loop s buf len junk (Z.to_nat qd) 12 0.

(** ** responder_thread

    One result of recvfrom per turn. *)
Inductive recv :=
  | Received (msg : list Z)
  | Interrupted                  (* EINTR *)
  | Failed                       (* another error while running *)
  | Stopped.                     (* an error once s_running is cleared *)

Definition RX_SIZE : nat := Z.to_nat 1500.

(** The receive array after a datagram: a longer one is cut. *)
Definition received (msg rx : list Z) : list Z := take RX_SIZE msg ++ drop (length msg) rx.

Definition respond (s : responder) (rx : list Z) (len : nat) (junk : list Z) : option (option (list Z)) :=
  which ← records_for_query s rx len junk;
  if which =? 0 then Some None else send_records s which MDNS_TTL.

Fixpoint responder_thread (s : responder) (rx junk : list Z) (l : list recv) : option (list (list Z)) :=
  match l with
  | [] | Stopped :: _ => Some []
  | Interrupted :: l' | Failed :: l' => responder_thread s rx junk l'
  | Received msg :: l' =>
      let rx := received msg rx in
      sent ← respond s rx (Nat.min (length msg) RX_SIZE) junk;
      rest ← responder_thread s rx junk l';
      Some (match sent with Some p => p :: rest | None => rest end)
  end.

(** ** Names of a query

    [name_in k pkt o ls e]: like [name_at], read in [k] turns. *)
Inductive name_in (pkt : list Z) : nat -> nat -> list (list Z) -> nat -> Prop :=
  | ni_root o : text_at pkt o [0] -> name_in pkt 1 o [] (S o)
  | ni_label k o l ls e :
      (0 < length l <= 63)%nat -> text_at pkt o (Z.of_nat (length l) :: l) ->
      name_in pkt k (o + S (length l)) ls e -> name_in pkt (S k) o (l :: ls) e
  | ni_pointer k o t ls e :
      (t < o)%nat -> text_at pkt o [192 + Z.of_nat t / 256; Z.of_nat t mod 256] -> Z.of_nat t < 16384 ->
      name_in pkt k t ls e -> name_in pkt (S k) o ls (o + 2).

(** Labels with dots between them. *)
Fixpoint join_dots (ls : list (list Z)) : list Z :=
  match ls with
  | [] => []
  | [l] => l
  | l :: ls' => l ++ 46 :: join_dots ls'
  end.

(** A question: name, type, class. *)
Record question := mkQuestion { q_name : list (list Z); q_type : Z; q_class : Z }.

Inductive questions_at (pkt : list Z) : nat -> list question -> nat -> Prop :=
  | qs_nil o : questions_at pkt o [] o
  | qs_cons o q qs k m e :
      name_in pkt k o (q_name q) m -> (k <= 64)%nat -> (length (join_dots (q_name q)) <= 253)%nat ->
      Forall (fun l => Forall (fun c => 0 < c < 256 /\ c <> 46) l) (q_name q) ->
      0 <= q_type q < 2 ^ 16 ->
      text_at pkt m (be16 (q_type q) ++ be16 (q_class q)) ->
      questions_at pkt (m + 4) qs e -> questions_at pkt o (q :: qs) e.

(** A query message with the questions [qs]. *)
Definition query (pkt : list Z) (qs : list question) : Prop :=
  bytes_ok pkt /\ (length pkt <= RX_SIZE)%nat /\ qs <> [] /\ Z.of_nat (length qs) < 2 ^ 16 /\
  (exists id flags c1 c2 c3, 0 <= flags < 2 ^ 15 /\
    text_at pkt 0 (be16 id ++ be16 flags ++ be16 (Z.of_nat (length qs)) ++ be16 c1 ++ be16 c2 ++ be16 c3)) /\
  exists e, questions_at pkt 12 qs e /\ (e <= length pkt)%nat.

(** ** The reader is total *)
Lemma load_ok (p l : nat) (buf : list Z) :
  (p + l <= length buf)%nat -> load p l buf = Some (take l (drop p buf)).
Proof. intros H. unfold load. by rewrite (proj2 (Nat.leb_le _ _) H). Qed.

Lemma put_dot_ok (n : nat) (out : list Z) :
  (n < length out)%nat ->
  exists out', put_dot n out = Some ((n + (if 0 <? n then 1 else 0))%nat, out') /\ length out' = length out.
Proof.
  intros Hn. unfold put_dot. destruct n as [|n]; cbn [Nat.ltb Nat.leb]; [by exists out|].
  rewrite store_ok by (cbn; lia). cbn [mbind option_bind]. eexists. split; [do 2 f_equal; lia|].
  apply (store_length (S n) [46]). apply store_ok. cbn. lia.
Qed.

Section Total.
Context (buf : list Z) (len : nat) (Hlen : (len <= length buf)%nat) (Hb : bytes_ok buf).

(** What every outcome of the reader satisfies: the array keeps its size; on
    success it holds a NUL inside it, and the position has moved on within the
    datagram. *)
Definition read_outcome (cap start : nat) (res : option (bool * nat * list Z)) : Prop :=
  exists ok pos out, res = Some (ok, pos, out) /\ length out = cap /\
    (ok = true -> (start < pos <= len)%nat /\ exists name rest, out = name ++ 0 :: rest).

Lemma read_done_outcome (start p n : nat) (jumped : bool) (pos : nat) (out : list Z) :
  (n < length out)%nat -> (start < (if jumped then pos else p) <= len)%nat ->
  read_outcome (length out) start (read_done p n jumped pos out).
Proof.
  intros Hn Hp. unfold read_done. rewrite store_ok by (cbn; lia). cbn [mbind option_bind].
  do 3 eexists. split; [done|]. split; [rewrite !length_app, length_take, length_drop; cbn; lia|].
  intros _. split; [done|]. by do 2 eexists.
Qed.

Lemma read_stop_outcome (start pos : nat) (out : list Z) :
  read_outcome (length out) start (Some (false, pos, out)).
Proof. by do 3 eexists. Qed.

Lemma read_loop_total (g start p n : nat) (jumped : bool) (pos : nat) (out : list Z) :
  (n < length out)%nat ->
  (if jumped then (start < pos <= len)%nat else (start < p <= len)%nat \/ (p = start /\ (0 < g)%nat)) ->
  read_outcome (length out) start (read_name_loop buf len g p n jumped pos out).
Proof.
  revert p n jumped pos out. induction g as [|g IH]; intros p n jumped pos out Hn Hp; cbn [read_name_loop].
  { apply read_done_outcome; [done|]. destruct jumped; lia. }
  destruct (Nat.leb_spec len p); [apply read_stop_outcome|].
  destruct (lookup_lt_is_Some_2 buf p ltac:(lia)) as [l El]. rewrite El. cbn [mbind option_bind].
  pose proof (Forall_lookup_1 _ _ _ _ Hb El) as Hl. cbn in Hl. unfold is_byte in Hl.
  destruct (l =? 0); [apply read_done_outcome; [done|destruct jumped; lia]|].
  destruct (Z.land l 192 =? 192).
  { destruct (Nat.leb_spec len (S p)); [apply read_stop_outcome|].
    destruct (lookup_lt_is_Some_2 buf (S p) ltac:(lia)) as [b Eb]. rewrite Eb. cbn [mbind option_bind].
    apply IH; [done|]. destruct jumped; lia. }
  destruct (Nat.ltb_spec len (S p + Z.to_nat l)); [apply read_stop_outcome|].
  destruct (Nat.ltb_spec (length out) (n + Z.to_nat l + 2)); [apply read_stop_outcome|].
  destruct (put_dot_ok n out) as (o1 & -> & Ho1); [lia|]. cbn [mbind option_bind].
  rewrite load_ok by lia. cbn [mbind option_bind].
  set (m := (n + _)%nat). assert (m <= S n)%nat as Hm by (unfold m; destruct (0 <? n)%nat; lia).
  assert (length (take (Z.to_nat l) (drop (S p) buf)) = Z.to_nat l) as Hll
    by (rewrite length_take, length_drop; lia).
  rewrite store_ok by lia. cbn [mbind option_bind]. rewrite <- Ho1.
  assert (forall x, length (take m o1 ++ x ++ drop (m + length x) o1) = length o1 \/
    (length o1 < m + length x)%nat) as Hx
    by (intros x; rewrite !length_app, length_take, length_drop; lia).
  destruct (Hx (take (Z.to_nat l) (drop (S p) buf))) as [<-|]; [|lia].
  apply IH; [|destruct jumped; lia]. rewrite !length_app, length_take, length_drop. lia.
Qed.
End Total.

Lemma read_name_total (buf out : list Z) (len pos : nat) :
  (len <= length buf)%nat -> bytes_ok buf -> (0 < length out)%nat ->
  read_outcome len (length out) pos (dns_read_name buf len pos out).
Proof. intros Hl Hb Ho. apply read_loop_total; [done..|]. right. split; [done|lia]. Qed.

Lemma query_loop_total (s : responder) (buf junk : list Z) (len q pos : nat) (which : Z) :
  (len <= length buf)%nat -> bytes_ok buf -> (0 < length junk)%nat ->
  exists w, query_loop s buf len junk q pos which = Some w.
Proof.
  intros Hl Hb Hj. revert pos which. induction q as [|q IH]; intros pos which; cbn [query_loop]; [eauto|].
  destruct (read_name_total buf junk len pos Hl Hb Hj) as (ok & pos' & out & -> & _ & _).
  cbn [mbind option_bind]. destruct ok; cbn [negb]; [|eauto].
  destruct (Nat.ltb_spec len (pos' + 4)); [eauto|].
  destruct (lookup_lt_is_Some_2 buf pos' ltac:(lia)) as [b0 ->].
  destruct (lookup_lt_is_Some_2 buf (S pos') ltac:(lia)) as [b1 ->]. cbn [mbind option_bind]. apply IH.
Qed.

Lemma records_for_query_total (s : responder) (buf junk : list Z) (len : nat) :
  (len <= length buf)%nat -> bytes_ok buf -> (0 < length junk)%nat ->
  exists w, records_for_query s buf len junk = Some w.
Proof.
  intros Hl Hb Hj. unfold records_for_query. destruct (Nat.ltb_spec len 12); [eauto|].
  destruct (lookup_lt_is_Some_2 buf 2 ltac:(lia)) as [b2 ->].
  destruct (lookup_lt_is_Some_2 buf 4 ltac:(lia)) as [b4 ->].
  destruct (lookup_lt_is_Some_2 buf 5 ltac:(lia)) as [b5 ->]. cbn [mbind option_bind].
  destruct (negb _); [eauto|]. destruct (_ =? 0); [eauto|]. by apply query_loop_total.
Qed.

(** ** The reader is right on well-formed names *)
Definition dots (ls : list (list Z)) : list Z := mjoin (cons 46 <$> ls).

Lemma join_dots_cons (l : list Z) (ls : list (list Z)) : join_dots (l :: ls) = l ++ dots ls.
Proof.
  revert l. induction ls as [|l2 ls IH]; intros l; [cbn; by rewrite app_nil_r|].
  change (join_dots (l :: l2 :: ls)) with (l ++ 46 :: join_dots (l2 :: ls)). by rewrite IH.
Qed.

(** What the rest of a name adds to the [n] octets already there. *)
Definition more_text (n : nat) (ls : list (list Z)) : list Z :=
  if (n =? 0)%nat then join_dots ls else dots ls.

(** A store behind the text in the array. *)
Lemma store_app (a b x : list Z) :
  (length x <= length b)%nat -> store (length a) x (a ++ b) = Some ((a ++ x) ++ drop (length x) b).
Proof.
  intros H. rewrite store_ok by (rewrite length_app; lia).
  by rewrite take_app_length, drop_app_add, <- app_assoc.
Qed.

Lemma pointer_target (t b0 b1 : Z) :
  0 <= t < 16384 -> b0 = 192 + t / 256 -> b1 = t mod 256 ->
  (b0 =? 0) = false /\ (Z.land b0 192 =? 192) = true /\ Z.lor (Z.shiftl (Z.land b0 63) 8) b1 = t.
Proof.
  intros Ht -> ->.
  assert (0 <= t / 256 < 64) as Hq by (split; [apply Z.div_pos; lia|apply Z.div_lt_upper_bound; lia]).
  pose proof (Z.mod_pos_bound t 256 ltac:(lia)).
  pose proof (byte_forall (fun q => implb (q <? 64) ((Z.land (192 + q) 192 =? 192) && (Z.land (192 + q) 63 =? q)))
    ltac:(vm_compute; reflexivity) (t / 256) ltac:(unfold is_byte; lia)) as Hb. cbn beta in Hb.
  rewrite (proj2 (Z.ltb_lt _ _)) in Hb by lia. cbn [implb] in Hb. zbool.
  split; [apply Z.eqb_neq; lia|]. split; [by apply Z.eqb_eq|].
  match goal with H : Z.land _ 63 = _ |- _ => rewrite H end.
  rewrite lor_shiftl_add by (change (2 ^ 8) with 256; lia). change (2 ^ 8) with 256.
  rewrite (Z.div_mod t 256) at 3 by lia. lia.
Qed.

Lemma label_octet (n : nat) :
  (0 < n <= 63)%nat -> (Z.of_nat n =? 0) = false /\ (Z.land (Z.of_nat n) 192 =? 192) = false.
Proof.
  intros Hn. split; [apply Z.eqb_neq; lia|].
  pose proof (byte_forall (fun q => implb (q <? 64) (negb (Z.land q 192 =? 192)))
    ltac:(vm_compute; reflexivity) (Z.of_nat n) ltac:(unfold is_byte; lia)) as Hb. cbn beta in Hb.
  rewrite (proj2 (Z.ltb_lt _ _)) in Hb by lia. cbn [implb] in Hb. by apply negb_true_iff.
Qed.

(** A label behind the text in the array, with a dot before it if needed. *)
Definition dot_if (n : nat) : list Z := if (n =? 0)%nat then [] else [46].

Lemma more_text_cons (n : nat) (l : list Z) (ls : list (list Z)) :
  more_text n (l :: ls) = dot_if n ++ l ++ dots ls.
Proof. unfold more_text, dot_if. destruct (n =? 0)%nat; [apply join_dots_cons|done]. Qed.

Lemma put_dot_text (name rest : list Z) :
  (0 < length rest)%nat ->
  put_dot (length name) (name ++ rest) =
  Some (length (name ++ dot_if (length name)),
        (name ++ dot_if (length name)) ++ drop (length (dot_if (length name))) rest).
Proof.
  intros H. unfold put_dot, dot_if. destruct name as [|c name]; cbn [length Nat.eqb Nat.ltb Nat.leb];
    [by rewrite drop_0|].
  pose proof (store_app (c :: name) rest [46]) as E. cbn [length] in E. rewrite E by lia.
  cbn [mbind option_bind]. do 2 f_equal. rewrite length_app. cbn. lia.
Qed.

Section Right.
Context (pkt stale : list Z).

Let buf : list Z := pkt ++ stale.

Lemma text_at_lookup (o i : nat) (l : list Z) (c : Z) :
  text_at pkt o l -> l !! i = Some c -> buf !! (o + i)%nat = Some c /\ (o + i < length pkt)%nat.
Proof.
  intros Ht Hi. apply Ht in Hi. pose proof (lookup_lt_Some _ _ _ Hi). split; [|done].
  unfold buf. by apply lookup_app_l_Some.
Qed.

Lemma text_at_load (o : nat) (l : list Z) :
  text_at pkt o l -> l <> [] -> load o (length l) buf = Some l /\ (o + length l <= length pkt)%nat.
Proof.
  intros Ht Hne. assert (o + length l <= length pkt)%nat as Hl.
  { destruct (lookup_lt_is_Some_2 l (length l - 1)) as [c Hc]; [destruct l; [done|cbn; lia]|].
    pose proof (text_at_lookup _ _ _ _ Ht Hc) as [_ ?]. lia. }
  split; [|done]. rewrite load_ok by (unfold buf; rewrite length_app; lia). f_equal.
  apply list_eq_same_length with (length l); [done|rewrite length_take, length_drop; unfold buf; rewrite length_app; lia|].
  intros i x y Hi Hx Hy. rewrite lookup_take_lt, lookup_drop in Hx by done.
  destruct (text_at_lookup _ _ _ _ Ht Hy) as [Hb _]. congruence.
Qed.

Lemma read_loop_right (k o e : nat) (ls : list (list Z)) :
  name_in pkt k o ls e ->
  forall g name rest jumped pos, (k <= g)%nat ->
  (length name + length (more_text (length name) ls) + 2 <= length name + length rest)%nat ->
  exists rest', read_name_loop buf (length pkt) g o (length name) jumped pos (name ++ rest) =
    Some (true, if jumped then pos else e, name ++ more_text (length name) ls ++ 0 :: rest').
Proof.
  induction 1 as [o Ht|k o l ls e Hl Ht _ IH|k o t ls e Hto Ht Ht2 _ IH];
    intros [|g] name rest jumped pos Hg Hs; try lia; cbn [read_name_loop].
  - destruct (text_at_lookup _ 0 _ 0 Ht eq_refl) as [Hb Hlt]. rewrite Nat.add_0_r in *.
    rewrite (proj2 (Nat.leb_gt _ _)), Hb by lia. cbn [mbind option_bind].
    unfold read_done. rewrite store_app by (cbn; lia). cbn [mbind option_bind].
    exists (drop 1 rest). unfold more_text.
    rewrite <- app_assoc. by destruct (length name =? 0)%nat.
  - destruct (text_at_lookup _ 0 _ _ Ht eq_refl) as [Hb Hlt]. rewrite Nat.add_0_r in *.
    apply text_at_cons in Ht as [_ Ht].
    destruct (text_at_load _ _ Ht) as [Hload Hend]; [by destruct l; cbn in Hl; [lia|]|].
    destruct (label_octet (length l) Hl) as [E0 E1].
    rewrite (proj2 (Nat.leb_gt _ _)), Hb by lia. cbn [mbind option_bind]. rewrite E0, E1, Nat2Z.id.
    rewrite (proj2 (Nat.ltb_ge _ _)) by lia. rewrite more_text_cons in Hs |- *.
    assert (length l + 2 <= length rest)%nat as Hcap by (rewrite !length_app in Hs; lia).
    rewrite (proj2 (Nat.ltb_ge _ _)) by (rewrite length_app; lia).
    rewrite put_dot_text by lia. cbn [mbind option_bind]. rewrite Hload. cbn [mbind option_bind].
    set (d := dot_if (length name)) in *. assert (length d <= 1)%nat as Hd
      by (unfold d, dot_if; destruct (length name =? 0)%nat; cbn; lia).
    rewrite store_app by (rewrite length_drop; lia). cbn [mbind option_bind]. rewrite drop_drop.
    set (name1 := (name ++ d) ++ l) in *.
    assert (more_text (length name1) ls = dots ls) as Hm.
    { unfold more_text, name1. rewrite length_app. by rewrite (proj2 (Nat.eqb_neq _ _)) by lia. }
    destruct (IH g name1 (drop (length d + length l) rest) jumped pos) as (rest' & E); [lia| |].
    { rewrite Hm, length_drop. rewrite !length_app in Hs. lia. }
    unfold name1 in E at 1. rewrite length_app in E.
    replace (S o + length l)%nat with (o + S (length l))%nat by lia. rewrite E, Hm. exists rest'.
    unfold name1. by rewrite <- !app_assoc.
  - destruct (text_at_lookup _ 0 _ _ Ht eq_refl) as [Hb0 Hlt0].
    destruct (text_at_lookup _ 1 _ _ Ht eq_refl) as [Hb1 Hlt1]. rewrite Nat.add_0_r, Nat.add_1_r in *.
    destruct (pointer_target (Z.of_nat t) _ _ ltac:(lia) eq_refl eq_refl) as (E0 & E1 & E2).
    rewrite (proj2 (Nat.leb_gt _ _)), Hb0 by lia. cbn [mbind option_bind]. rewrite E0, E1.
    rewrite (proj2 (Nat.leb_gt _ _)), Hb1 by lia. cbn [mbind option_bind]. rewrite E2, Nat2Z.id.
    destruct (IH g name rest true (if jumped then pos else S (S o)) ltac:(lia) Hs) as (rest' & ->).
    exists rest'. do 3 f_equal. destruct jumped; lia.
Qed.
End Right.

(** ** Comparing names by their labels *)
Definition lower_all (l : list Z) : list Z := lower <$> l.

Definition same_name (a b : list (list Z)) : bool :=
  bool_decide (lower_all <$> a = lower_all <$> b).

Definition dotless (l : list Z) : Prop := Forall (fun c => c <> 46) l.

Definition plain (ls : list (list Z)) : Prop := Forall (fun l => l <> [] /\ dotless l) ls.

Lemma lower_dot (c : Z) : lower c = 46 -> c = 46.
Proof. unfold lower. destruct (_ && _) eqn:E; [|done]. zbool. lia. Qed.

Lemma lower_join (ls : list (list Z)) : lower <$> join_dots ls = join_dots (lower_all <$> ls).
Proof.
  destruct ls as [|l ls]; [done|]. rewrite fmap_cons, !join_dots_cons, fmap_app. f_equal.
  induction ls as [|k ls IH]; [done|].
  change (dots (k :: ls)) with (46 :: k ++ dots ls).
  change (dots (lower_all <$> k :: ls)) with (46 :: lower_all k ++ dots (lower_all <$> ls)).
  by rewrite fmap_cons, fmap_app, IH.
Qed.

Lemma plain_lower (ls : list (list Z)) : plain ls -> plain (lower_all <$> ls).
Proof.
  intros H. apply Forall_fmap. eapply Forall_impl; [exact H|]. cbn. intros l [Hne Hd]. split; [by destruct l|].
  apply Forall_fmap. eapply Forall_impl; [exact Hd|]. cbn. intros c Hc E. by apply Hc, lower_dot.
Qed.

Lemma dotless_app_inj (a b x y : list Z) :
  dotless a -> dotless b -> a ++ x = b ++ y -> hd 46 x = 46 -> hd 46 y = 46 -> a = b /\ x = y.
Proof.
  intros Ha. revert b. induction Ha as [|c a Hc _ IH]; intros [|d b] Hb E Hx Hy; cbn in E.
  - done.
  - subst. apply Forall_cons in Hb as [Hd _]. by cbn in Hx.
  - subst. by cbn in Hy.
  - injection E as -> E. apply Forall_cons in Hb as [_ Hb]. by destruct (IH b Hb E Hx Hy) as [-> ->].
Qed.

Lemma dots_head (ls : list (list Z)) : hd 46 (dots ls) = 46.
Proof. by destruct ls. Qed.

Lemma dots_inj (a b : list (list Z)) : plain a -> plain b -> dots a = dots b -> a = b.
Proof.
  intros Ha. revert b. induction Ha as [|l a [_ Hl] _ IH]; intros [|k b] Hb E; try done.
  change (46 :: l ++ dots a = 46 :: k ++ dots b) in E. injection E as E. apply Forall_cons in Hb as [[_ Hk] Hb].
  destruct (dotless_app_inj l k (dots a) (dots b) Hl Hk E (dots_head a) (dots_head b)) as [-> E'].
  f_equal. by apply IH.
Qed.

Lemma join_dots_inj (a b : list (list Z)) : plain a -> plain b -> join_dots a = join_dots b -> a = b.
Proof.
  intros Ha Hb. destruct a as [|l a], b as [|k b]; rewrite ?join_dots_cons; intros E; [done|..].
  - apply Forall_cons in Hb as [[Hk _] _]. by destruct k.
  - apply Forall_cons in Ha as [[Hl _] _]. by destruct l.
  - apply Forall_cons in Ha as [[_ Hl] Ha]. apply Forall_cons in Hb as [[_ Hk] Hb].
    destruct (dotless_app_inj l k _ _ Hl Hk E (dots_head a) (dots_head b)) as [-> E'].
    f_equal. by apply dots_inj.
Qed.

Lemma strcaseeq_labels (a b : list (list Z)) :
  plain a -> plain b -> strcaseeq (join_dots a) (join_dots b) = same_name a b.
Proof.
  intros Ha Hb. unfold strcaseeq, same_name. apply bool_decide_ext. rewrite !lower_join.
  split; [apply join_dots_inj; by apply plain_lower|by intros ->].
Qed.

(** ** Queries *)
Definition meta_labels : list (list Z) := [txt "_services"; txt "_dns-sd"; txt "_udp"; txt "local"].

(** What the specification of the responder grants a question. *)
Definition wanted (s : responder) (q : question) : Z :=
  let asks t := (q_type q =? DNS_TYPE_ANY) || (q_type q =? t) in
  if same_name (q_name q) svc_labels && asks DNS_TYPE_PTR then R_ALL
  else if same_name (q_name q) meta_labels && asks DNS_TYPE_PTR then R_ALL
  else if same_name (q_name q) (inst_labels s) then
    Z.lor (if asks DNS_TYPE_SRV then Z.lor R_SRV R_A else 0) (if asks DNS_TYPE_TXT then R_TXT else 0)
  else if same_name (q_name q) (host_labels s) && asks DNS_TYPE_A then R_A
  else 0.

Definition wanted_all (s : responder) (qs : list question) : Z :=
  fold_left (fun w q => Z.lor w (wanted s q)) qs 0.

Lemma plain_of_labels (ls : list (list Z)) : Forall label_ok ls -> plain ls.
Proof.
  intros H. eapply Forall_impl; [exact H|]. intros l (_ & Hl & Hd). split; [by destruct l; cbn in Hl; [lia|]|].
  apply Forall_forall. intros c Hc ->. done.
Qed.

Section Queries.
Context (s : responder) (Hs : service_ok s).

Lemma inst_name_eq : inst_name s = join_dots (inst_labels s).
Proof.
  destruct Hs as (_ & _ & Hl & _). unfold inst_name, snprintf. rewrite take_ge; [done|].
  rewrite length_app. change (length (txt "." ++ SLC_SERVICE_TYPE ++ txt ".local")) with 20%nat. lia.
Qed.

Lemma host_name_eq : host_name s = join_dots (host_labels s).
Proof.
  destruct Hs as (_ & _ & Hl & _). unfold host_name, snprintf. rewrite take_ge; [done|].
  rewrite length_app. change (length (txt ".local")) with 6%nat. lia.
Qed.

Lemma meta_labels_ok : Forall label_ok meta_labels.
Proof.
  repeat apply Forall_cons_2; [..|apply Forall_nil_2];
    (split; [apply txt_bytes|split; [cbn; lia|apply (bool_decide_unpack _); vm_compute; done]]).
Qed.

Lemma question_wanted (q : question) :
  plain (q_name q) -> question_records s (join_dots (q_name q)) (q_type q) = wanted s q.
Proof.
  intros Hq. unfold question_records, wanted. rewrite inst_name_eq, host_name_eq.
  change svc_name with (join_dots svc_labels). change meta_name with (join_dots meta_labels).
  rewrite !strcaseeq_labels; eauto using plain_of_labels, svc_labels_ok, meta_labels_ok, inst_labels_ok, host_labels_ok.
Qed.

Lemma cstr_app (a b : list Z) : Forall (fun c => 0 < c < 256) a -> cstr (a ++ 0 :: b) = a.
Proof.
  induction 1 as [|c a Hc _ IH]; [done|]. cbn [app cstr]. destruct (Z.eqb_spec c 0); [lia|]. by rewrite IH.
Qed.

Lemma join_dots_Forall (P : Z -> Prop) (ls : list (list Z)) :
  P 46 -> Forall (Forall P) ls -> Forall P (join_dots ls).
Proof.
  intros H46 H. destruct H as [|l ls Hl H]; [constructor|]. rewrite join_dots_cons.
  apply Forall_app. split; [done|]. induction H as [|k ls Hk _ IH]; [constructor|].
  change (dots (k :: ls)) with (46 :: k ++ dots ls). constructor; [done|]. by apply Forall_app.
Qed.

Lemma name_in_nonempty (pkt : list Z) (k o e : nat) (ls : list (list Z)) :
  name_in pkt k o ls e -> Forall (fun l => l <> []) ls.
Proof.
  induction 1 as [|k o l ls e Hl _ _ IH|]; [constructor| |done].
  constructor; [by destruct l; cbn in Hl; [lia|]|done].
Qed.

Lemma be16_read (b0 b1 x : Z) : b0 = u8 (Z.shiftr x 8) -> b1 = u8 x -> Z.lor (Z.shiftl b0 8) b1 = u16 x.
Proof.
  intros -> ->. pose proof (u8_byte x). unfold is_byte in *.
  rewrite lor_shiftl_add by (change (2 ^ 8) with 256; lia). by rewrite <- of_be_be16.
Qed.

Lemma query_loop_right (pkt stale junk : list Z) (pos e : nat) (qs : list question) (which : Z) :
  length junk = Z.to_nat 256 -> questions_at pkt pos qs e -> (e <= length pkt)%nat ->
  query_loop s (pkt ++ stale) (length pkt) junk (length qs) pos which =
  Some (fold_left (fun w q => Z.lor w (wanted s q)) qs which).
Proof.
  intros Hj H He. revert which. induction H as [o|o q qs k m e Hn Hk Hlen Hc Hty Ht Hqs IH]; intros which; [done|].
  cbn [length query_loop fold_left]. unfold dns_read_name.
  destruct (read_loop_right pkt stale k o m (q_name q) Hn 64 [] junk false o Hk) as (rest & E);
    [unfold more_text; cbn [length Nat.eqb]; lia|].
  cbn [app length] in E. rewrite E. cbn [mbind option_bind negb].
  assert (questions_le : (m + 4 <= length pkt)%nat).
  { destruct (text_at_load pkt stale _ _ Ht) as [_ Hl]; [done|]. exact Hl. }
  rewrite (proj2 (Nat.ltb_ge _ _)) by done.
  destruct (text_at_lookup pkt stale _ 0 _ _ Ht eq_refl) as [H0 _].
  destruct (text_at_lookup pkt stale _ 1 _ _ Ht eq_refl) as [H1 _].
  rewrite Nat.add_0_r in H0. rewrite Nat.add_1_r in H1. rewrite H0, H1. cbn [mbind option_bind].
  rewrite (be16_read _ _ (q_type q) eq_refl eq_refl).
  replace (u16 (u16 (q_type q))) with (q_type q)
    by (unfold u16; rewrite !Z.mod_small; [done|..]; rewrite ?Z.mod_small; lia).
  unfold more_text. cbn [Nat.eqb]. rewrite cstr_app.
  - rewrite question_wanted; [by apply IH|].
    pose proof (name_in_nonempty _ _ _ _ _ Hn) as Hne. unfold plain.
    rewrite Forall_forall in Hne, Hc |- *. intros l Hl. split; [by apply Hne|].
    eapply Forall_impl; [by apply Hc|]. by intros c [_ ?].
  - apply join_dots_Forall; [lia|]. eapply Forall_impl; [exact Hc|]. intros l Hl.
    eapply Forall_impl; [exact Hl|]. by intros c [? _].
Qed.

Lemma query_right (pkt stale junk : list Z) (qs : list question) :
  length junk = Z.to_nat 256 -> query pkt qs ->
  records_for_query s (pkt ++ stale) (length pkt) junk = Some (wanted_all s qs).
Proof.
  intros Hj (_ & _ & Hne & Hcnt & (id & flags & c1 & c2 & c3 & Hf & Ht) & e & Hq & He).
  unfold records_for_query. destruct (text_at_load pkt stale _ _ Ht) as [_ Hl]; [done|].
  change (length _) with 12%nat in Hl at 1. rewrite (proj2 (Nat.ltb_ge _ _)) by lia.
  destruct (text_at_lookup pkt stale _ 2 _ _ Ht eq_refl) as [H2 _].
  destruct (text_at_lookup pkt stale _ 4 _ _ Ht eq_refl) as [H4 _].
  destruct (text_at_lookup pkt stale _ 5 _ _ Ht eq_refl) as [H5 _].
  cbn [Nat.add] in H2, H4, H5. rewrite H2, H4, H5. cbn [mbind option_bind].
  assert ((Z.land (u8 (Z.shiftr flags 8)) 128 =? 0) = true) as Hq1.
  { assert (0 <= Z.shiftr flags 8 < 128) as Hb
      by (rewrite Z.shiftr_div_pow2 by lia; split; [apply Z.div_pos; lia|apply Z.div_lt_upper_bound; lia]).
    rewrite u8_small by (unfold is_byte; lia).
    pose proof (byte_forall (fun q => implb (q <? 128) (Z.land q 128 =? 0)) ltac:(vm_compute; reflexivity)
      (Z.shiftr flags 8) ltac:(unfold is_byte; lia)) as H. cbn beta in H.
    by rewrite (proj2 (Z.ltb_lt _ _)) in H by lia. }
  rewrite Hq1. cbn [negb]. rewrite (be16_read _ _ (Z.of_nat (length qs)) eq_refl eq_refl).
  assert (u16 (Z.of_nat (length qs)) = Z.of_nat (length qs)) as -> by (apply Z.mod_small; lia).
  destruct (Z.eqb_spec (Z.of_nat (length qs)) 0); [destruct qs; [done|cbn in *; lia]|].
  rewrite Nat2Z.id. by eapply query_loop_right.
Qed.
End Queries.

(** ** The thread *)
Lemma received_shape (msg rx : list Z) :
  length rx = RX_SIZE -> bytes_ok rx -> bytes_ok msg ->
  length (received msg rx) = RX_SIZE /\ bytes_ok (received msg rx).
Proof.
  intros Hl Hr Hm. unfold received. split.
  - rewrite length_app, length_take, length_drop. lia.
  - apply Forall_app. split; [by apply Forall_take|by apply Forall_drop].
Qed.

Definition recv_ok (r : recv) : Prop := match r with Received msg => bytes_ok msg | _ => True end.

Lemma thread_total (s : responder) (junk : list Z) (l : list recv) (rx : list Z) :
  service_ok s -> length rx = RX_SIZE -> bytes_ok rx -> (0 < length junk)%nat -> Forall recv_ok l ->
  exists sent, responder_thread s rx junk l = Some sent /\
    Forall (fun p => exists which, response p (service_records s MDNS_TTL which) /\ (length p <= 1024)%nat) sent.
Proof.
  intros Hs Hl Hr Hj H. revert rx Hl Hr. induction H as [|[msg| | |] l Hm _ IH]; intros rx Hl Hr;
    cbn [responder_thread]; try (by (eexists; split; [done|constructor])); try exact (IH rx Hl Hr).
  destruct (received_shape msg rx Hl Hr Hm) as [Hl2 Hr2]. unfold respond.
  destruct (records_for_query_total s (received msg rx) junk (Nat.min (length msg) RX_SIZE)) as [w ->];
    [lia|done|done|]. cbn [mbind option_bind].
  destruct (IH _ Hl2 Hr2) as (sent & E & Hsent).
  destruct (w =? 0); [cbn [mbind option_bind]; rewrite E; by exists sent|].
  destruct (send_records_core s MDNS_TTL Hs w) as (p & -> & Hp). cbn [mbind option_bind]. rewrite E.
  exists (p :: sent). split; [done|]. constructor; [by exists w|done].
Qed.

Lemma lor_range (a b : Z) : 0 <= a <= 15 -> 0 <= b <= 15 -> 0 <= Z.lor a b <= 15.
Proof.
  intros Ha Hb. split; [apply Z.lor_nonneg; lia|].
  destruct (Z.eq_dec (Z.lor a b) 0) as [->|]; [lia|].
  enough (Z.lor a b < 2 ^ 4) by lia. apply Z.log2_lt_pow2.
  - pose proof (proj2 (Z.lor_nonneg a b)). lia.
  - rewrite Z.log2_lor by lia. apply Z.max_lub_lt.
    + destruct (Z.eq_dec a 0) as [->|]; [done|]. apply Z.log2_lt_pow2; lia.
    + destruct (Z.eq_dec b 0) as [->|]; [done|]. apply Z.log2_lt_pow2; lia.
Qed.

Lemma lor_all (a : Z) : 0 <= a <= 15 -> Z.lor a 15 = 15.
Proof.
  intros Ha. pose proof (byte_forall (fun a => implb (a <? 16) (Z.lor a 15 =? 15)) ltac:(vm_compute; reflexivity)
    a ltac:(unfold is_byte; lia)) as H. cbn beta in H. rewrite (proj2 (Z.ltb_lt _ _)) in H by lia.
  by apply Z.eqb_eq.
Qed.

Lemma wanted_range (s : responder) (q : question) : 0 <= wanted s q <= 15.
Proof.
  unfold wanted. repeat case_match; try (vm_compute; split; discriminate).
Qed.

(** A question for the service type makes the whole set wanted. *)
Lemma wanted_all_service (s : responder) (qs : list question) (w : Z) :
  0 <= w <= 15 -> w = 15 \/ Exists (fun q => wanted s q = R_ALL) qs ->
  fold_left (fun w q => Z.lor w (wanted s q)) qs w = R_ALL.
Proof.
  revert w. induction qs as [|q qs IH]; intros w Hw H; cbn [fold_left].
  { destruct H as [->|H]; [done|inversion H]. }
  apply IH; [apply lor_range; [done|apply wanted_range]|].
  destruct H as [->|H]; [left; rewrite Z.lor_comm; by apply lor_all, wanted_range|].
  inversion H as [? ? E|]; subst; [left; rewrite E; by apply lor_all|by right].
Qed.

(** ** Correctness *)

(** C33: the name reader terminates and stays inside its arrays.  Whatever the
    datagram holds (a pointer to itself, a pointer past the end, a label longer
    than what is left), dns_read_name returns within its 64 turns, having read
    only octets of the datagram and stored only inside the caller's array; when
    it reports a name, the array holds a terminating NUL and the position has
    moved forward without passing the end of the datagram. *)
Theorem dns_read_name_total (buf out : list Z) (len pos : nat) :
  (len <= length buf)%nat -> bytes_ok buf -> (0 < length out)%nat ->
  exists ok pos' out', dns_read_name buf len pos out = Some (ok, pos', out') /\ length out' = length out /\
    (ok = true -> (pos < pos' <= len)%nat /\ exists name rest, out' = name ++ 0 :: rest).
Proof. apply read_name_total. Qed.

(** A pointer to itself behind a label: sixty-three jumps and then the end. *)
Lemma dns_read_name_total_witness :
  bytes_ok (replicate 12 0 ++ [1; 97; 192; 14]) /\
  exists ok pos' out', dns_read_name (replicate 12 0 ++ [1; 97; 192; 14]) 16 12 (replicate 8 7) = Some (ok, pos', out') /\
    (ok, pos', out') = (true, 16%nat, [97; 0; 7; 7; 7; 7; 7; 7]).
Proof.
  assert (bytes_ok (replicate 12 0 ++ [1; 97; 192; 14])) as Hb by (apply bytes_check; reflexivity).
  split; [exact Hb|].
  destruct (dns_read_name_total (replicate 12 0 ++ [1; 97; 192; 14]) (replicate 8 7) 16 12)
    as (ok & pos' & out' & E & _); [cbn; lia|exact Hb|cbn; lia|].
  exists ok, pos', out'. split; [exact E|].
  assert (dns_read_name (replicate 12 0 ++ [1; 97; 192; 14]) 16 12 (replicate 8 7) =
    Some (true, 16%nat, [97; 0; 7; 7; 7; 7; 7; 7])) as E' by (vm_compute; reflexivity).
  congruence.
Defined.

(** C32: the responder withstands any traffic.  Over any sequence of datagrams
    and receive errors, whatever their contents, the thread never leaves an
    array, and all it ever sends are responses that carry records of the
    service. *)
Theorem responder_total (s : responder) (rx junk : list Z) (l : list recv) :
  service_ok s -> length rx = RX_SIZE -> bytes_ok rx -> length junk = Z.to_nat 256 -> Forall recv_ok l ->
  exists sent, responder_thread s rx junk l = Some sent /\
    Forall (fun p => exists which, response p (service_records s MDNS_TTL which) /\ (length p <= 1024)%nat) sent.
Proof. intros Hs Hl Hr Hj H. apply thread_total; try done. lia. Qed.

(** A query for the service type in mixed case, with a compressed second question. *)
Definition sample_query : list Z :=
  [0; 7; 0; 0; 0; 2; 0; 0; 0; 0; 0; 0] ++
  [8] ++ txt "_SDR-slc" ++ [4] ++ txt "_tcp" ++ [5] ++ txt "Local" ++ [0; 0; 12; 0; 1] ++
  [192; 12; 0; 16; 0; 1].

Definition sample_questions : list question :=
  [mkQuestion [txt "_SDR-slc"; txt "_tcp"; txt "Local"] 12 1;
   mkQuestion [txt "_SDR-slc"; txt "_tcp"; txt "Local"] 16 1].

Lemma sample_query_bytes : bytes_ok sample_query.
Proof. apply bytes_check. vm_compute. reflexivity. Qed.

Lemma responder_total_witness :
  service_ok sample_responder /\
  exists sent, responder_thread sample_responder (replicate RX_SIZE 0) (replicate (Z.to_nat 256) 0)
    [Interrupted; Received (replicate 40 255); Received sample_query; Stopped] = Some sent /\
  length sent = 1%nat.
Proof.
  split; [exact sample_responder_ok|].
  destruct (responder_total sample_responder (replicate RX_SIZE 0) (replicate (Z.to_nat 256) 0)
    [Interrupted; Received (replicate 40 255); Received sample_query; Stopped]) as (sent & E & _);
    [exact sample_responder_ok|by rewrite length_replicate|apply bytes_check; vm_compute; reflexivity|
     by rewrite length_replicate| |].
  { apply Forall_cons_2; [exact I|]. apply Forall_cons_2; [apply bytes_check; vm_compute; reflexivity|].
    apply Forall_cons_2; [exact sample_query_bytes|]. apply Forall_cons_2; [exact I|apply Forall_nil_2]. }
  exists sent. split; [exact E|].
  assert (length <$> responder_thread sample_responder (replicate RX_SIZE 0) (replicate (Z.to_nat 256) 0)
    [Interrupted; Received (replicate 40 255); Received sample_query; Stopped] = Some 1%nat) as E'
    by (vm_compute; reflexivity).
  rewrite E in E'. by injection E'.
Defined.

(** C21: discovery.  When a well-formed query arrives, the thread answers it at
    once with one datagram whose records are exactly those the questions ask
    for, and with none when they ask for nothing of ours; names are compared
    without regard to case and may be compressed.  In particular a query that
    has, among its questions, one for pointers to _sdr-slc._tcp.local is
    answered with all four records of the service. *)
Theorem discovery (s : responder) (rx junk pkt : list Z) (qs : list question) (l : list recv) (rest : list (list Z)) :
  service_ok s -> length rx = RX_SIZE -> length junk = Z.to_nat 256 -> query pkt qs ->
  responder_thread s (received pkt rx) junk l = Some rest ->
  (wanted_all s qs = 0 -> responder_thread s rx junk (Received pkt :: l) = Some rest) /\
  (wanted_all s qs <> 0 -> exists p, responder_thread s rx junk (Received pkt :: l) = Some (p :: rest) /\
     response p (service_records s MDNS_TTL (wanted_all s qs))) /\
  (Exists (fun q => same_name (q_name q) svc_labels = true /\ (q_type q = DNS_TYPE_PTR \/ q_type q = DNS_TYPE_ANY)) qs ->
     service_records s MDNS_TTL (wanted_all s qs) =
     [ptr_record s MDNS_TTL; srv_record s MDNS_TTL; txt_record s MDNS_TTL; a_record s MDNS_TTL]).
Proof.
  intros Hs Hrx Hj Hq Hrest. pose proof Hq as (_ & Hlen & _).
  assert (respond s (received pkt rx) (Nat.min (length pkt) RX_SIZE) junk =
    if wanted_all s qs =? 0 then Some None else send_records s (wanted_all s qs) MDNS_TTL) as Hr.
  { unfold respond, received. rewrite (Nat.min_l _ _ Hlen), (take_ge pkt) by done.
    by rewrite (query_right s Hs pkt _ junk qs Hj Hq). }
  cbn [responder_thread]. rewrite Hr, Hrest. split; [|split].
  - by intros ->.
  - intros Hw. rewrite (proj2 (Z.eqb_neq _ _) Hw).
    destruct (send_records_core s MDNS_TTL Hs (wanted_all s qs)) as (p & -> & Hp & _). by exists p.
  - intros Hex. assert (wanted_all s qs = R_ALL) as ->; [|done].
    apply wanted_all_service; [lia|]. right. eapply Exists_impl; [exact Hex|]. cbn.
    intros q [Hn Ht]. unfold wanted. rewrite Hn. by destruct Ht as [-> | ->].
Qed.

Lemma text_at_check (pkt : list Z) (o : nat) (l : list Z) : slice o (o + length l) pkt = l -> text_at pkt o l.
Proof.
  unfold slice. replace (o + length l - o)%nat with (length l) by lia. intros E i c Hi.
  pose proof (lookup_lt_Some _ _ _ Hi). rewrite <- E in Hi. by rewrite lookup_take_lt, lookup_drop in Hi.
Qed.

Lemma sample_query_ok : query sample_query sample_questions.
Proof.
  split; [exact sample_query_bytes|]. split; [vm_compute; lia|]. split; [done|]. split; [vm_compute; done|].
  split; [exists 7, 0, 0, 0, 0; split; [lia|apply text_at_check; vm_compute; reflexivity]|].
  exists (length sample_query). split; [|lia].
  assert (name_in sample_query 4 12 [txt "_SDR-slc"; txt "_tcp"; txt "Local"] 33) as Hn.
  { repeat (apply ni_label; [cbn; lia|apply text_at_check; vm_compute; reflexivity|cbn [length txt Nat.add]]).
    apply (ni_root sample_query 32), text_at_check. vm_compute. reflexivity. }
  assert (Forall (fun l => Forall (fun c => 0 < c < 256 /\ c <> 46) l) [txt "_SDR-slc"; txt "_tcp"; txt "Local"]) as Hc
    by (repeat constructor; vm_compute; done).
  apply (qs_cons _ _ (mkQuestion [txt "_SDR-slc"; txt "_tcp"; txt "Local"] 12 1) _ 4 33);
    [exact Hn|lia|vm_compute; lia|exact Hc|by vm_compute|apply text_at_check; vm_compute; reflexivity|].
  apply (qs_cons _ _ (mkQuestion [txt "_SDR-slc"; txt "_tcp"; txt "Local"] 16 1) _ 5 39);
    [|lia|vm_compute; lia|exact Hc|by vm_compute|apply text_at_check; vm_compute; reflexivity|apply qs_nil].
  apply (ni_pointer sample_query 4 37 12 _ 33); [lia|apply text_at_check; vm_compute; reflexivity|lia|exact Hn].
Qed.

Lemma discovery_witness :
  query sample_query sample_questions /\
  exists p, responder_thread sample_responder (replicate RX_SIZE 0) (replicate (Z.to_nat 256) 0)
      [Received sample_query] = Some [p] /\
    response p (service_records sample_responder MDNS_TTL (wanted_all sample_responder sample_questions)).
Proof.
  split; [exact sample_query_ok|].
  destruct (discovery sample_responder (replicate RX_SIZE 0) (replicate (Z.to_nat 256) 0) sample_query sample_questions
    [] []) as (_ & H & _);
    [exact sample_responder_ok|by rewrite length_replicate|by rewrite length_replicate|exact sample_query_ok|reflexivity|].
  apply H. vm_compute. discriminate.
Defined.

(** ** An instance name with a dot

    dns_name splits at every dot, so the announced pointer leads to a name of
    five labels, and a question for the one-label instance name, as a browser
    asks it, matches only because names are compared as dotted texts. *)
Lemma instance_split :
  exists pkt, send_records (sample_responder <| s_instance := txt "SDR-1.5" |>) R_PTR MDNS_TTL = Some (Some pkt) /\
    name_at pkt 43 [txt "SDR-1"; txt "5"; txt "_sdr-slc"; txt "_tcp"; txt "local"] 72.
Proof.
  eexists. split; [vm_compute; reflexivity|].
  repeat (apply na_label; [cbn; lia|apply text_at_check; vm_compute; reflexivity|cbn [length txt Nat.add]]).
  apply (na_root _ 71), text_at_check. vm_compute. reflexivity.
Qed.
