(* ===== verification/Mdns.v ===== *)
(** * mDNS publication: common/mdns.c, mdns_builtin.c (start and stop) and
    mdns_avahi.c

    The life cycle of a publication.  The operating system's answers (interface
    addresses, socket, bind, thread creation) are the fields of [os_results];
    the Avahi library is a parameter: its answers are the fields of
    [avahi_results], and what is asked of it is a trace. *)
From S2P Require Import Prelude CLib Jsmn JsonText Dns DnsQuery.
#[local] Open Scope Z_scope.

(** mdns_txt_t *)
Record mdns_txt_t := mkTxt {
  x_name : list Z; x_proto : list Z; x_proto_ver : list Z; x_functions : list Z;
  x_hw : list Z; x_fw : list Z; x_minhz : Z; x_maxhz : Z
}.

(** The eight strings of the TXT record; both backends keep their own copy. *)
Definition txt_strings (t : mdns_txt_t) : list (list Z) :=
  snprintf 160 <$>
  [txt "name=" ++ x_name t; txt "proto=" ++ x_proto t; txt "proto_ver=" ++ x_proto_ver t;
   txt "functions=" ++ x_functions t; txt "hw=" ++ x_hw t; txt "fw=" ++ x_fw t;
   txt "minhz=" ++ fmt_u (x_minhz t); txt "maxhz=" ++ fmt_u (x_maxhz t)].

(** ** The built-in responder *)
Module Builtin.

(** One entry of getifaddrs. *)
Record ifaddr := mkIf {
  ifa_name : option (list Z);
  ifa_addr : option (Z * Z);       (* address family and, for AF_INET, s_addr *)
  ifa_loopback : bool
}.

Definition AF_INET : Z := 2.

Fixpoint find_ipv4 (iface : list Z) (l : list ifaddr) : option Z :=
  match l with
  | [] => None
  | i :: l' =>
      match ifa_addr i, ifa_name i with
      | Some (fam, ip), Some name =>
          if negb (fam =? AF_INET) then find_ipv4 iface l'
          else if negb (bool_decide (iface = [])) && negb (streq name iface) then find_ipv4 iface l'
          else if bool_decide (iface = []) && ifa_loopback i then find_ipv4 iface l'
          else Some ip
      | _, _ => find_ipv4 iface l'
      end
  end.

(** [None] as the list: getifaddrs failed. *)
Definition read_ipv4 (iface : list Z) (l : option (list ifaddr)) : option Z :=
  match l with
  | None => None
  | Some l => find_ipv4 iface l
  end.

Record os_results := mkOs {
  os_ifaddrs : option (list ifaddr);
  os_socket : Z;                   (* a descriptor, or -1 *)
  os_bind : bool;
  os_thread : bool                 (* pthread_create succeeds *)
}.

(** The module's variables, and whether s_tid is a thread not yet joined. *)
Record builtin := mkBuiltin { b_resp : responder; b_tid : bool }.

#[export] Instance eta_builtin : Eta builtin := fun r => mkBuiltin (b_resp r) (b_tid r).

Definition initial : builtin := mkBuiltin (mkResponder (-1) false false [] [] 0 0 []) false.

(** The return value, the variables, the datagrams sent. *)
Definition mdns_builtin_start (os : os_results) (iface instance : list Z) (port : Z) (t : mdns_txt_t)
    (b : builtin) : option (Z * builtin * list (list Z)) :=
  let r := (b_resp b) <| s_instance := snprintf 64 instance |> <| s_iface := snprintf 32 iface |>
             <| s_port := port |> <| s_txt := txt_strings t |> in
  match read_ipv4 (s_iface r) (os_ifaddrs os) with
  | None => Some (-1, b <| b_resp := r |>, [])
  | Some ip =>
      let r := r <| s_ip := ip |> <| s_sock := os_socket os |> in
      if os_socket os <? 0 then Some (-1, b <| b_resp := r |>, [])
      else if negb (os_bind os) then Some (-1, b <| b_resp := r <| s_sock := -1 |> |>, [])
      else
        sent ← send_records r R_ALL MDNS_TTL;
        let sent := match sent with Some p => [p] | None => [] end in
        let r := r <| s_published := true |> <| s_running := true |> in
        if os_thread os then Some (0, mkBuiltin r true, sent)
        else Some (-1, b <| b_resp := r <| s_running := false |> |>, sent)
  end.

(** [None] also where pthread_join has no thread to join. *)
Definition mdns_builtin_stop (b : builtin) : option (builtin * list (list Z)) :=
  let r := b_resp b in
  if s_sock r <? 0 then Some (b, [])
  else
    sent ← (if s_published r then send_records r R_ALL 0 else Some None);
    if negb (b_tid b) then None
    else Some (mkBuiltin (r <| s_running := false |> <| s_sock := -1 |> <| s_published := false |>) false,
               match sent with Some p => [p] | None => [] end).

Definition mdns_builtin_published (b : builtin) : bool := s_published (b_resp b).

(** ** Correctness *)

Definition fits (n : nat) (s : list Z) : Prop := bytes_ok s /\ (length s <= n)%nat.

(** What a caller passes: a one-label name of at most 63 octets, short texts. *)
Definition publication_ok (instance : list Z) (t : mdns_txt_t) : Prop :=
  bytes_ok instance /\ (0 < length instance <= 63)%nat /\ (46 ∉ instance) /\
  Forall (fits 63) [x_name t; x_proto t; x_proto_ver t; x_functions t; x_hw t; x_fw t] /\
  0 <= x_minhz t < 2 ^ 64 /\ 0 <= x_maxhz t < 2 ^ 64.

(** The strings are complete: none is cut at 159 octets. *)
Definition whole_strings (t : mdns_txt_t) : list (list Z) :=
  [txt "name=" ++ x_name t; txt "proto=" ++ x_proto t; txt "proto_ver=" ++ x_proto_ver t;
   txt "functions=" ++ x_functions t; txt "hw=" ++ x_hw t; txt "fw=" ++ x_fw t;
   txt "minhz=" ++ fmt_u (x_minhz t); txt "maxhz=" ++ fmt_u (x_maxhz t)].

Lemma fmt_u_bytes (n : Z) : 0 <= n -> bytes_ok (fmt_u n).
Proof.
  intros Hn. destruct (fmt_u_numeral n Hn) as [H _]. rewrite forallb_forall in H.
  apply Forall_forall. intros c Hc. apply list_elem_of_In, H in Hc.
  unfold numchar, isdigit, is_byte in *. lia.
Qed.

Section Publication.
Context (instance : list Z) (t : mdns_txt_t) (Ht : publication_ok instance t).

Lemma hz_text (n : Z) : 0 <= n < 2 ^ 64 -> bytes_ok (fmt_u n) /\ (length (fmt_u n) <= 20)%nat.
Proof.
  intros Hn. split; [apply fmt_u_bytes; lia|]. apply (fmt_u_length 19).
  change (10 ^ Z.of_nat 20) with 100000000000000000000. lia.
Qed.

Lemma whole_strings_ok : Forall (fits 73) (whole_strings t).
Proof.
  destruct Ht as (_ & _ & _ & H & Hmin & Hmax). unfold whole_strings.
  destruct (hz_text _ Hmin), (hz_text _ Hmax).
  rewrite !Forall_cons in H. unfold fits in H. destruct_and!.
  repeat (apply Forall_cons_2;
    [split; [apply Forall_app; split; [apply txt_bytes|assumption]|rewrite length_app; cbn [length txt]; lia]|]).
  apply Forall_nil_2.
Qed.

Lemma txt_strings_whole : txt_strings t = whole_strings t.
Proof.
  change (txt_strings t) with (snprintf 160 <$> whole_strings t).
  pose proof whole_strings_ok as H. induction H as [|s l [_ Hs] _ IH]; [done|].
  rewrite fmap_cons, IH. unfold snprintf. by rewrite take_ge by lia.
Qed.

Lemma strings_size : (length (strings (whole_strings t)) <= 500)%nat.
Proof.
  destruct Ht as (_ & _ & _ & H & Hmin & Hmax). destruct (hz_text _ Hmin), (hz_text _ Hmax).
  rewrite !Forall_cons in H. unfold fits in H. destruct_and!.
  unfold whole_strings. rewrite !strings_cons, !length_app. cbn [length]. rewrite !length_app.
  change (length (strings [])) with 0%nat. cbn [length txt]. lia.
Qed.

Definition started (iface : list Z) (port ip sock : Z) : responder :=
  mkResponder sock true true instance (snprintf 32 iface) ip port (whole_strings t).

Lemma started_ok (iface : list Z) (port ip sock : Z) : 0 <= sock -> service_ok (started iface port ip sock).
Proof.
  destruct Ht as (Hb & Hl & Hd & _). intros Hs. split; [done|]. split; [done|]. split; [done|]. split; [done|].
  split; [|exact strings_size]. eapply Forall_impl; [exact whole_strings_ok|].
  intros s [? ?]. split; [done|lia].
Qed.
End Publication.

(** C34: a publication from start to stop.  When the system grants an address,
    a socket, the port and a thread, mdns_builtin_start succeeds, holds the
    eight texts uncut, and has announced the service in a datagram that decodes
    to its four records; mdns_builtin_stop then withdraws it with a datagram
    that carries the same four records with time to live zero, closes the
    socket, and a second stop does nothing. *)
Theorem publication_lifecycle (os : os_results) (iface instance : list Z) (port ip : Z) (t : mdns_txt_t) :
  publication_ok instance t ->
  read_ipv4 (snprintf 32 iface) (os_ifaddrs os) = Some ip ->
  0 <= os_socket os -> os_bind os = true -> os_thread os = true ->
  exists b1 hello b2 bye,
    mdns_builtin_start os iface instance port t initial = Some (0, b1, [hello]) /\
    mdns_builtin_published b1 = true /\ s_txt (b_resp b1) = whole_strings t /\
    response hello (service_records (b_resp b1) MDNS_TTL R_ALL) /\
    mdns_builtin_stop b1 = Some (b2, [bye]) /\
    response bye (service_records (b_resp b1) 0 R_ALL) /\
    mdns_builtin_published b2 = false /\ s_sock (b_resp b2) = -1 /\ mdns_builtin_stop b2 = Some (b2, []).
Proof.
  intros Ht Hip Hs Hbd Hth. pose proof Ht as (_ & Hl & _).
  pose proof (started_ok instance t Ht iface port ip (os_socket os) Hs) as Hok.
  set (r := started instance t iface port ip (os_socket os)) in *.
  assert (snprintf 64 instance = instance) as Hi by (unfold snprintf; rewrite take_ge; [done|lia]).
  set (r0 := r <| s_published := false |> <| s_running := false |>).
  destruct (send_records_core r0 MDNS_TTL Hok R_ALL) as (hello & E1 & H1 & _).
  destruct (send_records_core r 0 Hok R_ALL) as (bye & E2 & H2 & _).
  exists (mkBuiltin r true), hello. do 2 eexists. split.
  { unfold mdns_builtin_start. cbn -[read_ipv4 snprintf txt_strings send_records]. rewrite Hip.
    rewrite (proj2 (Z.ltb_ge _ _) Hs), Hbd, Hth, Hi, (txt_strings_whole instance t Ht).
    change (send_records _ R_ALL MDNS_TTL) with (send_records r0 R_ALL MDNS_TTL).
    by rewrite E1. }
  split; [done|]. split; [done|]. split; [exact H1|].
  unfold mdns_builtin_stop. cbn [b_resp b_tid]. change (s_sock r) with (os_socket os).
  rewrite (proj2 (Z.ltb_ge _ _) Hs). change (s_published r) with true. rewrite E2. cbn.
  split; [done|]. by split.
Qed.

Definition sample_txt : mdns_txt_t :=
  mkTxt (txt "SLC-6107C0") (txt "sdr-slc") (txt "1.0") (txt "rx") (txt "RTL-SDR-v4") (txt "sdr-slc-rtld/1.0")
    500000 1766000000.

Definition sample_os : os_results :=
  mkOs (Some [mkIf (Some (txt "lo")) (Some (2, 16777343)) true; mkIf (Some (txt "eth0")) None false;
              mkIf (Some (txt "eth0")) (Some (2, 335653056)) false]) 7 true true.

Lemma sample_publication_ok : publication_ok (txt "SLC-6107C0") sample_txt.
Proof.
  split; [apply txt_bytes|]. split; [cbn; lia|].
  split; [apply (bool_decide_unpack _); vm_compute; done|]. split; [|cbn; lia].
  repeat (apply Forall_cons_2; [split; [apply txt_bytes|cbn; lia]|]). apply Forall_nil_2.
Qed.

Lemma publication_lifecycle_witness :
  publication_ok (txt "SLC-6107C0") sample_txt /\
  exists b1 hello, mdns_builtin_start sample_os [] (txt "SLC-6107C0") 4620 sample_txt initial = Some (0, b1, [hello]) /\
    response hello (service_records (b_resp b1) MDNS_TTL R_ALL).
Proof.
  split; [exact sample_publication_ok|].
  destruct (publication_lifecycle sample_os [] (txt "SLC-6107C0") 4620 335653056 sample_txt) as
    (b1 & hello & b2 & bye & E & _ & _ & H & _); [exact sample_publication_ok|reflexivity|vm_compute; discriminate|reflexivity|reflexivity|].
  exists b1, hello. exact (conj E H).
Defined.

(** C37: publication failures.  A start that fails before the announcement (no
    address, no socket, no bind) reports it, sends nothing, leaves nothing
    published and no socket behind, so that the stop at shutdown does nothing.
    A start that fails in pthread_create reports failure too, but the service
    has been announced and stays published, and the stop at shutdown then joins
    a thread that was never created, which is undefined. *)
Theorem publication_failures (os : os_results) (iface instance : list Z) (port : Z) (t : mdns_txt_t) :
  publication_ok instance t ->
  (read_ipv4 (snprintf 32 iface) (os_ifaddrs os) = None \/ os_socket os < 0 \/ os_bind os = false ->
   exists b, mdns_builtin_start os iface instance port t initial = Some (-1, b, []) /\
     mdns_builtin_published b = false /\ s_sock (b_resp b) < 0 /\ mdns_builtin_stop b = Some (b, [])) /\
  (forall ip, read_ipv4 (snprintf 32 iface) (os_ifaddrs os) = Some ip -> 0 <= os_socket os ->
   os_bind os = true -> os_thread os = false ->
   exists b p, mdns_builtin_start os iface instance port t initial = Some (-1, b, [p]) /\
     mdns_builtin_published b = true /\ mdns_builtin_stop b = None).
Proof.
  intros Ht. pose proof Ht as (_ & Hl & _).
  assert (snprintf 64 instance = instance) as Hi by (unfold snprintf; rewrite take_ge; [done|lia]).
  split.
  - intros H. unfold mdns_builtin_start. cbn -[read_ipv4 snprintf txt_strings send_records].
    destruct (read_ipv4 _ _) as [ip|]; [|by eexists].
    destruct (Z.ltb_spec (os_socket os) 0) as [Hs|Hs].
    { eexists. split; [done|]. split; [done|]. split; [done|].
      unfold mdns_builtin_stop. cbn. by rewrite (proj2 (Z.ltb_lt _ _) Hs). }
    destruct H as [H|[H|H]]; [done|lia|]. rewrite H. cbn. by eexists.
  - intros ip Hip Hs Hbd Hth.
    pose proof (started_ok instance t Ht iface port ip (os_socket os) Hs) as Hok.
    set (r := started instance t iface port ip (os_socket os)) in *.
    set (r0 := r <| s_published := false |> <| s_running := false |>).
    set (r1 := r <| s_running := false |>).
    destruct (send_records_core r0 MDNS_TTL Hok R_ALL) as (hello & E1 & _).
    destruct (send_records_core r1 0 Hok R_ALL) as (bye & E2 & _).
    exists (mkBuiltin r1 false), hello. split.
    { unfold mdns_builtin_start. cbn -[read_ipv4 snprintf txt_strings send_records]. rewrite Hip.
      rewrite (proj2 (Z.ltb_ge _ _) Hs), Hbd, Hth, Hi, (txt_strings_whole instance t Ht).
      change (send_records _ R_ALL MDNS_TTL) with (send_records r0 R_ALL MDNS_TTL).
      by rewrite E1. }
    split; [done|]. unfold mdns_builtin_stop. cbn [b_resp b_tid]. change (s_sock r1) with (os_socket os).
    rewrite (proj2 (Z.ltb_ge _ _) Hs). change (s_published r1) with true. rewrite E2. done.
Qed.

Lemma publication_failures_witness :
  exists b p, mdns_builtin_start (mkOs (os_ifaddrs sample_os) 7 true false) [] (txt "SLC-6107C0") 4620 sample_txt initial
    = Some (-1, b, [p]) /\ mdns_builtin_stop b = None.
Proof.
  destruct (publication_failures (mkOs (os_ifaddrs sample_os) 7 true false) [] (txt "SLC-6107C0") 4620 sample_txt)
    as [_ H]; [exact sample_publication_ok|].
  destruct (H 335653056) as (b & p & E & _ & Hs); [reflexivity|vm_compute; discriminate|reflexivity|reflexivity|].
  exists b, p. exact (conj E Hs).
Defined.
End Builtin.

(** ** The Avahi backend

    What is asked of the library, in order. *)
Module Avahi.
Inductive request :=
  | NewPoll | StartPoll | StopPoll | FreePoll
  | NewClient | FreeClient
  | NewGroup | ResetGroup | FreeGroup
  | AddService (instance type : list Z) (port : Z) (texts : list (list Z))
  | Commit.

Inductive group_state := ESTABLISHED | COLLISION | FAILURE | UNCOMMITED | REGISTERING.

Inductive client_state := S_RUNNING | C_FAILURE | S_COLLISION | S_REGISTERING | CONNECTING.

(** The library's answers to the calls of publish_service. *)
Record publish_results := mkPub {
  p_group_new : bool;              (* a group, not NULL *)
  p_is_empty : bool;
  p_add : Z;
  p_commit : Z
}.

(** The module's variables; the handles as "not NULL". *)
Record avahi := mkAvahi {
  g_poll : bool;
  g_client : bool;
  g_group : bool;
  g_published : bool;
  g_instance : list Z;
  g_port : Z;
  g_txt : list (list Z)
}.

#[export] Instance eta_avahi : Eta avahi := fun r =>
  mkAvahi (g_poll r) (g_client r) (g_group r) (g_published r) (g_instance r) (g_port r) (g_txt r).

Definition idle : avahi := mkAvahi false false false false [] 0 [].

Definition group_cb (state : group_state) (a : avahi) : avahi :=
  match state with
  | ESTABLISHED => a <| g_published := true |>
  | COLLISION | FAILURE => a <| g_published := false |>
  | UNCOMMITED | REGISTERING => a
  end.

(** The texts of AddService are in the order of the calls to
    avahi_string_list_add. *)
Definition publish_service (p : publish_results) (a : avahi) : avahi * list request :=
  if negb (g_group a) && negb (p_group_new p) then (a, [])
  else
    let fresh := if g_group a then [] else [NewGroup] in
    let a := a <| g_group := true |> in
    if negb (p_is_empty p) then (a, fresh)
    else
      let add := AddService (g_instance a) SLC_SERVICE_TYPE (g_port a) (g_txt a) in
      if p_add p <? 0 then (a, fresh ++ [add]) else (a, fresh ++ [add; Commit]).

Definition client_cb (state : client_state) (p : publish_results) (a : avahi) : avahi * list request :=
  match state with
  | S_RUNNING => publish_service p a
  | C_FAILURE => (a <| g_published := false |>, [])
  | S_COLLISION | S_REGISTERING =>
      (a <| g_published := false |>, if g_group a then [ResetGroup] else [])
  | CONNECTING => (a, [])
  end.

Fixpoint client_cbs (l : list (client_state * publish_results)) (a : avahi) : avahi * list request :=
  match l with
  | [] => (a, [])
  | (st, p) :: l' =>
      let '(a, q1) := client_cb st p a in
      let '(a, q2) := client_cbs l' a in (a, q1 ++ q2)
  end.

Definition mdns_avahi_stop (a : avahi) : avahi * list request :=
  (a <| g_group := false |> <| g_client := false |> <| g_poll := false |> <| g_published := false |>,
   (if g_poll a then [StopPoll] else []) ++ (if g_group a then [FreeGroup] else []) ++
   (if g_client a then [FreeClient] else []) ++ (if g_poll a then [FreePoll] else [])).

(** The library's answers to the calls of mdns_avahi_start; [st_during] are the
    callbacks made from inside avahi_client_new. *)
Record start_results := mkStart {
  st_poll_new : bool;
  st_client_new : bool;
  st_poll_start : bool;
  st_during : list (client_state * publish_results)
}.

Definition mdns_avahi_start (st : start_results) (instance : list Z) (port : Z) (t : mdns_txt_t) (a : avahi)
    : Z * avahi * list request :=
  let a := a <| g_instance := snprintf 64 instance |> <| g_port := port |> <| g_txt := txt_strings t |>
             <| g_poll := st_poll_new st |> in
  if negb (st_poll_new st) then (-1, a, [])
  else if negb (st_client_new st) then
    (-1, a <| g_client := false |> <| g_poll := false |>, [NewPoll; FreePoll])
  else
    let '(a, q) := client_cbs (st_during st) a in
    let a := a <| g_client := true |> in
    if st_poll_start st then (0, a, NewPoll :: NewClient :: q ++ [StartPoll])
    else
      let '(a, q2) := mdns_avahi_stop a in (-1, a, NewPoll :: NewClient :: q ++ StartPoll :: q2).

Definition mdns_avahi_published (a : avahi) : bool := g_published a.

(** ** Resources

    Which objects live; a request is refused when it makes an object anew while
    the old one lives, or uses or frees one that does not. *)
Record live := mkLive { l_poll : bool; l_client : bool; l_group : bool }.

Definition request_ok (l : live) (q : request) : option live :=
  match q, l with
  | NewPoll, mkLive false c g => Some (mkLive true c g)
  | (StartPoll | StopPoll), mkLive true _ _ => Some l
  | FreePoll, mkLive true false false => Some (mkLive false false false)
  | NewClient, mkLive true false g => Some (mkLive true true g)
  | FreeClient, mkLive p true false => Some (mkLive p false false)
  | NewGroup, mkLive p true false => Some (mkLive p true true)
  | (ResetGroup | AddService _ _ _ _ | Commit), mkLive _ _ true => Some l
  | FreeGroup, mkLive p c true => Some (mkLive p c false)
  | _, _ => None
  end.

Fixpoint requests_ok (l : live) (qs : list request) : option live :=
  match qs with
  | [] => Some l
  | q :: qs' => l ← request_ok l q; requests_ok l qs'
  end.

Definition handles (a : avahi) : live := mkLive (g_poll a) (g_client a) (g_group a).

(** The daemon's calls and the library's callbacks, as they can follow each
    other: callbacks come only while the client, or the group, exists. *)
Inductive step : avahi -> list request -> avahi -> Prop :=
  | s_start st instance port t a r a' q :
      handles a = mkLive false false false -> mdns_avahi_start st instance port t a = (r, a', q) -> step a q a'
  | s_client st p a a' q : g_client a = true -> client_cb st p a = (a', q) -> step a q a'
  | s_group st a : g_group a = true -> step a [] (group_cb st a)
  | s_stop a a' q : mdns_avahi_stop a = (a', q) -> step a q a'.

Inductive steps : avahi -> list request -> avahi -> Prop :=
  | ss_nil a : steps a [] a
  | ss_snoc a q1 b q2 c : steps a q1 b -> step b q2 c -> steps a (q1 ++ q2) c.

Lemma requests_app (qs ks : list request) (l : live) :
  requests_ok l (qs ++ ks) = (l' ← requests_ok l qs; requests_ok l' ks).
Proof. revert l. induction qs as [|q qs IH]; intros l; [done|]. cbn. destruct (request_ok l q); cbn; auto. Qed.

(** The client callback, with the client alive whatever g_client says yet. *)
Lemma client_cb_ok (st : client_state) (p : publish_results) (a a' : avahi) (q : list request) :
  client_cb st p a = (a', q) ->
  requests_ok (mkLive (g_poll a) true (g_group a)) q = Some (mkLive (g_poll a') true (g_group a')) /\
  g_poll a' = g_poll a /\ g_client a' = g_client a /\ (g_published a' = true -> g_group a = true -> g_group a' = true) /\
  (g_published a' = true -> g_published a = true).
Proof.
  destruct a as [[] c [] pub i po t]; destruct st; cbn; unfold publish_service; cbn;
    destruct (p_group_new p), (p_is_empty p), (p_add p <? 0); cbn; intros [= <- <-]; cbn; naive_solver.
Qed.

Lemma client_cbs_ok (l : list (client_state * publish_results)) (a a' : avahi) (q : list request) :
  client_cbs l a = (a', q) ->
  requests_ok (mkLive (g_poll a) true (g_group a)) q = Some (mkLive (g_poll a') true (g_group a')) /\
  g_poll a' = g_poll a /\ g_client a' = g_client a /\ (g_published a' = true -> g_published a = true).
Proof.
  revert a a' q. induction l as [|[st p] l IH]; intros a a' q; cbn [client_cbs].
  { intros [= <- <-]. auto. }
  destruct (client_cb st p a) as [a1 q1] eqn:E1, (client_cbs l a1) as [a2 q2] eqn:E2. intros [= <- <-].
  destruct (client_cb_ok _ _ _ _ _ E1) as (H1 & Hp1 & Hc1 & _ & Hb1).
  destruct (IH _ _ _ E2) as (H2 & Hp2 & Hc2 & Hb2).
  rewrite requests_app, H1. cbn [mbind option_bind]. split; [done|]. repeat split; try congruence. auto.
Qed.

Definition avahi_inv (a : avahi) : Prop :=
  g_client a = g_poll a /\ (g_group a = true -> g_client a = true) /\ (g_published a = true -> g_group a = true).

Lemma stop_ok (a a' : avahi) (q : list request) :
  avahi_inv a -> mdns_avahi_stop a = (a', q) ->
  requests_ok (handles a) q = Some (mkLive false false false) /\ handles a' = mkLive false false false /\
  g_published a' = false.
Proof.
  destruct a as [[] [] [] pub i po t]; intros (H1 & H2 & H3); cbn in *; try (specialize (H2 eq_refl); congruence);
    try congruence; intros [= <- <-]; cbn; auto.
Qed.

Lemma start_ok (st : start_results) (instance : list Z) (port r : Z) (t : mdns_txt_t) (a a' : avahi) (q : list request) :
  avahi_inv a -> handles a = mkLive false false false -> mdns_avahi_start st instance port t a = (r, a', q) ->
  requests_ok (mkLive false false false) q = Some (handles a') /\ avahi_inv a' /\
  (r <> 0 -> handles a' = mkLive false false false /\ g_published a' = false).
Proof.
  intros (_ & _ & Hpub) Hh. unfold handles in Hh. injection Hh as Hp Hc Hg.
  assert (g_published a = false) as Hb by (destruct (g_published a); [rewrite Hpub in Hg; done|done]).
  unfold mdns_avahi_start. set (a0 := a <| g_instance := _ |> <| g_port := _ |> <| g_txt := _ |> <| g_poll := _ |>).
  assert (g_client a0 = false /\ g_group a0 = false /\ g_published a0 = false /\ g_poll a0 = st_poll_new st) as (Ec & Eg & Eb & Ep)
    by (unfold a0; cbn; auto).
  destruct (st_poll_new st); cbn [negb].
  2:{ intros [= <- <- <-]. unfold handles, avahi_inv. rewrite Ec, Eg, Eb, Ep. cbn. naive_solver. }
  destruct (st_client_new st); cbn [negb].
  2:{ intros [= <- <- <-]. unfold handles, avahi_inv. cbn. rewrite Hg, Hb. naive_solver. }
  destruct (client_cbs (st_during st) a0) as [a1 q1] eqn:E1.
  destruct (client_cbs_ok _ _ _ _ E1) as (H1 & Hp1 & Hc1 & Hb1). rewrite Ep, Eg in H1. rewrite Ep in Hp1.
  assert (g_published a1 = false) as Hpub1 by (destruct (g_published a1); [rewrite Hb1 in Eb; done|done]).
  assert (avahi_inv (a1 <| g_client := true |>)) as Hi
    by (unfold avahi_inv; cbn; rewrite Hp1, Hpub1; naive_solver).
  destruct (st_poll_start st).
  - intros [= <- <- <-]. cbn [requests_ok request_ok mbind option_bind]. rewrite requests_app, H1.
    cbn. rewrite Hp1. unfold handles. cbn. by rewrite Hp1.
  - destruct (mdns_avahi_stop _) as [a2 q2] eqn:E2. intros [= <- <- <-].
    destruct (stop_ok _ _ _ Hi E2) as (H2 & Hh2 & Hb2).
    cbn [requests_ok request_ok mbind option_bind]. rewrite requests_app, H1.
    cbn [mbind option_bind requests_ok]. unfold handles in H2. cbn in H2. rewrite Hp1 in H2 |- *. cbn.
    rewrite H2, Hh2. split; [done|]. split; [|done].
    unfold handles in Hh2. injection Hh2 as E3 E4 E5. unfold avahi_inv. rewrite E3, E4, E5, Hb2. naive_solver.
Qed.

Lemma step_ok (a a' : avahi) (q : list request) :
  avahi_inv a -> step a q a' -> requests_ok (handles a) q = Some (handles a') /\ avahi_inv a'.
Proof.
  intros Hi H. destruct H as [st instance port t a r a' q Hh E|st p a a' q Hc E|st a Hg|a a' q E].
  - rewrite Hh. destruct (start_ok st instance port r t a a' q Hi Hh E) as (? & ? & _). done.
  - destruct (client_cb_ok _ _ _ _ _ E) as (H & Hp & Hc' & Hg & Hb). unfold handles. rewrite Hc, Hc', Hc.
    split; [done|]. destruct Hi as (I1 & I2 & I3). unfold avahi_inv. rewrite Hp, Hc'. naive_solver.
  - split; [by destruct st|]. destruct Hi as (I1 & I2 & I3). destruct st; unfold avahi_inv; cbn; naive_solver.
  - destruct (stop_ok a a' q Hi E) as (H & Hh & Hb). rewrite H, Hh. split; [done|].
    unfold handles in Hh. injection Hh as E3 E4 E5. unfold avahi_inv. rewrite E3, E4, E5, Hb. naive_solver.
Qed.

(** Over any run of the daemon and any callbacks of the library, every object is
    made once, used only while it lives and freed once; the service is reported
    as published only while its entry group exists; and a stop frees all that
    lives. *)
Lemma avahi_resources (a : avahi) (q : list request) :
  steps idle q a ->
  requests_ok (mkLive false false false) q = Some (handles a) /\ avahi_inv a /\
  forall a' q', mdns_avahi_stop a = (a', q') ->
    requests_ok (handles a) q' = Some (mkLive false false false) /\ handles a' = mkLive false false false.
Proof.
  intros H. assert (requests_ok (mkLive false false false) q = Some (handles a) /\ avahi_inv a) as [H1 H2].
  { remember idle as a0 eqn:E0. induction H as [a|a q1 b q2 c _ IH Hs]; subst.
    - split; [done|]. unfold avahi_inv. cbn. naive_solver.
    - destruct (IH eq_refl) as [H1 H2]. destruct (step_ok _ _ _ H2 Hs) as [H3 H4].
      rewrite requests_app, H1. done. }
  split; [done|]. split; [done|]. intros a' q' E. destruct (stop_ok a a' q' H2 E) as (? & ? & _). done.
Qed.
End Avahi.

(** ** The dispatcher: mdns.c

    [built]: the binary was built with the Avahi backend. *)
Module Dispatcher.
Import Builtin Avahi.

Record mdns := mkMdns {
  m_avahi : bool;                  (* s_avahi *)
  m_iface : list Z;                (* s_iface, char[32] *)
  m_builtin : builtin;
  m_lib : avahi
}.

#[export] Instance eta_mdns : Eta mdns := fun r => mkMdns (m_avahi r) (m_iface r) (m_builtin r) (m_lib r).

Definition mdns_initial : mdns := mkMdns false [] initial idle.

Definition mdns_set_backend (built : bool) (name : list Z) (iface : option (list Z)) (m : mdns) : Z * mdns :=
  let m := match iface with Some i => m <| m_iface := snprintf 32 i |> | None => m end in
  if streq name (txt "builtin") then (0, m <| m_avahi := false |>)
  else if streq name (txt "avahi") then
    if built then (0, m <| m_avahi := true |>) else (-1, m)
  else (-1, m).

(** Datagrams of the built-in responder, requests to the Avahi library. *)
Record sent := mkSent { t_datagrams : list (list Z); t_requests : list request }.

Definition mdns_start (built : bool) (os : os_results) (st : start_results) (instance : list Z) (port : Z)
    (t : mdns_txt_t) (m : mdns) : option (Z * mdns * sent) :=
  if built && m_avahi m then
    let '(r, a, q) := mdns_avahi_start st instance port t (m_lib m) in
    Some (r, m <| m_lib := a |>, mkSent [] q)
  else
    '(r, b, l) ← mdns_builtin_start os (m_iface m) instance port t (m_builtin m);
    Some (r, m <| m_builtin := b |>, mkSent l []).

Definition mdns_stop (built : bool) (m : mdns) : option (mdns * sent) :=
  if built && m_avahi m then
    let '(a, q) := mdns_avahi_stop (m_lib m) in Some (m <| m_lib := a |>, mkSent [] q)
  else
    '(b, l) ← mdns_builtin_stop (m_builtin m); Some (m <| m_builtin := b |>, mkSent l []).

Definition mdns_published (built : bool) (m : mdns) : bool :=
  if built && m_avahi m then mdns_avahi_published (m_lib m) else mdns_builtin_published (m_builtin m).

Definition mdns_backend (m : mdns) : list Z := if m_avahi m then txt "avahi" else txt "builtin".

Definition mdns_backends_available (built : bool) : list Z :=
  if built then txt "builtin, avahi" else txt "builtin".

(** The backend that was asked for is the one in use, unless the build lacks it; then
    nothing but the interface changes. *)
Lemma set_backend_backend (built : bool) (name : list Z) (iface : option (list Z)) (m : mdns) :
  let '(rc, m') := mdns_set_backend built name iface m in
  (rc = 0 -> mdns_backend m' = name) /\ (rc <> 0 -> mdns_backend m' = mdns_backend m) /\
  (rc = 0 <-> name = txt "builtin" \/ name = txt "avahi" /\ built = true).
Proof.
  unfold mdns_set_backend, mdns_backend, streq.
  assert (txt "avahi" <> txt "builtin") as Hne by (vm_compute; discriminate).
  destruct iface as [i|]; repeat case_bool_decide; try destruct built; cbn; subst; intuition congruence.
Qed.
End Dispatcher.
