(* ===== verification/Main.v ===== *)
(** * The program: main.c, with log.c and the listening socket of cp_server.c

    From the command line to the running daemon and to its end.  What the
    operating system answers is the record [Sys]; the receiver library is the
    class [Platform] of Rtl.v, the Avahi library the answers of Mdns.v.  A run
    is [main]: it ends with an exit status, or the daemon is up, in which case
    its state is a [Daemon], whose control plane is the initial state of
    Server.v. *)
From Stdlib Require Import SpecFloat.
From S2P Require Import Prelude CLib Jsmn JsonText JsonTok Sha256 Auth Config Rtl Vita World.
From S2P Require Import Session Commands RxCommands Server Quiet Invariants Safety Kept Limits.
From S2P Require Import Dns DnsQuery Mdns.
#[local] Open Scope Z_scope.

(** ** log.c *)
Module Log.
Definition LL_ERR : Z := 0.
Definition LL_WARN : Z := 1.
Definition LL_INFO : Z := 2.
Definition LL_DEBUG : Z := 3.
Definition LL_TRACE : Z := 4.

Record log := mkLog { g_level : Z; g_syslog : bool }.

Definition log_initial : log := mkLog LL_INFO false.

Definition log_init (level : Z) (to_syslog : bool) (_ : log) : log := mkLog level to_syslog.

Definition log_set_level (level : Z) (l : log) : log := mkLog level (g_syslog l).

Definition log_level (l : log) : Z := g_level l.

(** The priorities of syslog.h. *)
Definition to_syslog_prio (level : Z) : Z :=
  if level =? LL_ERR then 3 else if level =? LL_WARN then 4 else if level =? LL_INFO then 6 else 7.

(** Where a message goes; the text is cut to 2047 octets. *)
Inductive line := ToSyslog (prio : Z) (text : list Z) | ToStderr (text : list Z).

Definition lvl (level : Z) : option (list Z) :=
  nth_error [txt "ERR "; txt "WARN"; txt "INFO"; txt "DBG "; txt "TRC "]
    (Z.to_nat (if LL_TRACE <? level then LL_TRACE else level)).

(** [stamp]: the time as printed.  The level is never negative. *)
Definition log_msg (level : Z) (tag body stamp : list Z) (l : log) : option line :=
  if g_level l <? level then None
  else
    let body := snprintf (Z.to_nat 2048) body in
    if g_syslog l
    then Some (ToSyslog (to_syslog_prio level) (txt "[" ++ tag ++ txt "] " ++ body))
    else ToStderr <$> (n ← lvl level;
                       Some (stamp ++ txt " " ++ n ++ txt " [" ++ tag ++ txt "] " ++ body ++ [10])).
End Log.

(** ** getopt_long

    The options of main.c: their codes, and whether they take an argument.
    The result of a scan is the sequence of codes getopt_long returns, with
    optarg; 63 is the question mark of an error.  Operands are moved to the
    end, which is where the scan leaves them. *)
Definition LONG_OPTS : list (list Z * bool * Z) :=
  [(txt "port", true, 112); (txt "rx-port", true, 1001); (txt "iface", true, 105);
   (txt "name", true, 1002); (txt "rx-auth", true, 1003); (txt "keys-file", true, 1004);
   (txt "normal", false, 1010); (txt "direct-i", false, 1011); (txt "direct-q", false, 1012);
   (txt "bias-tee", false, 1013); (txt "bias-tee-persist", false, 1014); (txt "agc", false, 1015);
   (txt "ppm", true, 1016); (txt "gain", true, 1017); (txt "u8-zero-point", true, 1018);
   (txt "no-context-packets", false, 1020); (txt "no-mdns", false, 1021); (txt "mdns", true, 1023);
   (txt "syslog", false, 1022); (txt "verbose", false, 118); (txt "help", false, 104)].

Definition is_prefix (p s : list Z) : bool := bool_decide (take (length p) s = p).

(** An exact name, or the only option with that prefix. *)
Definition find_long (name : list Z) : option (bool * Z) :=
  match filter (fun o => o.1.1 = name) LONG_OPTS with
  | (_, a, v) :: _ => Some (a, v)
  | [] =>
      match filter (fun o => is_prefix name o.1.1 = true) LONG_OPTS with
      | [(_, a, v)] => Some (a, v)
      | _ => None
      end
  end.

Fixpoint split_eq (s : list Z) : list Z * option (list Z) :=
  match s with
  | [] => ([], None)
  | c :: s' => if c =? 61 then ([], Some s') else let '(n, v) := split_eq s' in (c :: n, v)
  end.

(** [p:i:vh] *)
Definition find_short (c : Z) : option bool :=
  if (c =? 112) || (c =? 105) then Some true
  else if (c =? 118) || (c =? 104) then Some false
  else None.

Definition ret_code : Type := Z * list Z.

(** A cluster of short options; the result says whether the next word of the
    command line is the argument of the last one. *)
Fixpoint short_opts (s : list Z) (next : option (list Z)) : list ret_code * bool :=
  match s with
  | [] => ([], false)
  | c :: s' =>
      match find_short c with
      | None => let '(l, b) := short_opts s' next in ((63, []) :: l, b)
      | Some false => let '(l, b) := short_opts s' next in ((c, []) :: l, b)
      | Some true =>
          match s' with
          | _ :: _ => ([(c, s')], false)
          | [] => match next with
                  | Some a => ([(c, a)], true)
                  | None => ([(63, [])], false)
                  end
          end
      end
  end.

Fixpoint getopt_long (argv : list (list Z)) (operands : list (list Z)) : list ret_code * list (list Z) :=
  match argv with
  | [] => ([], operands)
  | w :: argv' =>
      if streq w (txt "--") then ([], operands ++ argv')
      else if is_prefix (txt "--") w then
        let '(n, v) := split_eq (drop 2 w) in
        match find_long n, v, argv' with
        | None, _, _ => let '(l, o) := getopt_long argv' operands in ((63, []) :: l, o)
        | Some (false, code), None, _ => let '(l, o) := getopt_long argv' operands in ((code, []) :: l, o)
        | Some (false, _), Some _, _ => let '(l, o) := getopt_long argv' operands in ((63, []) :: l, o)
        | Some (true, code), Some a, _ => let '(l, o) := getopt_long argv' operands in ((code, a) :: l, o)
        | Some (true, code), None, a :: argv'' =>
            let '(l, o) := getopt_long argv'' operands in ((code, a) :: l, o)
        | Some (true, _), None, [] => ([(63, [])], operands)
        end
      else if is_prefix (txt "-") w && (1 <? length w)%nat then
        match argv' with
        | [] => let '(l1, _) := short_opts (drop 1 w) None in (l1, operands)
        | a :: argv'' =>
            let '(l1, used) := short_opts (drop 1 w) (Some a) in
            let '(l, o) := (if used : bool then getopt_long argv'' operands else getopt_long argv' operands) in
            (l1 ++ l, o)
        end
      else getopt_long argv' (operands ++ [w])
  end.

(** ** Command line *)
Record options := mkOptions {
  o_port : Z; o_rx_port : Z; o_iface : option (list Z); o_name : option (list Z);
  o_mode : sampling_mode_t; o_bias : bool; o_persist : bool; o_agc : bool; o_ctx : bool;
  o_no_mdns : bool; o_mdns : list Z; o_syslog : bool; o_rx_auth : bool; o_verbosity : Z;
  o_ppm : Z; o_gain : Z; o_keys_file : list Z; o_zero_point : double
}.

#[export] Instance eta_options : Eta options := fun r =>
  mkOptions (o_port r) (o_rx_port r) (o_iface r) (o_name r) (o_mode r) (o_bias r) (o_persist r)
    (o_agc r) (o_ctx r) (o_no_mdns r) (o_mdns r) (o_syslog r) (o_rx_auth r) (o_verbosity r)
    (o_ppm r) (o_gain r) (o_keys_file r) (o_zero_point r).

Definition CP_PORT_DEFAULT : Z := 4620.
Definition VITA_SRC_PORT_DEFAULT : Z := 4621.
Definition SLC_DEFAULT_KEYS_FILE : list Z := txt "/etc/sdr-slc/rtld.keys".
Definition RTL_U8_ZERO_POINT_DEFAULT : double := d_dec 1274 (-1).

Definition defaults : options :=
  mkOptions CP_PORT_DEFAULT VITA_SRC_PORT_DEFAULT None None SAMPLING_NORMAL false false false true
    false (txt "builtin") false false Log.LL_INFO 0 RTL_DEFAULT_GAIN
    (snprintf 512 SLC_DEFAULT_KEYS_FILE) RTL_U8_ZERO_POINT_DEFAULT.

(** The C library's atoi and atof. *)
Definition atoi (s : list Z) : Z := i32 (strtol s).
Definition atof (s : list Z) : double := strtod s.

(** A conversion of a double to int, undefined outside its range. *)
Definition to_int (d : double) : option Z :=
  z ← d_trunc d; if (- 2 ^ 31 <=? z) && (z <? 2 ^ 31) then Some z else None.

Inductive parsed := Go (o : options) | Return (status : Z) | Undefined.

(** The body of the switch. *)
Definition apply_opt (c : Z) (optarg : list Z) (o : options) : parsed :=
  if c =? 112 then Go (o <| o_port := u16 (atoi optarg) |>)
  else if c =? 1001 then Go (o <| o_rx_port := u16 (atoi optarg) |>)
  else if c =? 105 then Go (o <| o_iface := Some optarg |>)
  else if c =? 1002 then Go (o <| o_name := Some optarg |>)
  else if c =? 1003 then
    if streq optarg (txt "psk") || streq optarg (txt "psk-hmac-sha256") then Go (o <| o_rx_auth := true |>)
    else if streq optarg (txt "none") then Go (o <| o_rx_auth := false |>)
    else Return 2
  else if c =? 1004 then Go (o <| o_keys_file := snprintf 512 optarg |>)
  else if c =? 1010 then Go (o <| o_mode := SAMPLING_NORMAL |>)
  else if c =? 1011 then Go (o <| o_mode := SAMPLING_DIRECT_I |>)
  else if c =? 1012 then Go (o <| o_mode := SAMPLING_DIRECT_Q |>)
  else if c =? 1013 then Go (o <| o_bias := true |>)
  else if c =? 1014 then Go (o <| o_bias := true |> <| o_persist := true |>)
  else if c =? 1015 then Go (o <| o_agc := true |>)
  else if c =? 1016 then Go (o <| o_ppm := atoi optarg |>)
  else if c =? 1017 then
    match to_int (d_mul (atof optarg) (d_of_Z 10)) with
    | Some g => Go (o <| o_gain := g |>)
    | None => Undefined
    end
  else if c =? 1018 then
    let z := atof optarg in
    if d_lt z (d_of_Z 96) || d_lt (d_of_Z 160) z then Return 2 else Go (o <| o_zero_point := z |>)
  else if c =? 1020 then Go (o <| o_ctx := false |>)
  else if c =? 1021 then Go (o <| o_no_mdns := true |>)
  else if c =? 1023 then Go (o <| o_mdns := optarg |>)
  else if c =? 1022 then Go (o <| o_syslog := true |>)
  else if c =? 118 then Go (o <| o_verbosity := o_verbosity o + 1 |>)
  else if c =? 104 then Return 0
  else Return 2.

Fixpoint option_loop (l : list ret_code) (o : options) : parsed :=
  match l with
  | [] => Go o
  | (c, a) :: l' =>
      match apply_opt c a o with
      | Go o => option_loop l' o
      | r => r
      end
  end.

Definition parse_options (argv : list (list Z)) : parsed :=
  let '(codes, operands) := getopt_long argv [] in
  match option_loop codes defaults with
  | Go o => if (0 <? length operands)%nat then Return 2 else Go o
  | r => r
  end.

(** ** Instance name *)

(** One [%x] of fscanf. *)
Fixpoint scan_hexdigits (l : list Z) (acc : Z) (k : nat) : Z * nat * list Z :=
  match l with
  | c :: l' => match hex_digit c with
               | Some d => scan_hexdigits l' (acc * 16 + d) (S k)
               | None => (acc, k, l)
               end
  | [] => (acc, k, [])
  end.

Definition scan_x (l : list Z) : option (Z * list Z) :=
  let '(neg, l) := scan_sign (skip_space l) in
  let l := match l with
           | 48 :: x :: h :: _ =>
               if (lower x =? 120) && (if hex_digit h is Some _ then true else false) then drop 2 l else l
           | _ => l
           end in
  let '(v, k, rest) := scan_hexdigits l 0 0 in
  if (k =? 0)%nat then None
  else Some (u32 (if 2 ^ 64 <=? v then 2 ^ 64 - 1 else if neg : bool then - v else v), rest).

(** [%x:%x:...] with [n] numbers. *)
Fixpoint scan_mac (n : nat) (l : list Z) : option (list Z) :=
  match n with
  | O => Some []
  | S n' =>
      '(v, rest) ← scan_x l;
      match n' with
      | O => Some [v]
      | _ => match rest with
             | 58 :: rest' => vs ← scan_mac n' rest'; Some (v :: vs)
             | _ => None
             end
      end
  end.

(** [file]: the contents of the file at a path, if it opens. *)
Definition read_mac (file : list Z -> option (list Z)) (iface : list Z) : option (list Z) :=
  f ← file (snprintf 128 (txt "/sys/class/net/" ++ iface ++ txt "/address"));
  m ← scan_mac 6 f;
  if fold_left Z.lor m 0 =? 0 then None else Some (u8 <$> m).

Fixpoint first_mac (file : list Z -> option (list Z)) (l : list (list Z)) : option (list Z * list Z) :=
  match l with
  | [] => None
  | i :: l' => match read_mac file i with
               | Some m => Some (m, i)
               | None => first_mac file l'
               end
  end.

(** The hardware address and the interface it belongs to, which stays the
    caller's "?" where the source does not set it. *)
Definition pick_mac (file : list Z -> option (list Z)) (dir : option (list (list Z))) (iface : option (list Z))
    : option (list Z * list Z) :=
  let named := match iface with Some (_ :: _ as i) => Some i | _ => None end in
  match named with
  | Some i => m ← read_mac file i; Some (m, snprintf 32 i)
  | None =>
      match first_mac file [txt "eth0"; txt "end0"; txt "wlan0"] with
      | Some (m, i) => Some (m, snprintf 32 i)
      | None =>
          d ← dir;
          let names := filter (fun n => negb (hd 0 n =? 46) && negb (streq n (txt "lo")) = true) d in
          '(m, i) ← first_mac file names; Some (m, snprintf 32 (take 15 i))
      end
  end.

Definition hX (v : Z) : Z := if v <? 10 then 48 + v else 55 + v.

(** [%02X] of an octet. *)
Definition fmt_02X (b : Z) : list Z := [hX (b / 16); hX (b mod 16)].

(** ** The listening socket: cp_server_start and cp_server_stop *)
Record listener := mkListener { l_fd : Z; l_running : bool; l_thread : bool }.

Record listen_results := mkListen {
  li_socket : Z; li_bind : bool; li_listen : bool; li_thread : bool
}.

Definition listener_initial : listener := mkListener (-1) false false.

Definition cp_server_start (li : listen_results) (_ : listener) : Z * listener :=
  if li_socket li <? 0 then (-1, mkListener (li_socket li) false false)
  else if negb (li_bind li) then (-1, mkListener (li_socket li) false false)
  else if negb (li_listen li) then (-1, mkListener (li_socket li) false false)
  else if negb (li_thread li) then (-1, mkListener (li_socket li) false false)
  else (0, mkListener (li_socket li) true true).

(** [None]: there is no accept thread to join. *)
Definition cp_server_stop (l : listener) : option listener :=
  let fd := if 0 <=? l_fd l then -1 else l_fd l in
  if l_thread l then Some (mkListener fd false false) else None.

(** ** main *)
Record Sys (D : Type) := mkSys {
  sys_avahi_built : bool;                       (* SLC_MDNS_AVAHI *)
  sys_keygen : keygen_env;
  sys_keys : list Z -> fopen_t;                 (* fopen of the key file *)
  sys_file : list Z -> option (list Z);         (* files of /sys/class/net *)
  sys_netdir : option (list (list Z));          (* names in /sys/class/net *)
  sys_pid : Z;
  sys_device : D;
  sys_vita_sock : bool;
  sys_listen : listen_results;
  sys_mdns : Builtin.os_results;
  sys_avahi : Avahi.start_results
}.
Arguments mkSys {D}. Arguments sys_avahi_built {D}. Arguments sys_keygen {D}. Arguments sys_keys {D}.
Arguments sys_file {D}. Arguments sys_netdir {D}. Arguments sys_pid {D}. Arguments sys_device {D}.
Arguments sys_vita_sock {D}. Arguments sys_listen {D}. Arguments sys_mdns {D}. Arguments sys_avahi {D}.

(** The running daemon. *)
Record Daemon (D : Type) := mkDaemon {
  dm_opts : options;
  dm_log : Log.log;
  dm_world : World D;
  dm_listener : listener;
  dm_mdns : Dispatcher.mdns;
  dm_sent : Dispatcher.sent
}.
Arguments mkDaemon {D}. Arguments dm_opts {D}. Arguments dm_log {D}. Arguments dm_world {D}.
Arguments dm_listener {D}. Arguments dm_mdns {D}. Arguments dm_sent {D}.

#[export] Instance eta_daemon (D : Type) : Eta (Daemon D) := fun r =>
  mkDaemon (dm_opts r) (dm_log r) (dm_world r) (dm_listener r) (dm_mdns r) (dm_sent r).

Inductive outcome (D : Type) := Exit (status : Z) | Up (d : Daemon D).
Arguments Exit {D}. Arguments Up {D}.

Definition no_blanks (s : list Z) : list Z := (fun c => if (c =? 32) || (c =? 9) then 45 else c) <$> s.

Section Main.
Context {D : Type} {P : Platform D} (sys : Sys D).

(** g_device_name and the interface for the responder. *)
Definition instance_name (o : options) : list Z * list Z :=
  let given := match o_iface o with Some i => snprintf 32 i | None => [] end in
  match o_name o with
  | Some (c :: n) => (no_blanks (snprintf 64 (c :: n)), given)
  | _ =>
      match pick_mac (sys_file sys) (sys_netdir sys) (o_iface o) with
      | Some (m, used) =>
          (snprintf 64 (txt "SLC-" ++ fmt_02X (nth 3 m 0) ++ fmt_02X (nth 4 m 0) ++ fmt_02X (nth 5 m 0)),
           snprintf 32 used)
      | None =>
          let pid := Z.land (u32 (sys_pid sys)) 0xFFFFFF in
          (snprintf 64 (txt "SLC-" ++ fmt_02X (u8 (Z.shiftr pid 16)) ++ fmt_02X (u8 (Z.shiftr pid 8))
                        ++ fmt_02X (u8 pid)), given)
      end
  end.

(** The keys; [None]: the daemon does not start. *)
Definition load_keys (o : options) : option auth_keyring_t :=
  if o_rx_auth o then
    let '(nk, kr) := auth_keyring_load (o_keys_file o) (sys_keys sys (o_keys_file o)) in
    if nk <? 0 then None else Some kr
  else Some (mkRing [] [] false).

(** The receiver as configured: [inl] is an exit status, [None] undefined. *)
Definition open_receiver (o : options) : option (Z + Rtl D) :=
  let '(rc, r) := rtl_bridge_init (o_mode o) (if o_bias o then RTL_BIAS_TEE_VOLTS else d_zero) (o_agc o)
                    (o_ppm o) (sys_device sys) rtl_initial in
  if rc <? 0 then Some (inl 1)
  else
    r ← (if negb (o_agc o) && negb (o_gain o =? RTL_DEFAULT_GAIN)
         then '(_, r) ← rtl_set_gain (tenth (o_gain o)) r; Some r
         else Some r);
    Some (inr (rtl_set_overload_handler (r <| g_bias_tee_persist := o_persist o |>))).

Definition main_txt (name : list Z) (r : Rtl D) : mdns_txt_t :=
  mkTxt name (txt "sdr-slc") PROTO_VERSION (txt "rx") HW_REVISION SLC_FW_STRING (rtl_freq_min r) (rtl_freq_max r).

(** Publication; its failure is only logged. *)
Definition publish (o : options) (name iface : list Z) (r : Rtl D) (m : Dispatcher.mdns)
    : option (Dispatcher.mdns * Dispatcher.sent) :=
  if o_no_mdns o then Some (m, Dispatcher.mkSent [] [])
  else
    let '(_, m) := Dispatcher.mdns_set_backend (sys_avahi_built sys) (o_mdns o) (Some iface) m in
    '(_, m, t) ← Dispatcher.mdns_start (sys_avahi_built sys) (sys_mdns sys) (sys_avahi sys) name (o_port o)
                   (main_txt name r) m;
    Some (m, t).

(** Everything after the command line has been read. *)
Definition start_daemon (o : options) : option (outcome D) :=
  let lg := Log.log_init (o_verbosity o) (o_syslog o) Log.log_initial in
  let '(rc, m) := if o_no_mdns o then (0, Dispatcher.mdns_initial)
                  else Dispatcher.mdns_set_backend (sys_avahi_built sys) (o_mdns o) None Dispatcher.mdns_initial in
  if negb (rc =? 0) then Some (Exit 2)
  else
    match load_keys o with
    | None => Some (Exit 1)
    | Some kr =>
        let '(name, iface) := instance_name o in
        rx ← open_receiver o;
        match rx with
        | inl status => Some (Exit status)
        | inr r =>
            let v := vita_set_context_packets (o_ctx o) vita_initial in
            let '(rc, v) := vita_tx_init (sys_vita_sock sys) v in
            if rc <? 0 then Some (Exit 1)
            else
              let '(_, v) := vita_tx_start v in
              let '(rc, l) := cp_server_start (sys_listen sys) listener_initial in
              if rc <? 0 then Some (Exit 1)
              else
                '(m, t) ← publish o name iface r m;
                let c := mkConf (o_rx_auth o) kr name (o_rx_port o) (o_zero_point o) in
                Some (Up (mkDaemon o lg
                  (mkWorld c (replicate MAX_SESSIONS session_zero) 0 None None d_zero r v []) l m t))
        end
    end.

(** [argv] without the program's name. *)
Definition main (argv : list (list Z)) : option (outcome D) :=
  match argv with
  | w :: rest =>
      if streq w (txt "keygen")
      then Some (Exit (auth_keygen_main rest SLC_DEFAULT_KEYS_FILE (sys_keygen sys)).1)
      else
        match parse_options argv with
        | Go o => start_daemon o
        | Return s => Some (Exit s)
        | Undefined => None
        end
  | [] => start_daemon defaults
  end.

(** The end of main, from whatever state the daemon is in by then. *)
Definition shutdown (d : Daemon D) : option (Daemon D) :=
  '(m, t) ← (if o_no_mdns (dm_opts d) then Some (dm_mdns d, Dispatcher.mkSent [] [])
             else Dispatcher.mdns_stop (sys_avahi_built sys) (dm_mdns d));
  l ← cp_server_stop (dm_listener d);
  let w := dm_world d in
  let v := vita_tx_stop (w_vita w) in
  let r := rtl_bridge_force_stop (w_rtl w) in
  let v := vita_tx_destroy v in
  let r := rtl_bridge_destroy r in
  Some (d <| dm_world := w <| w_rtl := r |> <| w_vita := v |> |> <| dm_listener := l |> <| dm_mdns := m |>
          <| dm_sent := t |>).
End Main.

(** ** Start-up *)
Section Startup.
Context {D : Type} {P : Platform D} {T : PlatformLaws D} (sys : Sys D).

Lemma set_gain_keeps (g : double) (r r' : Rtl D) (x : double) :
  rtl_set_gain g r = Some (x, r') ->
  s_stream_count r' = s_stream_count r /\ rtl_running r' = rtl_running r /\ g_freq_hz r' = g_freq_hz r /\
  g_rate_requested_sps r' = g_rate_requested_sps r /\ g_sampling_mode r' = g_sampling_mode r.
Proof.
  unfold rtl_set_gain. destruct (s_dev r) as [d|]; [|by intros [= _ <-]].
  destruct (d_round_int _); [|done]. repeat destruct (rtlsdr_set_tuner_gain_mode _ _), (rtlsdr_set_tuner_gain _ _).
  by intros [= _ <-].
Qed.

Lemma init_ready (mode : sampling_mode_t) (volts : double) (agc : bool) (ppm : Z) (d : D) (r : Rtl D) :
  rtl_bridge_init mode volts agc ppm d rtl_initial = (0, r) -> bridge_ok r /\ in_limits r.
Proof.
  unfold rtl_bridge_init. destruct (rtlsdr_open d) as [rc d0]. destruct (rc <? 0); [done|].
  destruct (rtlsdr_set_direct_sampling _ _) as [? d1], (rtlsdr_set_sample_rate _ _) as [? d2].
  pose proof (tunes d2 RTL_DEFAULT_FREQ ltac:(vm_compute; split; discriminate)) as Hf.
  destruct (rtlsdr_set_center_freq d2 RTL_DEFAULT_FREQ) as [? d3]. cbn [snd] in Hf. rewrite Hf.
  repeat match goal with |- context [let '(_, _) := ?x in _] => destruct x end.
  intros [= <-]. split; [by split|]. split; destruct mode; vm_compute; reflexivity.
Qed.

Lemma open_receiver_ready (o : options) (r : Rtl D) :
  open_receiver sys o = Some (inr r) -> bridge_ok r /\ in_limits r.
Proof.
  unfold open_receiver. destruct (rtl_bridge_init _ _ _ _ _ _) as [rc r0] eqn:E.
  destruct (Z.ltb_spec rc 0); [done|].
  assert (rc = 0) as ->.
  { revert E. unfold rtl_bridge_init. destruct (rtlsdr_open _) as [c ?]. destruct (c <? 0); [intros [= <- _]; lia|].
    repeat match goal with |- context [let '(_, _) := ?x in _] => destruct x end. by intros [= <- _]. }
  apply init_ready in E as [[Hb1 Hb2] [Hl1 Hl2]].
  destruct (negb (o_agc o) && negb (o_gain o =? RTL_DEFAULT_GAIN)); cbn [mbind option_bind].
  - destruct (rtl_set_gain _ r0) as [[x r1]|] eqn:Eg; [|done]. cbn. intros [= <-].
    destruct (set_gain_keeps _ _ _ _ Eg) as (E1 & E2 & E3 & E4 & E5).
    unfold bridge_ok, in_limits, freq_ok, rate_ok, rtl_freq_min, rtl_freq_max, rtl_rate_list in *. cbn.
    by rewrite E1, E2, E3, E4, E5.
  - intros [= <-]. done.
Qed.

(** What a daemon that is up has gone through. *)
Lemma start_daemon_up (o : options) (d : Daemon D) :
  start_daemon sys o = Some (Up d) ->
  exists kr r m0, let '(name, iface) := instance_name sys o in
    load_keys sys o = Some kr /\ open_receiver sys o = Some (inr r) /\ dm_opts d = o /\
    dm_world d = world_initial (mkConf (o_rx_auth o) kr name (o_rx_port o) (o_zero_point o)) r (o_ctx o) /\
    dm_listener d = mkListener (li_socket (sys_listen sys)) true true /\ 0 <= li_socket (sys_listen sys) /\
    Dispatcher.m_builtin m0 = Builtin.initial /\ Dispatcher.m_lib m0 = Avahi.idle /\
    publish sys o name iface r m0 = Some (dm_mdns d, dm_sent d).
Proof.
  unfold start_daemon. destruct (if o_no_mdns o then _ else _) as [rc m0] eqn:Em.
  assert (Dispatcher.m_builtin m0 = Builtin.initial /\ Dispatcher.m_lib m0 = Avahi.idle) as [Hm1 Hm2].
  { destruct (o_no_mdns o); [by injection Em as _ <-|]. revert Em. unfold Dispatcher.mdns_set_backend.
    repeat case_match; by intros [= _ <-]. }
  destruct (negb (rc =? 0)); [done|]. destruct (load_keys sys o) as [kr|]; [|done].
  destruct (instance_name sys o) as [name iface]. destruct (open_receiver sys o) as [[|r]|]; try done.
  cbn [mbind option_bind]. unfold vita_tx_init, cp_server_start.
  destruct (sys_vita_sock sys); [|done]. cbn [vita_tx_start].
  destruct (Z.ltb_spec (li_socket (sys_listen sys)) 0); [done|].
  destruct (li_bind (sys_listen sys)), (li_listen (sys_listen sys)), (li_thread (sys_listen sys)); try done.
  cbn -[publish]. destruct (publish sys o name iface r m0) as [[m t]|] eqn:Ep; [|done]. cbn.
  intros [= <-]. exists kr, r, m0. by rewrite Ep.
Qed.

Lemma main_up (argv : list (list Z)) (d : Daemon D) :
  main sys argv = Some (Up d) ->
  exists o, start_daemon sys o = Some (Up d) /\ (argv = [] /\ o = defaults \/ parse_options argv = Go o).
Proof.
  unfold main. destruct argv as [|w rest]; [eauto|]. destruct (streq w _); [done|].
  destruct (parse_options (w :: rest)) as [o| |] eqn:E; [eauto|done|done].
Qed.

(** *** The end *)
Lemma force_stop_idle (r : Rtl D) : rtl_running (rtl_bridge_force_stop r) = false.
Proof. unfold rtl_bridge_force_stop. cbn. by destruct (rtl_running r) eqn:E. Qed.

(** The part of the environment a clean end depends on: publication is off, or
    the responder's thread started and the name is one label. *)
Definition stoppable (o : options) : Prop :=
  o_no_mdns o = true \/
  (Builtin.os_thread (sys_mdns sys) = true /\ let name := (instance_name sys o).1 in
   bytes_ok name /\ (0 < length name <= 63)%nat /\ (46 ∉ name)).

Lemma main_txt_ok (name : list Z) (r : Rtl D) :
  bytes_ok name -> (0 < length name <= 63)%nat -> (46 ∉ name) ->
  Builtin.publication_ok name (main_txt name r).
Proof.
  intros Hb Hl Hd. split; [done|]. split; [done|]. split; [done|]. split.
  - apply Forall_cons_2; [by split; [|cbn; lia]|].
    repeat (apply Forall_cons_2; [split; [apply txt_bytes|cbn; lia]|]). apply Forall_nil_2.
  - cbn. unfold rtl_freq_min, rtl_freq_max. split; case_decide; vm_compute; split; discriminate || reflexivity.
Qed.

(** Stopping what the built-in responder's start left behind. *)
Lemma builtin_stops (os : Builtin.os_results) (iface name : list Z) (port rc : Z) (t : mdns_txt_t)
    (b : Builtin.builtin) (sent : list (list Z)) :
  Builtin.publication_ok name t -> Builtin.os_thread os = true ->
  Builtin.mdns_builtin_start os iface name port t Builtin.initial = Some (rc, b, sent) ->
  exists b' l, Builtin.mdns_builtin_stop b = Some (b', l) /\ Builtin.mdns_builtin_published b' = false.
Proof.
  intros Ht Hth E. pose proof Ht as (_ & Hl & _).
  assert (snprintf 64 name = name) as Hi by (unfold snprintf; rewrite take_ge; [done|lia]).
  revert E. unfold Builtin.mdns_builtin_start. cbn -[Builtin.read_ipv4 snprintf txt_strings send_records].
  rewrite Hi, (Builtin.txt_strings_whole name t Ht).
  destruct (Builtin.read_ipv4 _ _) as [ip|]; [|intros [= _ <- _]; by do 2 eexists].
  destruct (Z.ltb_spec (Builtin.os_socket os) 0) as [Hs|Hs].
  { intros [= _ <- _]. unfold Builtin.mdns_builtin_stop. cbn. rewrite (proj2 (Z.ltb_lt _ _) Hs).
    by do 2 eexists. }
  destruct (Builtin.os_bind os); cbn [negb]; [|intros [= _ <- _]; by do 2 eexists].
  destruct (send_records _ R_ALL MDNS_TTL) as [s|]; [|done]. cbn [mbind option_bind]. rewrite Hth.
  intros [= _ <- _]. unfold Builtin.mdns_builtin_stop. cbn [Builtin.b_resp Builtin.b_tid].
  pose proof (Builtin.started_ok name t Ht iface port ip (Builtin.os_socket os) Hs) as Hok.
  destruct (send_records_core _ 0 Hok R_ALL) as (bye & E2 & _). cbn -[send_records snprintf].
  rewrite (proj2 (Z.ltb_ge _ _) Hs).
  match goal with |- context [send_records ?r R_ALL 0] =>
    change (send_records r R_ALL 0) with
      (send_records (Builtin.started name t iface port ip (Builtin.os_socket os)) R_ALL 0) end.
  rewrite E2. cbn. by do 2 eexists.
Qed.

Lemma publish_stops (o : options) (name iface : list Z) (r : Rtl D) (m0 m : Dispatcher.mdns) (t : Dispatcher.sent) :
  Dispatcher.m_builtin m0 = Builtin.initial -> o_no_mdns o = false ->
  Builtin.os_thread (sys_mdns sys) = true -> Builtin.publication_ok name (main_txt name r) ->
  publish sys o name iface r m0 = Some (m, t) ->
  exists m' t', Dispatcher.mdns_stop (sys_avahi_built sys) m = Some (m', t').
Proof.
  intros Hm Hn Hth Hp. unfold publish. rewrite Hn.
  destruct (Dispatcher.mdns_set_backend _ _ _ m0) as [rc m1] eqn:E1.
  assert (Dispatcher.m_builtin m1 = Builtin.initial) as Hm1.
  { revert E1. unfold Dispatcher.mdns_set_backend. repeat case_match; by intros [= _ <-]. }
  unfold Dispatcher.mdns_start. destruct (sys_avahi_built sys && Dispatcher.m_avahi m1) eqn:Eb.
  - destruct (Avahi.mdns_avahi_start _ _ _ _ _) as [[r1 a] q]. cbn. intros [= <- _].
    unfold Dispatcher.mdns_stop. cbn. rewrite Eb. by do 2 eexists.
  - destruct (Builtin.mdns_builtin_start _ _ _ _ _ _) as [[[r1 b] l]|] eqn:Es; [|done]. cbn. intros [= <- _].
    rewrite Hm1 in Es. destruct (builtin_stops _ _ _ _ _ _ _ _ Hp Hth Es) as (b' & l' & E2 & _).
    unfold Dispatcher.mdns_stop. cbn. rewrite Eb, E2. cbn. by do 2 eexists.
Qed.
End Startup.

(** ** Correctness *)


Definition sample_sys : Sys Stub :=
  mkSys false (mkKeygenEnv (fun _ => FNoEnt) [] (fun _ => true) true 0) (fun _ => FOpen (txt "op s3cret" ++ [10]))
    (fun p => if streq p (txt "/sys/class/net/wlan0/address") then Some (txt "b8:27:eb:61:07:c0" ++ [10]) else None)
    None 4711 stub_initial true (mkListen 4 true true true) Builtin.sample_os
    (Avahi.mkStart false false false []).

Definition sample_argv : list (list Z) :=
  [txt "--direct-q"; txt "-vp5000"; txt "--gain"; txt "29.7"; txt "--rx-auth=psk"; txt "--no-context"].

Lemma named {A : Type} (x : A) : exists y, x = y.
Proof. by exists x. Qed.


(** ** Types of the configuration *)
Definition options_typed (o : options) : Prop :=
  0 <= o_port o < 2 ^ 16 /\ 0 <= o_rx_port o < 2 ^ 16 /\ - 2 ^ 31 <= o_ppm o < 2 ^ 31 /\
  - 2 ^ 31 <= o_gain o < 2 ^ 31 /\ Log.LL_INFO <= o_verbosity o /\ (length (o_keys_file o) <= 511)%nat /\
  d_lt (o_zero_point o) (d_of_Z 96) = false /\ d_lt (d_of_Z 160) (o_zero_point o) = false.

Lemma u16_range (x : Z) : 0 <= u16 x < 2 ^ 16.
Proof. apply Z.mod_pos_bound. lia. Qed.

Lemma i32_range (x : Z) : - 2 ^ 31 <= i32 x < 2 ^ 31.
Proof. unfold i32. pose proof (Z.mod_pos_bound (x + 2 ^ 31) (2 ^ 32) ltac:(lia)). lia. Qed.

Lemma to_int_range (d : double) (z : Z) : to_int d = Some z -> - 2 ^ 31 <= z < 2 ^ 31.
Proof.
  unfold to_int. destruct (d_trunc d) as [x|]; [|done]. cbn. destruct (_ && _) eqn:E; [|done].
  intros [= <-]. zbool. lia.
Qed.

Lemma snprintf_length (n : nat) (s : list Z) : (length (snprintf n s) <= n - 1)%nat.
Proof. unfold snprintf. rewrite length_take. lia. Qed.

Lemma apply_opt_typed (c : Z) (a : list Z) (o o' : options) :
  options_typed o -> apply_opt c a o = Go o' -> options_typed o'.
Proof.
  intros H. unfold apply_opt.
  repeat match goal with |- (if ?b then _ else _) = _ -> _ => destruct b eqn:? end; try done;
    try (intros [= <-]; unfold options_typed in *; cbn; 
         pose proof (u16_range (atoi a)); pose proof (i32_range (strtol a));
         pose proof (snprintf_length 512 a); unfold atoi in *; intuition lia).
  - destruct (to_int _) as [g|] eqn:E; [|done]. apply to_int_range in E. intros [= <-].
    unfold options_typed in *. cbn. intuition lia.
  - intros [= <-]. match goal with E : _ || _ = false |- _ => apply orb_false_iff in E as [E1 E2] end.
    unfold options_typed in *. cbn. intuition lia.
Qed.

Lemma option_loop_typed (l : list ret_code) (o o' : options) :
  options_typed o -> option_loop l o = Go o' -> options_typed o'.
Proof.
  revert o. induction l as [|[c a] l IH]; intros o H; cbn [option_loop]; [by intros [= <-]|].
  destruct (apply_opt c a o) as [o1| |] eqn:E; [|done|done]. apply IH. by eapply apply_opt_typed.
Qed.

(** Texts without blanks or NUL. *)
Definition name_char (c : Z) : Prop := c <> 32 /\ c <> 9.

Lemma hX_char (b : Z) : is_byte b -> Forall name_char (fmt_02X b).
Proof.
  intros Hb. pose proof (byte_forall (fun b => (33 <=? hX (b / 16)) && (33 <=? hX (b mod 16)))
    ltac:(vm_compute; reflexivity) b Hb) as H. cbn beta in H. zbool. unfold fmt_02X.
  repeat (apply Forall_cons_2; [unfold name_char; lia|]). apply Forall_nil_2.
Qed.

Lemma slc_name (a b c : Z) :
  is_byte a -> is_byte b -> is_byte c ->
  let s := snprintf 64 (txt "SLC-" ++ fmt_02X a ++ fmt_02X b ++ fmt_02X c) in
  length s = 10%nat /\ Forall name_char s.
Proof.
  intros Ha Hb Hc. split; [reflexivity|]. unfold snprintf. apply Forall_take.
  change (txt "SLC-") with [83; 76; 67; 45].
  repeat apply Forall_app_2; try (by apply hX_char).
  repeat (apply Forall_cons_2; [cbn; unfold name_char; lia|]). apply Forall_nil_2.
Qed.

Lemma nth_byte (n : nat) (l : list Z) : bytes_ok l -> is_byte (nth n l 0).
Proof.
  intros H. destruct (nth_in_or_default n l 0) as [Hi|E].
  - apply list_elem_of_In in Hi. unfold bytes_ok in H. rewrite Forall_forall in H. by apply H.
  - rewrite E. unfold is_byte. lia.
Qed.

Lemma read_mac_bytes (file : list Z -> option (list Z)) (i m : list Z) : read_mac file i = Some m -> bytes_ok m.
Proof.
  unfold read_mac. destruct (file _) as [f|]; [|done]. cbn [mbind option_bind].
  destruct (scan_mac 6 f) as [l|]; [|done]. cbn [mbind option_bind].
  destruct (_ =? 0); [done|]. intros [= <-]. apply Forall_fmap, Forall_true. intros x. apply u8_byte.
Qed.

Lemma first_mac_bytes (file : list Z -> option (list Z)) (l : list (list Z)) (m i : list Z) :
  first_mac file l = Some (m, i) -> bytes_ok m.
Proof.
  induction l as [|j l IH]; [done|]. cbn. destruct (read_mac file j) as [m'|] eqn:E; [|exact IH].
  intros [= <- _]. by eapply read_mac_bytes.
Qed.

Lemma pick_mac_bytes (file : list Z -> option (list Z)) (dir : option (list (list Z))) (iface : option (list Z))
    (m i : list Z) :
  pick_mac file dir iface = Some (m, i) -> bytes_ok m.
Proof.
  unfold pick_mac. cbn zeta. destruct (match iface with Some (_ :: _ as i) => Some i | _ => None end) as [n|].
  { destruct (read_mac file n) as [m'|] eqn:E; [|done]. cbn. intros [= <- _]. by eapply read_mac_bytes. }
  destruct (first_mac file _) as [[m' i']|] eqn:E; [intros [= <- _]; by eapply first_mac_bytes|].
  destruct dir as [d|]; [|done]. cbn [mbind option_bind].
  destruct (first_mac file (filter _ d)) as [[m' i']|] eqn:E2; [|done]. cbn. intros [= <- _].
  by eapply first_mac_bytes.
Qed.



(** ** What the command line lets through *)
Definition contains (p s : list Z) : bool := existsb (fun i => is_prefix p (drop i s)) (seq 0 (length s)).

Definition hello_replies (name : list Z) : list (list Z) :=
  let v := srv_initial (mkConf false (mkRing [] [] false) name 4621 RTL_U8_ZERO_POINT_DEFAULT) Sample.rtl true
             Sample.buf Sample.toks in
  t_bytes <$> w_out (sv_world (Sample.after (Sample.connect 7 ++ Sample.hello 0) v)).

(** A zero point that is not a number passes the range test and is published as
    nan, which is not JSON; a port is taken modulo 65536; a quote in the name goes
    into the reply to hello as it is. *)
Lemma command_line_quirks :
  (exists o, parse_options [txt "--u8-zero-point"; txt "nan"] = Go o /\ o_zero_point o = S754_nan /\
     fmt_f 2 (o_zero_point o) = txt "nan") /\
  (exists o, parse_options [txt "--port"; txt "70000"] = Go o /\ o_port o = 4464) /\
  (contains (jq "'device_name':'a" ++ [34] ++ jq "b','manufacturer'") <$> hello_replies (txt "a" ++ [34] ++ txt "b"))
  = [true].
Proof.
  split; [eexists; split; [vm_compute; reflexivity|by vm_compute]|].
  split; [eexists; split; [vm_compute; reflexivity|reflexivity]|]. vm_compute. reflexivity.
Qed.
